(* ===== verification/_CoqProject ===== *)
-Q . S2P
Prelude.v
Ordered.v
RustStr.v
Floats.v
Externals.v
Samples.v
Sha256.v
HttpError.v
SourceScope.v
Alerts.v
Indexing.v
Auth.v
AuthSpec.v
WorkerAuth.v
QueryAnalysis.v
QueryEmbedding.v
Probe.v
Database.v
AlertStore.v
AlertStoreSpec.v
ReverseMatch.v
ReverseMatchSpec.v
ReverseIngestSpec.v
Concurrency.v
Store.v
StoreSpec.v
StoreHelpers.v
Catalog.v
Migrations.v
ConcurrentMigrations.v
Server.v
Connection.v
Routes.v
Router.v
Changes.v
Isolation.v
ServerSpec.v
Integrity.v
Racing.v
EvaluateRacing.v
OwnView.v
OwnStore.v
Reachability.v
PageRoute.v
EvaluateRoute.v
EmbeddingRoute.v
Noninterference.v
RecordRoute.v
Conformance.v
