(* ===== verification/Prelude.v ===== *)
(** * Embedded Alerts API: a verified model

    The program is an HTTP service (Axum over SeaORM and PostgreSQL) in which
    users register alert rules, administrators register the sources a crawler
    may index, the crawler sends pages with their embedding vectors, and pages
    are matched against rules in both directions: a historical search over
    stored vectors, and a reverse match of each new page against the rules.
    Every row belongs to a tenant.  This development translates the service
    into executable definitions and proves what makes it correct.

    ** How the parts interact

    A request reaches a handler of [src/server_routes.rs].  The handler
    identifies the caller ([src/auth_runtime.rs] for users,
    [src/worker_auth.rs] for the crawler), validates the body
    ([src/alerts.rs], [src/reverse_match.rs], the contract crate), restricts
    it to the sources of a rule or a policy ([src/source_scope.rs],
    [src/indexing.rs]), calls a store ([src/alert_store.rs], [src/store.rs],
    [src/reverse_match.rs]) and broadcasts an event, which the WebSocket of
    [src/server_websocket.rs] forwards to the subscribers that may see it.
    [src/server_runtime.rs] decides at startup whether the configuration is
    safe, with the schema of [src/migrations.rs] in place.  Two libraries
    stand beside the service, query analysis ([crates/query]) and query
    embedding ([src/query_embedding.rs]), which the command-line probe
    [src/bin/semantic_query_probe.rs] puts together.

    ** Files

    Foundations.
    - [Prelude]: results and their monad, early returns ([reject]), the
      tactic [inv_ok], lemmas on lists and options.
    - [Ordered]: [Ord], [Vec::sort], [dedup], [BTreeSet].
    - [RustStr]: Unicode strings; [Floats]: [f32] and [f64] as IEEE 754.
    - [Externals]: the crates the program calls, each a class of operations
      and a class of laws: [UuidLib], [DigestLib] (SHA-256), [UrlLib],
      [HeaderLib], [JsonLib], [Base64Lib], [HmacLib], [InterfacesLib],
      [SemanticContracts], [UnicodeTables].  [Samples] has instances on which
      theorems are applied, [Sha256] SHA-256 itself.

    Components without a database.
    - [HttpError]: [src/error.rs].
    - [SourceScope]: [src/source_scope.rs] and its own finite model,
      [formal/source-scope/model.py].
    - [Alerts]: [src/alerts.rs].  [Indexing]: [src/indexing.rs].
    - [Auth], [AuthSpec]: [src/auth_runtime.rs] and [src/tenant.rs];
      [WorkerAuth]: [src/worker_auth.rs].
    - [QueryAnalysis]: [crates/query/src/lib.rs].  [QueryEmbedding]:
      [src/query_embedding.rs] and [crates/interfaces-compat/src/lib.rs];
      its HTTP client is the class [HttpClient].  [Probe]: the command
      [src/bin/semantic_query_probe.rs].

    The database and the stores.
    - [Database]: the tables, keys, CHECKs, foreign keys, the active-limit
      trigger and the row-level policies of migrations 002 and 004 to 007.
    - [AlertStore], [AlertStoreSpec]: [src/alert_store.rs].  [Concurrency]:
      its creations interleaved statement by statement, with the locks of
      migration 007.
    - [ReverseMatch], [ReverseMatchSpec], [ReverseIngestSpec]:
      [src/reverse_match.rs].
    - [Racing]: page ingestion beside transactions that commit between its
      statements and within them.  [EvaluateRacing]: historical evaluation.
    - [Store], [StoreSpec]: [src/store.rs].  It repeats the identity, vector
      and text helpers of [src/reverse_match.rs]; [Store] uses those of
      [ReverseMatch], and [StoreHelpers] has the copies, which agree.
    - [Changes]: what a statement may write, as sequences of elementary
      changes that keep the declared constraints.
    - [Catalog]: the catalogue, relations with typed columns, keys,
      constraints, triggers and policies, and what each kind of statement of
      the migrations needs of it and does to it.  [Migrations]:
      [src/migrations.rs], the statements of its six files, the transaction
      that runs them and the check of the schema.  [ConcurrentMigrations]:
      servers that migrate at once, under the advisory lock.

    The server.
    - [Server]: [src/server_runtime.rs], [src/server_websocket.rs].
      [Connection]: an open WebSocket, as schedules of its two tasks and the
      [select!] that ends them.
    - [Routes]: [src/server_routes.rs], a handler per route, and [handle],
      which calls the one a request is for.  [Router]: the route table, the
      body limit and the cross-origin policy.
    - [Isolation], [Integrity]: what every store operation leaves alone, and
      what every one preserves.  [OwnView], [OwnStore]: that it sees its
      tenant's rows only.
    - [ServerSpec], [Reachability], [Noninterference]: theorems on whole
      requests, on sequences of requests, and on what a tenant can tell.
      [RecordRoute], [PageRoute], [EvaluateRoute], [EmbeddingRoute]: the
      routes that store rules, pages, matches and rule embeddings, end to end.
    - [Conformance]: the repository's unit tests of pure functions, computed
      on the model.

    A component and the theorems that need no other component share a file;
    a [Spec] file holds theorems that do.

    ** State and effects

    A pure Rust function that may fail returns [result E A].  A store
    operation is [M A], from a [World] (the database, the connection's
    settings, and streams of clock readings and drawn identifiers) to a
    result and a world.  A SQL statement is a [Stmt A]: it yields rows and
    new tables or a database error, atomically.  [autocommit] runs one
    statement alone; [with_transaction] restores the tables when its body
    fails, and confines the row-level security variables to its body.  A
    handler is [Handler A], over a [ServerWorld]: the world and the events
    broadcast so far.  Requests run one after another, in any order
    ([Reachability.server_step]).  Four operations are also modelled beside
    others.  The creation of an alert rule and the migrations take an advisory
    lock: [Concurrency] and [ConcurrentMigrations] prove their interleavings
    serial.  The ingestion of a page and the evaluation of a rule take none:
    [Racing] and [EvaluateRacing] let any transactions that keep the tables in
    order commit between their statements, and between what a statement reads
    and what it writes, and say what is lost and what is not.

    A data-modifying common table expression sees the tables as they were when
    its statement began, as PostgreSQL's do; [Store.ingest_page] depends on it.
    The tables that force row-level security are filtered by their
    policies unless the role is exempt ([bypass_rls] of [Deployment]).
    Migration 002 enables row-level security on its tables without forcing it,
    so it does not bind the role that owns them; the service migrates and
    serves over one connection string.

    Numbers keep their width where it matters: the [as i32] and [as i16] casts
    of a source policy wrap, vectors are [f32] and scores [f64].  There is no
    fuel: every loop of the program runs over a list that exists when it
    starts, so the definitions are structural and total, and each theorem
    about a result is about the result the code returns.

    Interfaces.  Code outside the repository is a class: URLs, digests,
    tokens, the contract crate's validators, decoding of rows
    ([RowDecoders]), the distance and number functions of PostgreSQL
    ([PgLib]).  A theorem lists in its [Context] the laws it relies on, and
    [Samples] and the example modules give instances on which it applies.
    Nothing is assumed of SHA-256: identities bind up to an explicit collision.

    ** Theorems

    - Isolation: a request acts for one tenant and leaves the rows of others
      as they are ([handle_confined]); a search returns the caller's vectors
      only ([search_confined]); what other tenants have stored makes no
      difference to a tenant ([tenant_noninterference]); events reach whom
      they are for, however a connection's tasks are scheduled
      ([websocket_spec]).
    - Invariants of every reachable state: keys, references, the evidence of
      matches and the limit of ten enabled rules per owner
      ([reachable_integrity]); the CHECK and UNIQUE constraints
      ([reachable_constraints]).
    - Reverse matching: what is answered may match
      ([reverse_match_sound]), what may match is answered
      ([reverse_match_complete]), atomicity and the rows written
      ([reverse_match_writes]), repetition ([reverse_match_repeat]),
      immutable embeddings ([upsert_immutable]), and the need of an exempt
      role ([reverse_match_needs_exempt_role]).
    - Stores: creating, reading and listing rules and sources, pages of search
      results, historical evidence ([create_alert_rule_spec],
      [get_alert_rule_iff], [list_alert_rules_spec], [create_source_spec],
      [search_pagination], [evaluate_repeat], [ingest_page_outcome]); the
      copies of the helpers agree ([helpers_agree]).
    - Routes: a rule from the credentials to its rows
      ([create_record_outcome]), its embedding
      ([upsert_alert_embedding_outcome]), a page from the crawler to its
      matches ([reverse_match_page_outcome]), a rule evaluated against the
      stored pages ([evaluate_matches_outcome]); a method and a path reach exactly the
      endpoint the table has for them ([dispatch_iff], [request_routed]).
    - Concurrency: creations of rules that run at once are serial in the order
      of their commits ([creations_serialize]), and always end
      ([creations_terminate]); a page ingested beside other transactions keeps
      the tables in order and answers with rows that are there
      ([ingestion_race_safe]), but loses one race to a 500
      ([ingestion_race_lost]); so does an evaluation ([evaluation_race]);
      servers that migrate at once never clash, and nobody sees a catalogue in
      between ([migrations_serialize]).
    - Authentication: accepted tokens ([verify_iff], [verify_interval]),
      credentials of a request ([extract_token_iff],
      [authenticate_context_ok], [authenticate_error_401]), the crawler
      ([authorize_iff]), configurations that fail closed
      ([from_env_fails_closed], [start_safe]).
    - Scope: the refinement of the finite policy
      ([constrain_search_sources_refines]), canonical filters and URLs
      ([normalize_source_filters_canonical], [canonicalize_iff],
      [canonicalize_idempotent]).
    - Queries: [extraction_spec], [analyze_query_iff],
      [weighted_centroid_iff], [embed_inputs_iff],
      [from_env_endpoint_policy], and the probe that composes them
      ([probe_report]).
    - Identities: [match_key_binds], [embedding_sha256_binds].
    - Schema: migrating is atomic and repeatable, completes what is begun, and
      is refused by tables of another shape ([migrate_all_ready]).

    Where numbers pass through JSON ([json_f64] of [PgLib]) nothing is assumed
    of the parser: [search_pagination] and [reverse_match_complete] are about
    the numbers that were read back.

    ** Not modelled

    - Transport and framework: TCP, enforcement of the CORS policy and of the
      body limit, JSON decoding of bodies (handlers start from decoded
      bodies), tracing, shutdown; the broadcast channel itself, whose
      receptions are the input of a connection.
    - Failures of the connection to PostgreSQL; a statement fails only as
      its input and its tables make it fail.  Of the catalogue: privileges and
      ownership, other schemas than [public], column types that no migration
      uses, and functions that do not return [trigger].
    - Interleavings of operations other than rule creation, page ingestion,
      evaluation and migration (each of the others is one statement, or reads
      only), and of the operations of one request.  Row locks only make a transaction wait, which the points
      where others may commit include.
    - Triggers that forbid updating or deleting evidence and revisions: the
      program never issues such statements.  Rows of the crawl queue and of
      the semantic-input tables of migration 003: no operation reads or
      writes them.
    - The tests that need a router, a token library, a JSON parser or a
      database, and the scripts.

    ** What is left to do

    The outcome of the routes that create sources and search, end to end, as
    for the other four; that rounding a threshold to [f32] is monotone. *)

From Stdlib Require Import ZArith NArith.
From stdpp Require Export base tactics option list list_monad numbers sets sorting.

(** ** Results

    [result E A] is Rust's [Result<A, E>].  Its monad is the [?] operator and
    its [mapM] (from stdpp) is [collect::<Result<Vec<_>, _>>()]: both stop at
    the first error. *)
Inductive result (E A : Type) : Type :=
| Ok (a : A)
| Err (e : E).
Arguments Ok {E A} a.
Arguments Err {E A} e.

#[global] Instance result_eq_dec {E A} `{EqDecision E, EqDecision A} :
  EqDecision (result E A).
Proof. solve_decision. Defined.

#[global] Instance result_ret {E} : MRet (result E) := fun A a => Ok a.
#[global] Instance result_bind {E} : MBind (result E) :=
  fun A B f r => match r with Ok a => f a | Err e => Err e end.
#[global] Instance result_fmap {E} : FMap (result E) :=
  fun A B f r => match r with Ok a => Ok (f a) | Err e => Err e end.

Definition map_err {E F A} (f : E -> F) (r : result E A) : result F A :=
  match r with Ok a => Ok a | Err e => Err (f e) end.

Definition ok_or {E A} (o : option A) (e : E) : result E A :=
  match o with Some a => Ok a | None => Err e end.

Definition is_ok {E A} (r : result E A) : bool :=
  match r with Ok _ => true | Err _ => false end.

Declare Scope eal_scope.
Delimit Scope eal_scope with eal.
Open Scope eal_scope.

(** [reject e when b ;; k] is the early return [if b { return Err(e) } k]. *)
Notation "'reject' e 'when' b ;; k" := (if (b : bool) then Err e else k)
  (at level 10, b at level 99, k at level 200,
   format "'[v' 'reject'  e  'when'  b ;; '/' k ']'") : eal_scope.

(** ** Automation

    [inv_ok] takes a hypothesis that a chain of guards, binds and matches
    returned [Ok] apart into the facts each step contributed.  [case_ok] does
    the same forwards on a goal. *)
Lemma bind_ok {E A B} (f : A -> result E B) (r : result E A) b :
  mbind f r = Ok b -> exists a, r = Ok a /\ f a = Ok b.
Proof. destruct r; [eauto | discriminate]. Qed.

Lemma bind_err {E A B} (f : A -> result E B) (r : result E A) e :
  mbind f r = Err e -> r = Err e \/ exists a, r = Ok a /\ f a = Err e.
Proof. destruct r; [eauto | intros [= ->]; eauto]. Qed.

Lemma fmap_ok {E A B} (f : A -> B) (r : result E A) b :
  fmap f r = Ok b -> exists a, r = Ok a /\ f a = b.
Proof. destruct r; [intros [= <-]; eauto | discriminate]. Qed.

Lemma map_err_ok {E F A} (f : E -> F) (r : result E A) a :
  map_err f r = Ok a <-> r = Ok a.
Proof. destruct r; simpl; split; congruence. Qed.

Lemma ok_or_ok {E A} (o : option A) (e : E) a :
  ok_or o e = Ok a <-> o = Some a.
Proof. destruct o; simpl; split; congruence. Qed.

Lemma reject_ok {E A} (b : bool) (e : E) (k : result E A) a :
  (if b then Err e else k) = Ok a <-> b = false /\ k = Ok a.
Proof. destruct b; split; intros; destruct_and?; naive_solver. Qed.

Ltac inv_ok :=
  repeat match goal with
  | H : Ok _ = Ok _ |- _ => injection H as H; try subst
  | H : Err _ = Err _ |- _ => injection H as H; try subst
  | H : Ok _ = Err _ |- _ => discriminate H
  | H : Err _ = Ok _ |- _ => discriminate H
  | H : mbind _ _ = Ok _ |- _ =>
      let a := fresh "a" in let Ha := fresh "Ha" in
      apply bind_ok in H as (a & Ha & H)
  | H : fmap _ _ = Ok _ |- _ =>
      let a := fresh "a" in let Ha := fresh "Ha" in
      apply fmap_ok in H as (a & Ha & H)
  | H : map_err _ _ = Ok _ |- _ => apply map_err_ok in H
  | H : ok_or _ _ = Ok _ |- _ => apply ok_or_ok in H
  | H : (if _ then Err _ else _) = Ok _ |- _ =>
      let Hb := fresh "Hb" in apply reject_ok in H as [Hb H]
  end.

Create HintDb eal.
Create Rewrite HintDb eal.
#[export] Hint Rewrite @map_err_ok @ok_or_ok @reject_ok : eal.

(** Boolean tests to propositions. *)
Ltac bool_prop :=
  repeat match goal with
  | H : _ && _ = true |- _ => apply andb_prop in H as [? ?]
  | H : _ || _ = false |- _ => apply orb_false_elim in H as [? ?]
  | H : negb _ = true |- _ => apply negb_true_iff in H
  | H : negb _ = false |- _ => apply negb_false_iff in H
  | H : bool_decide _ = true |- _ => apply bool_decide_eq_true in H
  | H : bool_decide _ = false |- _ => apply bool_decide_eq_false in H
  | H : (_ <? _)%N = true |- _ => apply N.ltb_lt in H
  | H : (_ <? _)%N = false |- _ => apply N.ltb_ge in H
  | H : (_ <=? _)%N = true |- _ => apply N.leb_le in H
  | H : (_ <=? _)%N = false |- _ => apply N.leb_gt in H
  | H : (_ =? _)%N = true |- _ => apply N.eqb_eq in H
  | H : (_ =? _)%N = false |- _ => apply N.eqb_neq in H
  | H : (_ <? _)%Z = true |- _ => apply Z.ltb_lt in H
  | H : (_ <? _)%Z = false |- _ => apply Z.ltb_ge in H
  | H : (_ <=? _)%Z = true |- _ => apply Z.leb_le in H
  | H : (_ <=? _)%Z = false |- _ => apply Z.leb_gt in H
  | H : (_ <? _)%nat = true |- _ => apply Nat.ltb_lt in H
  | H : (_ <? _)%nat = false |- _ => apply Nat.ltb_ge in H
  end.

(** ** Fixed-width integers

    Values are [Z]; [wrap_signed w z] is Rust's [as iW] on an integer. *)
Definition wrap_signed (w : Z) (z : Z) : Z :=
  ((z + 2 ^ (w - 1)) mod 2 ^ w - 2 ^ (w - 1))%Z.
Definition as_i16 : Z -> Z := wrap_signed 16.
Definition as_i32 : Z -> Z := wrap_signed 32.

Definition i64_min : Z := (- 2 ^ 63)%Z.
Definition i64_max : Z := (2 ^ 63 - 1)%Z.
Definition clamp_i64 (z : Z) : Z := Z.max i64_min (Z.min i64_max z).
Definition i64_saturating_add (a b : Z) : Z := clamp_i64 (a + b).
Definition i64_saturating_sub (a b : Z) : Z := clamp_i64 (a - b).

Lemma wrap_signed_small w z :
  (0 < w)%Z -> (- 2 ^ (w - 1) <= z < 2 ^ (w - 1))%Z -> wrap_signed w z = z.
Proof.
  intros Hw Hz. unfold wrap_signed.
  assert (2 ^ w = 2 * 2 ^ (w - 1))%Z as E.
  { rewrite <-Z.pow_succ_r by lia. f_equal. lia. }
  rewrite Z.mod_small by lia. lia.
Qed.

Lemma clamp_i64_range z : (i64_min <= clamp_i64 z <= i64_max)%Z.
Proof. unfold clamp_i64, i64_min, i64_max. lia. Qed.

Lemma clamp_i64_mono a b : (a <= b)%Z -> (clamp_i64 a <= clamp_i64 b)%Z.
Proof. unfold clamp_i64. lia. Qed.

(** ** Lists *)
Lemma mapM_ok_Forall2 {E A B} (f : A -> result E B) l k :
  mapM f l = Ok k <-> Forall2 (fun x y => f x = Ok y) l k.
Proof.
  split.
  - revert k. induction l as [|x l IH]; intros k H; simpl in H.
    + injection H as <-. constructor.
    + apply bind_ok in H as (y & Hy & H). apply bind_ok in H as (ys & Hys & H).
      injection H as <-. constructor; auto.
  - induction 1 as [|x y l k Hx _ IH]; simpl; [done|].
    rewrite Hx. simpl. by rewrite IH.
Qed.

Lemma mapM_err {E A B} (f : A -> result E B) l e :
  mapM f l = Err e -> exists x, x ∈ l /\ f x = Err e.
Proof.
  induction l as [|x l IH]; simpl; [discriminate|].
  intros [H | (y & Hy & H)]%bind_err; [set_solver|].
  apply bind_err in H as [H | (ys & _ & H)]; [|discriminate].
  destruct (IH H) as (z & Hz & Ez). exists z. split; [by right | done].
Qed.

Lemma existsb_false_Forall {A} (p : A -> bool) l :
  existsb p l = false <-> Forall (fun x => p x = false) l.
Proof.
  induction l as [|x l IH]; simpl; [split; auto|].
  rewrite orb_false_iff, Forall_cons, IH. done.
Qed.

Lemma existsb_true_Exists {A} (p : A -> bool) l :
  existsb p l = true <-> Exists (fun x => p x = true) l.
Proof.
  induction l as [|x l IH]; simpl.
  - rewrite Exists_nil. split; [discriminate | done].
  - rewrite orb_true_iff, Exists_cons, IH. done.
Qed.

Lemma forallb_true_Forall {A} (p : A -> bool) l :
  forallb p l = true <-> Forall (fun x => p x = true) l.
Proof.
  induction l as [|x l IH]; simpl; [split; auto|].
  rewrite andb_true_iff, Forall_cons, IH. done.
Qed.
#[export] Hint Rewrite @existsb_false_Forall @existsb_true_Exists @forallb_true_Forall : eal.

Lemma Forall2_elem_l {A B} (P : A -> B -> Prop) l k x :
  Forall2 P l k -> x ∈ l -> exists y, y ∈ k /\ P x y.
Proof.
  induction 1 as [|a b l k Hab _ IH]; intros Hx; [by apply elem_of_nil in Hx|].
  apply elem_of_cons in Hx as [-> | Hx]; [exists b; set_solver|].
  destruct (IH Hx) as (y & Hy & Py). exists y. set_solver.
Qed.

Lemma Forall2_elem_r {A B} (P : A -> B -> Prop) l k y :
  Forall2 P l k -> y ∈ k -> exists x, x ∈ l /\ P x y.
Proof. intros HP%Forall2_flip Hy. by apply (Forall2_elem_l _ _ _ _ HP). Qed.

(** A [for] loop over [l] that updates [acc] and may return an error. *)
Fixpoint for_each {E S A} (f : S -> A -> result E S) (l : list A) (acc : S) : result E S :=
  match l with
  | [] => Ok acc
  | x :: l' => acc' ← f acc x; for_each f l' acc'
  end.

Lemma for_each_app {E S A} (f : S -> A -> result E S) l k acc :
  for_each f (l ++ k) acc = (acc' ← for_each f l acc; for_each f k acc').
Proof. revert acc. induction l as [|x l IH]; intros acc; simpl; [done|]. destruct (f acc x); simpl; auto. Qed.

(** Loop invariants. *)
Lemma for_each_inv {E S A} (P : S -> Prop) (f : S -> A -> result E S) l acc acc' :
  (forall s x s', x ∈ l -> P s -> f s x = Ok s' -> P s') ->
  P acc -> for_each f l acc = Ok acc' -> P acc'.
Proof.
  revert acc. induction l as [|x l IH]; intros acc Hf HP H; simpl in H.
  - by injection H as <-.
  - apply bind_ok in H as (s & Hs & H). apply (IH s); [|by eapply Hf; [left| |]|done].
    intros s0 y s' Hy. apply Hf. by right.
Qed.

Lemma for_each_err {E S A} (f : S -> A -> result E S) l acc e :
  for_each f l acc = Err e -> exists s x, x ∈ l /\ f s x = Err e.
Proof.
  revert acc. induction l as [|x l IH]; intros acc H; simpl in H; [discriminate|].
  apply bind_err in H as [H | (s & _ & H)]; [exists acc, x; split; [left | done]|].
  destruct (IH s H) as (s' & y & Hy & Hf). exists s', y. split; [by right | done].
Qed.

(** Membership, filters and joins. *)
Lemma NoDup_map_inj {A B} (f : A -> B) l x y :
  NoDup (map f l) -> x ∈ l -> y ∈ l -> f x = f y -> x = y.
Proof.
  induction l as [|z l IH]; simpl; intros Hn Hx Hy E; [by apply elem_of_nil in Hx|].
  apply NoDup_cons in Hn as [Hz Hn]. apply elem_of_cons in Hx as [-> | Hx], Hy as [Hy | Hy]; subst.
  - done.
  - destruct Hz. rewrite E. by apply list_elem_of_fmap_2.
  - destruct Hz. rewrite <-E. by apply list_elem_of_fmap_2.
  - auto.
Qed.

Lemma elem_of_filter_bool {A} (p : A -> bool) l x : x ∈ List.filter p l <-> x ∈ l /\ p x = true.
Proof. rewrite !list_elem_of_In. apply filter_In. Qed.

Lemma NoDup_map_filter {A B} (f : A -> B) (p : A -> bool) l :
  NoDup (map f l) -> NoDup (map f (List.filter p l)).
Proof.
  induction l as [|x l IH]; simpl; [done|]. intros [Hx Hl]%NoDup_cons.
  destruct (p x); [|auto]. simpl. apply NoDup_cons. split; [|auto].
  intros (y & E & [Hy _]%elem_of_filter_bool)%list_elem_of_fmap. destruct Hx.
  rewrite E. by apply list_elem_of_fmap_2.
Qed.

Lemma NoDup_map_snoc {A B} (f : A -> B) l x :
  NoDup (map f (l ++ [x])) <-> NoDup (map f l) /\ f x ∉ map f l.
Proof.
  rewrite map_app, NoDup_app. simpl. split.
  - intros (Hl & Hd & _). split; [done|]. intros Hx. apply (Hd _ Hx). left.
  - intros [Hl Hx]. split; [done|]. split; [|apply NoDup_singleton].
    intros y Hy ->%list_elem_of_singleton. done.
Qed.

Lemma filter_none {A} (p : A -> bool) l : (forall x, x ∈ l -> p x = false) -> List.filter p l = [].
Proof.
  induction l as [|x l IH]; simpl; intros Hp; [done|].
  rewrite (Hp x) by left. apply IH. intros. apply Hp. by right.
Qed.

Lemma filter_all {A} (p : A -> bool) l : (forall x, x ∈ l -> p x = true) -> List.filter p l = l.
Proof.
  induction l as [|x l IH]; simpl; intros Hp; [done|].
  rewrite (Hp x) by left. f_equal. apply IH. intros. apply Hp. by right.
Qed.

Lemma filter_ext_elem {A} (p q : A -> bool) l :
  (forall x, x ∈ l -> p x = q x) -> List.filter p l = List.filter q l.
Proof. intros Hp. apply filter_ext_in. intros x Hx. apply Hp. by apply list_elem_of_In. Qed.

Lemma filter_filter_bool {A} (p q : A -> bool) l :
  List.filter p (List.filter q l) = List.filter (fun x => q x && p x) l.
Proof.
  induction l as [|x l IH]; simpl; [done|].
  destruct (q x); simpl; [destruct (p x)|]; simpl; congruence.
Qed.

Lemma filter_unique {A B} (f : A -> B) (p : A -> bool) l x :
  NoDup (map f l) -> x ∈ l -> p x = true -> (forall y, y ∈ l -> p y = true -> f y = f x) ->
  List.filter p l = [x].
Proof.
  induction l as [|z l IH]; simpl; intros Hn Hx Hp Hu; [by apply elem_of_nil in Hx|].
  pose proof Hn as Hn'. apply NoDup_cons in Hn' as [Hz Hn']. apply elem_of_cons in Hx as [-> | Hx].
  - rewrite Hp. f_equal. apply filter_none. intros y Hy. destruct (p y) eqn:E; [|done].
    destruct Hz. rewrite <-(Hu y) by (by right || done). by apply list_elem_of_fmap_2.
  - destruct (p z) eqn:E.
    + destruct Hz. rewrite (Hu z) by (by left || done). by apply list_elem_of_fmap_2.
    + apply IH; auto. intros. apply Hu; [by right | done].
Qed.

Lemma elem_of_flat_map {A B} (f : A -> list B) l y :
  y ∈ flat_map f l <-> exists x, x ∈ l /\ y ∈ f x.
Proof. rewrite list_elem_of_In, in_flat_map. by setoid_rewrite list_elem_of_In. Qed.

(** Filtering the rows of a join by a condition that implies the filters of
    its sides is filtering the join of the whole tables. *)
Lemma filter_flat_map_filter {A B} (P : B -> bool) (Q : A -> bool) (f g : A -> list B) l :
  (forall x, x ∈ l -> Q x = true -> List.filter P (f x) = List.filter P (g x)) ->
  (forall x, x ∈ l -> Q x = false -> List.filter P (g x) = []) ->
  List.filter P (flat_map f (List.filter Q l)) = List.filter P (flat_map g l).
Proof.
  induction l as [|x l IH]; intros Ht Hf; simpl; [done|].
  rewrite (List.filter_app P (g x)), <-IH by (intros; (apply Ht || apply Hf); [by right | done]).
  destruct (Q x) eqn:E; simpl.
  - rewrite List.filter_app, Ht; [done | left | done].
  - by rewrite (Hf x) by (left || done).
Qed.

Lemma NoDup_filter_bool {A} (p : A -> bool) l : NoDup l -> NoDup (List.filter p l).
Proof. intros Hl. rewrite <-(map_id (List.filter p l)). apply NoDup_map_filter. by rewrite map_id. Qed.

Lemma NoDup_flat_map {A B} (f : A -> list B) l :
  NoDup l -> (forall x, x ∈ l -> NoDup (f x)) -> (forall x y z, z ∈ f x -> z ∈ f y -> x = y) ->
  NoDup (flat_map f l).
Proof.
  intros Hl Hf Hd. induction Hl as [|x l Hx _ IH]; simpl; [constructor|].
  apply NoDup_app. split; [apply Hf; left|]. split.
  - intros z Hz (y & Hy & Hzy)%elem_of_flat_map. destruct Hx. by rewrite (Hd x y z).
  - apply IH. intros y Hy. apply Hf. by right.
Qed.

(** Tables: keyed updates, appends and lookups. *)
Lemma filter_map_preserve {A} (p : A -> bool) (f : A -> A) l :
  (forall x, p (f x) = p x) -> List.filter p (map f l) = map f (List.filter p l).
Proof.
  intros Hp. induction l as [|x l IH]; simpl; [done|]. rewrite Hp.
  destruct (p x); simpl; congruence.
Qed.

Lemma map_id_elem {A} (f : A -> A) l : (forall x, x ∈ l -> f x = x) -> map f l = l.
Proof.
  induction l as [|x l IH]; simpl; intros Hf; [done|].
  rewrite Hf, IH; [done | intros; apply Hf; by right | by left].
Qed.

(** Rows a keyed update does not reach are kept. *)
Lemma filter_map_unreached {A} (p q : A -> bool) (f : A -> A) l :
  (forall x, q (f x) = q x) -> (forall x, q x = true -> p x = false) ->
  List.filter q (map (fun x => if p x then f x else x) l) = List.filter q l.
Proof.
  intros Hq Hp. rewrite filter_map_preserve by (intros x; by destruct (p x)).
  apply map_id_elem. intros x [_ Hx]%elem_of_filter_bool. by rewrite (Hp x Hx).
Qed.

Lemma head_filter_app {A} (p : A -> bool) l k x :
  head (List.filter p l) = Some x -> head (List.filter p (l ++ k)) = Some x.
Proof. rewrite List.filter_app. by destruct (List.filter p l). Qed.

Lemma existsb_member {A} (p : A -> bool) l x : x ∈ l -> p x = true -> existsb p l = true.
Proof. intros Hx Hp. apply existsb_true_Exists, Exists_exists. eauto. Qed.

Lemma existsb_head {A} (p : A -> bool) l x : head (List.filter p l) = Some x -> existsb p l = true.
Proof.
  intros [Hx Hp]%head_Some_elem_of%elem_of_filter_bool. by apply (existsb_member _ _ x).
Qed.

Lemma filter_existsb_false {A} (p : A -> bool) l : existsb p l = false -> List.filter p l = [].
Proof.
  rewrite existsb_false_Forall, Forall_forall. intros Hp. by apply filter_none.
Qed.

Definition appends {A} (l l' : list A) : Prop := exists k, l' = l ++ k.

Lemma appends_refl {A} (l : list A) : appends l l.
Proof. exists []. by rewrite app_nil_r. Qed.

Lemma appends_trans {A} (l k j : list A) : appends l k -> appends k j -> appends l j.
Proof. intros [x ->] [y ->]. exists (x ++ y). by rewrite app_assoc. Qed.
