(* ===== verification/Ordered.v ===== *)
(** * Total orders, sorted vectors and [BTreeSet]

    The standard-library containers the program sorts with.  [TotalOrd] is
    Rust's [Ord]; [vec_sort] and [vec_dedup] are [Vec::sort] and [Vec::dedup];
    a [BTreeSet<T>] is the strictly ascending list of its elements, which is
    the order its iterator yields.  Two such sets with the same members are
    equal ([btree_ext]), so a theorem about members is a theorem about the
    vectors the program returns. *)

From S2P Require Import Prelude.

Class TotalOrd (A : Type) := {
  ord_cmp : A -> A -> comparison;
  ord_cmp_eq : forall x y, ord_cmp x y = Eq <-> x = y;
  ord_cmp_opp : forall x y, ord_cmp y x = CompOpp (ord_cmp x y);
  ord_cmp_lt_trans : forall x y z,
    ord_cmp x y = Lt -> ord_cmp y z = Lt -> ord_cmp x z = Lt
}.

#[global] Program Instance N_total_ord : TotalOrd N := {| ord_cmp := N.compare |}.
Next Obligation. apply N.compare_eq_iff. Qed.
Next Obligation. intros. apply N.compare_antisym. Qed.
Next Obligation. intros x y z. rewrite !N.compare_lt_iff. lia. Qed.

Section LexicographicOrder.
Context {A : Type} `{TotalOrd A}.

(** Slices and strings compare lexicographically; a proper prefix is less. *)
Fixpoint lex_cmp (l k : list A) : comparison :=
  match l, k with
  | [], [] => Eq
  | [], _ :: _ => Lt
  | _ :: _, [] => Gt
  | x :: l', y :: k' =>
      match ord_cmp x y with Eq => lex_cmp l' k' | c => c end
  end.

Lemma lex_cmp_eq l k : lex_cmp l k = Eq <-> l = k.
Proof.
  revert k. induction l as [|x l IH]; intros [|y k]; simpl; try (split; congruence).
  destruct (ord_cmp x y) eqn:E.
  - apply ord_cmp_eq in E as ->. rewrite IH. split; [by intros -> | by intros [=]].
  - split; [discriminate|]. intros [= -> ->].
    by rewrite (proj2 (ord_cmp_eq y y) eq_refl) in E.
  - split; [discriminate|]. intros [= -> ->].
    by rewrite (proj2 (ord_cmp_eq y y) eq_refl) in E.
Qed.

Lemma lex_cmp_opp l k : lex_cmp k l = CompOpp (lex_cmp l k).
Proof.
  revert k. induction l as [|x l IH]; intros [|y k]; simpl; try done.
  rewrite (ord_cmp_opp x y). destruct (ord_cmp x y); simpl; auto.
Qed.

Lemma lex_cmp_lt_trans l k m :
  lex_cmp l k = Lt -> lex_cmp k m = Lt -> lex_cmp l m = Lt.
Proof.
  revert k m. induction l as [|x l IH]; intros [|y k] [|z m]; simpl; try done.
  destruct (ord_cmp x y) eqn:E1; [|destruct (ord_cmp y z) eqn:E2|]; try done.
  - apply ord_cmp_eq in E1 as ->. destruct (ord_cmp y z); eauto.
  - apply ord_cmp_eq in E2 as <-. by rewrite E1.
  - by rewrite (ord_cmp_lt_trans _ _ _ E1 E2).
Qed.

#[global] Instance list_total_ord : TotalOrd (list A) := {|
  ord_cmp := lex_cmp;
  ord_cmp_eq := lex_cmp_eq;
  ord_cmp_opp := lex_cmp_opp;
  ord_cmp_lt_trans := lex_cmp_lt_trans
|}.
End LexicographicOrder.

Section Btree.
Context {A : Type} `{TotalOrd A}.
Implicit Types (x y : A) (l k : list A).

Definition ord_lt x y : Prop := ord_cmp x y = Lt.

#[global] Instance ord_lt_trans : Transitive ord_lt.
Proof. intros x y z. apply ord_cmp_lt_trans. Qed.

#[global] Instance ord_lt_irrefl : Irreflexive ord_lt.
Proof.
  intros x Hx. unfold ord_lt in Hx.
  by rewrite (proj2 (ord_cmp_eq x x) eq_refl) in Hx.
Qed.

Lemma ord_cmp_gt x y : ord_cmp x y = Gt -> ord_lt y x.
Proof. intros E. unfold ord_lt. by rewrite (ord_cmp_opp x y), E. Qed.

(** [BTreeSet::insert]: an equal element is left in place. *)
Fixpoint btree_insert x l : list A :=
  match l with
  | [] => [x]
  | y :: l' =>
      match ord_cmp x y with
      | Lt => x :: l
      | Eq => l
      | Gt => y :: btree_insert x l'
      end
  end.

(** [iter.collect::<BTreeSet<_>>()]. *)
Definition btree_of_list l : list A := fold_left (fun s x => btree_insert x s) l [].

Abbreviation btree_wf := (StronglySorted ord_lt).

Lemma elem_of_btree_insert x y l : y ∈ btree_insert x l <-> y = x \/ y ∈ l.
Proof.
  induction l as [|z l IH]; simpl; [set_solver|].
  destruct (ord_cmp x z) eqn:E; [|set_solver..].
  apply ord_cmp_eq in E. set_solver.
Qed.

Lemma btree_insert_wf x l : btree_wf l -> btree_wf (btree_insert x l).
Proof.
  induction 1 as [|y l Hl IH Hy]; simpl; [repeat constructor|].
  destruct (ord_cmp x y) eqn:E.
  - by constructor.
  - constructor; [by constructor|]. constructor; [done|].
    eapply Forall_impl; [exact Hy|]. intros z Hz. by transitivity y.
  - constructor; [done|]. apply Forall_forall. intros z Hz.
    apply elem_of_btree_insert in Hz as [-> | Hz]; [by apply ord_cmp_gt|].
    rewrite Forall_forall in Hy. auto.
Qed.

Lemma fold_btree_insert_elem l s y :
  y ∈ fold_left (fun s x => btree_insert x s) l s <-> y ∈ l \/ y ∈ s.
Proof.
  revert s. induction l as [|x l IH]; intros s; simpl; [set_solver|].
  rewrite IH, elem_of_btree_insert. set_solver.
Qed.

Lemma fold_btree_insert_wf l s :
  btree_wf s -> btree_wf (fold_left (fun s x => btree_insert x s) l s).
Proof. revert s. induction l; intros s Hs; simpl; auto using btree_insert_wf. Qed.

Lemma elem_of_btree_of_list y l : y ∈ btree_of_list l <-> y ∈ l.
Proof. unfold btree_of_list. rewrite fold_btree_insert_elem. set_solver. Qed.

Lemma btree_of_list_wf l : btree_wf (btree_of_list l).
Proof. apply fold_btree_insert_wf. constructor. Qed.

Lemma btree_wf_NoDup l : btree_wf l -> NoDup l.
Proof.
  induction 1 as [|x l _ IH Hx]; constructor; [|done].
  intros Hin. rewrite Forall_forall in Hx. by apply (ord_lt_irrefl x), Hx.
Qed.

Lemma btree_ext l k :
  btree_wf l -> btree_wf k -> (forall x, x ∈ l <-> x ∈ k) -> l = k.
Proof.
  intros Hl. revert k. induction Hl as [|x l Hl IH Hx]; intros k Hk Hlk.
  - destruct k as [|y k]; [done|].
    assert (y ∈ []) as Hy%elem_of_nil by (apply Hlk; left). done.
  - destruct Hk as [|y k Hk Hy].
    + assert (x ∈ []) as Hx'%elem_of_nil by (apply Hlk; left). done.
    + rewrite Forall_forall in Hx, Hy.
      assert (x = y) as ->.
      { assert (Hxk : x ∈ y :: k) by (apply Hlk; left).
        assert (Hyl : y ∈ x :: l) by (apply Hlk; left).
        apply elem_of_cons in Hxk as [-> | Hxk]; [done|].
        apply elem_of_cons in Hyl as [-> | Hyl]; [done|].
        exfalso. apply (ord_lt_irrefl x). transitivity y; auto. }
      f_equal. apply IH; [done|]. intros z. specialize (Hlk z).
      rewrite !elem_of_cons in Hlk. split; intros Hz.
      * destruct (proj1 Hlk (or_intror Hz)) as [-> | ?]; [|done].
        by exfalso; apply (ord_lt_irrefl y), Hx.
      * destruct (proj2 Hlk (or_intror Hz)) as [-> | ?]; [|done].
        by exfalso; apply (ord_lt_irrefl y), Hy.
Qed.

Lemma btree_of_list_id l : btree_wf l -> btree_of_list l = l.
Proof.
  intros Hl. apply btree_ext; [apply btree_of_list_wf | done |].
  intros x. apply elem_of_btree_of_list.
Qed.

Lemma btree_of_list_ext l k :
  (forall x, x ∈ l <-> x ∈ k) -> btree_of_list l = btree_of_list k.
Proof.
  intros Hlk. apply btree_ext; [apply btree_of_list_wf..|].
  intros x. by rewrite !elem_of_btree_of_list.
Qed.

Lemma fold_btree_insert_length l s :
  length (fold_left (fun s x => btree_insert x s) l s) <= length l + length s.
Proof.
  assert (forall x s, length (btree_insert x s) <= S (length s)) as Hins.
  { intros x s'. induction s' as [|y s' IH]; simpl; [lia|].
    destruct (ord_cmp x y); simpl; lia. }
  revert s. induction l as [|x l IH]; intros s; simpl; [lia|].
  specialize (IH (btree_insert x s)). specialize (Hins x s). lia.
Qed.

Lemma btree_of_list_length l : length (btree_of_list l) <= length l.
Proof. unfold btree_of_list. pose proof (fold_btree_insert_length l []). simpl in *. lia. Qed.

Lemma btree_of_list_nil_iff l : btree_of_list l = [] <-> l = [].
Proof.
  split; [|by intros ->]. destruct l as [|x l]; [done|]. intros E.
  assert (x ∈ btree_of_list (x :: l)) as Hx by (apply elem_of_btree_of_list; left).
  rewrite E in Hx. by apply elem_of_nil in Hx.
Qed.

(** ** [Vec::sort] (stable) and [Vec::dedup] *)
Fixpoint sort_insert x l : list A :=
  match l with
  | [] => [x]
  | y :: l' => match ord_cmp x y with Gt => y :: sort_insert x l' | _ => x :: l end
  end.
Definition vec_sort l : list A := foldr sort_insert [] l.

Fixpoint vec_dedup l : list A :=
  match l with
  | [] => []
  | x :: l' =>
      match l' with
      | [] => [x]
      | y :: _ => match ord_cmp x y with Eq => vec_dedup l' | _ => x :: vec_dedup l' end
      end
  end.

Definition ord_le x y : Prop := ord_cmp x y <> Gt.

Lemma ord_le_lt_or_eq x y : ord_le x y -> ord_lt x y \/ x = y.
Proof.
  unfold ord_le, ord_lt. destruct (ord_cmp x y) eqn:E; [|by left|done].
  intros _. right. by apply ord_cmp_eq.
Qed.

Lemma elem_of_sort_insert x y l : y ∈ sort_insert x l <-> y = x \/ y ∈ l.
Proof.
  induction l as [|z l IH]; simpl; [set_solver|]. destruct (ord_cmp x z); set_solver.
Qed.

Lemma elem_of_vec_sort y l : y ∈ vec_sort l <-> y ∈ l.
Proof. induction l; simpl; [done|]. rewrite elem_of_sort_insert. set_solver. Qed.

Lemma sort_insert_sorted x l :
  StronglySorted ord_le l -> StronglySorted ord_le (sort_insert x l).
Proof.
  induction 1 as [|y l Hl IH Hy]; simpl; [repeat constructor|].
  assert (ord_le x y -> StronglySorted ord_le (x :: y :: l)) as Hhd.
  { intros Hxy. constructor; [by constructor|]. constructor; [done|].
    eapply Forall_impl; [exact Hy|]. intros z Hz. simpl in Hz.
    apply ord_le_lt_or_eq in Hxy as [Hxy | ->]; [|done].
    apply ord_le_lt_or_eq in Hz as [Hz | ->]; unfold ord_le; [|by rewrite Hxy].
    by rewrite (ord_cmp_lt_trans _ _ _ Hxy Hz). }
  destruct (ord_cmp x y) eqn:E; [apply Hhd; unfold ord_le; by rewrite E..|].
  constructor; [done|]. apply Forall_forall. intros z Hz.
  apply elem_of_sort_insert in Hz as [-> | Hz].
  - apply ord_cmp_gt in E. unfold ord_le. by rewrite E.
  - rewrite Forall_forall in Hy. auto.
Qed.

Lemma vec_sort_sorted l : StronglySorted ord_le (vec_sort l).
Proof. induction l; simpl; [constructor | by apply sort_insert_sorted]. Qed.

Lemma elem_of_vec_dedup y l : y ∈ vec_dedup l <-> y ∈ l.
Proof.
  induction l as [|x [|z l] IH]; [done..|].
  change (vec_dedup (x :: z :: l)) with
    (match ord_cmp x z with Eq => vec_dedup (z :: l) | _ => x :: vec_dedup (z :: l) end).
  destruct (ord_cmp x z) eqn:E; [|rewrite !elem_of_cons, IH, elem_of_cons; tauto..].
  apply ord_cmp_eq in E as ->. rewrite IH. set_solver.
Qed.

Lemma vec_dedup_wf l : StronglySorted ord_le l -> btree_wf (vec_dedup l).
Proof.
  induction 1 as [|x l Hl IH Hx]; [constructor|].
  destruct l as [|z l]; [repeat constructor|].
  change (vec_dedup (x :: z :: l)) with
    (match ord_cmp x z with Eq => vec_dedup (z :: l) | _ => x :: vec_dedup (z :: l) end).
  apply StronglySorted_inv in Hl as [_ Hz].
  apply Forall_cons in Hx as [Hxz Hx].
  destruct (ord_cmp x z) eqn:E; [done| |done].
  constructor; [done|]. apply Forall_forall. intros y Hy.
  apply elem_of_vec_dedup, elem_of_cons in Hy as [-> | Hy]; [done|].
  rewrite Forall_forall in Hz.
  destruct (ord_le_lt_or_eq _ _ (Hz _ Hy)) as [Hzy | <-]; [|done].
  by apply (ord_cmp_lt_trans _ z).
Qed.

(** [v.sort(); v.dedup()] is collecting into a [BTreeSet]. *)
Lemma sort_dedup_btree l : vec_dedup (vec_sort l) = btree_of_list l.
Proof.
  apply btree_ext; [apply vec_dedup_wf, vec_sort_sorted | apply btree_of_list_wf|].
  intros x. by rewrite elem_of_vec_dedup, elem_of_vec_sort, elem_of_btree_of_list.
Qed.
End Btree.

Abbreviation btree_wf := (StronglySorted ord_lt).

#[export] Hint Resolve btree_of_list_wf btree_insert_wf : eal.
#[export] Hint Rewrite @elem_of_btree_of_list @elem_of_btree_insert : eal.

(** ** Sorting by a comparison

    [sort_by leb] is [sort_by_key] and [ORDER BY]: a stable sort by a boolean
    preorder on the elements. *)
Section SortBy.
Context {A : Type} (leb : A -> A -> bool).

Fixpoint sort_by_insert (x : A) (l : list A) : list A :=
  match l with
  | [] => [x]
  | y :: l' => if leb x y then x :: l else y :: sort_by_insert x l'
  end.
Definition sort_by (l : list A) : list A := foldr sort_by_insert [] l.

Lemma sort_by_insert_perm x l : sort_by_insert x l ≡ₚ x :: l.
Proof.
  induction l as [|y l IH]; simpl; [done|]. destruct (leb x y); [done|].
  rewrite IH. constructor.
Qed.

Lemma sort_by_perm l : sort_by l ≡ₚ l.
Proof. induction l as [|x l IH]; simpl; [done|]. by rewrite sort_by_insert_perm, IH. Qed.

Lemma elem_of_sort_by x l : x ∈ sort_by l <-> x ∈ l.
Proof. by rewrite sort_by_perm. Qed.

Definition leb_rel (x y : A) : Prop := leb x y = true.

Context (leb_total : forall x y, leb x y = true \/ leb y x = true)
        (leb_trans : forall x y z, leb x y = true -> leb y z = true -> leb x z = true).

Lemma sort_by_insert_sorted x l :
  StronglySorted leb_rel l -> StronglySorted leb_rel (sort_by_insert x l).
Proof.
  induction 1 as [|y l Hl IH Hy]; simpl; [repeat constructor|].
  destruct (leb x y) eqn:E.
  - constructor; [by constructor|]. constructor; [done|].
    eapply Forall_impl; [exact Hy|]. intros z Hz. by apply (leb_trans x y z).
  - constructor; [done|]. rewrite sort_by_insert_perm. constructor; [|done].
    destruct (leb_total x y); [congruence | done].
Qed.

Lemma sort_by_sorted l : StronglySorted leb_rel (sort_by l).
Proof. induction l; simpl; [constructor | by apply sort_by_insert_sorted]. Qed.

Lemma leb_refl x : leb x x = true.
Proof. by destruct (leb_total x x). Qed.

Lemma sorted_lookup (R : A -> A -> Prop) l i j x y :
  StronglySorted R l -> l !! i = Some x -> l !! j = Some y -> i < j -> R x y.
Proof.
  intros Hs. revert i j. induction Hs as [|z l _ IH Hz]; intros [|i] [|j] Hi Hj Hlt; simpl in *; try lia;
    try discriminate.
  - injection Hi as ->. rewrite Forall_forall in Hz. by apply Hz, (list_elem_of_lookup_2 _ j).
  - apply (IH i j); [done | done | lia].
Qed.

(** Ties broken: the comparison tells the elements of [l] apart. *)
Definition tie_free (l : list A) : Prop :=
  forall x y, x ∈ l -> y ∈ l -> leb x y = true -> leb y x = true -> x = y.

Lemma filter_perm (p : A -> bool) l k : l ≡ₚ k -> List.filter p l ≡ₚ List.filter p k.
Proof.
  induction 1 as [|x l k _ IH|x y l|l k j _ IH1 _ IH2]; simpl; [done|..].
  - destruct (p x); [by constructor | done].
  - destruct (p x), (p y); try done. constructor.
  - by transitivity (List.filter p k).
Qed.

Lemma filter_strongly_sorted (R : A -> A -> Prop) (p : A -> bool) l :
  StronglySorted R l -> StronglySorted R (List.filter p l).
Proof.
  induction 1 as [|x l _ IH Hx]; simpl; [constructor|]. destruct (p x); [|done].
  constructor; [done|]. rewrite Forall_forall in *. intros y [Hy _]%elem_of_filter_bool. auto.
Qed.

(** Sorting commutes with filtering. *)
Lemma sort_by_filter (p : A -> bool) l :
  tie_free l -> sort_by (List.filter p l) = List.filter p (sort_by l).
Proof.
  intros Ht. apply (StronglySorted_unique_strong leb_rel).
  - intros x y Hx Hy. apply elem_of_sort_by, elem_of_filter_bool in Hx as [Hx _].
    apply elem_of_filter_bool in Hy as [Hy _]. rewrite elem_of_sort_by in Hy. intros H1 H2. by apply Ht.
  - apply sort_by_sorted.
  - apply filter_strongly_sorted, sort_by_sorted.
  - rewrite sort_by_perm. apply filter_perm. by rewrite sort_by_perm.
Qed.

(** The elements strictly after the [j]th of a sorted list. *)
Lemma filter_after_sorted l j x :
  StronglySorted leb_rel l -> NoDup l -> tie_free l -> l !! j = Some x ->
  List.filter (fun y => negb (leb y x)) l = drop (S j) l.
Proof.
  intros Hs Hn Ht Hj. rewrite <-(take_drop (S j) l) at 1. rewrite List.filter_app.
  rewrite (filter_none _ (take (S j) l)), (filter_all _ (drop (S j) l)); [done|..].
  - intros y Hy. apply list_elem_of_lookup in Hy as [i Hi]. rewrite lookup_drop in Hi.
    pose proof (sorted_lookup _ _ _ _ _ _ Hs Hj Hi ltac:(lia)) as Hxy.
    destruct (leb y x) eqn:E; [|done].
    assert (x = y) as -> by (apply Ht; eauto using list_elem_of_lookup_2).
    pose proof (NoDup_lookup _ _ _ _ Hn Hj Hi). lia.
  - intros y (i & Hi & Hlt)%elem_of_take. destruct (decide (i = j)) as [-> | Hne].
    + replace y with x by congruence. by rewrite leb_refl.
    + by rewrite (sorted_lookup _ _ _ _ _ _ Hs Hi Hj ltac:(lia) : leb y x = true).
Qed.
End SortBy.

(** [v.sort_by_key(|x| key(x))] for a key of an unsigned integer type. *)
Definition sort_by_key {A} (key : A -> N) : list A -> list A :=
  sort_by (fun x y => key x <=? key y)%N.

Lemma sort_by_key_sorted {A} (key : A -> N) l :
  StronglySorted (fun x y => key x <= key y)%N (sort_by_key key l).
Proof.
  assert (StronglySorted (leb_rel (fun x y => key x <=? key y)%N) (sort_by_key key l)) as Hs.
  { apply sort_by_sorted.
    - intros x y. rewrite !N.leb_le. lia.
    - intros x y z. rewrite !N.leb_le. lia. }
  revert Hs. generalize (sort_by_key key l). induction 1 as [|x k _ IH Hx]; constructor; [done|].
  eapply Forall_impl; [exact Hx|]. intros y. apply N.leb_le.
Qed.

(** A vector whose keys are 0, 1, 2, ... in some order is sorted into them. *)
Lemma sort_by_key_indices {A} (key : A -> N) l n :
  map key l ≡ₚ map N.of_nat (seq 0 n) ->
  map key (sort_by_key key l) = map N.of_nat (seq 0 n).
Proof.
  intros Hp. assert (map key (sort_by_key key l) ≡ₚ map N.of_nat (seq 0 n)) as Hp'.
  { rewrite <-Hp. apply fmap_Permutation. apply sort_by_perm. }
  apply (StronglySorted_unique_strong N.le); [intros; lia| | |done].
  - generalize (sort_by_key_sorted key l). generalize (sort_by_key key l).
    induction 1 as [|x k _ IH Hx]; simpl; constructor; [done|].
    apply Forall_forall. intros y (z & -> & Hz)%list_elem_of_fmap.
    rewrite Forall_forall in Hx. auto.
  - assert (forall s, StronglySorted N.le (map N.of_nat (seq s n))) as Hs; [|apply Hs].
    clear. induction n as [|n IH]; intros s; simpl; constructor; [done|].
    apply Forall_forall. intros y (z & -> & Hz%elem_of_seq)%list_elem_of_fmap. lia.
Qed.
