(* ===== verification/RustStr.v ===== *)
(** * Rust strings

    A [&str] / [String] is the list of its Unicode scalar values ([N]).  Its
    [len()] is the number of UTF-8 bytes, its [chars().count()] the length of
    the list, and [as_bytes()] its UTF-8 encoding.  The operations below are
    those of [core::str] and [alloc::string] the program calls, over the
    Unicode [White_Space] property where the library uses it.  The lemmas are
    the ones the components share: trimming, splitting and joining are
    idempotent on what they produce. *)

From Stdlib Require Import String Ascii.
From stdpp Require Import strings pretty.
From S2P Require Import Prelude Ordered.

Abbreviation str := (list N).

(** String literals of the source. *)
Definition lit (s : string) : str := map N_of_ascii (list_ascii_of_string s).
Arguments lit _%_string_scope.

(** ** UTF-8 *)
Definition char_len_utf8 (c : N) : N :=
  (if c <? 128 then 1 else if c <? 2048 then 2 else if c <? 65536 then 3 else 4)%N.

Definition str_len (s : str) : N := foldr (fun c n => char_len_utf8 c + n)%N 0%N s.

Definition chars_count (s : str) : N := N.of_nat (length s).

Definition utf8_char (c : N) : list N :=
  (if c <? 128 then [c]
   else if c <? 2048 then [192 + c / 64; 128 + c mod 64]
   else if c <? 65536 then [224 + c / 4096; 128 + (c / 64) mod 64; 128 + c mod 64]
   else [240 + c / 262144; 128 + (c / 4096) mod 64;
         128 + (c / 64) mod 64; 128 + c mod 64])%N.

Definition as_bytes (s : str) : list N := concat (map utf8_char s).

(** ** Character classes *)
Definition is_ascii_lower (c : N) : bool := ((97 <=? c) && (c <=? 122))%N.
Definition is_ascii_upper (c : N) : bool := ((65 <=? c) && (c <=? 90))%N.
Definition is_ascii_digit (c : N) : bool := ((48 <=? c) && (c <=? 57))%N.
Definition is_ascii_alphanumeric (c : N) : bool :=
  is_ascii_lower c || is_ascii_upper c || is_ascii_digit c.
Definition is_ascii_hexdigit (c : N) : bool :=
  (is_ascii_digit c || ((97 <=? c) && (c <=? 102)) || ((65 <=? c) && (c <=? 70)))%N.
Definition is_lower_hex (c : N) : bool := (is_ascii_digit c || ((97 <=? c) && (c <=? 102)))%N.
Definition is_ascii_whitespace (c : N) : bool :=
  ((c =? 32) || (c =? 9) || (c =? 10) || (c =? 12) || (c =? 13))%N.

(** The Unicode [White_Space] property, [char::is_whitespace]. *)
Definition is_whitespace (c : N) : bool :=
  (((9 <=? c) && (c <=? 13)) || (c =? 32) || (c =? 133) || (c =? 160) ||
   (c =? 5760) || ((8192 <=? c) && (c <=? 8202)) || (c =? 8232) || (c =? 8233) ||
   (c =? 8239) || (c =? 8287) || (c =? 12288))%N.

Definition char_to_ascii_lowercase (c : N) : N :=
  if is_ascii_upper c then (c + 32)%N else c.
Definition to_ascii_lowercase (s : str) : str := map char_to_ascii_lowercase s.
Definition eq_ignore_ascii_case (a b : str) : bool :=
  bool_decide (to_ascii_lowercase a = to_ascii_lowercase b).

(** ** Trimming *)
Section Trim.
Context {A : Type} (p : A -> bool).

Fixpoint trim_start_matches (l : list A) : list A :=
  match l with
  | [] => []
  | x :: l' => if p x then trim_start_matches l' else l
  end.
Definition trim_end_matches (l : list A) : list A := rev (trim_start_matches (rev l)).
Definition trim_matches (l : list A) : list A := trim_end_matches (trim_start_matches l).

(** What a trimmed string looks like: neither end matches. *)
Definition untrimmable (l : list A) : Prop :=
  (forall x k, l = x :: k -> p x = false) /\ (forall x k, l = k ++ [x] -> p x = false).

Lemma trim_start_matches_head l x k : trim_start_matches l = x :: k -> p x = false.
Proof.
  induction l as [|y l IH]; simpl; [discriminate|].
  destruct (p y) eqn:E; [done|]. by intros [= -> ->].
Qed.

Lemma trim_start_matches_suffix l : exists k, l = k ++ trim_start_matches l /\ Forall (fun x => p x = true) k.
Proof.
  induction l as [|y l (k & E & Hk)]; simpl; [by exists []|].
  destruct (p y) eqn:Ey; [|by exists []].
  exists (y :: k). split; [by rewrite E at 1 | by constructor].
Qed.

Lemma trim_start_matches_id l :
  (forall x k, l = x :: k -> p x = false) -> trim_start_matches l = l.
Proof. destruct l as [|x l]; [done|]. simpl. intros H. by rewrite (H x l eq_refl). Qed.

Lemma trim_end_matches_id l :
  (forall x k, l = k ++ [x] -> p x = false) -> trim_end_matches l = l.
Proof.
  intros H. unfold trim_end_matches. rewrite trim_start_matches_id; [apply rev_involutive|].
  intros x k E. apply (H x (rev k)). by rewrite <-(rev_involutive l), E.
Qed.

Lemma trim_end_matches_last l x k : trim_end_matches l = k ++ [x] -> p x = false.
Proof.
  unfold trim_end_matches. intros E%(f_equal (@rev A)).
  rewrite rev_involutive, rev_app_distr in E. by apply trim_start_matches_head in E.
Qed.

Lemma trim_end_matches_prefix l :
  exists k, l = trim_end_matches l ++ k /\ Forall (fun x => p x = true) k.
Proof.
  destruct (trim_start_matches_suffix (rev l)) as (k & E & Hk).
  exists (rev k). split.
  - unfold trim_end_matches. rewrite <-rev_app_distr, <-E. by rewrite rev_involutive.
  - by apply Forall_rev.
Qed.

Lemma trim_matches_untrimmable l : untrimmable (trim_matches l).
Proof.
  split.
  - intros x k E. unfold trim_matches in E.
    destruct (trim_end_matches_prefix (trim_start_matches l)) as (k' & E' & _).
    rewrite E in E'. by apply trim_start_matches_head in E'.
  - intros x k. apply trim_end_matches_last.
Qed.

Lemma trim_matches_id l : untrimmable l -> trim_matches l = l.
Proof.
  intros [Hs He]. unfold trim_matches.
  rewrite (trim_start_matches_id l Hs). by apply trim_end_matches_id.
Qed.

Lemma trim_matches_idem l : trim_matches (trim_matches l) = trim_matches l.
Proof. apply trim_matches_id, trim_matches_untrimmable. Qed.

Lemma trim_matches_elem x l : x ∈ trim_matches l -> x ∈ l.
Proof.
  unfold trim_matches. intros Hx.
  destruct (trim_start_matches_suffix l) as (k & -> & _).
  destruct (trim_end_matches_prefix (trim_start_matches l)) as (k' & -> & _).
  rewrite !elem_of_app. auto.
Qed.
End Trim.

Definition trim (s : str) : str := trim_matches is_whitespace s.

(** ** Splitting and joining *)
Section Split.
Context {A : Type} (p : A -> bool).

(** [str::split] on a character predicate: never empty. *)
Fixpoint split_by (l : list A) : list (list A) :=
  match l with
  | [] => [[]]
  | x :: l' =>
      if p x then [] :: split_by l'
      else match split_by l' with
           | w :: ws => (x :: w) :: ws
           | [] => [[x]]
           end
  end.

Definition nonempty (l : list A) : bool := match l with [] => false | _ => true end.
Definition split_words (l : list A) : list (list A) := List.filter nonempty (split_by l).

Lemma split_by_not_nil l : split_by l <> [].
Proof. destruct l as [|x l]; simpl; [done|]. destruct (p x), (split_by l); done. Qed.

Lemma split_by_no_sep l w : w ∈ split_by l -> Forall (fun x => p x = false) w.
Proof.
  revert w. induction l as [|x l IH]; intros w; simpl.
  - intros ->%list_elem_of_singleton. constructor.
  - destruct (p x) eqn:E.
    + intros [-> | Hw]%elem_of_cons; [constructor | by apply IH].
    + destruct (split_by l) as [|v vs] eqn:Es; [by destruct (split_by_not_nil l)|].
      intros [-> | Hw]%elem_of_cons; [constructor; [done|]|]; apply IH; set_solver.
Qed.

Lemma split_by_plain w : Forall (fun x => p x = false) w -> split_by w = [w].
Proof. induction 1 as [|x w Hx _ IH]; simpl; [done|]. by rewrite Hx, IH. Qed.

Lemma split_by_app w l x :
  Forall (fun x => p x = false) w -> p x = true ->
  split_by (w ++ x :: l) = w :: split_by l.
Proof.
  intros Hw Hx. induction Hw as [|y w Hy _ IH]; simpl; [by rewrite Hx|].
  by rewrite Hy, IH.
Qed.

Lemma split_words_spec l :
  Forall (fun w => w <> [] /\ Forall (fun x => p x = false) w) (split_words l).
Proof.
  apply Forall_forall. intros w Hw. unfold split_words in Hw.
  apply list_elem_of_In, filter_In in Hw as [Hw Hn].
  split; [by intros ->|]. apply (split_by_no_sep l). by apply list_elem_of_In.
Qed.

Fixpoint join (sep : list A) (ws : list (list A)) : list A :=
  match ws with
  | [] => []
  | [w] => w
  | w :: ws' => w ++ sep ++ join sep ws'
  end.

Lemma split_words_join c ws :
  p c = true ->
  Forall (fun w => w <> [] /\ Forall (fun x => p x = false) w) ws ->
  split_words (join [c] ws) = ws.
Proof.
  intros Hc. induction 1 as [|w ws [Hne Hw] Hws IH]; [done|].
  assert (nonempty w = true) as Hnw by by destruct w.
  destruct ws as [|v ws].
  - unfold split_words. simpl. rewrite (split_by_plain w Hw). simpl. by rewrite Hnw.
  - change (join [c] (w :: v :: ws)) with (w ++ c :: join [c] (v :: ws)).
    unfold split_words in *. rewrite split_by_app by done.
    simpl. rewrite Hnw. by f_equal.
Qed.
End Split.

(** The ends of a nonempty join of separator-free words are not separators. *)
Lemma join_untrimmable {A} (p : A -> bool) c ws :
  Forall (fun w => w <> [] /\ Forall (fun x => p x = false) w) ws ->
  untrimmable p (join [c] ws).
Proof.
  intros Hws. split.
  - destruct Hws as [|w ws [Hne Hw] _]; [done|]. intros x k E.
    destruct w as [|y w]; [done|]. inversion_clear Hw as [|? ? Hy _].
    destruct ws; simpl in E; by injection E as <- _.
  - induction Hws as [|w ws [Hne Hw] Hws IH]; [intros x [|? ?]; discriminate|].
    intros x k E. destruct ws as [|v ws].
    + simpl in E. subst w. apply Forall_app in Hw as [_ Hx].
      by inversion_clear Hx.
    + change (join [c] (w :: v :: ws)) with (w ++ c :: join [c] (v :: ws)) in E.
      assert (join [c] (v :: ws) <> []) as Hj.
      { inversion_clear Hws as [|? ? [Hv _] _]. destruct v; [done|].
        by destruct ws. }
      destruct (exists_last Hj) as (k' & x' & Ek). rewrite Ek in E.
      rewrite app_comm_cons, app_assoc in E.
      apply app_inj_tail in E as [_ <-]. by apply (IH x' k').
Qed.

Definition split_on (c : N) (s : str) : list str := split_by (N.eqb c) s.
Definition split_whitespace (s : str) : list str := split_words is_whitespace s.
Definition split_ascii_whitespace (s : str) : list str := split_words is_ascii_whitespace s.

(** [s.split_whitespace().collect::<Vec<_>>().join(" ")] *)
Definition collapse_ws (s : str) : str := join [32%N] (split_whitespace s).

Lemma split_whitespace_collapse s : split_whitespace (collapse_ws s) = split_whitespace s.
Proof. apply split_words_join; [done | apply split_words_spec]. Qed.

Lemma collapse_ws_idem s : collapse_ws (collapse_ws s) = collapse_ws s.
Proof. unfold collapse_ws at 1. by rewrite split_whitespace_collapse. Qed.

Lemma trim_collapse s : trim (collapse_ws s) = collapse_ws s.
Proof. apply trim_matches_id, join_untrimmable, split_words_spec. Qed.

Lemma trim_idem s : trim (trim s) = trim s.
Proof. apply trim_matches_idem. Qed.
#[export] Hint Rewrite trim_idem collapse_ws_idem trim_collapse : eal.

(** ** Prefixes, suffixes, searching *)
Fixpoint strip_prefix (p s : str) : option str :=
  match p, s with
  | [], _ => Some s
  | x :: p', y :: s' => if (x =? y)%N then strip_prefix p' s' else None
  | _ :: _, [] => None
  end.
Definition strip_suffix (p s : str) : option str :=
  @rev N <$> strip_prefix (rev p) (rev s).
Definition starts_with_char (c : N) (s : str) : bool :=
  match s with [] => false | x :: _ => (x =? c)%N end.
Definition ends_with_char (c : N) (s : str) : bool := starts_with_char c (rev s).
Definition contains_char (c : N) (s : str) : bool := existsb (N.eqb c) s.

(** [str::split_once] on a character. *)
Fixpoint split_once (c : N) (s : str) : option (str * str) :=
  match s with
  | [] => None
  | x :: s' =>
      if (x =? c)%N then Some ([], s')
      else match split_once c s' with
           | Some (a, b) => Some (x :: a, b)
           | None => None
           end
  end.

Lemma strip_prefix_Some p s r : strip_prefix p s = Some r <-> s = p ++ r.
Proof.
  revert s. induction p as [|x p IH]; intros [|y s]; simpl;
    try (split; [congruence | discriminate]).
  - split; congruence.
  - split; congruence.
  - destruct (N.eqb_spec x y) as [-> | Hne].
    + rewrite IH. split; congruence.
    + split; [discriminate | congruence].
Qed.

Lemma strip_suffix_Some p s r : strip_suffix p s = Some r <-> s = r ++ p.
Proof.
  unfold strip_suffix. rewrite fmap_Some. split.
  - intros (r' & E%strip_prefix_Some & ->).
    by rewrite <-(rev_involutive s), E, rev_app_distr, rev_involutive.
  - intros ->. exists (rev r). rewrite rev_involutive. split; [|done].
    apply strip_prefix_Some. apply rev_app_distr.
Qed.

Lemma ends_with_char_spec c s : ends_with_char c s = true <-> exists k, s = k ++ [c].
Proof.
  unfold ends_with_char. split.
  - destruct (rev s) as [|x k] eqn:E; simpl; [discriminate|].
    intros ->%N.eqb_eq. exists (rev k).
    by rewrite <-(rev_involutive s), E.
  - intros (k & ->). rewrite rev_app_distr. simpl. apply N.eqb_refl.
Qed.

Lemma starts_with_char_spec c s : starts_with_char c s = true <-> exists k, s = c :: k.
Proof.
  destruct s as [|x s]; simpl; [split; [done | by intros []]|].
  rewrite N.eqb_eq. split; [intros ->; eauto | by intros (k & [= -> _])].
Qed.

Lemma contains_char_spec c s : contains_char c s = true <-> c ∈ s.
Proof.
  unfold contains_char. rewrite existsb_true_Exists, Exists_exists. split.
  - by intros (x & Hx & ->%N.eqb_eq).
  - intros Hc. exists c. by rewrite N.eqb_refl.
Qed.

Lemma split_once_Some c s a b :
  split_once c s = Some (a, b) <-> s = a ++ c :: b /\ c ∉ a.
Proof.
  revert a. induction s as [|x s IH]; intros a; simpl.
  - split; [discriminate|]. intros [E _]. by destruct a.
  - destruct (N.eqb_spec x c) as [-> | Hne].
    + split; [intros [= <- <-]; split; [done | set_solver]|].
      intros [E Ha]. destruct a as [|y a]; [by injection E as ->|].
      injection E as -> _. set_solver.
    + destruct (split_once c s) as [[a' b']|] eqn:Es.
      * split.
        -- intros [= <- <-]. destruct (proj1 (IH a') eq_refl) as [-> Ha]. set_solver.
        -- intros [E Ha]. destruct a as [|y a]; [by injection E as ->|].
           injection E as -> E. assert (c ∉ a) as Ha' by set_solver.
           by injection (proj2 (IH a) (conj E Ha')) as -> ->.
      * split; [discriminate|]. intros [E Ha].
        destruct a as [|y a]; [by injection E as ->|].
        injection E as -> E. assert (c ∉ a) as Ha' by set_solver.
        discriminate (proj2 (IH a) (conj E Ha')).
Qed.

(** ** Lower-casing *)
Lemma char_to_ascii_lowercase_idem c :
  char_to_ascii_lowercase (char_to_ascii_lowercase c) = char_to_ascii_lowercase c.
Proof.
  unfold char_to_ascii_lowercase. destruct (is_ascii_upper c) eqn:E; [|by rewrite E].
  unfold is_ascii_upper in *. bool_prop.
  destruct (N.leb_spec 65 (c + 32)), (N.leb_spec (c + 32) 90); simpl; lia.
Qed.

Lemma to_ascii_lowercase_idem s :
  to_ascii_lowercase (to_ascii_lowercase s) = to_ascii_lowercase s.
Proof.
  unfold to_ascii_lowercase. rewrite map_map. apply map_ext.
  apply char_to_ascii_lowercase_idem.
Qed.
#[export] Hint Rewrite to_ascii_lowercase_idem : eal.

(** ** Decimal printing of unsigned integers. *)
Definition N_to_string (n : N) : str := lit (pretty n).

Lemma lit_inj s t : lit s = lit t -> s = t.
Proof.
  unfold lit. intros E.
  assert (list_ascii_of_string s = list_ascii_of_string t) as El.
  { revert E. generalize (list_ascii_of_string s), (list_ascii_of_string t).
    induction l as [|x l IH]; intros [|y k]; simpl; try done.
    intros [= Ex El]. f_equal; [|by apply IH].
    apply (f_equal ascii_of_N) in Ex. by rewrite !ascii_N_embedding in Ex. }
  by rewrite <-(string_of_list_ascii_of_string s), El, string_of_list_ascii_of_string.
Qed.

Lemma N_to_string_inj n m : N_to_string n = N_to_string m -> n = m.
Proof. intros E%lit_inj. by apply (inj pretty) in E. Qed.

Lemma char_len_utf8_pos c : (1 <= char_len_utf8 c)%N.
Proof. unfold char_len_utf8. repeat case_match; lia. Qed.

(** A string has at least as many bytes as characters. *)
Lemma chars_count_le_len s : (chars_count s <= str_len s)%N.
Proof.
  unfold chars_count. induction s as [|c s IH]; [done|].
  pose proof (char_len_utf8_pos c).
  change (str_len (c :: s)) with (char_len_utf8 c + str_len s)%N. rewrite length_cons. lia.
Qed.

Lemma nonempty_chars s : s <> [] -> (1 <= chars_count s)%N.
Proof. destruct s; [done|]. unfold chars_count. rewrite length_cons. lia. Qed.

(** ** [str::parse::<i64>] *)
Definition digit_value (c : N) : option Z :=
  if is_ascii_digit c then Some (Z.of_N c - 48)%Z else None.
Definition digits_value (s : str) : option Z :=
  match s with
  | [] => None
  | _ => fold_left (fun acc c => a ← acc; d ← digit_value c; Some (a * 10 + d)%Z) s (Some 0%Z)
  end.
Definition parse_i64 (s : str) : option Z :=
  z ← match s with
      | 45%N :: s' => Z.opp <$> digits_value s'
      | 43%N :: s' => digits_value s'
      | _ => digits_value s
      end;
  if ((i64_min <=? z) && (z <=? i64_max))%Z then Some z else None.
