(* ===== verification/Floats.v ===== *)
(** * IEEE 754 numbers

    [f32] and [f64] values are the Standard Library's [spec_float], the
    executable specification of binary floating point: [f32] has precision 24
    and maximal exponent 128, [f64] has 53 and 1024.  Arithmetic on [f64] is
    [SFadd 53 1024], [SFmul 53 1024] and so on.  The comparison operators are
    Rust's (false as soon as one side is NaN) and, with the prefix [pg_],
    PostgreSQL's, where NaN is the greatest value and equal to itself. *)

From Stdlib Require Import ZArith.
From Stdlib Require Export SpecFloat.
From S2P Require Import Prelude.

Local Open Scope Z_scope.

Abbreviation f32 := spec_float.
Abbreviation f64 := spec_float.

#[global] Instance spec_float_eq_dec : EqDecision spec_float.
Proof. solve_decision. Defined.

Definition f32_prec : Z := 24.
Definition f32_emax : Z := 128.
Definition f64_prec : Z := 53.
Definition f64_emax : Z := 1024.

Definition valid_f32 (x : f32) : bool := valid_binary f32_prec f32_emax x.
Definition valid_f64 (x : f64) : bool := valid_binary f64_prec f64_emax x.

Definition f64_add := SFadd f64_prec f64_emax.
Definition f64_sub := SFsub f64_prec f64_emax.
Definition f64_mul := SFmul f64_prec f64_emax.
Definition f64_div := SFdiv f64_prec f64_emax.
Definition f64_sqrt := SFsqrt f64_prec f64_emax.

(** ** Conversions: [f64::from(x : f32)] and [x as f32]. *)
Definition convert (prec emax : Z) (x : spec_float) : spec_float :=
  match x with
  | S754_finite s m e => binary_round prec emax s m e
  | _ => x
  end.
Definition f64_of_f32 (x : f32) : f64 := convert f64_prec f64_emax x.
Definition f32_of_f64 (x : f64) : f32 := convert f32_prec f32_emax x.

(** ** Classification and comparison *)
Definition is_nan (x : spec_float) : bool :=
  match x with S754_nan => true | _ => false end.
Definition is_finite (x : spec_float) : bool :=
  match x with S754_zero _ | S754_finite _ _ _ => true | _ => false end.
Definition is_zero (x : spec_float) : bool :=
  match x with S754_zero _ => true | _ => false end.

Definition flt (x y : spec_float) : bool := SFltb x y.
Definition fle (x y : spec_float) : bool := SFleb x y.

(** Rust's [max]: a NaN argument is ignored. *)
Definition fmax (x y : spec_float) : spec_float :=
  if is_nan x then y else if is_nan y then x else if flt x y then y else x.

(** PostgreSQL's [>=] on [double precision]. *)
Definition pg_ge (x y : f64) : bool := is_nan x || (negb (is_nan y) && fle y x).
Definition pg_lt (x y : f64) : bool := negb (pg_ge x y).

Definition fzero : spec_float := S754_zero false.
Definition f64_one : f64 := S754_finite false (2 ^ 52) (-52).
Definition f32_one : f32 := S754_finite false (2 ^ 23) (-23).
(** [f64::EPSILON], 2^-52. *)
Definition f64_epsilon : f64 := S754_finite false (2 ^ 52) (-104).

(** [(0.0..=1.0).contains(&x)] *)
Definition f32_in_unit (x : f32) : bool := fle fzero x && fle x f32_one.
Definition f64_in_unit (x : f64) : bool := fle fzero x && fle x f64_one.

(** ** The order on floats

    [fkey] lists the comparison keys of a number that is not NaN: the sign
    and infinity class, then exponent and significand; comparing two numbers
    is comparing their keys, so [fle] is a total preorder off NaN. *)
Definition fkey (x : spec_float) : Z * Z * Z :=
  match x with
  | S754_nan => (0, 0, 0)
  | S754_zero _ => (0, 0, 0)
  | S754_infinity false => (2, 0, 0)
  | S754_infinity true => (-2, 0, 0)
  | S754_finite false m e => (1, e, Zpos m)
  | S754_finite true m e => (-1, - e, Zneg m)
  end.

Definition key_le (a b : Z * Z * Z) : Prop :=
  a.1.1 < b.1.1 \/ (a.1.1 = b.1.1 /\ (a.1.2 < b.1.2 \/ (a.1.2 = b.1.2 /\ a.2 <= b.2))).

Lemma fle_key x y :
  fle x y = true <-> is_nan x = false /\ is_nan y = false /\ key_le (fkey x) (fkey y).
Proof.
  unfold fle, SFleb, key_le.
  destruct x as [sx|sx| |sx mx ex], y as [sy|sy| |sy my ey]; try destruct sx;
    try destruct sy; simpl; try lia.
  all: change (PosDef.Pos.compare_cont Eq mx my) with (Pos.compare mx my).
  all: destruct (Z.compare_spec ex ey); [destruct (Pos.compare_spec mx my)|..]; simpl; lia.
Qed.

Lemma key_le_trans a b c : key_le a b -> key_le b c -> key_le a c.
Proof. unfold key_le. destruct a as [[??]?], b as [[??]?], c as [[??]?]. simpl. lia. Qed.

Lemma key_le_total a b : key_le a b \/ key_le b a.
Proof. unfold key_le. destruct a as [[??]?], b as [[??]?]. simpl. lia. Qed.

Lemma fle_trans x y z : fle x y = true -> fle y z = true -> fle x z = true.
Proof. rewrite !fle_key. intros (? & _ & ?) (_ & ? & ?). eauto using key_le_trans. Qed.

Lemma fle_total x y :
  is_nan x = false -> is_nan y = false -> fle x y = true \/ fle y x = true.
Proof. rewrite !fle_key. destruct (key_le_total (fkey x) (fkey y)); auto. Qed.

Lemma fle_refl x : is_nan x = false -> fle x x = true.
Proof. intros Hx. destruct (fle_total x x); auto. Qed.

Lemma flt_not_le x y :
  is_nan x = false -> is_nan y = false -> flt x y = negb (fle y x).
Proof.
  unfold flt, fle, SFltb, SFleb.
  destruct x as [sx|sx| |sx mx ex], y as [sy|sy| |sy my ey]; try destruct sx;
    try destruct sy; simpl; try done; intros _ _;
    rewrite (Z.compare_antisym ex ey); destruct (ex ?= ey); simpl; try done;
    change (Pos.compare_cont Eq mx my) with (Pos.compare mx my);
    change (Pos.compare_cont Eq my mx) with (Pos.compare my mx);
    rewrite (Pos.compare_antisym mx my); by destruct (mx ?= my)%positive.
Qed.

Lemma fmax_ge_l x y : is_nan x = false -> fle x (fmax x y) = true.
Proof.
  intros Hx. unfold fmax. rewrite Hx. destruct (is_nan y) eqn:Hy; [by apply fle_refl|].
  destruct (flt x y) eqn:E; [|by apply fle_refl].
  rewrite flt_not_le in E by done. apply negb_true_iff in E.
  destruct (fle_total x y); congruence.
Qed.

Lemma fmax_ge_r x y : is_nan y = false -> fle y (fmax x y) = true.
Proof.
  intros Hy. unfold fmax. destruct (is_nan x) eqn:Hx; [by apply fle_refl|]. rewrite Hy.
  destruct (flt x y) eqn:E; [by apply fle_refl|].
  rewrite flt_not_le in E by done. by apply negb_false_iff in E.
Qed.

Lemma fmax_choice x y : fmax x y = x \/ fmax x y = y.
Proof. unfold fmax. repeat case_match; auto. Qed.

Lemma finite_not_nan x : is_finite x = true -> is_nan x = false.
Proof. by destruct x. Qed.

Lemma fle_not_nan x y : fle x y = true -> is_nan x = false /\ is_nan y = false.
Proof. rewrite fle_key. tauto. Qed.

Lemma pg_ge_fle x y : is_nan x = false -> pg_ge x y = true -> fle y x = true.
Proof. unfold pg_ge. intros ->. simpl. by intros [_ ?]%andb_prop. Qed.
(** PostgreSQL's order is total: NaN is at the top. *)
Lemma pg_ge_total x y : pg_ge x y = true \/ pg_ge y x = true.
Proof.
  unfold pg_ge. destruct (is_nan x) eqn:Hx; [by left|]. destruct (is_nan y) eqn:Hy; [by right|].
  simpl. destruct (fle_total y x); auto.
Qed.

Lemma pg_ge_trans x y z : pg_ge x y = true -> pg_ge y z = true -> pg_ge x z = true.
Proof.
  unfold pg_ge. destruct (is_nan x); [done|]. destruct (is_nan y) eqn:Hy; [done|].
  destruct (is_nan z); [done|]. simpl. intros H1 H2. by apply (fle_trans z y x).
Qed.
#[export] Hint Resolve fle_refl fmax_ge_l fmax_ge_r finite_not_nan : eal.

(** ** [f32::to_bits]

    The interchange encoding of a canonical number: sign, 8 exponent bits,
    23 significand bits. *)
Definition f32_to_bits (x : f32) : Z :=
  let sign (s : bool) := if s then 2 ^ 31 else 0 in
  match x with
  | S754_zero s => sign s
  | S754_infinity s => sign s + 255 * 2 ^ 23
  | S754_nan => 255 * 2 ^ 23 + 2 ^ 22
  | S754_finite s m e =>
      sign s + if (Zpos m <? 2 ^ 23) then Zpos m else (e + 150) * 2 ^ 23 + (Zpos m - 2 ^ 23)
  end.

(** [u32::to_be_bytes] *)
Definition u32_to_be_bytes (z : Z) : list N :=
  [Z.to_N (z / 2 ^ 24 mod 256); Z.to_N (z / 2 ^ 16 mod 256);
   Z.to_N (z / 2 ^ 8 mod 256); Z.to_N (z mod 256)].

Lemma digits2_pos_bounds m :
  2 ^ (Zpos (digits2_pos m) - 1) <= Zpos m < 2 ^ Zpos (digits2_pos m).
Proof.
  induction m as [m IH|m IH|]; simpl digits2_pos; [..|by vm_compute].
  all: rewrite Pos2Z.inj_succ.
  all: replace (Z.succ (Z.pos (digits2_pos m)) - 1)
    with (Z.succ (Z.pos (digits2_pos m) - 1)) by lia.
  all: rewrite !Z.pow_succ_r by lia; lia.
Qed.

Lemma valid_f32_finite s m e :
  valid_f32 (S754_finite s m e) = true ->
  Zpos m < 2 ^ 24 /\ -149 <= e <= 104 /\ (Zpos m < 2 ^ 23 -> e = -149).
Proof.
  unfold valid_f32, valid_binary, bounded, canonical_mantissa, fexp, emin, f32_prec, f32_emax.
  intros [Hc%Z.eqb_eq He%Z.leb_le]%andb_prop.
  pose proof (digits2_pos_bounds m) as [Hlo Hhi].
  assert (Zpos (digits2_pos m) <= 24) as Hd by lia.
  split; [|split].
  - eapply Z.lt_le_trans; [exact Hhi|]. by apply Z.pow_le_mono_r.
  - lia.
  - intros Hm. destruct (Z.le_gt_cases 24 (Zpos (digits2_pos m))); [|lia].
    assert (2 ^ 23 <= 2 ^ (Zpos (digits2_pos m) - 1)) by (apply Z.pow_le_mono_r; lia). lia.
Qed.

Lemma f32_to_bits_range x : valid_f32 x = true -> 0 <= f32_to_bits x < 2 ^ 32.
Proof.
  destruct x as [[]|[]| |s m e]; [by intros _; vm_compute..|].
  intros (Hm & He & Hs)%valid_f32_finite. unfold f32_to_bits.
  destruct s, (Z.ltb_spec (Zpos m) (2 ^ 23)); lia.
Qed.

(** Reading the encoding back. *)
Definition f32_from_bits (z : Z) : f32 :=
  let s := (2 ^ 31 <=? z) in
  let k := (if s then z - 2 ^ 31 else z) in
  let e := k / 2 ^ 23 in
  let m := k mod 2 ^ 23 in
  if e =? 255 then if m =? 0 then S754_infinity s else S754_nan
  else if e =? 0 then if m =? 0 then S754_zero s else S754_finite s (Z.to_pos m) (-149)
  else S754_finite s (Z.to_pos (m + 2 ^ 23)) (e - 150).

Lemma f32_from_bits_sign (s : bool) (k : Z) :
  0 <= k < 2 ^ 31 ->
  f32_from_bits ((if s then 2 ^ 31 else 0) + k) =
  if k / 2 ^ 23 =? 255 then if k mod 2 ^ 23 =? 0 then S754_infinity s else S754_nan
  else if k / 2 ^ 23 =? 0
  then if k mod 2 ^ 23 =? 0 then S754_zero s else S754_finite s (Z.to_pos (k mod 2 ^ 23)) (-149)
  else S754_finite s (Z.to_pos (k mod 2 ^ 23 + 2 ^ 23)) (k / 2 ^ 23 - 150).
Proof.
  intros Hk. unfold f32_from_bits.
  assert ((2 ^ 31 <=? (if s then 2 ^ 31 else 0) + k) = s) as ->.
  { destruct s; [apply Z.leb_le | apply Z.leb_gt]; lia. }
  replace (if s then (if s then 2 ^ 31 else 0) + k - 2 ^ 31
           else (if s then 2 ^ 31 else 0) + k) with k by (destruct s; lia).
  done.
Qed.

Lemma f32_from_to_bits x : valid_f32 x = true -> f32_from_bits (f32_to_bits x) = x.
Proof.
  destruct x as [[]|[]| |s m e]; [by intros _; vm_compute..|].
  intros (Hm & He & Hs)%valid_f32_finite. unfold f32_to_bits.
  destruct (Z.ltb_spec (Zpos m) (2 ^ 23)) as [Hlt|Hge]; rewrite f32_from_bits_sign by lia.
  - rewrite Z.div_small, Z.mod_small by lia. simpl. by rewrite Hs by done.
  - assert (((e + 150) * 2 ^ 23 + (Zpos m - 2 ^ 23)) / 2 ^ 23 = e + 150) as ->.
    { rewrite Z.div_add_l, Z.div_small by lia. lia. }
    assert (((e + 150) * 2 ^ 23 + (Zpos m - 2 ^ 23)) mod 2 ^ 23 = Zpos m - 2 ^ 23) as ->.
    { rewrite Z.add_comm, Z.mod_add, Z.mod_small by lia. done. }
    rewrite !(proj2 (Z.eqb_neq _ _)) by lia.
    replace (Zpos m - 2 ^ 23 + 2 ^ 23) with (Zpos m) by lia.
    by replace (e + 150 - 150) with e by lia.
Qed.

Lemma f32_to_bits_inj x y :
  valid_f32 x = true -> valid_f32 y = true ->
  f32_to_bits x = f32_to_bits y -> x = y.
Proof.
  intros Hx Hy E. by rewrite <-(f32_from_to_bits x Hx), E, f32_from_to_bits.
Qed.

Lemma u32_to_be_bytes_inj a b :
  0 <= a < 2 ^ 32 -> 0 <= b < 2 ^ 32 -> u32_to_be_bytes a = u32_to_be_bytes b -> a = b.
Proof.
  intros Ha Hb. unfold u32_to_be_bytes. intros [= E3 E2 E1 E0].
  apply Z2N.inj in E3, E2, E1, E0; try (apply Z.mod_pos_bound; lia).
  assert (forall z, 0 <= z < 2 ^ 32 ->
    z = (z / 2 ^ 24 mod 256) * 2 ^ 24 + (z / 2 ^ 16 mod 256) * 2 ^ 16
        + (z / 2 ^ 8 mod 256) * 2 ^ 8 + z mod 256) as Hz.
  { intros z Hz. Z.to_euclidean_division_equations. lia. }
  rewrite (Hz a Ha), (Hz b Hb), E3, E2, E1, E0. done.
Qed.
