(* ===== verification/Externals.v ===== *)
(** * Interfaces of the crates the program calls

    Code outside the repository is a parameter: each crate is a class of the
    operations the program uses, and a second class of the documented laws a
    theorem may rely on.  Definitions depend on the operations only.  Data
    types of [eal_interfaces] and [eal_semantic_contracts] are the fields the
    program reads or constructs. *)

From stdpp Require Import gmap strings.
From S2P Require Import Prelude Ordered RustStr Floats.

(** ** [uuid]

    A [Uuid] is a 128-bit number; its [Ord] is the numeric order of its
    big-endian bytes. *)
Record Uuid := mk_uuid {
  uuid_u128 : N;
  uuid_bound : (uuid_u128 <? 2 ^ 128)%N = true
}.

Lemma uuid_eq (a b : Uuid) : uuid_u128 a = uuid_u128 b -> a = b.
Proof.
  destruct a as [a Ha], b as [b Hb]. simpl. intros ->. f_equal. apply proof_irrel.
Qed.

#[global] Instance uuid_eq_dec : EqDecision Uuid.
Proof.
  intros a b. destruct (decide (uuid_u128 a = uuid_u128 b)) as [E|E].
  - left. by apply uuid_eq.
  - right. by intros ->.
Defined.

Definition uuid_of_option (n : N) : option Uuid :=
  match (n <? 2 ^ 128)%N as b return (n <? 2 ^ 128)%N = b -> option Uuid with
  | true => fun E => Some (mk_uuid n E)
  | false => fun _ => None
  end eq_refl.

#[global] Program Instance uuid_countable : Countable Uuid := {|
  encode u := encode (uuid_u128 u);
  decode p := decode p ≫= uuid_of_option
|}.
Next Obligation.
  intros [n Hn]. simpl. rewrite decode_encode. simpl. unfold uuid_of_option.
  generalize (eq_refl (n <? 2 ^ 128)%N).
  generalize (n <? 2 ^ 128)%N at 2 3 as b. intros [] E; [|congruence].
  f_equal. by apply uuid_eq.
Qed.

#[global] Program Instance uuid_total_ord : TotalOrd Uuid := {|
  ord_cmp a b := N.compare (uuid_u128 a) (uuid_u128 b)
|}.
Next Obligation. intros. rewrite N.compare_eq_iff. split; [apply uuid_eq | by intros ->]. Qed.
Next Obligation. intros. apply N.compare_antisym. Qed.
Next Obligation. intros x y z. rewrite !N.compare_lt_iff. lia. Qed.

(** [Uuid::from_u128], for concrete inputs. *)
Program Definition uuid_from_u128 (n : N) : Uuid := mk_uuid (n mod 2 ^ 128) _.
Next Obligation. intros n. apply N.ltb_lt. by apply N.mod_lt. Qed.

Class UuidLib := {
  uuid_parse_str : str -> option Uuid;
  uuid_to_string : Uuid -> str
}.

(** The hyphenated lower-case form parses back, and has no other character. *)
Class UuidLaws `{UuidLib} := {
  uuid_parse_to_string u : uuid_parse_str (uuid_to_string u) = Some u;
  uuid_to_string_chars u :
    uuid_to_string u <> [] /\
    Forall (fun c => is_ascii_hexdigit c || (c =? 45)%N = true) (uuid_to_string u)
}.

Lemma uuid_to_string_inj `{UuidLaws} u v : uuid_to_string u = uuid_to_string v -> u = v.
Proof.
  intros E. enough (Some u = Some v) by congruence.
  by rewrite <-(uuid_parse_to_string u), E, uuid_parse_to_string.
Qed.

Lemma uuid_to_string_trim `{UuidLaws} u : trim (uuid_to_string u) = uuid_to_string u.
Proof.
  assert (forall x, is_ascii_hexdigit x || (x =? 45)%N = true -> is_whitespace x = false) as Hc.
  { intros x. unfold is_ascii_hexdigit, is_ascii_digit, is_whitespace.
    rewrite !orb_true_iff, !andb_true_iff, !orb_false_iff, !andb_false_iff.
    rewrite !N.leb_le, !N.leb_gt, !N.eqb_eq, !N.eqb_neq. lia. }
  destruct (uuid_to_string_chars u) as [_ Hu]. rewrite Forall_forall in Hu.
  apply trim_matches_id. split; intros x k E; apply Hc, Hu; rewrite E; set_solver.
Qed.

(** ** [sha2], [hex], [serde_json::to_vec] of a string array *)
Class DigestLib := {
  sha256 : list N -> list N;
  hex_encode : list N -> str;
  hex_decode : str -> option (list N);
  json_string_array : list str -> list N
}.

Definition is_byte (b : N) : Prop := (b < 256)%N.

Class DigestLaws `{DigestLib} := {
  sha256_length bs : length (sha256 bs) = 32;
  sha256_bytes bs : Forall is_byte (sha256 bs);
  hex_decode_encode bs : Forall is_byte bs -> hex_decode (hex_encode bs) = Some bs;
  hex_encode_text bs : Forall is_byte bs ->
    length (hex_encode bs) = 2 * length bs /\ forallb is_lower_hex (hex_encode bs) = true;
  hex_decode_total s :
    forallb is_ascii_hexdigit s = true -> Nat.even (length s) = true ->
    exists bs, hex_decode s = Some bs /\ length s = 2 * length bs;
  json_string_array_inj l k : json_string_array l = json_string_array k -> l = k
}.

(** [sha256_hex] of the program, and what equality of two digests means. *)
Definition sha256_hex `{DigestLib} (bytes : list N) : str := hex_encode (sha256 bytes).

(** Two given messages with one digest. *)
Definition sha256_collides `{DigestLib} (x y : list N) : Prop := x <> y /\ sha256 x = sha256 y.

Lemma hex_encode_inj `{DigestLaws} x y :
  Forall is_byte x -> Forall is_byte y -> hex_encode x = hex_encode y -> x = y.
Proof.
  intros Hx Hy E. enough (Some x = Some y) by congruence.
  rewrite <-(hex_decode_encode x), <-(hex_decode_encode y) by done. by f_equal.
Qed.

Lemma sha256_hex_eq `{DigestLaws} x y :
  sha256_hex x = sha256_hex y -> x = y \/ sha256_collides x y.
Proof.
  intros E. destruct (decide (x = y)); [by left|]. right. split; [done|].
  apply hex_encode_inj; auto using sha256_bytes.
Qed.

(** ** [eal_interfaces] *)
Abbreviation ValidationError := str (only parsing).
Abbreviation Timestamp := Z.

Inductive VectorNormalization := NoNormalization | L2 | UnitLength.
#[global] Instance vector_normalization_eq_dec : EqDecision VectorNormalization.
Proof. solve_decision. Defined.

Record EmbeddingPayload := {
  ep_model : str;
  ep_model_version : str;
  ep_dimensions : N;
  ep_normalization : VectorNormalization;
  ep_values : list f32
}.

Record PageIngestRequest := {
  pi_source_id : Uuid;
  pi_url : str;
  pi_final_url : str;
  pi_title : option str;
  pi_content_text : str;
  pi_content_type : str;
  pi_http_status : N;
  pi_published_at : option Timestamp;
  pi_fetched_at : Timestamp;
  pi_embedding : EmbeddingPayload
}.

Inductive DiscoveryMode := Manual | Sitemap | Rss | Atom | ExternalIndexCandidates.

Record CreateSourcePolicy := {
  cs_name : str;
  cs_root_url : str;
  cs_allowed_hosts : list str;
  cs_allowed_path_prefixes : list str;
  cs_include_subdomains : bool;
  cs_discovery_modes : list DiscoveryMode;
  cs_crawl_interval_seconds : N;
  cs_max_depth : N;
  cs_max_pages_per_run : N;
  cs_obey_robots : bool;
  cs_enabled : bool
}.

Record SearchCursor := { sc_distance : f64; sc_embedding_id : Uuid }.

Record EmbeddingSearchRequest := {
  sr_embedding : EmbeddingPayload;
  sr_min_similarity : f32;
  sr_limit : N;
  sr_source_ids : list Uuid;
  sr_cursor : option SearchCursor
}.

Record EmbeddingSearchHit := {
  sh_embedding_id : Uuid;
  sh_revision_id : Uuid;
  sh_page_id : Uuid;
  sh_source_id : Uuid;
  sh_canonical_url : str;
  sh_title : option str;
  sh_excerpt : str;
  sh_similarity : f64;
  sh_distance : f64;
  sh_model : str;
  sh_model_version : str;
  sh_dimensions : N;
  sh_normalization : VectorNormalization;
  sh_fetched_at : Timestamp
}.

Record EmbeddingSearchResponse := {
  es_hits : list EmbeddingSearchHit;
  es_next_cursor : option SearchCursor
}.

Record PageRevision := {
  pn_page_id : Uuid;
  pn_revision_id : Uuid;
  pn_embedding_id : Uuid;
  pn_source_id : Uuid;
  pn_tenant_id : Uuid;
  pn_canonical_url : str;
  pn_content_sha256 : str;
  pn_changed : bool;
  pn_fetched_at : Timestamp
}.

Class InterfacesLib := {
  embedding_validate : EmbeddingPayload -> result ValidationError unit;
  page_validate : PageIngestRequest -> result ValidationError unit;
  create_source_validate : CreateSourcePolicy -> result ValidationError unit;
  search_validate : EmbeddingSearchRequest -> result ValidationError unit
}.

(** ** [http::HeaderMap]

    A multimap: the values of a header in arrival order; [to_str] is the
    crate's conversion of the value's bytes to text. *)
Record HeaderMap := { header_values : str -> list (list N) }.
Class HeaderLib := { header_to_str : list N -> option str }.

Definition get_all (h : HeaderMap) (name : str) : list (list N) := header_values h name.
Definition get (h : HeaderMap) (name : str) : option (list N) := head (header_values h name).

(** ** [url] *)
Inductive Host :=
| Domain (domain : str)
| Ipv4 (address : N)
| Ipv6 (address : N).
#[global] Instance host_eq_dec : EqDecision Host.
Proof. solve_decision. Defined.

Class UrlLib := {
  Url : Type;
  url_parse : str -> result str Url;
  url_to_string : Url -> str;
  url_scheme : Url -> str;
  url_cannot_be_a_base : Url -> bool;
  url_username : Url -> str;
  url_password : Url -> option str;
  url_host : Url -> option Host;
  url_host_str : Url -> option str;
  url_port : Url -> option N;
  url_path : Url -> str;
  url_query : Url -> option str;
  url_fragment : Url -> option str;
  url_set_port_none : Url -> option Url;
  url_set_fragment_none : Url -> Url;
  url_origin_ascii : Url -> str
}.

(** Two URLs that differ at most in port and fragment. *)
Definition same_resource `{UrlLib} (u v : Url) : Prop :=
  url_scheme u = url_scheme v /\ url_cannot_be_a_base u = url_cannot_be_a_base v /\
  url_username u = url_username v /\ url_password u = url_password v /\
  url_host u = url_host v /\ url_path u = url_path v /\ url_query u = url_query v.

(** A serialised URL parses back; the setters change what they name, and
    clearing the port of an [http] or [https] URL with a host succeeds. *)
Class UrlLaws `{UrlLib} := {
  url_parse_to_string u : url_parse (url_to_string u) = Ok u;
  url_set_fragment_none_spec u :
    same_resource (url_set_fragment_none u) u /\
    url_port (url_set_fragment_none u) = url_port u /\
    url_fragment (url_set_fragment_none u) = None;
  url_set_fragment_none_id u : url_fragment u = None -> url_set_fragment_none u = u;
  url_set_port_none_spec u d :
    url_scheme u = lit "http" \/ url_scheme u = lit "https" -> url_host u = Some (Domain d) ->
    exists v, url_set_port_none u = Some v /\ same_resource v u /\
      url_port v = None /\ url_fragment v = url_fragment u
}.

(** ** [serde_json::Value], [base64], [hmac] *)
Inductive Value :=
| Null
| Bool (b : bool)
| PosInt (n : N)
| NegInt (z : Z)
| Float (f : f64)
| String (s : str)
| Array (values : list Value)
| Object (fields : list (str * Value)).

Definition value_as_str (v : Value) : option str :=
  match v with String s => Some s | _ => None end.
Definition value_as_object (v : Value) : option (list (str * Value)) :=
  match v with Object o => Some o | _ => None end.
Definition value_as_i64 (v : Value) : option Z :=
  match v with
  | PosInt n => if (Z.of_N n <=? i64_max)%Z then Some (Z.of_N n) else None
  | NegInt z => Some z
  | _ => None
  end.
Definition value_as_u64 (v : Value) : option N :=
  match v with PosInt n => Some n | _ => None end.

Fixpoint map_get (o : list (str * Value)) (key : str) : option Value :=
  match o with
  | [] => None
  | (k, v) :: o' => if bool_decide (k = key) then Some v else map_get o' key
  end.
Definition value_get (v : Value) (key : str) : option Value :=
  o ← value_as_object v; map_get o key.

Class JsonLib := { json_from_slice : list N -> option Value }.
Class Base64Lib := { base64_url_decode : str -> option (list N) }.
(** The tag of a message under a key; [None] when the key is refused. *)
Class HmacLib := { hmac_sha256 : list N -> list N -> option (list N) }.

(** ** [eal_semantic_contracts] *)
Inductive EmbeddingInputKind := Query | Keyword | Entity.

Record EmbeddingInput := {
  ei_kind : EmbeddingInputKind;
  ei_ordinal : N;
  ei_text : str;
  ei_weight : f32
}.

Record QueryTextViews := {
  qv_query_text : str;
  qv_keywords : list str;
  qv_entities : list str;
  qv_embedding_inputs : list EmbeddingInput
}.

(** A contract error's [code] and [message]. *)
Record ContractError := { ce_code : str; ce_message : str }.

Class SemanticContracts := {
  MAX_EMBEDDING_INPUT_CHARS : N;
  MAX_EMBEDDING_INPUTS : N;
  input_validate : EmbeddingInput -> result ContractError unit;
  views_validate : QueryTextViews -> result ContractError unit
}.

(** ** The Unicode tables of [char]

    [is_alphanumeric], [is_uppercase] and [is_lowercase] are read from the
    Unicode version of the compiler's standard library, and so is the
    escaping of the [Debug] form of a string. *)
Class UnicodeTables := {
  is_alphanumeric : N -> bool;
  is_uppercase : N -> bool;
  is_lowercase : N -> bool;
  debug_str : str -> str
}.
