(* ===== verification/Samples.v ===== *)
(** * Concrete instances of the crate interfaces

    Executable functions that satisfy the laws of [Externals], so that every
    theorem stated under those laws can be applied at concrete inputs.  They
    are examples, not models of the crates: the digest in particular is not
    SHA-256. *)

From stdpp Require Import gmap strings.
From S2P Require Import Prelude Ordered RustStr Floats Externals.

(** ** Hexadecimal *)
Definition hex_digit (d : N) : N := (if d <? 10 then 48 + d else 87 + d)%N.
Definition hex_digit_value (c : N) : option N :=
  if is_ascii_digit c then Some (c - 48)%N
  else if ((97 <=? c) && (c <=? 102))%N then Some (c - 87)%N
  else if ((65 <=? c) && (c <=? 70))%N then Some (c - 55)%N
  else None.

Fixpoint hex_digits (n : nat) (u : N) : str :=
  match n with
  | O => []
  | S n' => hex_digits n' (u / 16) ++ [hex_digit (u mod 16)]
  end%N.

Definition hex_value_from (acc : option N) (s : str) : option N :=
  fold_left (fun acc c => a ← acc; d ← hex_digit_value c; Some (a * 16 + d)%N) s acc.
Definition hex_value (s : str) : option N := hex_value_from (Some 0%N) s.

Lemma hex_digit_value_digit d : (d < 16)%N -> hex_digit_value (hex_digit d) = Some d.
Proof.
  intros Hd. assert (In d (map N.of_nat (seq 0 16))) as Hin.
  { apply in_map_iff. exists (N.to_nat d). rewrite in_seq. lia. }
  simpl in Hin. repeat destruct Hin as [<- | Hin]; by vm_compute.
Qed.

Lemma hex_digit_hex d : (d < 16)%N -> is_ascii_hexdigit (hex_digit d) = true.
Proof.
  intros Hd. assert (In d (map N.of_nat (seq 0 16))) as Hin.
  { apply in_map_iff. exists (N.to_nat d). rewrite in_seq. lia. }
  simpl in Hin. repeat destruct Hin as [<- | Hin]; by vm_compute.
Qed.

Lemma hex_digit_lower d : (d < 16)%N -> is_lower_hex (hex_digit d) = true.
Proof.
  intros Hd. assert (In d (map N.of_nat (seq 0 16))) as Hin.
  { apply in_map_iff. exists (N.to_nat d). rewrite in_seq. lia. }
  simpl in Hin. repeat destruct Hin as [<- | Hin]; by vm_compute.
Qed.

Lemma hex_digits_lower n u : forallb is_lower_hex (hex_digits n u) = true.
Proof.
  revert u. induction n as [|n IH]; intros u; simpl; [done|].
  rewrite forallb_app, IH. simpl. rewrite hex_digit_lower; [done|]. apply N.mod_lt. lia.
Qed.

Lemma hex_value_digits n u : (u < 16 ^ N.of_nat n)%N -> hex_value (hex_digits n u) = Some u.
Proof.
  unfold hex_value, hex_value_from. revert u. induction n as [|n IH]; intros u Hu.
  - simpl in *. f_equal. lia.
  - simpl. rewrite fold_left_app, IH.
    + simpl. rewrite hex_digit_value_digit by (apply N.mod_lt; lia). simpl.
      f_equal. pose proof (N.div_mod' u 16). lia.
    + rewrite Nat2N.inj_succ, N.pow_succ_r' in Hu. by apply N.Div0.div_lt_upper_bound.
Qed.

Lemma hex_digits_length n u : length (hex_digits n u) = n.
Proof. revert u. induction n; intros u; simpl; [done|]. rewrite length_app, IHn. simpl. lia. Qed.

Lemma hex_digits_hex n u : Forall (fun c => is_ascii_hexdigit c = true) (hex_digits n u).
Proof.
  revert u. induction n; intros u; simpl; [constructor|]. apply Forall_app. split; [done|].
  constructor; [|done]. apply hex_digit_hex, N.mod_lt. lia.
Qed.

(** ** [uuid] *)
Module SampleUuid.
Definition to_string (u : Uuid) : str :=
  let h := hex_digits 32 (uuid_u128 u) in
  take 8 h ++ [45%N] ++ take 4 (drop 8 h) ++ [45%N] ++ take 4 (drop 12 h) ++ [45%N] ++
  take 4 (drop 16 h) ++ [45%N] ++ drop 20 h.

Definition parse_str (s : str) : option Uuid :=
  if (length s =? 36)%nat then
    let h := take 8 s ++ take 4 (drop 9 s) ++ take 4 (drop 14 s) ++ take 4 (drop 19 s) ++ drop 24 s in
    hex_value h ≫= uuid_of_option
  else if (length s =? 32)%nat then hex_value s ≫= uuid_of_option
  else None.

#[global] Instance uuid_lib : UuidLib :=
  {| uuid_parse_str := parse_str; uuid_to_string := to_string |}.

Lemma uuid_of_option_id u : uuid_of_option (uuid_u128 u) = Some u.
Proof.
  destruct u as [n Hn]. simpl. unfold uuid_of_option.
  generalize (eq_refl (n <? 2 ^ 128)%N).
  generalize (n <? 2 ^ 128)%N at 2 3 as b. intros [] E; [|congruence].
  f_equal. by apply uuid_eq.
Qed.

Lemma parse_to_string u : parse_str (to_string u) = Some u.
Proof.
  unfold to_string. pose proof (hex_digits_length 32 (uuid_u128 u)) as Hl.
  assert (hex_value (hex_digits 32 (uuid_u128 u)) = Some (uuid_u128 u)) as Hv.
  { apply hex_value_digits. by apply N.ltb_lt, (uuid_bound u). }
  revert Hl Hv. generalize (hex_digits 32 (uuid_u128 u)) as h. intros h Hl Hv.
  do 32 (destruct h as [|? h]; [done|]). destruct h; [|done].
  unfold parse_str. simpl take; simpl drop. simpl app. simpl length. cbv iota.
  simpl take; simpl drop. simpl app. rewrite Hv. apply uuid_of_option_id.
Qed.

#[global] Instance uuid_laws : UuidLaws.
Proof.
  constructor; [apply parse_to_string|]. intros u. split.
  - simpl. unfold to_string. intros E%(f_equal length).
    rewrite !length_app in E. simpl in E. lia.
  - pose proof (hex_digits_hex 32 (uuid_u128 u)) as Hh.
    assert (forall l, Forall (fun c => is_ascii_hexdigit c = true) l ->
      Forall (fun c => is_ascii_hexdigit c || (c =? 45)%N = true) l) as Hw.
    { intros l Hl. eapply Forall_impl; [exact Hl|]. intros c Hc. apply orb_true_iff. by left. }
    simpl. unfold to_string.
    repeat (apply Forall_app; split); try (constructor; [done | constructor]);
      apply Hw; auto using Forall_take, Forall_drop.
Qed.
End SampleUuid.

(** ** Digests and encodings *)
Module SampleDigest.
Definition digest (bs : list N) : list N :=
  take 32 (map (fun b => b mod 256)%N bs ++ repeat 0%N 32).

Definition encode (bs : list N) : str := concat (map (hex_digits 2) bs).

Fixpoint decode (s : str) : option (list N) :=
  match s with
  | [] => Some []
  | a :: b :: s' => x ← hex_value [a; b]; xs ← decode s'; Some (x :: xs)
  | _ => None
  end.

Definition strings (l : list str) : list N :=
  concat (map (fun s => map N.succ s ++ [0%N]) l).

#[global] Instance digest_lib : DigestLib := {|
  sha256 := digest; hex_encode := encode; hex_decode := decode;
  json_string_array := strings
|}.

Lemma strings_inj l k : strings l = strings k -> l = k.
Proof.
  assert (forall (s t : str) x y,
    map N.succ s ++ 0%N :: x = map N.succ t ++ 0%N :: y -> s = t /\ x = y) as Hcut.
  { induction s as [|a s IH]; intros [|b t] x y E; simpl in E.
    - by injection E.
    - injection E as E _. lia.
    - injection E as E _. lia.
    - injection E as Ea E. apply IH in E as [-> ->]. split; [f_equal; lia | done]. }
  revert k. induction l as [|s l IH]; intros [|t k] E; unfold strings in E; simpl in E.
  - done.
  - by destruct t.
  - by destruct s.
  - rewrite <-!app_assoc in E. apply Hcut in E as [-> E]. f_equal. by apply IH.
Qed.

Lemma hexdigit_value c : is_ascii_hexdigit c = true -> exists d, hex_digit_value c = Some d.
Proof.
  unfold is_ascii_hexdigit, hex_digit_value.
  destruct (is_ascii_digit c); simpl; [eauto|].
  destruct ((97 <=? c) && (c <=? 102))%N; simpl; [eauto|].
  destruct ((65 <=? c) && (c <=? 70))%N; simpl; [eauto | discriminate].
Qed.

Lemma decode_total n s :
  length s <= n -> forallb is_ascii_hexdigit s = true -> Nat.even (length s) = true ->
  exists bs, decode s = Some bs /\ length s = 2 * length bs.
Proof.
  revert s. induction n as [|n IH]; intros [|a [|b s]] Hn Hh He;
    try (exists []; done); try done; try (simpl in Hn; lia).
  simpl in Hh. apply andb_prop in Hh as [Ha [Hb Hs]%andb_prop].
  destruct (hexdigit_value a Ha) as [x Hx], (hexdigit_value b Hb) as [y Hy].
  destruct (IH s) as (bs & Ebs & Lbs); [simpl in Hn; lia | done | done|].
  eexists. split.
  - cbn [decode]. unfold hex_value, hex_value_from. simpl. rewrite Hx. simpl. rewrite Hy. simpl.
    rewrite Ebs. done.
  - simpl. lia.
Qed.

#[global] Instance digest_laws : DigestLaws.
Proof.
  constructor; simpl.
  - intros bs. unfold digest. rewrite length_take, length_app, repeat_length. lia.
  - intros bs. apply Forall_take, Forall_app. split.
    + apply Forall_forall. intros x (y & -> & _)%list_elem_of_fmap. apply N.mod_lt. lia.
    + apply Forall_forall. intros x Hx. apply list_elem_of_In, repeat_spec in Hx as ->.
      unfold is_byte. lia.
  - induction 1 as [|b bs Hb _ IH]; [done|]. unfold encode. cbn [map concat].
    pose proof (hex_digits_length 2 b) as Hl.
    pose proof (hex_value_digits 2 b Hb) as Hv. revert Hl Hv.
    generalize (hex_digits 2 b) as h. intros [|x [|y [|? ?]]] Hl Hv; try done.
    change ([x; y] ++ concat (map (hex_digits 2) bs)) with (x :: y :: encode bs).
    cbn [decode]. rewrite Hv. simpl. by rewrite IH.
  - induction 1 as [|b bs Hb _ [IHl IHc]]; [done|]. unfold encode in *. cbn [map concat].
    rewrite length_app, forallb_app, IHl, IHc, hex_digits_length, hex_digits_lower.
    simpl. split; [lia | done].
  - intros s. by apply (decode_total (length s)).
  - apply strings_inj.
Qed.
End SampleDigest.

(** ** [url]: structured URLs, serialised as length-prefixed fields *)
Module SampleUrl.
Record sample_url := {
  scheme : str; user : str; password : option str; host : option Host;
  port : option N; path : str; query : option str; fragment : option str
}.

(** The prefix is one more than the length, so that no character is NUL. *)
Definition put (s : str) : str := N.of_nat (S (length s)) :: s.
Definition take_field (s : str) : option (str * str) :=
  match s with
  | [] => None
  | n :: s' => Some (take (pred (N.to_nat n)) s', drop (pred (N.to_nat n)) s')
  end.

Lemma take_field_put s r : take_field (put s ++ r) = Some (s, r).
Proof. unfold put. cbn [take_field app]. rewrite Nat2N.id. cbn [pred]. by rewrite take_app_length, drop_app_length. Qed.

(** An optional field is an empty list, or a marker and the value. *)
Definition of_option (o : option str) : str := match o with None => [] | Some s => 1%N :: s end.
Definition to_option (s : str) : option str := match s with [] => None | _ :: s' => Some s' end.
Definition of_host (h : option Host) : str :=
  match h with
  | None => []
  | Some (Domain d) => 1%N :: d
  | Some (Ipv4 a) => [2; a]%N
  | Some (Ipv6 a) => [3; a]%N
  end.
Definition to_host (s : str) : option Host :=
  match s with
  | 1%N :: d => Some (Domain d)
  | [2%N; a] => Some (Ipv4 a)
  | [3%N; a] => Some (Ipv6 a)
  | _ => None
  end.

Definition set_port_none (u : sample_url) : sample_url :=
  Build_sample_url (scheme u) (user u) (password u) (host u) None (path u) (query u) (fragment u).
Definition set_fragment_none (u : sample_url) : sample_url :=
  Build_sample_url (scheme u) (user u) (password u) (host u) (port u) (path u) (query u) None.

Definition to_string (u : sample_url) : str :=
  put (scheme u) ++ put (user u) ++ put (of_option (password u)) ++ put (of_host (host u)) ++
  put (match port u with None => [] | Some p => [p] end) ++ put (path u) ++
  put (of_option (query u)) ++ put (of_option (fragment u)) ++ [].

Definition parse (s : str) : result str sample_url :=
  ok_or
    ('(sc, s) ← take_field s; '(us, s) ← take_field s; '(pw, s) ← take_field s;
     '(ho, s) ← take_field s; '(po, s) ← take_field s; '(pa, s) ← take_field s;
     '(qu, s) ← take_field s; '(fr, s) ← take_field s;
     Some (Build_sample_url sc us (to_option pw) (to_host ho) (head po) pa
             (to_option qu) (to_option fr)))
    (lit "invalid").

Lemma parse_url_to_string u : parse (to_string u) = Ok u.
Proof.
  unfold parse, to_string. do 8 (rewrite take_field_put; cbv beta iota delta [mbind option_bind]).
  destruct u as [sc us [pw|] [[d|a|a]|] [po|] pa [qu|] [fr|]]; done.
Qed.

#[global] Instance url_lib : UrlLib := {|
  Url := sample_url; url_parse := parse; url_to_string := to_string; url_scheme := scheme;
  url_cannot_be_a_base _ := false; url_username := user; url_password := password;
  url_host := host;
  url_host_str u := match host u with Some (Domain d) => Some d | _ => None end;
  url_port := port; url_path := path; url_query := query; url_fragment := fragment;
  url_set_port_none u := Some (set_port_none u);
  url_set_fragment_none := set_fragment_none;
  url_origin_ascii := scheme
|}.

#[global] Instance url_laws : UrlLaws.
Proof.
  constructor; simpl.
  - apply parse_url_to_string.
  - done.
  - intros [] E. simpl in *. unfold set_fragment_none. simpl. by subst.
  - intros u d _ _. eexists. repeat split.
Qed.
End SampleUrl.
