(* ===== verification/Sha256.v ===== *)
(** * SHA-256 (FIPS 180-4)

    An executable instance of [DigestLib]: the hash the program's digests
    are of, on which the conformance examples compare concrete digests.  No
    theorem about the program depends on it. *)

From stdpp Require Import strings.
From S2P Require Import Prelude RustStr Externals Samples.

Module Sha256.
Local Open Scope N_scope.

(** ** Words of 32 bits *)
Definition w32 (x : N) : N := x mod 2 ^ 32.
Definition add32 (l : list N) : N := w32 (fold_right N.add 0 l).
Definition shr (n x : N) : N := N.shiftr x n.
Definition rotr (n x : N) : N := N.lor (N.shiftr x n) (w32 (N.shiftl x (32 - n))).
Definition not32 (x : N) : N := N.lxor x (2 ^ 32 - 1).

Definition ch (x y z : N) : N := N.lxor (N.land x y) (N.land (not32 x) z).
Definition maj (x y z : N) : N := N.lxor (N.lxor (N.land x y) (N.land x z)) (N.land y z).
Definition big_sigma0 (x : N) : N := N.lxor (N.lxor (rotr 2 x) (rotr 13 x)) (rotr 22 x).
Definition big_sigma1 (x : N) : N := N.lxor (N.lxor (rotr 6 x) (rotr 11 x)) (rotr 25 x).
Definition small_sigma0 (x : N) : N := N.lxor (N.lxor (rotr 7 x) (rotr 18 x)) (shr 3 x).
Definition small_sigma1 (x : N) : N := N.lxor (N.lxor (rotr 17 x) (rotr 19 x)) (shr 10 x).

(** ** Constants *)
(** Sixteen round constants to a number, the most significant word first. *)
Definition split_words (row : N) : list N :=
  map (fun i => w32 (shr (32 * i) row)) (map N.of_nat (rev (seq 0 16))).
Definition K : list N := concat (map split_words [
  0x428a2f9871374491b5c0fbcfe9b5dba53956c25b59f111f1923f82a4ab1c5ed5d807aa9812835b01243185be550c7dc372be5d7480deb1fe9bdc06a7c19bf174;
  0xe49b69c1efbe47860fc19dc6240ca1cc2de92c6f4a7484aa5cb0a9dc76f988da983e5152a831c66db00327c8bf597fc7c6e00bf3d5a7914706ca635114292967;
  0x27b70a852e1b21384d2c6dfc53380d13650a7354766a0abb81c2c92e92722c85a2bfe8a1a81a664bc24b8b70c76c51a3d192e819d6990624f40e3585106aa070;
  0x19a4c1161e376c082748774c34b0bcb5391c0cb34ed8aa4a5b9cca4f682e6ff3748f82ee78a5636f84c878148cc7020890befffaa4506cebbef9a3f7c67178f2]).

Record state := { a_ : N; b_ : N; c_ : N; d_ : N; e_ : N; f_ : N; g_ : N; h_ : N }.
Definition initial : state := {|
  a_ := 0x6a09e667; b_ := 0xbb67ae85; c_ := 0x3c6ef372; d_ := 0xa54ff53a;
  e_ := 0x510e527f; f_ := 0x9b05688c; g_ := 0x1f83d9ab; h_ := 0x5be0cd19 |}.

(** ** Padding and words *)
Definition padded (bytes : list N) : list N :=
  let len := N.of_nat (length bytes) in
  bytes ++ 128 :: repeat 0 (N.to_nat ((119 - len mod 64) mod 64)) ++
  map (fun i => shr (8 * i) (8 * len) mod 256) [7; 6; 5; 4; 3; 2; 1; 0].

Fixpoint words (bytes : list N) : list N :=
  match bytes with
  | a :: b :: c :: d :: bytes' => (((a * 256 + b) * 256 + c) * 256 + d) :: words bytes'
  | _ => []
  end.

Fixpoint blocks (fuel : nat) (ws : list N) : list (list N) :=
  match fuel, ws with
  | S fuel', _ :: _ => take 16 ws :: blocks fuel' (drop 16 ws)
  | _, _ => []
  end.

(** The schedule of a block, the newest word first. *)
Fixpoint schedule (n : nat) (ws : list N) : list N :=
  match n with
  | O => ws
  | S n' =>
      schedule n' (add32 [small_sigma1 (nth 1 ws 0); nth 6 ws 0; small_sigma0 (nth 14 ws 0); nth 15 ws 0] :: ws)
  end.

Definition round (s : state) (kw : N * N) : state :=
  let t1 := add32 [h_ s; big_sigma1 (e_ s); ch (e_ s) (f_ s) (g_ s); fst kw; snd kw] in
  let t2 := add32 [big_sigma0 (a_ s); maj (a_ s) (b_ s) (c_ s)] in
  {| a_ := add32 [t1; t2]; b_ := a_ s; c_ := b_ s; d_ := c_ s;
     e_ := add32 [d_ s; t1]; f_ := e_ s; g_ := f_ s; h_ := g_ s |}.

Definition compress (s : state) (block : list N) : state :=
  let t := fold_left round (zip K (reverse (schedule 48 (reverse block)))) s in
  {| a_ := add32 [a_ s; a_ t]; b_ := add32 [b_ s; b_ t]; c_ := add32 [c_ s; c_ t];
     d_ := add32 [d_ s; d_ t]; e_ := add32 [e_ s; e_ t]; f_ := add32 [f_ s; f_ t];
     g_ := add32 [g_ s; g_ t]; h_ := add32 [h_ s; h_ t] |}.

Definition word_bytes (w : N) : list N := map (fun i => shr (8 * i) w mod 256) [3; 2; 1; 0].

Definition digest (bytes : list N) : list N :=
  let ws := words (padded bytes) in
  let s := fold_left compress (blocks (length ws) ws) initial in
  concat (map word_bytes [a_ s; b_ s; c_ s; d_ s; e_ s; f_ s; g_ s; h_ s]).

#[export] Instance digest_lib : DigestLib := {|
  sha256 := digest; hex_encode := SampleDigest.encode; hex_decode := SampleDigest.decode;
  json_string_array := SampleDigest.strings
|}.

#[export] Instance digest_laws : DigestLaws.
Proof.
  constructor; simpl.
  - done.
  - intros bs. unfold digest. generalize (fold_left compress (blocks (length (words (padded bs)))
      (words (padded bs))) initial) as s. intros s. unfold word_bytes. cbn [map concat app].
    repeat (constructor; [by apply N.mod_lt|]). constructor.
  - apply (hex_decode_encode (H := SampleDigest.digest_lib)).
  - apply (hex_encode_text (H := SampleDigest.digest_lib)).
  - apply (hex_decode_total (H := SampleDigest.digest_lib)).
  - apply SampleDigest.strings_inj.
Qed.
End Sha256.

(** The standard's examples. *)
Example sha256_abc : SampleDigest.encode (Sha256.digest (lit "abc")) =
  lit "ba7816bf8f01cfea414140de5dae2223b00361a396177a9cb410ff61f20015ad".
Proof. by vm_compute. Qed.
Example sha256_empty : SampleDigest.encode (Sha256.digest []) =
  lit "e3b0c44298fc1c149afbf4c8996fb92427ae41e4649b934ca495991b7852b855".
Proof. by vm_compute. Qed.
Example sha256_two_blocks :
  SampleDigest.encode (Sha256.digest (lit "abcdbcdecdefdefgefghfghighijhijkijkljklmklmnlmnomnopnopq")) =
  lit "248d6a61d20638b8e5c026930c3e6039a33ce45964ff2167f6ecedd419db06c1".
Proof. by vm_compute. Qed.
