(* ===== verification/HttpError.v ===== *)
(** * HTTP errors ([src/error.rs])

    The status, machine code and message every handler error becomes. *)

From stdpp Require Import strings.
From S2P Require Import Prelude RustStr.

Abbreviation StatusCode := N.

Module StatusCode.
Definition OK : StatusCode := 200%N.
Definition CREATED : StatusCode := 201%N.
Definition BAD_REQUEST : StatusCode := 400%N.
Definition UNAUTHORIZED : StatusCode := 401%N.
Definition FORBIDDEN : StatusCode := 403%N.
Definition NOT_FOUND : StatusCode := 404%N.
Definition CONFLICT : StatusCode := 409%N.
Definition UNPROCESSABLE_ENTITY : StatusCode := 422%N.
Definition TOO_MANY_REQUESTS : StatusCode := 429%N.
Definition INTERNAL_SERVER_ERROR : StatusCode := 500%N.
Definition SERVICE_UNAVAILABLE : StatusCode := 503%N.
End StatusCode.
Import StatusCode.

Record HttpError := {
  status : StatusCode;
  code : str;
  message : str
}.

#[global] Instance http_error_eq_dec : EqDecision HttpError.
Proof. solve_decision. Defined.

Module Http.
Definition new (status : StatusCode) (code message : str) : HttpError :=
  {| status := status; code := code; message := message |}.

(** The error's [Display] text is the argument. *)
Definition validation (error : str) : HttpError :=
  new UNPROCESSABLE_ENTITY (lit "validation_error") error.
Definition bad_request (message : str) : HttpError :=
  new BAD_REQUEST (lit "bad_request") message.
Definition unauthorized (message : str) : HttpError :=
  new UNAUTHORIZED (lit "unauthorized") message.
Definition forbidden (message : str) : HttpError :=
  new FORBIDDEN (lit "forbidden") message.
Definition not_found (message : str) : HttpError :=
  new NOT_FOUND (lit "not_found") message.
Definition conflict (message : str) : HttpError :=
  new CONFLICT (lit "conflict") message.
Definition database_required : HttpError :=
  new SERVICE_UNAVAILABLE (lit "database_required")
    (lit "this route requires durable PostgreSQL storage").
Definition ingest_auth_required : HttpError :=
  new SERVICE_UNAVAILABLE (lit "ingest_auth_required")
    (lit "page ingestion is disabled until crawler authentication is configured").
(** The error itself is only logged. *)
Definition internal (error : str) : HttpError :=
  new INTERNAL_SERVER_ERROR (lit "internal_error")
    (lit "the request could not be completed").

(** [From<sea_orm::DbErr>] and [From<serde_json::Error>]. *)
Definition from_db_err (error : str) : HttpError := internal error.
Definition from_json_err (error : str) : HttpError := internal error.
End Http.

(** [IntoResponse]: the status line and the JSON body's two fields. *)
Record ErrorBody := { body_code : str; body_message : str }.
Definition into_response (e : HttpError) : StatusCode * ErrorBody :=
  (status e, {| body_code := code e; body_message := message e |}).
