(* ===== verification/SourceScope.v ===== *)
(** * Source scoping of alert rules ([src/source_scope.rs])

    Parsing and normalising the [source_filters] of a rule, and constraining
    the sources of a search to them.  [policy] is the finite-set policy of
    [formal/source-scope/model.py]; [constrain_search_sources_refines] shows
    that the code implements it. *)

From stdpp Require Import gmap strings.
From S2P Require Import Prelude Ordered RustStr Externals Samples.

Inductive SourceScopeError :=
| TooManyRuleFilters
| InvalidRuleFilter
| RequestedSourceOutsideRuleScope.

#[global] Instance source_scope_error_eq_dec : EqDecision SourceScopeError.
Proof. solve_decision. Defined.

(** [impl fmt::Display for SourceScopeError] *)
Definition scope_error_to_string (e : SourceScopeError) : str :=
  match e with
  | TooManyRuleFilters => lit "source_filters must contain at most 100 source IDs"
  | InvalidRuleFilter => lit "each source_filters value must be a UUID or source:<UUID>"
  | RequestedSourceOutsideRuleScope =>
      lit "requested source_ids must be a subset of the alert rule source_filters"
  end.

Definition MAX_SOURCE_FILTERS : nat := 100.
Definition SOURCE_PREFIX : str := lit "source:".

(** The set policy the code is to implement. *)
Definition policy (rule_scope request_scope : gset Uuid) : option (gset Uuid) :=
  if decide (rule_scope = ∅) then Some request_scope
  else if decide (request_scope = ∅) then Some rule_scope
  else if decide (request_scope ⊆ rule_scope) then Some request_scope
  else None.

Section SourceScope.
Context `{UuidLib}.

Definition parse_source_filter (value : str) : result SourceScopeError Uuid :=
  let value := trim value in
  reject InvalidRuleFilter when negb (nonempty value) ;;
  let uuid := default value (strip_prefix SOURCE_PREFIX value) in
  ok_or (uuid_parse_str uuid) InvalidRuleFilter.

Definition parse_source_filter_ids (values : list str) : result SourceScopeError (list Uuid) :=
  reject TooManyRuleFilters when (MAX_SOURCE_FILTERS <? length values)%nat ;;
  btree_of_list <$> mapM parse_source_filter values.

Definition format_source_filter (source_id : Uuid) : str :=
  SOURCE_PREFIX ++ uuid_to_string source_id.

(** The new contents of [*values]; on an error it is left as it was. *)
Definition normalize_source_filters (values : list str) : result SourceScopeError (list str) :=
  ids ← parse_source_filter_ids values;
  Ok (map format_source_filter ids).

Definition validate_source_filters (values : list str) : result SourceScopeError unit :=
  (fun _ => tt) <$> parse_source_filter_ids values.

Definition constrain_search_sources
    (rule_filters : list str) (requested_source_ids : list Uuid)
    : result SourceScopeError (list Uuid) :=
  rule_scope ← parse_source_filter_ids rule_filters;
  let requested := btree_of_list requested_source_ids in
  if negb (nonempty rule_scope) then Ok requested
  else
    let rule_scope := btree_of_list rule_scope in
    if negb (nonempty requested) then Ok rule_scope
    else
      reject RequestedSourceOutsideRuleScope
        when existsb (fun source_id => negb (bool_decide (source_id ∈ rule_scope))) requested ;;
      Ok requested.

(** ** Parsing *)
Lemma parse_source_filter_ids_ok values ids :
  parse_source_filter_ids values = Ok ids ->
  btree_wf ids /\ length ids <= MAX_SOURCE_FILTERS /\
  exists parsed, Forall2 (fun v u => parse_source_filter v = Ok u) values parsed /\
    ids = btree_of_list parsed.
Proof.
  unfold parse_source_filter_ids. intros Hp. inv_ok. bool_prop. subst ids.
  apply mapM_ok_Forall2 in Ha. split; [apply btree_of_list_wf|]. split; [|eauto].
  pose proof (btree_of_list_length a). apply Forall2_length in Ha. lia.
Qed.

Lemma elem_of_parsed values ids u :
  parse_source_filter_ids values = Ok ids ->
  u ∈ ids <-> exists v, v ∈ values /\ parse_source_filter v = Ok u.
Proof.
  intros (_ & _ & parsed & Hp & ->)%parse_source_filter_ids_ok.
  rewrite elem_of_btree_of_list. split.
  - intros Hu. destruct (Forall2_elem_r _ _ _ _ Hp Hu) as (v & Hv & E). eauto.
  - intros (v & Hv & E). destruct (Forall2_elem_l _ _ _ _ Hp Hv) as (u' & Hu & E'). congruence.
Qed.
End SourceScope.

Section SourceScopeLaws.
Context `{UuidLaws}.

Lemma parse_format_source_filter u : parse_source_filter (format_source_filter u) = Ok u.
Proof.
  assert (trim (format_source_filter u) = format_source_filter u) as Ht.
  { destruct (uuid_to_string_chars u) as [Hne _].
    pose proof (uuid_to_string_trim u) as Hu. pose proof (trim_matches_untrimmable is_whitespace (uuid_to_string u)) as [_ Hl].
    unfold trim in Hu. rewrite Hu in Hl.
    apply trim_matches_id. split.
    - intros x k [= <- _]. done.
    - intros x k E. destruct (exists_last Hne) as (k' & x' & Ek).
      unfold format_source_filter in E. rewrite Ek, app_assoc in E.
      apply app_inj_tail in E as [_ <-]. by apply (Hl x' k'). }
  unfold parse_source_filter. rewrite Ht.
  rewrite (proj2 (strip_prefix_Some SOURCE_PREFIX (format_source_filter u) (uuid_to_string u))) by done.
  simpl. by rewrite uuid_parse_to_string.
Qed.

Lemma mapM_parse_format ids :
  mapM parse_source_filter (map format_source_filter ids) = Ok ids.
Proof.
  apply mapM_ok_Forall2. induction ids; constructor; auto using parse_format_source_filter.
Qed.

Lemma parse_normalized ids :
  btree_wf ids -> length ids <= MAX_SOURCE_FILTERS ->
  parse_source_filter_ids (map format_source_filter ids) = Ok ids.
Proof.
  intros Hwf Hlen. unfold parse_source_filter_ids.
  rewrite length_map, (proj2 (Nat.ltb_ge _ _)), mapM_parse_format by done.
  simpl. by rewrite btree_of_list_id.
Qed.
End SourceScopeLaws.

(** ** Properties *)
Section Properties.
Context `{UuidLib}.

Lemma nonempty_false {A} (l : list A) : negb (nonempty l) = true <-> l = [].
Proof. by destruct l. Qed.

Lemma list_to_set_empty_iff (l : list Uuid) : (list_to_set l : gset Uuid) = ∅ <-> l = [].
Proof. split; [|by intros ->]. destruct l; set_solver. Qed.

Lemma btree_of_list_set (l : list Uuid) :
  (list_to_set (btree_of_list l) : gset Uuid) = list_to_set l.
Proof. apply set_eq. intros x. by rewrite !elem_of_list_to_set, elem_of_btree_of_list. Qed.

Lemma existsb_not_in_subset (requested scope : list Uuid) :
  existsb (fun x => negb (bool_decide (x ∈ scope))) requested = false <->
  (list_to_set requested : gset Uuid) ⊆ list_to_set scope.
Proof.
  rewrite existsb_false_Forall, Forall_forall, elem_of_subseteq.
  setoid_rewrite elem_of_list_to_set. setoid_rewrite negb_false_iff.
  by setoid_rewrite bool_decide_eq_true.
Qed.

(** C18: constraining a search implements the set policy of the formal model:
    when the rule's filters parse, an accepted search gets exactly the
    policy's sources, in ascending order without duplicates, and a search the
    policy rejects fails as out of scope; when they do not parse, the parse
    error is the answer. *)
Theorem constrain_search_sources_refines rule_filters requested :
  match parse_source_filter_ids rule_filters with
  | Err e => constrain_search_sources rule_filters requested = Err e
  | Ok rule_scope =>
      match constrain_search_sources rule_filters requested with
      | Ok sources => btree_wf sources /\
          policy (list_to_set rule_scope) (list_to_set requested) = Some (list_to_set sources)
      | Err e => e = RequestedSourceOutsideRuleScope /\
          policy (list_to_set rule_scope) (list_to_set requested) = None
      end
  end.
Proof.
  unfold constrain_search_sources, policy.
  destruct (parse_source_filter_ids rule_filters) as [scope|e]; [|done]. simpl.
  destruct (negb (nonempty scope)) eqn:Es.
  { apply nonempty_false in Es as ->. rewrite decide_True by done.
    rewrite btree_of_list_set. auto with eal. }
  rewrite decide_False; [|rewrite list_to_set_empty_iff, <-nonempty_false; congruence].
  destruct (negb (nonempty (btree_of_list requested))) eqn:Er.
  { apply nonempty_false, btree_of_list_nil_iff in Er as ->. rewrite decide_True by done.
    rewrite btree_of_list_set. auto with eal. }
  rewrite decide_False
    by (rewrite list_to_set_empty_iff, <-btree_of_list_nil_iff, <-nonempty_false; congruence).
  destruct (existsb _ _) eqn:Ex.
  - split; [done|]. rewrite decide_False; [done|].
    rewrite <-btree_of_list_set, <-(btree_of_list_set scope), <-existsb_not_in_subset. congruence.
  - apply existsb_not_in_subset in Ex. rewrite !btree_of_list_set in Ex.
    rewrite decide_True, btree_of_list_set by done. auto with eal.
Qed.

(** Filters are accepted exactly when there are at most 100 and every one
    of them is a UUID or [source:<UUID>]; anything else fails closed. *)
Lemma validate_source_filters_iff values :
  validate_source_filters values = Ok tt <->
  length values <= MAX_SOURCE_FILTERS /\
  Forall (fun v => exists u, parse_source_filter v = Ok u) values.
Proof.
  unfold validate_source_filters, parse_source_filter_ids.
  destruct (Nat.ltb_spec MAX_SOURCE_FILTERS (length values)) as [Hl|Hl]; simpl.
  { split; [discriminate | lia]. }
  destruct (mapM parse_source_filter values) as [parsed|e] eqn:Em; simpl.
  - apply mapM_ok_Forall2 in Em. split; [intros _|done]. split; [done|].
    apply Forall_forall. intros v Hv.
    destruct (Forall2_elem_l _ _ _ _ Em Hv) as (u & _ & E). eauto.
  - split; [discriminate|]. intros [_ Hall].
    destruct (mapM_err _ _ _ Em) as (v & Hv & E).
    rewrite Forall_forall in Hall. destruct (Hall v Hv). congruence.
Qed.

(** filter lists that name the same sources normalise to the same vector,
    whatever their order, duplicates, whitespace or prefixes. *)
Theorem normalize_source_filters_ext a b :
  is_ok (validate_source_filters a) = true ->
  is_ok (validate_source_filters b) = true ->
  (forall u, (exists v, v ∈ a /\ parse_source_filter v = Ok u) <->
             (exists v, v ∈ b /\ parse_source_filter v = Ok u)) ->
  normalize_source_filters a = normalize_source_filters b.
Proof.
  unfold validate_source_filters, normalize_source_filters.
  destruct (parse_source_filter_ids a) as [ia|] eqn:Ea; [|discriminate].
  destruct (parse_source_filter_ids b) as [ib|] eqn:Eb; [|discriminate].
  intros _ _ Hab. simpl. do 2 f_equal. apply btree_ext.
  - by apply (parse_source_filter_ids_ok a).
  - by apply (parse_source_filter_ids_ok b).
  - intros u. by rewrite (elem_of_parsed _ _ _ Ea), (elem_of_parsed _ _ _ Eb).
Qed.
End Properties.

Lemma normalize_source_filters_ok `{UuidLaws} values out :
  normalize_source_filters values = Ok out ->
  exists ids, parse_source_filter_ids values = Ok ids /\
    out = map format_source_filter ids /\ btree_wf ids /\ length out <= MAX_SOURCE_FILTERS /\
    parse_source_filter_ids out = Ok ids.
Proof.
  unfold normalize_source_filters. intros Hn. inv_ok. rename a into ids.
  destruct (parse_source_filter_ids_ok _ _ Ha) as (Hwf & Hlen & _).
  exists ids. rewrite length_map, parse_normalized by done. auto.
Qed.

Lemma normalize_source_filters_idem `{UuidLaws} values out :
  normalize_source_filters values = Ok out -> normalize_source_filters out = Ok out.
Proof.
  intros (ids & _ & -> & _ & _ & Hp)%normalize_source_filters_ok.
  unfold normalize_source_filters. by rewrite Hp.
Qed.

(** C40: the normal form of accepted filters is canonical: it is the ascending
    list of [source:<uuid>] values without duplicates, at most 100 of them,
    it means the same sources, and normalising it again changes nothing. *)
Theorem normalize_source_filters_canonical `{UuidLaws} values out :
  normalize_source_filters values = Ok out ->
  exists ids, parse_source_filter_ids values = Ok ids /\
    out = map format_source_filter ids /\ btree_wf ids /\ length out <= MAX_SOURCE_FILTERS /\
    parse_source_filter_ids out = Ok ids /\ normalize_source_filters out = Ok out.
Proof.
  intros Hn. destruct (normalize_source_filters_ok _ _ Hn) as (ids & ? & ? & ? & ? & ?).
  apply normalize_source_filters_idem in Hn. eauto 10.
Qed.

(** Concrete filters for the witnesses. *)
Module Example.
Export SampleUuid.
Definition id (n : N) : Uuid := uuid_from_u128 n.
Definition bare (n : N) : str := uuid_to_string (id n).
Definition prefixed (n : N) : str := lit " source:" ++ uuid_to_string (id n) ++ lit " ".
End Example.
Import Example.

Lemma normalize_source_filters_ext_witness :
  normalize_source_filters [prefixed 2; bare 1; bare 2] =
  normalize_source_filters [bare 1; prefixed 2].
Proof.
  apply normalize_source_filters_ext; [by vm_compute..|].
  intros u. split; intros (v & Hv & E);
    repeat (apply elem_of_cons in Hv as [-> | Hv]); try (by apply elem_of_nil in Hv).
  - exists (prefixed 2). split; [set_solver | exact E].
  - exists (bare 1). split; [set_solver | exact E].
  - exists (prefixed 2). split; [set_solver|]. rewrite <-E. by vm_compute.
  - exists (bare 1). split; [set_solver | exact E].
  - exists (prefixed 2). split; [set_solver | exact E].
Defined.

Lemma normalize_source_filters_canonical_witness :
  exists out, normalize_source_filters [prefixed 2; bare 1; bare 2] = Ok out /\
    normalize_source_filters out = Ok out.
Proof.
  eexists. split; [by vm_compute|].
  edestruct (normalize_source_filters_canonical [prefixed 2; bare 1; bare 2])
    as (ids & _ & _ & _ & _ & _ & Hn); [by vm_compute | exact Hn].
Defined.
