(* ===== verification/Alerts.v ===== *)
(** * Alert rules as the API receives them ([src/alerts.rs])

    The creation request of an alert rule, its normalisation and its
    validation.  [AlertRule] is the record handlers return. *)

From stdpp Require Import strings.
From S2P Require Import Prelude Ordered RustStr Floats Externals Samples SourceScope.

Definition MAX_NAME_BYTES : N := 256.
Definition MAX_QUERY_CHARS : N := 700.
Definition MAX_MODEL_BYTES : N := 160.
Definition MAX_DELIVERY_CHANNELS : nat := 32.
Definition MAX_DELIVERY_CHANNEL_BYTES : N := 120.

Record AlertRule := {
  ar_id : Uuid;
  ar_tenant_id : Uuid;
  ar_owner_subject : str;
  ar_revision_id : Uuid;
  ar_revision_number : Z;
  ar_created_at : Timestamp;
  ar_updated_at : Timestamp;
  ar_revision_created_at : Timestamp;
  ar_name : str;
  ar_query_text : str;
  ar_embedding_model : str;
  ar_similarity_threshold : f32;
  ar_source_filters : list str;
  ar_delivery_channels : list str;
  ar_enabled : bool
}.

Record CreateAlertRule := {
  name : str;
  query_text : str;
  embedding_model : str;
  similarity_threshold : f32;
  source_filters : list str;
  delivery_channels : list str;
  enabled : bool
}.

(** [#[serde(default = "default_enabled")]] *)
Definition default_enabled : bool := true.

Definition collapse_whitespace (input : str) : str := join [32%N] (split_whitespace input).

Definition validate_list (values : list str) (max_items : nat) (max_bytes : N) (name : str)
    : result str unit :=
  reject name ++ lit " must contain at most " ++ N_to_string (N.of_nat max_items) ++ lit " values"
    when (max_items <? length values)%nat ;;
  reject lit "every " ++ name ++ lit " value must contain between 1 and " ++
         N_to_string max_bytes ++ lit " bytes"
    when existsb (fun value => negb (nonempty value) || (max_bytes <? str_len value)%N) values ;;
  Ok tt.

(** The vector after the call; on an error the caller discards it. *)
Definition normalize_list (values : list str) (max_items : nat) (max_bytes : N) (name : str)
    : result str (list str) :=
  let values := map trim values in
  let values := vec_dedup (vec_sort values) in
  _ ← validate_list values max_items max_bytes name;
  Ok values.

Section Rules.
Context `{UuidLib}.

Definition validate (self : CreateAlertRule) : result str unit :=
  reject lit "name must contain between 1 and 256 bytes"
    when negb (nonempty (name self)) || (MAX_NAME_BYTES <? str_len (name self))%N ;;
  let query_chars := chars_count (query_text self) in
  reject lit "query_text must contain between 3 and 700 characters"
    when negb ((3 <=? query_chars) && (query_chars <=? MAX_QUERY_CHARS))%N ;;
  reject lit "embedding_model must contain between 1 and 160 bytes"
    when negb (nonempty (embedding_model self)) ||
         (MAX_MODEL_BYTES <? str_len (embedding_model self))%N ;;
  reject lit "similarity_threshold must be finite and between 0 and 1"
    when negb (is_finite (similarity_threshold self)) ||
         negb (f32_in_unit (similarity_threshold self)) ;;
  _ ← map_err scope_error_to_string (validate_source_filters (source_filters self));
  _ ← validate_list (delivery_channels self) MAX_DELIVERY_CHANNELS
        MAX_DELIVERY_CHANNEL_BYTES (lit "delivery_channels");
  Ok tt.

Definition normalized (self : CreateAlertRule) : result str CreateAlertRule :=
  source_filters' ← map_err scope_error_to_string (normalize_source_filters (source_filters self));
  delivery_channels' ← normalize_list (delivery_channels self) MAX_DELIVERY_CHANNELS
        MAX_DELIVERY_CHANNEL_BYTES (lit "delivery_channels");
  let self' := {|
    name := trim (name self);
    query_text := collapse_whitespace (query_text self);
    embedding_model := trim (embedding_model self);
    similarity_threshold := similarity_threshold self;
    source_filters := source_filters';
    delivery_channels := delivery_channels';
    enabled := enabled self
  |} in
  _ ← validate self';
  Ok self'.

(** ** What validation accepts *)
Record rule_ok (r : CreateAlertRule) : Prop := {
  ok_name : name r <> [] /\ (str_len (name r) <= MAX_NAME_BYTES)%N;
  ok_query : (3 <= chars_count (query_text r) <= MAX_QUERY_CHARS)%N;
  ok_model : embedding_model r <> [] /\ (str_len (embedding_model r) <= MAX_MODEL_BYTES)%N;
  ok_threshold : is_finite (similarity_threshold r) = true /\
    fle fzero (similarity_threshold r) = true /\ fle (similarity_threshold r) f32_one = true;
  ok_filters : length (source_filters r) <= MAX_SOURCE_FILTERS /\
    Forall (fun v => exists u, parse_source_filter v = Ok u) (source_filters r);
  ok_channels : length (delivery_channels r) <= MAX_DELIVERY_CHANNELS /\
    Forall (fun v => v <> [] /\ (str_len v <= MAX_DELIVERY_CHANNEL_BYTES)%N)
      (delivery_channels r)
}.

Lemma bounded_bytes_iff (v : str) n :
  negb (nonempty v) || (n <? str_len v)%N = false <-> v <> [] /\ (str_len v <= n)%N.
Proof. rewrite orb_false_iff, negb_false_iff, N.ltb_ge. destruct v; simpl; intuition congruence. Qed.

Lemma validate_list_ok values max_items max_bytes n :
  validate_list values max_items max_bytes n = Ok tt <->
  length values <= max_items /\ Forall (fun v => v <> [] /\ (str_len v <= max_bytes)%N) values.
Proof.
  unfold validate_list. rewrite !reject_ok, Nat.ltb_ge, existsb_false_Forall.
  setoid_rewrite bounded_bytes_iff. tauto.
Qed.

Lemma normalize_list_ok values max_items max_bytes n out :
  normalize_list values max_items max_bytes n = Ok out <->
  out = btree_of_list (map trim values) /\ validate_list out max_items max_bytes n = Ok tt.
Proof.
  unfold normalize_list. rewrite sort_dedup_btree. split.
  - intros Hn. inv_ok. by destruct a.
  - intros [-> Hv]. by rewrite Hv.
Qed.

Lemma normalized_ok r r' :
  normalized r = Ok r' ->
  normalize_source_filters (source_filters r) = Ok (source_filters r') /\
  normalize_list (delivery_channels r) MAX_DELIVERY_CHANNELS MAX_DELIVERY_CHANNEL_BYTES
    (lit "delivery_channels") = Ok (delivery_channels r') /\
  name r' = trim (name r) /\ query_text r' = collapse_whitespace (query_text r) /\
  embedding_model r' = trim (embedding_model r) /\
  similarity_threshold r' = similarity_threshold r /\ enabled r' = enabled r /\
  validate r' = Ok tt.
Proof. unfold normalized. intros Hn. inv_ok. destruct a1. repeat split; auto. Qed.

(** Validation accepts exactly these. *)
Lemma validate_iff r : validate r = Ok tt <-> rule_ok r.
Proof.
  unfold validate. rewrite !reject_ok, !bounded_bytes_iff, negb_false_iff, orb_false_iff,
    !negb_false_iff, andb_true_iff, !N.leb_le. unfold f32_in_unit. rewrite andb_true_iff.
  split.
  - intros (Hn & Hq & Hm & [Hf Hu] & Hv). inv_ok. destruct a, a0.
    apply validate_source_filters_iff in Ha. apply validate_list_ok in Ha0. by constructor.
  - intros [Hn Hq Hm (Hf & Hu) Hs Hc]. apply validate_source_filters_iff in Hs.
    apply validate_list_ok with (n := lit "delivery_channels") in Hc.
    rewrite Hs. simpl. by rewrite Hc.
Qed.
End Rules.

(** Normalising a rule is idempotent: the normal form of an accepted rule
    is itself accepted and unchanged, so clients that send back what they
    received create the same rule. *)
Theorem normalized_idempotent `{UuidLaws} r r' :
  normalized r = Ok r' -> normalized r' = Ok r'.
Proof.
  intros (Hs & Hd & Hn & Hq & Hm & _ & _ & Hv)%normalized_ok.
  apply normalize_source_filters_idem in Hs as Hs'.
  assert (normalize_list (delivery_channels r') MAX_DELIVERY_CHANNELS MAX_DELIVERY_CHANNEL_BYTES
    (lit "delivery_channels") = Ok (delivery_channels r')) as Hd'.
  { apply normalize_list_ok in Hd as [E Hd]. apply normalize_list_ok. split; [|done].
    rewrite E. symmetry. apply btree_ext; [apply btree_of_list_wf..|].
    intros x. rewrite elem_of_btree_of_list, list_elem_of_fmap. split.
    - intros (y & -> & (z & -> & Hz)%elem_of_btree_of_list%list_elem_of_fmap).
      rewrite trim_idem. apply elem_of_btree_of_list, list_elem_of_fmap. eauto.
    - intros Hx. exists x. split; [|done].
      apply elem_of_btree_of_list, list_elem_of_fmap in Hx as (z & -> & _).
      by rewrite trim_idem. }
  unfold normalized. rewrite Hs'. simpl. rewrite Hd'. simpl.
  assert (trim (name r') = name r') as -> by (rewrite Hn; apply trim_idem).
  assert (trim (embedding_model r') = embedding_model r') as -> by (rewrite Hm; apply trim_idem).
  assert (collapse_whitespace (query_text r') = query_text r') as ->
    by (rewrite Hq; apply collapse_ws_idem).
  destruct r' as [n q m t s d e]. simpl in *. by rewrite Hv.
Qed.

Module RuleExample.
Export SourceScope.Example.
Definition input : CreateAlertRule := {|
  name := lit " Renewable launches ";
  query_text := lit " Notify me  when Acme launches renewable tools. ";
  embedding_model := lit " text-embedding-v1 ";
  similarity_threshold := S754_finite false 13757317 (-24);
  source_filters := [prefixed 2; bare 1; prefixed 2];
  delivery_channels := [lit "in_app "; lit "email"; lit "in_app"];
  enabled := true
|}.
End RuleExample.

Lemma normalized_idempotent_witness :
  exists r', normalized RuleExample.input = Ok r' /\ normalized r' = Ok r'.
Proof.
  eexists. split; [by vm_compute|].
  eapply (normalized_idempotent RuleExample.input). by vm_compute.
Defined.
