(* ===== verification/Indexing.v ===== *)
(** * Canonical URLs of indexed pages ([src/indexing.rs])

    A URL is indexed only if it is an [http(s)] URL without credentials whose
    host is a public DNS name on the source's allowlist and whose path is under
    an allowed prefix; the canonical form drops the default port and the
    fragment. *)

From stdpp Require Import gmap strings.
From S2P Require Import Prelude Ordered RustStr Externals Samples.

Definition normalize_host (host : str) : str :=
  to_ascii_lowercase (trim_end_matches (N.eqb 46) (trim host)).

Definition host_is_allowed (host : str) (allowed_hosts : list str) (include_subdomains : bool)
    : bool :=
  existsb (fun allowed =>
    let allowed := normalize_host allowed in
    bool_decide (host = allowed) ||
    (include_subdomains &&
     match strip_suffix allowed host with
     | Some prefix => ends_with_char 46 prefix && (1 <? str_len prefix)%N
     | None => false
     end)) allowed_hosts.

Definition path_is_allowed (path prefix : str) : bool :=
  if bool_decide (prefix = lit "/") then true
  else
    let prefix := trim_end_matches (N.eqb 47) prefix in
    bool_decide (path = prefix) ||
    match strip_prefix prefix path with
    | Some remaining => starts_with_char 47 remaining
    | None => false
    end.

Section Indexing.
Context `{UrlLib}.

Definition is_http (scheme : str) : bool :=
  bool_decide (scheme = lit "http") || bool_decide (scheme = lit "https").

Definition canonicalize (raw_url : str) (allowed_hosts : list str) (include_subdomains : bool)
    (allowed_path_prefixes : list str) : result ValidationError str :=
  url ← map_err (fun error => lit "invalid absolute URL: " ++ error) (url_parse raw_url);
  reject lit "only http and https URLs may be indexed" when negb (is_http (url_scheme url)) ;;
  reject lit "URL cannot be used as a crawl base" when url_cannot_be_a_base url ;;
  reject lit "URL credentials are forbidden for indexed sources"
    when nonempty (url_username url) || bool_decide (is_Some (url_password url)) ;;
  host ← match url_host url with
         | Some (Domain host) => Ok (normalize_host host)
         | Some (Ipv4 _) | Some (Ipv6 _) =>
             Err (lit "literal IP addresses are forbidden; configure an exact public domain")
         | None => Err (lit "URL must include a public host")
         end;
  reject lit "URL must use an exact public DNS host"
    when bool_decide (host = lit "localhost") || negb (contains_char 46 host) ;;
  reject lit "host " ++ host ++ lit " is outside the source allowlist"
    when negb (host_is_allowed host allowed_hosts include_subdomains) ;;
  reject lit "path " ++ url_path url ++ lit " is outside the source allowlist"
    when negb (existsb (fun prefix => path_is_allowed (url_path url) prefix)
                 allowed_path_prefixes) ;;
  let is_default_port :=
    (bool_decide (url_scheme url = lit "http") && bool_decide (url_port url = Some 80%N)) ||
    (bool_decide (url_scheme url = lit "https") && bool_decide (url_port url = Some 443%N)) in
  url ← (if is_default_port
         then ok_or (url_set_port_none url) (lit "could not normalize URL port")
         else Ok url);
  let url := url_set_fragment_none url in
  Ok (url_to_string url).

(** The source record carries the same four fields as the creation request. *)
Definition canonicalize_source_root (input : CreateSourcePolicy) : result ValidationError str :=
  canonicalize (cs_root_url input) (cs_allowed_hosts input) (cs_include_subdomains input)
    (cs_allowed_path_prefixes input).
End Indexing.

(** ** Allowlists *)

(** A host is on the list if it is an entry, or, with subdomains, if it is a
    nonempty label sequence, a dot and an entry. *)
Definition host_spec (host : str) (allowed_hosts : list str) (include_subdomains : bool) : Prop :=
  exists allowed, allowed ∈ allowed_hosts /\
    (host = normalize_host allowed \/
     include_subdomains = true /\
     exists label, label <> [] /\ host = label ++ [46%N] ++ normalize_host allowed).

Definition path_spec (path prefix : str) : Prop :=
  prefix = lit "/" \/
  path = trim_end_matches (N.eqb 47) prefix \/
  exists rest, path = trim_end_matches (N.eqb 47) prefix ++ [47%N] ++ rest.

Lemma str_len_app a b : str_len (a ++ b) = (str_len a + str_len b)%N.
Proof.
  induction a as [|c a IH]; [done|].
  change (str_len ((c :: a) ++ b)) with (char_len_utf8 c + str_len (a ++ b))%N.
  change (str_len (c :: a)) with (char_len_utf8 c + str_len a)%N. lia.
Qed.

(** The host allowlist matches whole DNS labels: a host passes exactly if
    it equals a normalised entry or, when subdomains are enabled, ends in a
    dot and an entry with something in front of the dot. *)
Lemma host_is_allowed_iff host allowed_hosts include_subdomains :
  host_is_allowed host allowed_hosts include_subdomains = true <->
  host_spec host allowed_hosts include_subdomains.
Proof.
  unfold host_is_allowed, host_spec. rewrite existsb_true_Exists, Exists_exists.
  apply exist_proper. intros allowed. apply and_iff_compat_l.
  rewrite orb_true_iff, bool_decide_eq_true, andb_true_iff. apply or_iff_compat_l.
  apply and_iff_compat_l. destruct (strip_suffix _ _) as [prefix|] eqn:E.
  - apply strip_suffix_Some in E as ->. rewrite andb_true_iff, N.ltb_lt, ends_with_char_spec. split.
    + intros [(label & ->) Hlen]. exists label. rewrite <-app_assoc. split; [|done].
      intros ->. simpl in Hlen. done.
    + intros (label & Hne & E). rewrite app_assoc in E. apply app_inv_tail in E as ->.
      split; [eauto|]. rewrite str_len_app. pose proof (chars_count_le_len label).
      pose proof (nonempty_chars label Hne). change (str_len [46%N]) with 1%N. lia.
  - split; [discriminate|]. intros (label & _ & ->). exfalso. rewrite app_assoc in E.
    by rewrite (proj2 (strip_suffix_Some _ _ _) eq_refl) in E.
Qed.

(** Path prefixes match whole segments: [/inside] admits [/inside] and
    [/inside/item] but not [/inside-item]. *)
Lemma path_is_allowed_iff path prefix :
  path_is_allowed path prefix = true <-> path_spec path prefix.
Proof.
  unfold path_is_allowed, path_spec. destruct (bool_decide (prefix = lit "/")) eqn:Er.
  { apply bool_decide_eq_true in Er. tauto. }
  apply bool_decide_eq_false in Er. rewrite orb_true_iff, bool_decide_eq_true.
  destruct (strip_prefix _ path) as [rest|] eqn:E.
  - apply strip_prefix_Some in E as ->. rewrite starts_with_char_spec. split.
    + intros [? | (k & ->)]; eauto.
    + intros [? | [? | (k & Ek)]]; [done | by left|].
      apply app_inv_head in Ek. eauto.
  - split; [intros [?|?]; [tauto | discriminate]|].
    intros [? | [? | (k & ->)]]; [done | by left|].
    by rewrite (proj2 (strip_prefix_Some _ _ _) eq_refl) in E.
Qed.

Section Canonical.
Context `{UrlLib}.

(** What [canonicalize] requires of a parsed URL. *)
Record indexable (url : Url) (hosts : list str) (subdomains : bool) (prefixes : list str)
    (host : str) : Prop := {
  ix_scheme : url_scheme url = lit "http" \/ url_scheme url = lit "https";
  ix_base : url_cannot_be_a_base url = false;
  ix_credentials : url_username url = [] /\ url_password url = None;
  ix_host : exists d, url_host url = Some (Domain d) /\ host = normalize_host d;
  ix_public : host <> lit "localhost" /\ 46%N ∈ host;
  ix_allowed : host_spec host hosts subdomains;
  ix_path : exists prefix, prefix ∈ prefixes /\ path_spec (url_path url) prefix
}.

(** The port and fragment of a canonical URL. *)
Definition strip_port_fragment (url : Url) : option Url :=
  url_set_fragment_none <$>
  (if (bool_decide (url_scheme url = lit "http") && bool_decide (url_port url = Some 80%N)) ||
      (bool_decide (url_scheme url = lit "https") && bool_decide (url_port url = Some 443%N))
   then url_set_port_none url else Some url).

Lemma is_http_spec s : negb (is_http s) = false <-> s = lit "http" \/ s = lit "https".
Proof. unfold is_http. rewrite negb_false_iff, orb_true_iff, !bool_decide_eq_true. done. Qed.

Lemma canonicalize_spec raw hosts subdomains prefixes out :
  canonicalize raw hosts subdomains prefixes = Ok out <->
  exists url host url', url_parse raw = Ok url /\
    indexable url hosts subdomains prefixes host /\
    strip_port_fragment url = Some url' /\ out = url_to_string url'.
Proof.
  unfold canonicalize, strip_port_fragment. split.
  - intros Hc. inv_ok. rename a into url. exists url.
    apply is_http_spec in Hb. bool_prop.
    destruct (url_host url) as [[d|?|?]|] eqn:Eh; try discriminate. injection Ha0 as <-.
    exists (normalize_host d), (url_set_fragment_none a1). split; [done|]. split.
    + constructor; eauto.
      * split; [by destruct (url_username url)|]. by apply eq_None_not_Some.
      * split; [done|]. by apply contains_char_spec.
      * by apply host_is_allowed_iff.
      * apply existsb_true_Exists, Exists_exists in Hb4 as (p & Hp & Hp').
        apply path_is_allowed_iff in Hp'. eauto.
    + split; [|done]. destruct (_ || _); [apply ok_or_ok in Ha1; by rewrite Ha1|].
      by injection Ha1 as ->.
  - intros (url & host & url' & Hp & [Hs Hb [Hu Hw] (d & Hd & ->) [Hl Hdot] Ha (p & Hpp & Hpath)] & Hstrip & ->).
    rewrite Hp. simpl. rewrite (proj2 (is_http_spec _) Hs), Hb, Hu, Hw, Hd. simpl.
    rewrite bool_decide_eq_false_2 by done. rewrite (proj2 (contains_char_spec _ _) Hdot).
    rewrite (proj2 (host_is_allowed_iff _ _ _) Ha). simpl.
    assert (existsb (fun prefix => path_is_allowed (url_path url) prefix) prefixes = true) as ->.
    { apply existsb_true_Exists, Exists_exists. exists p. by rewrite path_is_allowed_iff. }
    simpl. destruct (_ || _); apply fmap_Some in Hstrip as (v & Hv & ->); [by rewrite Hv|].
    by injection Hv as ->.
Qed.

(** C31: a URL is accepted exactly when it parses and is indexable for the
    source, and the answer is its serialisation without default port and
    fragment; every other URL is refused. *)
Theorem canonicalize_iff raw hosts subdomains prefixes out :
  canonicalize raw hosts subdomains prefixes = Ok out <->
  exists url host url', url_parse raw = Ok url /\
    indexable url hosts subdomains prefixes host /\
    strip_port_fragment url = Some url' /\ out = url_to_string url'.
Proof. apply canonicalize_spec. Qed.

Lemma same_resource_indexable u v hosts subdomains prefixes host :
  same_resource u v -> indexable v hosts subdomains prefixes host ->
  indexable u hosts subdomains prefixes host.
Proof.
  intros (Es & Eb & Eu & Ew & Eh & Ep & _) [Hs Hb Hu Hh Hl Ha Hp].
  constructor; rewrite ?Es, ?Eb, ?Eu, ?Ew, ?Eh, ?Ep; done.
Qed.
End Canonical.

Lemma same_resource_trans `{UrlLib} u v w :
  same_resource u v -> same_resource v w -> same_resource u w.
Proof. unfold same_resource. intuition congruence. Qed.

(** The canonical form is a fixed point: canonicalising what
    [canonicalize] returned, under the same source, returns it again, so two
    fetches of one page agree on its key. *)
Theorem canonicalize_idempotent `{UrlLaws} raw hosts subdomains prefixes out :
  canonicalize raw hosts subdomains prefixes = Ok out ->
  canonicalize out hosts subdomains prefixes = Ok out.
Proof.
  rewrite !canonicalize_spec. intros (url & host & url' & _ & Hix & Hst & ->).
  exists url', host, url'. rewrite url_parse_to_string. split; [done|].
  unfold strip_port_fragment in *.
  destruct (ix_host _ _ _ _ _ Hix) as (d & Hd & _). pose proof (ix_scheme _ _ _ _ _ Hix) as Hs.
  apply fmap_Some in Hst as (v & Hv & ->).
  assert (same_resource v url /\ (url_port v = None \/ v = url /\
    (bool_decide (url_scheme url = lit "http") && bool_decide (url_port url = Some 80%N)) ||
    (bool_decide (url_scheme url = lit "https") && bool_decide (url_port url = Some 443%N)) = false))
    as [Hsame Hport].
  { destruct (_ || _) eqn:Ed.
    - destruct (url_set_port_none_spec url d Hs Hd) as (v' & E & Hsame & Hp & _).
      rewrite Hv in E. injection E as <-. auto.
    - injection Hv as <-. split; [unfold same_resource; tauto | by right]. }
  destruct (url_set_fragment_none_spec v) as (Hfs & Hfp & Hff).
  split; [by eapply same_resource_indexable; [eapply same_resource_trans|]|].
  split; [|done].
  destruct Hfs as (Es & _). destruct Hsame as (Es' & _). rewrite Hfp, Es, Es'.
  destruct Hport as [Hn | [-> Hn]]; [rewrite Hn | rewrite Hn];
    rewrite ?andb_false_r; simpl; f_equal; by apply url_set_fragment_none_id.
Qed.

Module IndexingExample.
Export SampleUrl.
Definition url : sample_url := {|
  scheme := lit "https"; user := []; password := None;
  host := Some (Domain (lit "Updates.Blog.rust-lang.org.")); port := Some 443%N;
  path := lit "/inside/item"; query := None; fragment := Some (lit "top")
|}.
Definition raw_url : str := to_string url.
Definition hosts : list str := [lit "blog.rust-lang.org"].
Definition prefixes : list str := [lit "/inside/"].
End IndexingExample.

Lemma canonicalize_idempotent_witness :
  exists out, canonicalize IndexingExample.raw_url IndexingExample.hosts true
      IndexingExample.prefixes = Ok out /\
    canonicalize out IndexingExample.hosts true IndexingExample.prefixes = Ok out.
Proof.
  eexists. split; [by vm_compute|].
  apply (canonicalize_idempotent IndexingExample.raw_url). by vm_compute.
Defined.
