(* ===== verification/Auth.v ===== *)
(** * Authentication ([src/auth_runtime.rs], [src/tenant.rs])

    Who is calling: a verified HS256 token from the [Authorization] header or
    the configured cookie, or, outside production and only when explicitly
    enabled, plain headers. *)

From stdpp Require Import gmap strings.
From S2P Require Import Prelude Ordered RustStr Floats Externals Samples HttpError.

Definition SUBJECT_HEADER : str := lit "x-eal-subject-id".
Definition ROLES_HEADER : str := lit "x-eal-roles".
Definition TENANT_HEADER : str := lit "x-eal-tenant-id".
Definition AUTHORIZATION : str := lit "authorization".
Definition COOKIE : str := lit "cookie".

Definition DEFAULT_COOKIE_NAME : str := lit "eal_access_token".
Definition DEFAULT_TENANT_CLAIM : str := lit "tenant_id".
Definition DEFAULT_ROLE_CLAIM : str := lit "role".
Definition DEFAULT_ALLOWED_ROLES : str := lit "authenticated,member,admin,owner".
Definition DEFAULT_ADMIN_ROLES : str := lit "admin,owner".
Definition DEFAULT_LEEWAY_SECONDS : Z := 30.
Definition MIN_SECRET_BYTES : N := 32.
Definition MAX_SECRET_BYTES : N := 4096.
Definition MAX_TOKEN_BYTES : N := 16 * 1024.
Definition MAX_HEADER_BYTES : N := 4 * 1024.
Definition MAX_CLAIMS_BYTES : N := 64 * 1024.

(** [BTreeSet<String>] operations on sorted vectors. *)
Definition set_contains (s : list str) (x : str) : bool := bool_decide (x ∈ s).
Definition is_subset (a b : list str) : bool := forallb (set_contains b) a.
Definition is_disjoint (a b : list str) : bool := negb (existsb (set_contains b) a).

Record AuthContext := {
  tenant_id : Uuid;
  subject : str;
  roles : list str;
  tenant_admin : bool
}.

Definition is_tenant_admin (self : AuthContext) : bool := tenant_admin self.
Definition can_access_owner (self : AuthContext) (owner_subject : str) : bool :=
  tenant_admin self || bool_decide (subject self = owner_subject).
Definition require_tenant_admin (self : AuthContext) : result HttpError unit :=
  if tenant_admin self then Ok tt
  else Err (Http.forbidden (lit "this operation requires a tenant administrator role")).

Record JwtVerifier := {
  jv_secret : list N;
  jv_issuer : str;
  jv_audience : str;
  jv_tenant_claim_path : list str;
  jv_role_claim_path : list str;
  jv_allowed_roles : list str;
  jv_admin_roles : list str;
  jv_leeway_seconds : Z
}.

Inductive AuthMode :=
| Jwt (verifier : JwtVerifier)
| InsecureHeaders.

Record AuthConfig := { mode : AuthMode; cookie_name : str }.

Definition is_jwt (self : AuthConfig) : bool :=
  match mode self with Jwt _ => true | InsecureHeaders => false end.
Definition mode_name (self : AuthConfig) : str :=
  match mode self with
  | Jwt _ => lit "verified_jwt"
  | InsecureHeaders => lit "explicit_insecure_headers"
  end.

(** ** Roles *)
Definition is_role_byte (b : N) : bool :=
  (is_ascii_alphanumeric b || (b =? 95) || (b =? 45) || (b =? 58) || (b =? 46))%N.

Definition insert_role (roles : list str) (role : str) : result str (list str) :=
  let role := to_ascii_lowercase (trim role) in
  if negb (nonempty role) then Ok roles
  else
    reject lit "roles must use 1 to 80 ASCII identifier characters"
      when (80 <? str_len role)%N || negb (forallb is_role_byte (as_bytes role)) ;;
    Ok (btree_insert role roles).

Definition parse_role_set (value : str) : result str (list str) :=
  for_each insert_role (split_on 44 value) [].

Definition parse_roles (value : Value) : result unit (list str) :=
  roles ←
    match value with
    | String value =>
        for_each (fun roles role => map_err (fun _ => tt) (insert_role roles role))
          (split_on 44 value) []
    | Array values =>
        for_each (fun roles value =>
          role ← ok_or (value_as_str value) tt;
          map_err (fun _ => tt) (insert_role roles role)) values []
    | _ => Err tt
    end;
  if negb (nonempty roles) then Err tt else Ok roles.

(** ** Claims *)
Definition audience_matches (value : Value) (expected : str) : bool :=
  match value with
  | String value => bool_decide (value = expected)
  | Array values => existsb (fun value => bool_decide (value_as_str value = Some expected)) values
  | _ => false
  end.

Definition integer_claim (value : Value) : result unit Z :=
  ok_or
    (match value_as_i64 value with
     | Some z => Some z
     | None => n ← value_as_u64 value; if (Z.of_N n <=? i64_max)%Z then Some (Z.of_N n) else None
     end) tt.

Fixpoint claim_at_path (value : Value) (path : list str) : option Value :=
  match path with
  | [] => Some value
  | part :: path' => current ← value_get value part; claim_at_path current path'
  end.

Definition is_claim_byte (b : N) : bool :=
  (is_ascii_alphanumeric b || (b =? 95) || (b =? 45))%N.

Definition parse_claim_path (value : str) : result str (list str) :=
  let parts := map trim (split_on 46 value) in
  reject lit "JWT claim paths must contain 1 to 8 identifier segments"
    when negb (nonempty parts) || (8 <? length parts)%nat ||
         existsb (fun part => negb (nonempty part) || (80 <? str_len part)%N ||
                    negb (forallb is_claim_byte (as_bytes part))) parts ;;
  Ok parts.

Definition validate_cookie_name (value : str) : result str unit :=
  reject lit "EAL_JWT_COOKIE_NAME must be an ASCII cookie identifier"
    when negb (nonempty value) || (120 <? str_len value)%N ||
         negb (forallb is_claim_byte (as_bytes value)) ;;
  Ok tt.

(** [value.filter(|value| !value.is_empty())] *)
Definition filter_nonempty (o : option str) : option str :=
  s ← o; if nonempty s then Some s else None.

(** ** The token verifier *)
Section Verifier.
Context `{UuidLib, JsonLib, Base64Lib, HmacLib}.

Definition verify (self : JwtVerifier) (token : str) (now : Z) : result unit AuthContext :=
  reject tt when (MAX_TOKEN_BYTES <? str_len token)%N || existsb is_ascii_whitespace (as_bytes token) ;;
  let segments := split_on 46 token in
  protected ← ok_or (filter_nonempty (segments !! 0)) tt;
  claims ← ok_or (filter_nonempty (segments !! 1)) tt;
  signature ← ok_or (filter_nonempty (segments !! 2)) tt;
  reject tt when bool_decide (is_Some (segments !! 3)) ;;
  protected_bytes ← ok_or (base64_url_decode protected) tt;
  reject tt when (MAX_HEADER_BYTES <? N.of_nat (length protected_bytes))%N ;;
  protected_json ← ok_or (json_from_slice protected_bytes) tt;
  protected_object ← ok_or (value_as_object protected_json) tt;
  reject tt when
    negb (bool_decide ((map_get protected_object (lit "alg") ≫= value_as_str) = Some (lit "HS256"))) ;;
  reject tt when
    match map_get protected_object (lit "typ") ≫= value_as_str with
    | Some value => negb (eq_ignore_ascii_case value (lit "JWT"))
    | None => false
    end ;;
  reject tt when bool_decide (is_Some (map_get protected_object (lit "crit"))) ;;
  signature ← ok_or (base64_url_decode signature) tt;
  reject tt when negb (length signature =? 32)%nat ;;
  mac ← ok_or (hmac_sha256 (jv_secret self) (as_bytes (protected ++ lit "." ++ claims))) tt;
  reject tt when negb (bool_decide (mac = signature)) ;;
  claims_bytes ← ok_or (base64_url_decode claims) tt;
  reject tt when (MAX_CLAIMS_BYTES <? N.of_nat (length claims_bytes))%N ;;
  claims ← ok_or (json_from_slice claims_bytes) tt;
  claims_object ← ok_or (value_as_object claims) tt;
  reject tt when
    negb (bool_decide ((map_get claims_object (lit "iss") ≫= value_as_str) = Some (jv_issuer self))) ;;
  aud ← ok_or (map_get claims_object (lit "aud")) tt;
  reject tt when negb (audience_matches aud (jv_audience self)) ;;
  subject ← ok_or
    (value ← trim <$> (map_get claims_object (lit "sub") ≫= value_as_str);
     if nonempty value && (str_len value <=? 256)%N then Some value else None) tt;
  exp ← ok_or (map_get claims_object (lit "exp")) tt;
  expiration ← integer_claim exp;
  reject tt when (expiration <=? i64_saturating_sub now (jv_leeway_seconds self))%Z ;;
  _ ← match map_get claims_object (lit "nbf") with
      | Some not_before =>
          not_before ← integer_claim not_before;
          reject tt when (i64_saturating_add now (jv_leeway_seconds self) <? not_before)%Z ;; Ok tt
      | None => Ok tt
      end;
  _ ← match map_get claims_object (lit "iat") with
      | Some issued_at =>
          issued_at ← integer_claim issued_at;
          reject tt when (i64_saturating_add now (jv_leeway_seconds self) <? issued_at)%Z ;; Ok tt
      | None => Ok tt
      end;
  tenant ← ok_or (claim_at_path claims (jv_tenant_claim_path self) ≫= value_as_str) tt;
  tenant_id ← ok_or (uuid_parse_str tenant) tt;
  role_claim ← ok_or (claim_at_path claims (jv_role_claim_path self)) tt;
  roles ← parse_roles role_claim;
  reject tt when is_disjoint roles (jv_allowed_roles self) ;;
  Ok {| tenant_id := tenant_id; subject := subject; roles := roles;
        tenant_admin := negb (is_disjoint roles (jv_admin_roles self)) |}.
End Verifier.

(** ** Credentials of a request *)
Section Requests.
Context `{UuidLib, HeaderLib}.

Definition tenant_id_from_headers (headers : HeaderMap) : result HttpError Uuid :=
  value ← ok_or (get headers TENANT_HEADER)
            (Http.unauthorized (lit "missing X-Eal-Tenant-Id header"));
  value ← ok_or (header_to_str value)
            (Http.unauthorized (lit "invalid X-Eal-Tenant-Id header"));
  ok_or (uuid_parse_str value) (Http.unauthorized (lit "X-Eal-Tenant-Id must be a UUID")).

Definition insecure_context (headers : HeaderMap) : result HttpError AuthContext :=
  tenant_id ← tenant_id_from_headers headers;
  subject ← ok_or (get headers SUBJECT_HEADER)
              (Http.unauthorized (lit "missing X-Eal-Subject-Id header"));
  subject ← ok_or (header_to_str subject)
              (Http.unauthorized (lit "invalid X-Eal-Subject-Id header"));
  let subject := trim subject in
  reject Http.unauthorized (lit "X-Eal-Subject-Id must contain between 1 and 256 bytes")
    when negb (nonempty subject) || (256 <? str_len subject)%N ;;
  roles ← ok_or (get headers ROLES_HEADER)
            (Http.unauthorized (lit "missing X-Eal-Roles header"));
  roles ← ok_or (header_to_str roles)
            (Http.unauthorized (lit "invalid X-Eal-Roles header"));
  roles ← map_err Http.unauthorized (parse_role_set roles);
  reject Http.unauthorized (lit "X-Eal-Roles must contain at least one role")
    when negb (nonempty roles) ;;
  let tenant_admin := set_contains roles (lit "admin") || set_contains roles (lit "owner") in
  Ok {| tenant_id := tenant_id; subject := subject; roles := roles; tenant_admin := tenant_admin |}.

(** One [name=value] pair of a [Cookie] header. *)
Definition cookie_pair (cookie_name : str) (found : option str) (pair : str)
    : result HttpError (option str) :=
  match split_once 61 (trim pair) with
  | None => Ok found
  | Some (name, value) =>
      if negb (bool_decide (name = cookie_name)) then Ok found
      else
        reject Http.unauthorized (lit "JWT cookie must not be empty") when negb (nonempty value) ;;
        reject Http.unauthorized (lit "conflicting JWT cookies were supplied")
          when match found with
               | Some existing => negb (bool_decide (existing = value))
               | None => false
               end ;;
        Ok (Some value)
  end.

Definition cookie_token (headers : HeaderMap) (cookie_name : str) : result HttpError (option str) :=
  for_each (fun found header =>
    header ← ok_or (header_to_str header) (Http.unauthorized (lit "invalid Cookie header"));
    for_each (cookie_pair cookie_name) (split_on 59 header) found) (get_all headers COOKIE) None.

(** The token of one [Authorization] value. *)
Definition bearer_token (value : list N) : result HttpError str :=
  value ← ok_or (header_to_str value) (Http.unauthorized (lit "invalid Authorization header"));
  let parts := split_ascii_whitespace value in
  let scheme := default [] (parts !! 0) in
  let token := default [] (parts !! 1) in
  reject Http.unauthorized (lit "Authorization must use a single Bearer token")
    when negb (eq_ignore_ascii_case scheme (lit "Bearer")) || negb (nonempty token) ||
         bool_decide (is_Some (parts !! 2)) ;;
  Ok token.

Definition extract_token (headers : HeaderMap) (cookie_name : str) : result HttpError str :=
  let authorization_values := get_all headers AUTHORIZATION in
  reject Http.unauthorized (lit "multiple Authorization headers are not allowed")
    when (1 <? length authorization_values)%nat ;;
  authorization ← match head authorization_values with
                  | Some value => Some <$> bearer_token value
                  | None => Ok None
                  end;
  cookie ← cookie_token headers cookie_name;
  match authorization, cookie with
  | Some authorization, Some cookie =>
      if negb (bool_decide (authorization = cookie))
      then Err (Http.unauthorized (lit "conflicting JWT credentials were supplied"))
      else Ok authorization
  | Some token, None | None, Some token => Ok token
  | None, None => Err (Http.unauthorized (lit "missing bearer token"))
  end.

Context `{JsonLib, Base64Lib, HmacLib}.

(** [authenticate] is [authenticate_at] at the current time. *)
Definition authenticate_at (self : AuthConfig) (headers : HeaderMap) (now : Z)
    : result HttpError AuthContext :=
  match mode self with
  | Jwt verifier =>
      token ← extract_token headers (cookie_name self);
      map_err (fun _ => Http.unauthorized (lit "invalid bearer token")) (verify verifier token now)
  | InsecureHeaders => insecure_context headers
  end.
End Requests.

(** ** Configuration *)

(** [env::var(name).ok()] *)
Abbreviation Env := (str -> option str).

Definition required_env (env : Env) (name : str) : result str str :=
  ok_or (filter_nonempty (trim <$> env name))
    (name ++ lit " is required when JWT authentication is enabled").

Definition env_string (env : Env) (name default_value : str) : str :=
  default default_value (filter_nonempty (trim <$> env name)).

Module AuthConfig.
Definition jwt (secret : list N) (issuer audience tenant_claim role_claim : str)
    (allowed_roles admin_roles : list str) (leeway_seconds : Z) (cookie_name : str)
    : result str AuthConfig :=
  reject lit "EAL_JWT_HS256_SECRET must contain between 32 and 4096 bytes"
    when negb ((MIN_SECRET_BYTES <=? N.of_nat (length secret)) &&
               (N.of_nat (length secret) <=? MAX_SECRET_BYTES))%N ;;
  let issuer := trim issuer in
  let audience := trim audience in
  reject lit "EAL_JWT_ISSUER must contain between 1 and 512 bytes"
    when negb (nonempty issuer) || (512 <? str_len issuer)%N ;;
  reject lit "EAL_JWT_AUDIENCE must contain between 1 and 512 bytes"
    when negb (nonempty audience) || (512 <? str_len audience)%N ;;
  tenant_claim_path ← parse_claim_path tenant_claim;
  role_claim_path ← parse_claim_path role_claim;
  reject lit "EAL_JWT_ALLOWED_ROLES must contain at least one role"
    when negb (nonempty allowed_roles) ;;
  reject lit "EAL_JWT_TENANT_ADMIN_ROLES must be a subset of EAL_JWT_ALLOWED_ROLES"
    when negb (is_subset admin_roles allowed_roles) ;;
  reject lit "EAL_JWT_LEEWAY_SECONDS must be between 0 and 300"
    when negb ((0 <=? leeway_seconds) && (leeway_seconds <=? 300))%Z ;;
  _ ← validate_cookie_name cookie_name;
  Ok {| mode := Jwt {|
          jv_secret := secret; jv_issuer := issuer; jv_audience := audience;
          jv_tenant_claim_path := tenant_claim_path; jv_role_claim_path := role_claim_path;
          jv_allowed_roles := allowed_roles; jv_admin_roles := admin_roles;
          jv_leeway_seconds := leeway_seconds |};
        cookie_name := cookie_name |}.

Definition insecure_headers : AuthConfig :=
  {| mode := InsecureHeaders; cookie_name := DEFAULT_COOKIE_NAME |}.

Definition from_env (env : Env) (production allow_insecure_tenant_header : bool)
    : result str AuthConfig :=
  let secret :=
    value ← env (lit "EAL_JWT_HS256_SECRET"); if nonempty (trim value) then Some value else None in
  match secret with
  | Some secret =>
      issuer ← required_env env (lit "EAL_JWT_ISSUER");
      audience ← required_env env (lit "EAL_JWT_AUDIENCE");
      let tenant_claim := env_string env (lit "EAL_JWT_TENANT_CLAIM") DEFAULT_TENANT_CLAIM in
      let role_claim := env_string env (lit "EAL_JWT_ROLE_CLAIM") DEFAULT_ROLE_CLAIM in
      allowed_roles ←
        parse_role_set (env_string env (lit "EAL_JWT_ALLOWED_ROLES") DEFAULT_ALLOWED_ROLES);
      admin_roles ←
        parse_role_set (env_string env (lit "EAL_JWT_TENANT_ADMIN_ROLES") DEFAULT_ADMIN_ROLES);
      leeway_seconds ←
        match env (lit "EAL_JWT_LEEWAY_SECONDS") with
        | Some value => ok_or (parse_i64 (trim value))
                          (lit "EAL_JWT_LEEWAY_SECONDS must be an integer")
        | None => Ok DEFAULT_LEEWAY_SECONDS
        end;
      let cookie_name := env_string env (lit "EAL_JWT_COOKIE_NAME") DEFAULT_COOKIE_NAME in
      jwt (as_bytes secret) issuer audience tenant_claim role_claim allowed_roles admin_roles
        leeway_seconds cookie_name
  | None =>
      reject lit "production authentication requires EAL_JWT_HS256_SECRET, EAL_JWT_ISSUER, and EAL_JWT_AUDIENCE"
        when production ;;
      if allow_insecure_tenant_header then Ok insecure_headers
      else Err (lit "authentication is not configured; set JWT verification variables or explicitly enable the isolated development header scaffold")
  end.
End AuthConfig.

(** ** Roles are normalised identifiers *)
Definition role_ok (r : str) : Prop :=
  r <> [] /\ (str_len r <= 80)%N /\ Forall (fun b => is_role_byte b = true) (as_bytes r) /\
  to_ascii_lowercase r = r.

Definition roles_ok (rs : list str) : Prop := btree_wf rs /\ Forall role_ok rs.

Lemma insert_role_ok rs role rs' : roles_ok rs -> insert_role rs role = Ok rs' -> roles_ok rs'.
Proof.
  unfold insert_role. intros Hrs Hi.
  destruct (nonempty _) eqn:Hn; simpl in Hi; [|by inv_ok].
  inv_ok. bool_prop. destruct Hrs as [Hwf Hall]. split; [by apply btree_insert_wf|].
  apply Forall_forall. intros r [-> | Hr]%elem_of_btree_insert.
  - split; [by intros E; rewrite E in Hn|]. split; [done|].
    split; [by apply forallb_true_Forall | apply to_ascii_lowercase_idem].
  - rewrite Forall_forall in Hall. auto.
Qed.

Lemma roles_ok_nil : roles_ok [].
Proof. split; constructor. Qed.
#[export] Hint Resolve roles_ok_nil insert_role_ok : eal.

Lemma parse_role_set_ok value rs : parse_role_set value = Ok rs -> roles_ok rs.
Proof. unfold parse_role_set. apply for_each_inv; eauto with eal. Qed.

Lemma parse_roles_ok value rs : parse_roles value = Ok rs -> roles_ok rs /\ rs <> [].
Proof.
  unfold parse_roles. intros (a & Ha & Hp)%bind_ok. inv_ok. bool_prop.
  split; [|by intros ->].
  destruct value; try discriminate; revert Ha; apply for_each_inv; auto with eal.
  - intros s' x s'' _ Hs Hi. inv_ok. eauto with eal.
  - intros s' x s'' _ Hs Hi. inv_ok. eauto with eal.
Qed.

Lemma set_contains_spec s x : set_contains s x = true <-> x ∈ s.
Proof. apply bool_decide_eq_true. Qed.

Lemma is_disjoint_false a b : is_disjoint a b = false <-> exists r, r ∈ a /\ r ∈ b.
Proof.
  unfold is_disjoint. rewrite negb_false_iff, existsb_true_Exists, Exists_exists.
  by setoid_rewrite set_contains_spec.
Qed.

Lemma is_subset_spec a b : is_subset a b = true <-> forall r, r ∈ a -> r ∈ b.
Proof.
  unfold is_subset. rewrite forallb_true_Forall, Forall_forall.
  by setoid_rewrite set_contains_spec.
Qed.
