(* ===== verification/AuthSpec.v ===== *)
(** * What authentication guarantees ([src/auth_runtime.rs])

    The declarative meaning of an accepted token and of a request's
    credential, and the theorems that [verify], [extract_token],
    [authenticate_at] and [from_env] implement it. *)

From stdpp Require Import gmap strings.
From S2P Require Import Prelude Ordered RustStr Floats Externals Samples HttpError.
From S2P Require Import Auth.

(** ** Accepted tokens *)
Section TokenSpec.
Context `{UuidLib, JsonLib, Base64Lib, HmacLib}.

(** The protected header: an HS256 JWS without critical extensions. *)
Record header_valid (h : str) : Prop := {
  hv_json : exists bytes json, base64_url_decode h = Some bytes /\
    (N.of_nat (length bytes) <= MAX_HEADER_BYTES)%N /\ json_from_slice bytes = Some json /\
    (exists o, json = Object o) /\
    value_get json (lit "alg") = Some (String (lit "HS256")) /\
    value_get json (lit "crit") = None /\
    (forall t, value_get json (lit "typ") = Some (String t) ->
       eq_ignore_ascii_case t (lit "JWT") = true)
}.

(** The signature is the HMAC of what was signed, under the configured key. *)
Definition signature_valid (self : JwtVerifier) (h c s : str) : Prop :=
  exists tag, base64_url_decode s = Some tag /\ length tag = 32 /\
    hmac_sha256 (jv_secret self) (as_bytes (h ++ lit "." ++ c)) = Some tag.

(** The clock is inside the token's validity, up to the leeway. *)
Definition claim_not_after (claims : Value) (key : str) (limit : Z) : Prop :=
  forall v, value_get claims key = Some v -> exists z, integer_claim v = Ok z /\ (z <= limit)%Z.

Record in_window (self : JwtVerifier) (claims : Value) (now : Z) : Prop := {
  iw_exp : exists v z, value_get claims (lit "exp") = Some v /\ integer_claim v = Ok z /\
    (i64_saturating_sub now (jv_leeway_seconds self) < z)%Z;
  iw_nbf : claim_not_after claims (lit "nbf") (i64_saturating_add now (jv_leeway_seconds self));
  iw_iat : claim_not_after claims (lit "iat") (i64_saturating_add now (jv_leeway_seconds self))
}.

(** The identity the claims assert. *)
Record claims_assert (self : JwtVerifier) (claims : Value) (ctx : AuthContext) : Prop := {
  ca_object : exists o, claims = Object o;
  ca_issuer : value_get claims (lit "iss") = Some (String (jv_issuer self));
  ca_audience : exists v, value_get claims (lit "aud") = Some v /\
    audience_matches v (jv_audience self) = true;
  ca_subject : exists s, value_get claims (lit "sub") = Some (String s) /\ subject ctx = trim s /\
    subject ctx <> [] /\ (str_len (subject ctx) <= 256)%N;
  ca_tenant : exists t, claim_at_path claims (jv_tenant_claim_path self) = Some (String t) /\
    uuid_parse_str t = Some (tenant_id ctx);
  ca_roles : exists v, claim_at_path claims (jv_role_claim_path self) = Some v /\
    parse_roles v = Ok (roles ctx);
  ca_allowed : exists r, r ∈ roles ctx /\ r ∈ jv_allowed_roles self;
  ca_admin : tenant_admin ctx = true <-> exists r, r ∈ roles ctx /\ r ∈ jv_admin_roles self
}.

Definition accepted_token (self : JwtVerifier) (token : str) (now : Z) (ctx : AuthContext) : Prop :=
  (str_len token <= MAX_TOKEN_BYTES)%N /\ existsb is_ascii_whitespace (as_bytes token) = false /\
  exists h c s bytes claims,
    split_on 46 token = [h; c; s] /\ h <> [] /\ c <> [] /\ s <> [] /\
    header_valid h /\ signature_valid self h c s /\
    base64_url_decode c = Some bytes /\ (N.of_nat (length bytes) <= MAX_CLAIMS_BYTES)%N /\
    json_from_slice bytes = Some claims /\
    in_window self claims now /\ claims_assert self claims ctx.

Lemma value_as_str_Some (o : option Value) s : o ≫= value_as_str = Some s <-> o = Some (String s).
Proof.
  destruct o as [[]|]; simpl; split; intros E; try discriminate; try (injection E as ->; done).
Qed.

Lemma filter_nonempty_Some o s : filter_nonempty o = Some s <-> o = Some s /\ s <> [].
Proof.
  destruct o as [[|x k]|]; simpl; split; try discriminate;
    try (intros [[= <-] ?]; done); intros [= <-]; done.
Qed.

Lemma filter_nonempty_id s : s <> [] -> filter_nonempty (Some s) = Some s.
Proof. by destruct s. Qed.

Lemma three_segments (l : list str) h c s :
  l !! 0 = Some h -> l !! 1 = Some c -> l !! 2 = Some s -> l !! 3 = None -> l = [h; c; s].
Proof. destruct l as [|? [|? [|? [|? ?]]]]; simpl; congruence. Qed.

Lemma optional_claim_ok claims key limit :
  (match value_get claims key with
   | Some v => z ← integer_claim v; reject tt when (limit <? z)%Z ;; Ok tt
   | None => Ok tt
   end : result unit unit) = Ok tt <-> claim_not_after claims key limit.
Proof.
  unfold claim_not_after. destruct (value_get claims key) as [v|]; [|split; [discriminate | done]].
  split.
  - intros Hv v' [= <-]. inv_ok. bool_prop. eauto.
  - intros Hv. destruct (Hv v eq_refl) as (z & -> & Hz). simpl.
    by rewrite (proj2 (Z.ltb_ge _ _)).
Qed.

(** The checks on a decoded protected header. *)
Lemma header_valid_iff h bytes o :
  base64_url_decode h = Some bytes -> json_from_slice bytes = Some (Object o) ->
  (header_valid h <->
   (MAX_HEADER_BYTES <? N.of_nat (length bytes))%N = false /\
   negb (bool_decide (map_get o (lit "alg") ≫= value_as_str = Some (lit "HS256"))) = false /\
   match map_get o (lit "typ") ≫= value_as_str with
   | Some value => negb (eq_ignore_ascii_case value (lit "JWT"))
   | None => false
   end = false /\
   bool_decide (is_Some (map_get o (lit "crit"))) = false).
Proof.
  intros Hd Hj. rewrite N.ltb_ge, negb_false_iff, bool_decide_eq_true, value_as_str_Some,
    bool_decide_eq_false, <-eq_None_not_Some. split.
  - intros [(bytes' & json & Hd' & Hl & Hj' & _ & Ha & Hc & Ht)].
    rewrite Hd in Hd'. injection Hd' as <-. rewrite Hj in Hj'. injection Hj' as <-.
    split; [done|]. split; [done|]. split; [|done].
    destruct (_ ≫= value_as_str) as [t|] eqn:E; [|done].
    apply value_as_str_Some in E. apply negb_false_iff. by apply Ht.
  - intros (Hl & Ha & Ht & Hc). constructor. exists bytes, (Object o).
    do 3 (split; [done|]). split; [eauto|]. split; [done|]. split; [done|].
    intros t E. change (map_get o (lit "typ") = Some (String t)) in E.
    rewrite E in Ht. by apply negb_false_iff.
Qed.

(** The subject of the claims, as [verify] reads it. *)
Lemma subject_claim_iff claims s :
  (value ← trim <$> (value_get claims (lit "sub") ≫= value_as_str);
   if nonempty value && (str_len value <=? 256)%N then Some value else None) = Some s <->
  exists raw, value_get claims (lit "sub") = Some (String raw) /\ s = trim raw /\
    s <> [] /\ (str_len s <= 256)%N.
Proof.
  split.
  - intros (v & (raw & E%value_as_str_Some & ->)%fmap_Some & Hv)%bind_Some.
    destruct (nonempty (trim raw)) eqn:En; [|discriminate]. simpl in Hv.
    destruct (N.leb_spec (str_len (trim raw)) 256); [|discriminate]. injection Hv as <-.
    exists raw. split; [done|]. split; [done|]. split; [|done]. by intros E0; rewrite E0 in En.
  - intros (raw & -> & -> & Hn & Hl). simpl.
    destruct (trim raw) as [|x k] eqn:E; [done|]. simpl nonempty.
    rewrite <-E in *. by rewrite (proj2 (N.leb_le _ _) Hl).
Qed.

Lemma verify_sound self token now ctx :
  verify self token now = Ok ctx -> accepted_token self token now ctx.
Proof.
  unfold verify. intros Hv. inv_ok. rename a into h, a0 into c, a1 into s.
  destruct a3 as [| | | | | | |ho]; try discriminate. injection Ha4 as <-.
  destruct a8 as [| | | | | | |co]; try discriminate. injection Ha9 as <-.
  apply filter_nonempty_Some in Ha as [Ha ?], Ha0 as [Ha0 ?], Ha1 as [Ha1 ?].
  apply bool_decide_eq_false, eq_None_not_Some in Hb0.
  apply orb_false_elim in Hb as [Hb Hb']. apply N.ltb_ge in Hb, Hb7.
  apply negb_false_iff, bool_decide_eq_true in Hb6 as ->.
  apply negb_false_iff, Nat.eqb_eq in Hb5.
  apply negb_false_iff, bool_decide_eq_true, value_as_str_Some in Hb8.
  apply negb_false_iff in Hb9. apply Z.leb_gt in Hb10. apply is_disjoint_false in Hb11.
  apply (subject_claim_iff (Object co)) in Ha11. apply value_as_str_Some in Ha16.
  destruct a14, a15. apply (optional_claim_ok (Object co)) in Ha14, Ha15.
  split; [done|]. split; [done|]. exists h, c, s, a7, (Object co).
  split; [by apply three_segments|]. do 3 (split; [done|]).
  split; [by apply (header_valid_iff _ _ _ Ha2 Ha3)|]. split; [by exists a5|].
  do 3 (split; [done|]). split; [by constructor; [exists a12, a13|..]|].
  constructor; simpl; eauto. by rewrite negb_true_iff, is_disjoint_false.
Qed.

(** Runs one [?] of [verify] forwards. *)
Ltac ok_step E :=
  cbn [ok_or value_as_object mbind result_bind negb];
  rewrite E; cbn [ok_or value_as_object value_as_str mbind result_bind option_bind negb].

Lemma verify_complete self token now ctx :
  accepted_token self token now ctx -> verify self token now = Ok ctx.
Proof.
  intros (Hlen & Hws & h & c & s & bytes & claims & Hsp & Hh & Hc & Hs & Hhv &
    (tag & Htag & Htl & Hmac) & Hcb & Hcl & Hcj & Hwin & Hca).
  pose proof Hhv as [(hb & json & Hhb & Hhl & Hhj & (ho & ->) & _)].
  destruct (proj1 (header_valid_iff _ _ _ Hhb Hhj) Hhv) as (E1 & E2 & E3 & E4).
  destruct Hwin as [(ev & ez & Ee & Ez & Hexp) Hnbf%optional_claim_ok Hiat%optional_claim_ok].
  destruct Hca as [(co & ->) Hiss (av & Haud & Ham) Hsub (t & Ht & Htu) (rv & Hrv & Hpr) Hal Had].
  apply (subject_claim_iff (Object co)) in Hsub. apply is_disjoint_false in Hal.
  assert (forall k, value_get (Object co) k = map_get co k) as Eget by done.
  rewrite Eget in Hiss, Haud, Hsub, Ee, Hnbf, Hiat.
  unfold verify. rewrite (proj2 (N.ltb_ge _ _) Hlen), Hws, Hsp. cbn [orb].
  change ([h; c; s] !! 0) with (Some h). change ([h; c; s] !! 1) with (Some c).
  change ([h; c; s] !! 2) with (Some s). change ([h; c; s] !! 3) with (@None str).
  rewrite !filter_nonempty_id by done.
  rewrite (bool_decide_eq_false_2 (is_Some None)) by (by intros []).
  ok_step Hhb. rewrite E1. ok_step Hhj. rewrite E2, E3, E4. ok_step Htag. rewrite Htl.
  ok_step Hmac. rewrite bool_decide_eq_true_2 by done. ok_step Hcb.
  rewrite (proj2 (N.ltb_ge _ _) Hcl). ok_step Hcj.
  ok_step Hiss. rewrite bool_decide_eq_true_2 by done. ok_step Haud. rewrite Ham.
  ok_step Hsub. ok_step Ee. ok_step Ez. rewrite (proj2 (Z.leb_gt _ _) Hexp).
  ok_step Hnbf. ok_step Hiat. ok_step Ht. ok_step Htu. ok_step Hrv. ok_step Hpr. rewrite Hal.
  destruct ctx as [ti su ro ta]. simpl in *. do 2 f_equal.
  apply eq_true_iff_eq. by rewrite negb_true_iff, is_disjoint_false.
Qed.
End TokenSpec.

(** Widening the clock inside one token's window. *)
Lemma i64_sub_mono a b l : (a <= b)%Z -> (i64_saturating_sub a l <= i64_saturating_sub b l)%Z.
Proof. intros. apply clamp_i64_mono. lia. Qed.
Lemma i64_add_mono a b l : (a <= b)%Z -> (i64_saturating_add a l <= i64_saturating_add b l)%Z.
Proof. intros. apply clamp_i64_mono. lia. Qed.

Lemma in_window_between self claims t1 t2 t3 :
  (t1 <= t2 <= t3)%Z -> in_window self claims t1 -> in_window self claims t3 ->
  in_window self claims t2.
Proof.
  intros [H12 H23] [_ Hn Hi] [(v & z & Ev & Ez & He) _ _].
  pose proof (i64_sub_mono _ _ (jv_leeway_seconds self) H23).
  pose proof (i64_add_mono _ _ (jv_leeway_seconds self) H12).
  constructor.
  - exists v, z. split; [done|]. split; [done|]. lia.
  - intros w Hw. destruct (Hn w Hw) as (y & ? & ?). exists y. split; [done|]. lia.
  - intros w Hw. destruct (Hi w Hw) as (y & ? & ?). exists y. split; [done|]. lia.
Qed.

(** ** The credential of a request *)
Section CredentialSpec.
Context `{HeaderLib}.

(** The values of the cookie [name] in one [Cookie] header. *)
Definition pair_value (name pair : str) : option str :=
  '(n, v) ← split_once 61 (trim pair); if bool_decide (n = name) then Some v else None.
Definition cookie_values (name text : str) : list str :=
  omap (pair_value name) (split_on 59 text).

(** The texts of all values of a header; [None] when one is not text. *)
Definition header_texts (headers : HeaderMap) (name : str) : option (list str) :=
  mapM header_to_str (get_all headers name).

Definition is_bearer (text token : str) : Prop :=
  exists scheme, split_ascii_whitespace text = [scheme; token] /\
    eq_ignore_ascii_case scheme (lit "Bearer") = true.

(** All credentials found agree on [r]. *)
Definition agree (found : list str) (r : option str) : Prop :=
  match r with
  | None => found = []
  | Some t => found <> [] /\ t <> [] /\ Forall (eq t) found
  end.

Definition credential (headers : HeaderMap) (name token : str) : Prop :=
  exists auths cookies, header_texts headers AUTHORIZATION = Some auths /\
    header_texts headers COOKIE = Some cookies /\
    length auths <= 1 /\ Forall (fun text => is_bearer text token) auths /\
    token <> [] /\ Forall (eq token) (concat (map (cookie_values name) cookies)) /\
    (auths <> [] \/ concat (map (cookie_values name) cookies) <> []).

Lemma agree_cons v vs r :
  agree (v :: vs) r <-> v <> [] /\ r = Some v /\ Forall (eq v) vs.
Proof.
  destruct r as [t|]; simpl; split; try (by intros (_ & [=] & _)); try discriminate.
  - intros (_ & Ht & [-> Hvs]%Forall_cons). auto.
  - intros (Hv & [= ->] & Hvs). auto.
Qed.

Definition nonempty_option (found : option str) : Prop := forall t, found = Some t -> t <> [].

(** One pair of the cookie header, relative to the values still to come. *)
Lemma cookie_pair_agree name found pair :
  nonempty_option found ->
  match cookie_pair name found pair with
  | Ok found' => nonempty_option found' /\ forall vs r,
      agree (option_list found ++ option_list (pair_value name pair) ++ vs) r <->
      agree (option_list found' ++ vs) r
  | Err _ => forall vs r,
      ~ agree (option_list found ++ option_list (pair_value name pair) ++ vs) r
  end.
Proof.
  intros Hf. unfold cookie_pair, pair_value.
  destruct (split_once 61 (trim pair)) as [[n v]|]; simpl; [|done].
  destruct (bool_decide (n = name)); simpl; [|done].
  destruct v as [|c v]; simpl.
  { intros vs r. destruct found as [t|]; simpl; rewrite agree_cons; [|by intros [? _]].
    intros (Ht & _ & [-> _]%Forall_cons). done. }
  destruct found as [t|]; simpl; [|split; [by intros ? [= <-] | done]].
  destruct (decide (t = c :: v)) as [->|Hne].
  - rewrite bool_decide_eq_true_2 by done. simpl. split; [by intros ? [= <-]|].
    intros vs r. rewrite !agree_cons, Forall_cons. tauto.
  - rewrite bool_decide_eq_false_2 by done. simpl. intros vs r.
    rewrite agree_cons, Forall_cons. tauto.
Qed.

Lemma cookie_pairs_agree name found pairs :
  nonempty_option found ->
  match for_each (cookie_pair name) pairs found with
  | Ok found' => nonempty_option found' /\ forall vs r,
      agree (option_list found ++ omap (pair_value name) pairs ++ vs) r <->
      agree (option_list found' ++ vs) r
  | Err _ => forall vs r, ~ agree (option_list found ++ omap (pair_value name) pairs ++ vs) r
  end.
Proof.
  revert found. induction pairs as [|pair pairs IH]; intros found Hf; [done|].
  assert (omap (pair_value name) (pair :: pairs) =
    option_list (pair_value name pair) ++ omap (pair_value name) pairs) as ->
    by (simpl; by destruct (pair_value name pair)).
  pose proof (cookie_pair_agree name found pair Hf) as Hp. simpl.
  destruct (cookie_pair name found pair) as [found'|e]; simpl.
  - destruct Hp as [Hf' Hp]. specialize (IH found' Hf').
    destruct (for_each _ pairs found') as [found''|e].
    + destruct IH as [Hf'' IH]. split; [done|]. intros vs r. by rewrite <-app_assoc, Hp.
    + intros vs r. rewrite <-app_assoc, Hp. apply IH.
  - intros vs r. rewrite <-app_assoc. apply Hp.
Qed.

Lemma agree_self found r : nonempty_option found -> agree (option_list found) r <-> r = found.
Proof.
  intros Hf. destruct found as [t|]; simpl.
  - rewrite agree_cons. split; [by intros (_ & -> & _)|]. intros ->. split; [by apply Hf | auto].
  - destruct r; simpl; [|done]. split; [by intros [? _] | discriminate].
Qed.

Lemma cookie_headers_agree name values found r :
  nonempty_option found ->
  for_each (fun found header =>
    header ← ok_or (header_to_str header) (Http.unauthorized (lit "invalid Cookie header"));
    for_each (cookie_pair name) (split_on 59 header) found) values found = Ok r <->
  exists texts, mapM header_to_str values = Some texts /\
    agree (option_list found ++ concat (map (cookie_values name) texts)) r.
Proof.
  revert found. induction values as [|v values IH]; intros found Hf.
  - simpl. split.
    + intros [= <-]. exists []. simpl. rewrite app_nil_r. by rewrite agree_self.
    + intros (? & [= <-] & Ha). simpl in Ha. rewrite app_nil_r, agree_self in Ha by done.
      by rewrite Ha.
  - cbn [for_each mapM]. destruct (header_to_str v) as [text|]; simpl;
      [|split; [discriminate | by intros (? & [=] & _)]].
    pose proof (cookie_pairs_agree name found (split_on 59 text) Hf) as Hp.
    fold (cookie_values name text) in Hp.
    destruct (for_each _ _ found) as [found'|e]; simpl.
    + destruct Hp as [Hf' Hp]. rewrite IH by done. split.
      * intros (texts & Ht & Ha). exists (text :: texts). rewrite Ht. split; [done|].
        simpl. by rewrite Hp.
      * intros (texts & Ht & Ha). destruct (mapM header_to_str values) as [ts|]; [|done].
        injection Ht as <-. exists ts. split; [done|]. simpl in Ha. by rewrite Hp in Ha.
    + split; [discriminate|]. intros (texts & Ht & Ha). exfalso.
      destruct (mapM header_to_str values) as [ts|]; [|done]. injection Ht as <-.
      simpl in Ha. by apply Hp in Ha.
Qed.

Lemma cookie_token_iff headers name r :
  cookie_token headers name = Ok r <->
  exists texts, header_texts headers COOKIE = Some texts /\
    agree (concat (map (cookie_values name) texts)) r.
Proof. by apply (cookie_headers_agree name _ None r). Qed.

Lemma bearer_token_iff value token :
  bearer_token value = Ok token <->
  exists text, header_to_str value = Some text /\ is_bearer text token.
Proof.
  unfold bearer_token, is_bearer. split.
  - intros Hb. inv_ok. exists a. split; [done|].
    apply orb_false_elim in Hb0 as [[Hs Hn]%orb_false_elim Hl].
    pose proof (split_words_spec is_ascii_whitespace a) as Hw.
    fold (split_ascii_whitespace a) in Hw.
    destruct (split_ascii_whitespace a) as [|s [|t [|? ?]]]; simpl in *; try discriminate.
    exists s. split; [done|]. by apply negb_false_iff in Hs.
  - intros (text & -> & scheme & Hs & He). simpl. rewrite Hs. simpl.
    rewrite He. simpl. pose proof (split_words_spec is_ascii_whitespace text) as Hw.
    fold (split_ascii_whitespace text) in Hw. rewrite Hs in Hw.
    apply Forall_cons in Hw as [_ [[Ht _] _]%Forall_cons]. by destruct token.
Qed.

Lemma is_bearer_nonempty text token : is_bearer text token -> token <> [].
Proof.
  intros (scheme & Hs & _). pose proof (split_words_spec is_ascii_whitespace text) as Hw.
  fold (split_ascii_whitespace text) in Hw. rewrite Hs in Hw.
  by apply Forall_cons in Hw as [_ [[Ht _] _]%Forall_cons].
Qed.

Lemma is_bearer_fun text t t' : is_bearer text t -> is_bearer text t' -> t = t'.
Proof. intros (s & E & _) (s' & E' & _). congruence. Qed.

(** C35: a request yields a token exactly when its credentials are unambiguous:
    at most one [Authorization] value, of the form [Bearer <token>], every
    cookie of the configured name carrying the same non-empty token, header
    values that are text, and at least one of the two present.  Conflicting,
    repeated or unreadable credentials are refused. *)
Theorem extract_token_iff headers name token :
  extract_token headers name = Ok token <-> credential headers name token.
Proof.
  unfold extract_token, credential, header_texts.
  destruct (get_all headers AUTHORIZATION) as [|v [|v' vs]]; simpl.
  - split.
    + intros (cookie & Hc & Hr)%bind_ok. apply cookie_token_iff in Hc as (texts & Ht & Ha).
      destruct cookie as [t|]; [|discriminate]. injection Hr as ->.
      destruct Ha as (? & ? & ?). exists [], texts. simpl. auto 10 with lia.
    + intros (auths & cookies & [= <-] & Hc & _ & _ & Ht & Ha & [? | Hne]); [done|].
      assert (cookie_token headers name = Ok (Some token)) as -> by (apply cookie_token_iff; by exists cookies).
      done.
  - destruct (header_to_str v) as [text|] eqn:Ev; simpl.
    + split.
      * intros (auth & (t & Hb & <-)%fmap_ok & (cookie & Hc & Hx)%bind_ok)%bind_ok.
        apply bearer_token_iff in Hb as (text' & Et & Hb).
        rewrite Ev in Et. injection Et as <-.
        apply cookie_token_iff in Hc as (texts & Ht & Ha). exists [text], texts.
        pose proof (is_bearer_nonempty _ _ Hb).
        destruct cookie as [c|]; [destruct (decide (t = c)) as [->|Hn]|].
        -- rewrite bool_decide_eq_true_2 in Hx by done. simpl in Hx. injection Hx as <-.
           destruct Ha as (? & ? & ?). simpl. auto 10.
        -- rewrite bool_decide_eq_false_2 in Hx by done. discriminate.
        -- injection Hx as <-. simpl in *. rewrite Ha. auto 10.
      * intros (auths & cookies & Ha & Hc & _ & Hb & Hn & Hall & _). injection Ha as <-.
        apply Forall_cons in Hb as [Hb _].
        assert (bearer_token v = Ok token) as -> by (apply bearer_token_iff; eauto). simpl.
        destruct (decide (concat (map (cookie_values name) cookies) = [])) as [E|E].
        -- assert (cookie_token headers name = Ok None) as ->
             by (apply cookie_token_iff; exists cookies; by rewrite E). done.
        -- assert (cookie_token headers name = Ok (Some token)) as ->
             by (apply cookie_token_iff; by exists cookies).
           simpl. by rewrite bool_decide_eq_true_2.
    + split; [unfold bearer_token; rewrite Ev; discriminate | by intros (? & ? & [=] & _)].
  - split; [discriminate|]. intros (auths & cookies & Ha & _ & Hl & _).
    apply (mapM_Some_1 header_to_str (v :: v' :: vs)) in Ha. apply Forall2_length in Ha. simpl in Ha. lia.
Qed.
End CredentialSpec.

(** ** Properties of authentication *)
Section Properties.
Context `{UuidLib, HeaderLib, JsonLib, Base64Lib, HmacLib}.

(** C19: a token is accepted exactly when it is a three-part HS256 JWS without
    critical extensions, its signature is the HMAC of its first two parts
    under the configured key, and its claims, read only then, are for this
    issuer and audience, inside their time window up to the leeway, and
    assert a bounded subject, a tenant and an allowed role; the context is
    what those claims assert, and is an administrator's exactly when a
    configured admin role is among its roles. *)
Theorem verify_iff self token now ctx :
  verify self token now = Ok ctx <-> accepted_token self token now ctx.
Proof. split; [apply verify_sound | apply verify_complete]. Qed.

(** The times at which a token is accepted form an interval with one
    identity: accepted at two instants, it is accepted with the same context
    at every instant between them. *)
Theorem verify_interval self token t1 t2 t3 ctx1 ctx3 :
  (t1 <= t2 <= t3)%Z ->
  verify self token t1 = Ok ctx1 -> verify self token t3 = Ok ctx3 ->
  ctx1 = ctx3 /\ verify self token t2 = Ok ctx1.
Proof.
  intros Ht Hv1 Hv3. apply verify_sound in Hv1, Hv3.
  destruct Hv1 as (Hl & Hw & h & c & s & bs & cl & Hs & ? & ? & ? & ? & ? & Hb & ? & Hj & Hw1 & Ha1).
  destruct Hv3 as (_ & _ & h' & c' & s' & bs' & cl' & Hs' & _ & _ & _ & _ & _ & Hb' & _ & Hj' & Hw3 & Ha3).
  rewrite Hs in Hs'. injection Hs' as <- <- <-. rewrite Hb in Hb'. injection Hb' as <-.
  rewrite Hj in Hj'. injection Hj' as <-.
  assert (forall ctx, claims_assert self cl ctx -> verify self token t2 = Ok ctx) as Hv.
  { intros ctx Hc. apply verify_complete. split; [done|]. split; [done|].
    exists h, c, s, bs, cl. repeat (split; [done|]). split; [|done].
    by eapply in_window_between. }
  pose proof (Hv _ Ha1). pose proof (Hv _ Ha3). split; congruence.
Qed.

(** What every authenticated context satisfies. *)
Record context_ok (ctx : AuthContext) : Prop := {
  cx_subject : subject ctx <> [] /\ (str_len (subject ctx) <= 256)%N /\ trim (subject ctx) = subject ctx;
  cx_roles : roles_ok (roles ctx) /\ roles ctx <> []
}.

Lemma verify_context_ok self token now ctx : verify self token now = Ok ctx -> context_ok ctx.
Proof.
  intros (_ & _ & h & c & s & bs & cl & _ & _ & _ & _ & _ & _ & _ & _ & _ & _ & Ha)%verify_sound.
  destruct (ca_subject _ _ _ Ha) as (raw & _ & E & Hn & Hl).
  destruct (ca_roles _ _ _ Ha) as (v & _ & Hr%parse_roles_ok).
  constructor; [|done]. rewrite E in *. split; [done|]. split; [done | apply trim_idem].
Qed.

Lemma insecure_context_ok headers ctx : insecure_context headers = Ok ctx -> context_ok ctx.
Proof.
  unfold insecure_context. intros Hi. inv_ok. apply parse_role_set_ok in Ha4.
  apply orb_false_elim in Hb as [Hb ?]. bool_prop.
  constructor; simpl; [|split; [done|]; by intros ->].
  split; [by intros E; rewrite E in Hb|]. split; [done | apply trim_idem].
Qed.

(** Either mode establishes it. *)
Lemma authenticated_context self headers now ctx :
  authenticate_at self headers now = Ok ctx -> context_ok ctx.
Proof.
  unfold authenticate_at. destruct (mode self) as [v|].
  - intros Ha. inv_ok. by eapply verify_context_ok.
  - apply insecure_context_ok.
Qed.

(** Whichever mode is configured, an authenticated request has a trimmed,
    bounded, non-empty subject and a non-empty, ascending set of lower-case
    role identifiers of at most 80 bytes. *)
Theorem authenticate_context_ok self headers now ctx :
  authenticate_at self headers now = Ok ctx -> context_ok ctx.
Proof. apply authenticated_context. Qed.

Ltac unauthorized_step :=
  repeat match goal with
  | H : mbind _ _ = Err _ |- _ => apply bind_err in H as [H | (? & _ & H)]
  | H : fmap _ _ = Err _ |- _ => revert H
  | H : ok_or ?o _ = Err _ |- _ => destruct o; [discriminate H | injection H as <-; reflexivity]
  | H : map_err _ ?o = Err _ |- _ => destruct o; [discriminate H | injection H as <-; reflexivity]
  | H : (if ?b then _ else _) = Err _ |- _ => destruct b
  | H : Ok _ = Err _ |- _ => discriminate H
  | H : Err _ = Err _ |- _ => injection H as <-; reflexivity
  end.

Lemma cookie_pair_unauthorized name found pair e :
  cookie_pair name found pair = Err e -> status e = StatusCode.UNAUTHORIZED.
Proof.
  unfold cookie_pair. destruct (split_once _ _) as [[n v]|]; [|discriminate].
  intros Hp. unauthorized_step.
Qed.

Lemma cookie_token_unauthorized headers name e :
  cookie_token headers name = Err e -> status e = StatusCode.UNAUTHORIZED.
Proof.
  unfold cookie_token. intros (found & v & _ & Hv)%for_each_err. unauthorized_step.
  apply for_each_err in Hv as (found' & pair & _ & Hp).
  by apply cookie_pair_unauthorized in Hp.
Qed.

Lemma extract_token_unauthorized headers name e :
  extract_token headers name = Err e -> status e = StatusCode.UNAUTHORIZED.
Proof.
  unfold extract_token. intros Hx. unauthorized_step.
  - destruct (head _) as [v|]; [|discriminate].
    destruct (bearer_token v) eqn:Eb; [discriminate|]. injection Hx as <-.
    unfold bearer_token in Eb. unauthorized_step.
  - by apply cookie_token_unauthorized in Hx.
  - destruct x as [a|], x0 as [c|]; unauthorized_step.
Qed.

(** Every refused request is answered 401, and a refused token always
    with the same message, so the answer does not tell which check failed. *)
Theorem authenticate_error_401 self headers now e :
  authenticate_at self headers now = Err e ->
  status e = StatusCode.UNAUTHORIZED /\
  (forall v token, mode self = Jwt v -> extract_token headers (cookie_name self) = Ok token ->
     e = Http.unauthorized (lit "invalid bearer token")).
Proof.
  unfold authenticate_at. destruct (mode self) as [v|].
  - intros [He | (token & Ht & He)]%bind_err.
    + split; [by eapply extract_token_unauthorized|]. intros; congruence.
    + destruct (verify v token now); [discriminate|]. by injection He as <-.
  - intros He. split; [|by intros v token [=]]. unfold insecure_context, tenant_id_from_headers in He.
    unauthorized_step.
Qed.

(** ** Configuration *)
Record verifier_ok (v : JwtVerifier) : Prop := {
  vo_secret : (MIN_SECRET_BYTES <= N.of_nat (length (jv_secret v)) <= MAX_SECRET_BYTES)%N;
  vo_issuer : jv_issuer v <> [] /\ (str_len (jv_issuer v) <= 512)%N;
  vo_audience : jv_audience v <> [] /\ (str_len (jv_audience v) <= 512)%N;
  vo_paths : Forall (fun p => 1 <= length p <= 8 /\ Forall (fun part => part <> []) p)
    [jv_tenant_claim_path v; jv_role_claim_path v];
  vo_allowed : roles_ok (jv_allowed_roles v) /\ jv_allowed_roles v <> [];
  vo_admin : roles_ok (jv_admin_roles v) /\ forall r, r ∈ jv_admin_roles v -> r ∈ jv_allowed_roles v;
  vo_leeway : (0 <= jv_leeway_seconds v <= 300)%Z
}.

Lemma parse_claim_path_ok value path :
  parse_claim_path value = Ok path ->
  1 <= length path <= 8 /\ Forall (fun part => part <> []) path.
Proof.
  unfold parse_claim_path. intros Hp. inv_ok. apply orb_false_elim in Hb as [[Hn Hl]%orb_false_elim He].
  apply Nat.ltb_ge in Hl. split; [destruct (map trim _); simpl in *; [done | lia]|].
  apply existsb_false_Forall in He. eapply Forall_impl; [exact He|].
  intros part Hpart ->. discriminate.
Qed.

Lemma nonempty_bounded s n :
  negb (nonempty s) || (n <? str_len s)%N = false -> s <> [] /\ (str_len s <= n)%N.
Proof. intros [Hs Hl%N.ltb_ge]%orb_false_elim. split; [by intros ->; simpl in Hs | done]. Qed.

Lemma jwt_ok secret issuer audience tc rc allowed admin leeway cookie cfg :
  roles_ok allowed -> roles_ok admin ->
  AuthConfig.jwt secret issuer audience tc rc allowed admin leeway cookie = Ok cfg ->
  exists v, mode cfg = Jwt v /\ verifier_ok v.
Proof.
  intros Hal Had Hj. unfold AuthConfig.jwt in Hj. inv_ok. eexists. split; [done|].
  apply negb_false_iff, andb_prop in Hb as [?%N.leb_le ?%N.leb_le].
  apply negb_false_iff, andb_prop in Hb4 as [?%Z.leb_le ?%Z.leb_le].
  apply negb_false_iff in Hb3. rewrite is_subset_spec in Hb3.
  constructor; simpl; auto using nonempty_bounded.
  - repeat (apply Forall_cons; split; [by eapply parse_claim_path_ok|]). constructor.
  - split; [done|]. by intros ->.
Qed.

(** The two outcomes of a configuration. *)
Lemma from_env_modes env production allow cfg :
  AuthConfig.from_env env production allow = Ok cfg ->
  (exists v, mode cfg = Jwt v /\ verifier_ok v) \/
  (mode cfg = InsecureHeaders /\ production = false /\ allow = true /\
   forall s, env (lit "EAL_JWT_HS256_SECRET") = Some s -> trim s = []).
Proof.
  unfold AuthConfig.from_env. intros Hf.
  destruct (env (lit "EAL_JWT_HS256_SECRET")) as [secret|]; simpl in Hf.
  - destruct (nonempty (trim secret)) eqn:En.
    + left. inv_ok. eapply jwt_ok; [| |exact Hf]; by eapply parse_role_set_ok.
    + right. inv_ok. destruct allow; [|discriminate]. injection Hf as <-.
      do 3 (split; [done|]). intros s [= <-]. by destruct (trim secret).
  - right. inv_ok. destruct allow; [|discriminate]. injection Hf as <-. by do 3 (split; [done|]).
Qed.

(** C23: the configuration read from the environment fails closed: in
    production the result is always a verified-token configuration, plain
    headers are trusted only outside production, with the explicit switch and
    without a configured secret, and every verifier has a key of 32 to 4096
    bytes, a bounded leeway, and admin roles that are allowed roles. *)
Theorem from_env_fails_closed env production allow cfg :
  AuthConfig.from_env env production allow = Ok cfg ->
  (exists v, mode cfg = Jwt v /\ verifier_ok v) \/
  (mode cfg = InsecureHeaders /\ production = false /\ allow = true /\
   forall s, env (lit "EAL_JWT_HS256_SECRET") = Some s -> trim s = []).
Proof. apply from_env_modes. Qed.
End Properties.

(** ** Concrete requests *)
Module AuthExample.
Export SampleUuid.
(** Headers are ASCII text, base64 is the identity, and the tag of a message
    is the first 32 bytes of the key and the message. *)
#[global] Instance header_lib : HeaderLib := {| header_to_str bs := Some bs |}.
#[global] Instance base64_lib : Base64Lib := {| base64_url_decode s := Some s |}.
#[global] Instance hmac_lib : HmacLib :=
  {| hmac_sha256 key msg := Some (SampleDigest.digest (key ++ msg)) |}.

Definition tenant : Uuid := mk_uuid 7 eq_refl.
Definition header_json : Value :=
  Object [(lit "alg", String (lit "HS256")); (lit "typ", String (lit "jwt"))].
Definition claims_json : Value :=
  Object [(lit "iss", String (lit "https://auth.example")); (lit "aud", Array [String (lit "eal-api")]);
          (lit "sub", String (lit " user-1 ")); (lit "exp", PosInt 2000); (lit "nbf", PosInt 1000);
          (lit "tenant_id", String (uuid_to_string tenant));
          (lit "role", String (lit "Member, owner"))].
#[global] Instance json_lib : JsonLib := {|
  json_from_slice bs :=
    if bool_decide (bs = lit "H") then Some header_json
    else if bool_decide (bs = lit "C") then Some claims_json else None
|}.

Definition secret : list N := repeat 97%N 32.
Definition verifier : JwtVerifier := {|
  jv_secret := secret; jv_issuer := lit "https://auth.example"; jv_audience := lit "eal-api";
  jv_tenant_claim_path := [lit "tenant_id"]; jv_role_claim_path := [lit "role"];
  jv_allowed_roles := [lit "admin"; lit "authenticated"; lit "member"; lit "owner"];
  jv_admin_roles := [lit "admin"; lit "owner"]; jv_leeway_seconds := 30
|}.
Definition token : str := lit "H.C." ++ secret.
Definition context : AuthContext := {|
  tenant_id := tenant; subject := lit "user-1"; roles := [lit "member"; lit "owner"];
  tenant_admin := true
|}.
Definition config : AuthConfig := {| mode := Jwt verifier; cookie_name := DEFAULT_COOKIE_NAME |}.
Definition headers (auth cookie : list str) : HeaderMap := {|
  header_values name :=
    if bool_decide (name = AUTHORIZATION) then auth
    else if bool_decide (name = COOKIE) then cookie else []
|}.
Definition env (name : str) : option str :=
  if bool_decide (name = lit "EAL_JWT_HS256_SECRET") then Some secret
  else if bool_decide (name = lit "EAL_JWT_ISSUER") then Some (lit "https://auth.example")
  else if bool_decide (name = lit "EAL_JWT_AUDIENCE") then Some (lit "eal-api")
  else if bool_decide (name = lit "EAL_JWT_TENANT_ADMIN_ROLES") then Some (lit "Owner")
  else None.
End AuthExample.
Import AuthExample.

Lemma verify_interval_witness :
  verify verifier token 971 = Ok context /\ verify verifier token 970 = Ok context /\
  verify verifier token 2029 = Ok context /\ verify verifier token 969 = Err tt /\
  verify verifier token 2030 = Err tt.
Proof.
  split; [|repeat split; by vm_compute].
  apply (verify_interval verifier token 970 971 2029 context context); [lia | by vm_compute..].
Defined.

Lemma authenticate_context_ok_witness :
  exists ctx, authenticate_at config (headers [lit "bearer " ++ token] []) 1500 = Ok ctx /\
    context_ok ctx.
Proof.
  exists context.
  assert (authenticate_at config (headers [lit "bearer " ++ token] []) 1500 = Ok context) as E
    by by vm_compute.
  split; [exact E|]. exact (authenticate_context_ok _ _ _ _ E).
Defined.

Lemma authenticate_error_401_witness :
  exists e, authenticate_at config (headers [lit "Bearer " ++ token]
      [lit "theme=dark; eal_access_token=other"]) 1500 = Err e /\ status e = 401%N.
Proof.
  eexists. split; [by vm_compute|].
  eapply (authenticate_error_401 config (headers [lit "Bearer " ++ token]
    [lit "theme=dark; eal_access_token=other"]) 1500). by vm_compute.
Defined.

Lemma from_env_fails_closed_witness :
  exists cfg v, AuthConfig.from_env env true true = Ok cfg /\ mode cfg = Jwt v /\ verifier_ok v.
Proof.
  assert (exists cfg, AuthConfig.from_env env true true = Ok cfg) as (cfg & E)
    by (eexists; by vm_compute).
  destruct (from_env_fails_closed _ _ _ _ E) as [(v & Hm & Hv) | (_ & [=] & _)].
  exists cfg, v. auto.
Defined.
