(* ===== verification/WorkerAuth.v ===== *)
(** * Crawler credentials ([src/worker_auth.rs])

    Page ingestion is authorised by one shared token, of which only the
    SHA-256 digest is configured. *)

From stdpp Require Import strings.
From S2P Require Import Prelude RustStr Externals Samples HttpError Auth.

Definition INGEST_TOKEN_HEADER : str := lit "x-eal-ingest-token".
Definition INGEST_TOKEN_DIGEST_ENV : str := lit "EAL_INGEST_TOKEN_SHA256".
Definition MIN_TOKEN_BYTES : N := 32.
Definition MAX_TOKEN_BYTES : N := 512.

(** No early exit: the differences of all byte pairs are accumulated. *)
Definition fixed_time_eq (left right : list N) : bool :=
  (fold_left (fun difference '(l, r) => N.lor difference (N.lxor l r)) (zip left right) 0 =? 0)%N.

Definition invalid_credentials : HttpError := Http.unauthorized (lit "invalid crawler credentials").

Section WorkerAuth.
Context `{DigestLib}.

(** [hex::decode_to_slice] into 32 bytes. *)
Definition parse_configured_digest (value : str) : result str (list N) :=
  let value := trim value in
  reject lit "ingest token digest must contain exactly 64 hexadecimal characters"
    when negb (str_len value =? 64)%N || negb (forallb is_ascii_hexdigit (as_bytes value)) ;;
  digest ← ok_or (hex_decode value) (lit "ingest token digest must be valid hexadecimal");
  reject lit "ingest token digest must be valid hexadecimal" when negb (length digest =? 32)%nat ;;
  Ok digest.

Definition configured_digest (env : Env) : result unit (list N) :=
  value ← ok_or (env INGEST_TOKEN_DIGEST_ENV) tt;
  map_err (fun _ => tt) (parse_configured_digest value).

Definition is_configured (env : Env) : bool := is_ok (configured_digest env).

Definition token_matches (expected token : list N) : bool :=
  let len := N.of_nat (length token) in
  if negb ((MIN_TOKEN_BYTES <=? len) && (len <=? MAX_TOKEN_BYTES))%N then false
  else fixed_time_eq expected (sha256 token).

Definition authorize (env : Env) (headers : HeaderMap) : result HttpError unit :=
  expected ← map_err (fun _ => Http.ingest_auth_required) (configured_digest env);
  token ← ok_or (get headers INGEST_TOKEN_HEADER) invalid_credentials;
  reject invalid_credentials when negb (token_matches expected token) ;;
  Ok tt.
End WorkerAuth.

(** ** The comparison decides equality *)
Lemma fold_lor_zero (pairs : list (N * N)) (acc : N) :
  fold_left (fun difference '(l, r) => N.lor difference (N.lxor l r)) pairs acc = 0%N <->
  acc = 0%N /\ Forall (fun p => p.1 = p.2) pairs.
Proof.
  revert acc. induction pairs as [|[l r] pairs IH]; intros acc; simpl; [by split; [auto | intros []]|].
  rewrite IH, N.lor_eq_0_iff, N.lxor_eq_0_iff, Forall_cons. simpl. tauto.
Qed.

Lemma zip_all_eq {A} (l k : list A) :
  length l = length k -> Forall (fun p => p.1 = p.2) (zip l k) <-> l = k.
Proof.
  revert k. induction l as [|x l IH]; intros [|y k]; simpl; intros E; try done.
  rewrite Forall_cons, IH by lia. simpl. split; [by intros [-> ->] | by intros [= -> ->]].
Qed.

Lemma fixed_time_eq_spec left right :
  length left = length right -> fixed_time_eq left right = true <-> left = right.
Proof.
  intros Hl. unfold fixed_time_eq. rewrite N.eqb_eq, fold_lor_zero, zip_all_eq by done. tauto.
Qed.

Section Properties.
Context `{DigestLaws}.

Lemma configured_digest_length env d : configured_digest env = Ok d -> length d = 32.
Proof.
  unfold configured_digest, parse_configured_digest. intros Hd. inv_ok.
  by apply negb_false_iff, Nat.eqb_eq in Hb0.
Qed.

(** What a crawler must present. *)
Definition authorized (env : Env) (headers : HeaderMap) : Prop :=
  exists digest token, configured_digest env = Ok digest /\
    get headers INGEST_TOKEN_HEADER = Some token /\
    (MIN_TOKEN_BYTES <= N.of_nat (length token) <= MAX_TOKEN_BYTES)%N /\ sha256 token = digest.

(** Crawler requests are authorised exactly when a digest is configured
    and the first token header holds 32 to 512 bytes with that SHA-256
    digest.  Without a valid configuration every request is answered
    503, whatever it carries; with one, every other request is answered by
    the same 401. *)
Theorem authorize_iff env headers :
  (authorize env headers = Ok tt <-> authorized env headers) /\
  (forall e, authorize env headers = Err e ->
     e = if is_configured env then invalid_credentials else Http.ingest_auth_required).
Proof.
  unfold authorize, authorized, is_configured.
  destruct (configured_digest env) as [d|u] eqn:Ed; simpl.
  - destruct (get headers INGEST_TOKEN_HEADER) as [t|]; simpl.
    + assert (token_matches d t = true <->
        (MIN_TOKEN_BYTES <= N.of_nat (length t) <= MAX_TOKEN_BYTES)%N /\ sha256 t = d) as Hm.
      { unfold token_matches. rewrite <-(fixed_time_eq_spec (sha256 t) d)
          by (rewrite sha256_length; symmetry; by eapply configured_digest_length).
        assert (fixed_time_eq d (sha256 t) = fixed_time_eq (sha256 t) d) as ->.
        { apply eq_true_iff_eq. rewrite !fixed_time_eq_spec; [done|..];
            rewrite sha256_length; [symmetry|]; by eapply configured_digest_length. }
        destruct (N.leb_spec MIN_TOKEN_BYTES (N.of_nat (length t)));
          destruct (N.leb_spec (N.of_nat (length t)) MAX_TOKEN_BYTES); simpl;
          split; (discriminate || tauto || intros [[? ?] ?]; lia). }
      destruct (token_matches d t); simpl.
      * split; [|discriminate]. split; [|done]. intros _. exists d, t. by destruct Hm as [Hm _]; destruct Hm.
      * split; [|by intros e [= <-]]. split; [discriminate|].
        intros (d' & t' & [= <-] & [= <-] & Hl & Hs). destruct Hm as [_ Hm]. by discriminate Hm.
    + split; [|by intros e [= <-]]. split; [discriminate | by intros (? & ? & _ & [=] & _)].
  - split; [|by intros e [= <-]]. split; [discriminate | by intros (? & ? & [=] & _)].
Qed.
End Properties.

(** ** A configured crawler *)
Module WorkerExample.
Export SampleDigest.
Definition token : list N := repeat 97%N 32.
Definition env (name : str) : option str :=
  if bool_decide (name = INGEST_TOKEN_DIGEST_ENV) then Some (lit " " ++ sha256_hex token) else None.
Definition headers (values : list (list N)) : HeaderMap := {|
  header_values name := if bool_decide (name = INGEST_TOKEN_HEADER) then values else []
|}.
End WorkerExample.

Example worker_accepts : authorize WorkerExample.env (WorkerExample.headers [WorkerExample.token]) = Ok tt.
Proof. by vm_compute. Qed.
Example worker_refuses :
  authorize WorkerExample.env (WorkerExample.headers [98%N :: repeat 97%N 31]) = Err invalid_credentials.
Proof. by vm_compute. Qed.

Lemma authorize_iff_witness :
  authorize WorkerExample.env (WorkerExample.headers [WorkerExample.token]) = Ok tt /\
  authorized WorkerExample.env (WorkerExample.headers [WorkerExample.token]).
Proof.
  split; [by vm_compute|].
  apply (authorize_iff WorkerExample.env (WorkerExample.headers [WorkerExample.token])).
  by vm_compute.
Defined.
