(* ===== verification/QueryAnalysis.v ===== *)
(** * Query analysis ([crates/query/src/lib.rs])

    The keyword and entity views of a natural-language query, and the
    embedding inputs built from them.  The two loops carry a set of what was
    seen and leave early; the reference definitions at the end say what they
    compute. *)

From stdpp Require Import strings.
From S2P Require Import Prelude Ordered RustStr Floats Externals Auth.

Definition MAX_KEYWORDS : nat := 24.
Definition MAX_ENTITIES : nat := 12.

Record QueryAnalysisError := { qa_code : str; qa_message : str }.

(** The literals [1.2_f32], [0.6_f32] and [0.9_f32]. *)
Definition query_weight : f32 := S754_finite false 10066330 (-23).
Definition keyword_weight : f32 := S754_finite false 10066330 (-24).
Definition entity_weight : f32 := S754_finite false 15099494 (-24).

Definition is_instruction_word (value : str) : bool :=
  bool_decide (value ∈ map lit
    ["alert"; "email"; "find"; "let"; "notify"; "show"; "tell"; "track"; "watch"]%string).

Definition is_stopword (value : str) : bool :=
  bool_decide (value ∈ map lit
    ["about"; "after"; "again"; "against"; "alert"; "also"; "among"; "and"; "are"; "because";
     "been"; "before"; "being"; "between"; "could"; "email"; "find"; "for"; "from"; "have";
     "into"; "just"; "more"; "notify"; "should"; "that"; "the"; "their"; "them"; "then";
     "there"; "these"; "they"; "this"; "those"; "through"; "tools"; "when"; "where"; "which";
     "while"; "with"; "would"]%string).

Definition collapse_whitespace (value : str) : str := join [32%N] (split_whitespace value).

(** The state of the entity loop. *)
Record EntityState := { es_current : list str; es_seen : list str; es_output : list str }.

Definition flush_entity (s : EntityState) : EntityState :=
  if negb (nonempty (es_current s)) || (MAX_ENTITIES <=? length (es_output s))%nat
  then {| es_current := []; es_seen := es_seen s; es_output := es_output s |}
  else
    let entity := join [32%N] (es_current s) in
    let identity := to_ascii_lowercase entity in
    {| es_current := [];
       es_seen := btree_insert identity (es_seen s);
       es_output := if set_contains (es_seen s) identity then es_output s
                    else es_output s ++ [entity] |}.

Section QueryAnalysis.
Context `{UnicodeTables}.

Definition clean_token (value : str) : str :=
  trim_matches (fun c => negb (is_alphanumeric c) && negb (c =? 45)%N && negb (c =? 95)%N) value.

Definition tokens (value : str) : list str :=
  List.filter nonempty (map clean_token (split_whitespace value)).
Definition raw_tokens (value : str) : list str :=
  List.filter nonempty (map clean_token (split_whitespace value)).

Definition is_probable_entity_word (value : str) : bool :=
  match value with
  | [] => false
  | first :: characters =>
      is_uppercase first && existsb is_lowercase characters && negb (forallb is_uppercase value)
  end.

Fixpoint keyword_loop (tokens seen output : list str) : list str :=
  match tokens with
  | [] => output
  | token :: tokens' =>
      let normalized := to_ascii_lowercase token in
      if (chars_count normalized <? 3)%N || is_stopword normalized || set_contains seen normalized
      then keyword_loop tokens' seen output
      else
        let seen := btree_insert normalized seen in
        let output := output ++ [normalized] in
        if (MAX_KEYWORDS <=? length output)%nat then output
        else keyword_loop tokens' seen output
  end.

Definition extract_keywords (query : str) : list str := keyword_loop (tokens query) [] [].

Definition entity_candidate (index : nat) (word : str) : bool :=
  is_probable_entity_word word &&
  negb ((index =? 0)%nat && is_instruction_word (to_ascii_lowercase word)).

Fixpoint entity_loop (index : nat) (words : list str) (s : EntityState) : EntityState :=
  match words with
  | [] => s
  | word :: words' =>
      let s :=
        if entity_candidate index word
        then {| es_current := es_current s ++ [word]; es_seen := es_seen s; es_output := es_output s |}
        else flush_entity s in
      if (MAX_ENTITIES <=? length (es_output s))%nat then s
      else entity_loop (S index) words' s
  end.

Definition extract_entities (query : str) : list str :=
  let s := entity_loop 0 (raw_tokens query) {| es_current := []; es_seen := []; es_output := [] |} in
  take MAX_ENTITIES (es_output (flush_entity s)).

Context `{SemanticContracts}.

Definition push_input (inputs : list EmbeddingInput) (kind : EmbeddingInputKind) (text : str)
    (weight : f32) : result QueryAnalysisError (list EmbeddingInput) :=
  reject {| qa_code := lit "too_many_embedding_inputs";
            qa_message := lit "query analysis exceeded " ++ N_to_string MAX_EMBEDDING_INPUTS ++
                          lit " embedding inputs" |}
    when (MAX_EMBEDDING_INPUTS <=? N.of_nat (length inputs))%N ;;
  reject {| qa_code := lit "too_many_embedding_inputs";
            qa_message := lit "query analysis produced an unsupported number of inputs" |}
    when (65535 <? N.of_nat (length inputs))%N ;;
  Ok (inputs ++ [{| ei_kind := kind; ei_ordinal := N.of_nat (length inputs);
                    ei_text := text; ei_weight := weight |}]).

Definition analyze_query (value : str) : result QueryAnalysisError QueryTextViews :=
  let query_text := collapse_whitespace value in
  let character_count := chars_count query_text in
  reject {| qa_code := lit "invalid_query_text";
            qa_message := lit "query text must contain 3 to " ++
              N_to_string MAX_EMBEDDING_INPUT_CHARS ++
              lit " characters so the complete query remains one auditable embedding input" |}
    when negb ((3 <=? character_count) && (character_count <=? MAX_EMBEDDING_INPUT_CHARS))%N ;;
  let keywords := extract_keywords query_text in
  let entities := extract_entities query_text in
  embedding_inputs ← push_input [] Query query_text query_weight;
  embedding_inputs ← for_each (fun inputs keyword => push_input inputs Keyword keyword keyword_weight)
    keywords embedding_inputs;
  embedding_inputs ← for_each (fun inputs entity => push_input inputs Entity entity entity_weight)
    entities embedding_inputs;
  let views := {| qv_query_text := query_text; qv_keywords := keywords; qv_entities := entities;
                  qv_embedding_inputs := embedding_inputs |} in
  _ ← map_err (fun e => {| qa_code := ce_code e; qa_message := ce_message e |}) (views_validate views);
  Ok views.
End QueryAnalysis.

(** ** Reference definitions *)

(** The first occurrence of every key. *)
Fixpoint first_by (key : str -> str) (seen l : list str) : list str :=
  match l with
  | [] => []
  | x :: l' =>
      if decide (key x ∈ seen) then first_by key seen l'
      else x :: first_by key (key x :: seen) l'
  end.

(** The maximal runs of words marked [true]. *)
Fixpoint marked_runs (current : list str) (l : list (bool * str)) : list (list str) :=
  match l with
  | [] => [current]
  | (true, w) :: l' => marked_runs (current ++ [w]) l'
  | (false, _) :: l' => current :: marked_runs [] l'
  end.

Section Reference.
Context `{UnicodeTables}.

Definition keyword_spec (query : str) : list str :=
  take MAX_KEYWORDS (first_by (fun x => x) []
    (List.filter (fun w => (3 <=? chars_count w)%N && negb (is_stopword w))
       (map to_ascii_lowercase (tokens query)))).

Definition entity_spec (query : str) : list str :=
  take MAX_ENTITIES (first_by to_ascii_lowercase []
    (map (join [32%N])
       (List.filter nonempty
          (marked_runs [] (imap (fun i w => (entity_candidate i w, w)) (raw_tokens query)))))).

Lemma first_by_ext key seen seen' l :
  (forall k, k ∈ seen <-> k ∈ seen') -> first_by key seen l = first_by key seen' l.
Proof.
  revert seen seen'. induction l as [|x l IH]; intros seen seen' Hs; simpl; [done|].
  destruct (decide (key x ∈ seen)) as [Hx|Hx], (decide (key x ∈ seen')) as [Hx'|Hx'];
    [by apply IH | by rewrite Hs in Hx | by rewrite <-Hs in Hx'|].
  f_equal. apply IH. set_solver.
Qed.

Lemma first_by_NoDup key seen l :
  NoDup (map key (first_by key seen l)) /\ Forall (fun x => key x ∉ seen) (first_by key seen l).
Proof.
  revert seen. induction l as [|x l IH]; intros seen; simpl; [by split; constructor|].
  destruct (decide (key x ∈ seen)) as [Hx|Hx]; [apply IH|].
  destruct (IH (key x :: seen)) as [Hnd Hall]. rewrite Forall_forall in Hall. split.
  - simpl. constructor; [|done]. intros (y & E & Hy)%list_elem_of_fmap.
    apply Hall in Hy. apply Hy. rewrite <-E. by left.
  - constructor; [done|]. apply Forall_forall. intros y Hy. apply Hall in Hy. set_solver.
Qed.

Lemma keyword_loop_spec toks seen output :
  length output < MAX_KEYWORDS ->
  keyword_loop toks seen output =
  take MAX_KEYWORDS (output ++ first_by (fun x => x) seen
    (List.filter (fun w => (3 <=? chars_count w)%N && negb (is_stopword w))
       (map to_ascii_lowercase toks))).
Proof.
  revert seen output. induction toks as [|t toks IH]; intros seen output Hl;
    cbn [keyword_loop map List.filter first_by].
  { rewrite app_nil_r, take_ge; [done | lia]. }
  set (w := to_ascii_lowercase t). cbv zeta. rewrite N.ltb_antisym.
  destruct (3 <=? chars_count w)%N; cbn [negb andb orb]; [|by apply IH].
  destruct (is_stopword w); cbn [negb andb orb first_by]; [by apply IH|].
  unfold set_contains. destruct (decide (w ∈ seen)) as [Hw|Hw];
    [rewrite bool_decide_eq_true_2 by done; by apply IH | rewrite bool_decide_eq_false_2 by done].
  rewrite (first_by_ext _ (w :: seen) (btree_insert w seen))
    by (intros k; rewrite elem_of_btree_insert; set_solver).
  change (w :: first_by (fun x => x) (btree_insert w seen) ?k) with
    ([w] ++ first_by (fun x => x) (btree_insert w seen) k). rewrite app_assoc.
  destruct (Nat.leb_spec MAX_KEYWORDS (length (output ++ [w]))) as [Hm|Hm]; [|by apply IH].
  rewrite take_app_le, take_ge; [done | | done].
  rewrite length_app in *. simpl in *. lia.
Qed.

(** What the entity loop still adds to the output. *)
Definition pending_entities (index : nat) (words : list str) (current : list str) : list str :=
  map (join [32%N]) (List.filter nonempty
    (marked_runs current (imap (fun i w => (entity_candidate (index + i) w, w)) words))).

Lemma flush_entity_spec s rest :
  length (es_output s) <= MAX_ENTITIES ->
  let s' := flush_entity s in
  es_current s' = [] /\ length (es_output s') <= MAX_ENTITIES /\
  take MAX_ENTITIES (es_output s ++ first_by to_ascii_lowercase (es_seen s)
    (map (join [32%N]) (List.filter nonempty [es_current s]) ++ rest)) =
  take MAX_ENTITIES (es_output s' ++ first_by to_ascii_lowercase (es_seen s') rest).
Proof.
  intros Hl. unfold flush_entity.
  destruct (es_current s) as [|w ws] eqn:Ec; cbn [nonempty negb orb es_current es_seen es_output];
    [auto|].
  destruct (Nat.leb_spec MAX_ENTITIES (length (es_output s))) as [Hm|Hm];
    cbn [es_current es_seen es_output].
  { split; [done|]. split; [done|]. rewrite !take_app_le by lia. done. }
  split; [done|]. cbn [List.filter nonempty map app first_by].
  set (e := join [32%N] (w :: ws)). unfold set_contains.
  destruct (decide (to_ascii_lowercase e ∈ es_seen s)) as [He|He];
    [rewrite bool_decide_eq_true_2 by done | rewrite bool_decide_eq_false_2 by done].
  - split; [lia|]. do 2 f_equal. apply first_by_ext. intros k. rewrite elem_of_btree_insert.
    split; [by right | by intros [-> | ?]].
  - rewrite length_app. cbn [length]. split; [lia|]. rewrite <-app_assoc. cbn [app].
    rewrite (first_by_ext _ (to_ascii_lowercase e :: es_seen s)
      (btree_insert (to_ascii_lowercase e) (es_seen s))); [done|].
    intros k. rewrite elem_of_btree_insert. set_solver.
Qed.

Lemma filter_cons_app {A} (p : A -> bool) x l :
  List.filter p (x :: l) = List.filter p [x] ++ List.filter p l.
Proof. simpl. by destruct (p x). Qed.

Lemma entity_loop_spec index words s :
  length (es_output s) < MAX_ENTITIES ->
  take MAX_ENTITIES (es_output (flush_entity (entity_loop index words s))) =
  take MAX_ENTITIES (es_output s ++ first_by to_ascii_lowercase (es_seen s)
    (pending_entities index words (es_current s))).
Proof.
  revert index s. induction words as [|w words IH]; intros index s Hl.
  - destruct (flush_entity_spec s []) as (_ & _ & E); [lia|]. simpl in E.
    rewrite !app_nil_r in E. unfold pending_entities. simpl. by rewrite E.
  - unfold pending_entities. cbn [entity_loop imap]. rewrite Nat.add_0_r.
    replace (imap _ words) with (imap (fun i w => (entity_candidate (S index + i) w, w)) words).
    2:{ apply imap_ext. intros. simpl. by rewrite Nat.add_succ_r. }
    destruct (entity_candidate index w); cbn [marked_runs].
    + rewrite (proj2 (Nat.leb_gt _ _)) by done. by rewrite IH.
    + destruct (flush_entity_spec s
        (pending_entities (S index) words [])) as (Ec & Hl' & E); [lia|].
      rewrite filter_cons_app, map_app. fold (pending_entities (S index) words []). rewrite E.
      destruct (Nat.leb_spec MAX_ENTITIES (length (es_output (flush_entity s)))) as [Hm|Hm].
      * rewrite (take_app_le _ _ MAX_ENTITIES) by lia. unfold flush_entity at 1.
        rewrite Ec. done.
      * rewrite IH by done. by rewrite Ec.
Qed.

Lemma extract_keywords_spec query : extract_keywords query = keyword_spec query.
Proof. apply (keyword_loop_spec _ [] []). simpl. unfold MAX_KEYWORDS. lia. Qed.

Lemma extract_entities_spec query : extract_entities query = entity_spec query.
Proof.
  apply (entity_loop_spec 0 _ {| es_current := []; es_seen := []; es_output := [] |}).
  simpl. unfold MAX_ENTITIES. lia.
Qed.

(** Keyword extraction, with its early exit, yields the first 24 distinct
    lower-case tokens of at least three characters that are not stop words,
    in order of first occurrence; entity extraction yields the first 12
    maximal runs of capitalised words, a leading instruction word apart,
    without repetitions up to ASCII case. *)
Theorem extraction_spec query :
  extract_keywords query = keyword_spec query /\ extract_entities query = entity_spec query.
Proof. split; [apply extract_keywords_spec | apply extract_entities_spec]. Qed.

Lemma extraction_bounds query :
  length (keyword_spec query) <= MAX_KEYWORDS /\ length (entity_spec query) <= MAX_ENTITIES.
Proof. unfold keyword_spec, entity_spec. rewrite !length_take. lia. Qed.
End Reference.

(** ** The embedding inputs of a query *)
Section Inputs.
Context `{UnicodeTables, SemanticContracts}.

Definition number_inputs (l : list (EmbeddingInputKind * str * f32)) : list EmbeddingInput :=
  imap (fun i '(kind, text, weight) =>
    {| ei_kind := kind; ei_ordinal := N.of_nat i; ei_text := text; ei_weight := weight |}) l.

Definition views_of (query_text : str) : QueryTextViews :=
  let keywords := keyword_spec query_text in
  let entities := entity_spec query_text in
  {| qv_query_text := query_text; qv_keywords := keywords; qv_entities := entities;
     qv_embedding_inputs := number_inputs ((Query, query_text, query_weight) ::
       map (fun k => (Keyword, k, keyword_weight)) keywords ++
       map (fun e => (Entity, e, entity_weight)) entities) |}.

Lemma push_input_ok l kind text weight out :
  push_input (number_inputs l) kind text weight = Ok out <->
  out = number_inputs (l ++ [(kind, text, weight)]) /\
  (N.of_nat (length l) < MAX_EMBEDDING_INPUTS)%N /\ (N.of_nat (length l) <= 65535)%N.
Proof.
  unfold push_input, number_inputs. rewrite !reject_ok, length_imap, N.leb_gt, N.ltb_ge, imap_app.
  simpl. rewrite Nat.add_0_r. split.
  - intros (? & ? & [= <-]). auto.
  - intros (-> & ? & ?). auto.
Qed.

Lemma push_inputs_ok kind weight texts l out :
  (N.of_nat (length l + length texts) <= 65536)%N ->
  for_each (fun inputs text => push_input inputs kind text weight) texts (number_inputs l) = Ok out <->
  out = number_inputs (l ++ map (fun t => (kind, t, weight)) texts) /\
  (texts = [] \/ N.of_nat (length l + length texts) <= MAX_EMBEDDING_INPUTS)%N.
Proof.
  revert l. induction texts as [|t texts IH]; intros l Hl.
  - simpl. rewrite app_nil_r. split; [intros [= <-]; auto | by intros [-> _]].
  - cbn [for_each length map] in *. split.
    + intros (a & (-> & Hm & _)%push_input_ok & Hr)%bind_ok.
      apply IH in Hr as [-> Hr]; [|rewrite length_app; simpl; lia].
      rewrite <-app_assoc. split; [done|]. right. rewrite length_app in Hr. simpl in Hr.
      destruct Hr as [-> | ?]; simpl; lia.
    + intros [-> [[=] | Hm]].
      assert (push_input (number_inputs l) kind t weight =
        Ok (number_inputs (l ++ [(kind, t, weight)]))) as ->
        by (apply push_input_ok; split; [done | lia]).
      simpl. apply IH; rewrite ?length_app; simpl; [lia|].
      rewrite <-app_assoc. split; [done|]. right. lia.
Qed.

Lemma push_inputs_intro kind weight texts l :
  (N.of_nat (length l + length texts) <= 65536)%N ->
  (N.of_nat (length l + length texts) <= MAX_EMBEDDING_INPUTS)%N ->
  for_each (fun inputs text => push_input inputs kind text weight) texts (number_inputs l) =
  Ok (number_inputs (l ++ map (fun t => (kind, t, weight)) texts)).
Proof. intros. apply push_inputs_ok; auto. Qed.

Lemma analyze_query_ok value views :
  analyze_query value = Ok views <->
  (3 <= chars_count (collapse_ws value) <= MAX_EMBEDDING_INPUT_CHARS)%N /\
  views = views_of (collapse_ws value) /\
  (N.of_nat (length (qv_embedding_inputs views)) <= MAX_EMBEDDING_INPUTS)%N /\
  views_validate views = Ok tt.
Proof.
  unfold analyze_query. change (collapse_whitespace value) with (collapse_ws value).
  set (q := collapse_ws value). rewrite extract_keywords_spec, extract_entities_spec.
  pose proof (extraction_bounds q) as [Hk He]. unfold MAX_KEYWORDS, MAX_ENTITIES in Hk, He.
  rewrite reject_ok, negb_false_iff, andb_true_iff, !N.leb_le.
  change (@nil EmbeddingInput) with (number_inputs []). unfold views_of. split.
  - intros (Hq & (i1 & (-> & Hm1 & _)%push_input_ok &
      (i2 & (-> & Hm2)%push_inputs_ok & (i3 & (-> & Hm3)%push_inputs_ok &
        (u & Hv%map_err_ok & [= <-])%bind_ok)%bind_ok)%bind_ok)%bind_ok).
    2-3: rewrite ?length_app, ?length_map; simpl; lia.
    split; [done|]. split; [done|]. destruct u. split; [|done].
    unfold number_inputs. simpl. rewrite length_imap.
    rewrite !length_app, !length_map in *. simpl in *.
    destruct Hm2 as [E2|?], Hm3 as [E3|?]; rewrite ?E2, ?E3 in *; simpl in *; lia.
  - intros (Hq & -> & Hm & Hv). split; [done|]. unfold number_inputs in Hm at 1. simpl in Hm.
    rewrite length_imap, !length_app, !length_map in Hm.
    rewrite (proj2 (push_input_ok [] Query q query_weight _)) by (split; [done|]; simpl; lia).
    cbn [mbind result_bind].
    rewrite push_inputs_intro by (simpl; lia). cbn [mbind result_bind].
    rewrite push_inputs_intro by (rewrite length_app, length_map; simpl; lia).
    cbn [mbind result_bind app]. cbn [app] in Hv. by rewrite Hv.
Qed.

(** C39: analysis succeeds exactly when the whitespace-normalised query has 3
    to the contract's maximum of characters, its inputs fit the contract's
    count and the contract accepts the views; the inputs are then the
    complete query, the keywords and the entities, in this order, numbered
    from 0, with weights 1.2, 0.6 and 0.9.  Nothing is truncated silently. *)
Theorem analyze_query_iff value views :
  analyze_query value = Ok views <->
  (3 <= chars_count (collapse_ws value) <= MAX_EMBEDDING_INPUT_CHARS)%N /\
  views = views_of (collapse_ws value) /\
  (N.of_nat (length (qv_embedding_inputs views)) <= MAX_EMBEDDING_INPUTS)%N /\
  views_validate views = Ok tt.
Proof. apply analyze_query_ok. Qed.

(** analysing the query text of accepted views again gives the same
    views, so a stored query can be re-analysed. *)
Theorem analyze_query_stable value views :
  analyze_query value = Ok views -> analyze_query (qv_query_text views) = Ok views.
Proof.
  intros Ha. apply analyze_query_ok in Ha as (Hq & -> & Hm & Hv). cbn [qv_query_text views_of].
  apply analyze_query_ok. by rewrite collapse_ws_idem.
Qed.
End Inputs.

(** ** A concrete query *)
Module QueryExample.
(** ASCII tables and a contract with the limits the tests exercise. *)
#[global] Instance unicode_tables : UnicodeTables := {|
  is_alphanumeric := is_ascii_alphanumeric; is_uppercase := is_ascii_upper;
  is_lowercase := is_ascii_lower; debug_str s := s
|}.
#[global] Instance semantic_contracts : SemanticContracts := {|
  MAX_EMBEDDING_INPUT_CHARS := 700; MAX_EMBEDDING_INPUTS := 96;
  input_validate _ := Ok tt; views_validate _ := Ok tt
|}.
Definition query : str :=
  lit "Notify me when  Acme Corporation launches renewable energy tools in Colombia.".
End QueryExample.
Import QueryExample.

Example query_entities :
  extract_entities (collapse_ws query) = [lit "Acme Corporation"; lit "Colombia"].
Proof. by vm_compute. Qed.
Example query_keywords :
  extract_keywords (collapse_ws query) =
  map lit ["acme"; "corporation"; "launches"; "renewable"; "energy"; "colombia"]%string.
Proof. by vm_compute. Qed.

Lemma analyze_query_stable_witness :
  exists views, analyze_query query = Ok views /\ length (qv_embedding_inputs views) = 9 /\
    analyze_query (qv_query_text views) = Ok views.
Proof.
  eexists. split; [by vm_compute|]. split; [done|].
  eapply (analyze_query_stable query). by vm_compute.
Defined.
