(* ===== verification/QueryEmbedding.v ===== *)
(** * Query embeddings ([src/query_embedding.rs], [crates/interfaces-compat])

    The configured embedding space, the endpoint policy, one request to the
    embedding provider, and the weighted centroid of the vectors it returns. *)

From Stdlib Require Import SpecFloat.
From stdpp Require Import strings.
From S2P Require Import Prelude Ordered RustStr Floats Externals Samples Auth.
From S2P Require Import QueryAnalysis.

(** ** The embedding space ([crates/interfaces-compat/src/lib.rs]) *)
Record EmbeddingSpaceConfig := {
  es_provider : str;
  es_model : str;
  es_model_version : str;
  es_dimensions : N;
  es_normalization : VectorNormalization
}.

Module EmbeddingSpaceConfig.
Definition bounded_text (s : str) (max : N) : bool :=
  negb (nonempty (trim s)) || (max <? str_len s)%N.

Definition validate (self : EmbeddingSpaceConfig) : result str unit :=
  reject lit "embedding provider must contain between 1 and 128 bytes"
    when bounded_text (es_provider self) 128 ;;
  reject lit "embedding model must contain between 1 and 256 bytes"
    when bounded_text (es_model self) 256 ;;
  reject lit "embedding model_version must contain between 1 and 256 bytes"
    when bounded_text (es_model_version self) 256 ;;
  reject lit "embedding dimensions must be between 1 and 32768"
    when negb ((1 <=? es_dimensions self) && (es_dimensions self <=? 32768))%N ;;
  reject lit "query embedding spaces must use l2 or unit_length normalization"
    when bool_decide (es_normalization self = NoNormalization) ;;
  Ok tt.
End EmbeddingSpaceConfig.

(** ** Errors *)
Definition MAX_PROVIDER_ERROR_CHARS : nat := 500.

Record QueryEmbeddingError := {
  qe_code : str;
  qe_message : str;
  qe_retryable : bool
}.

Definition error (code message : str) (retryable : bool) : QueryEmbeddingError :=
  {| qe_code := code; qe_message := message; qe_retryable := retryable |}.

Definition is_success (status : N) : bool := ((200 <=? status) && (status <? 300))%N.
Definition is_server_error (status : N) : bool := ((500 <=? status) && (status <? 600))%N.

Definition provider_error_code (status : N) : str :=
  if ((status =? 401) || (status =? 403))%N then lit "embedding_provider_auth_failed"
  else if (status =? 429)%N then lit "embedding_provider_throttled"
  else if is_server_error status then lit "embedding_provider_unavailable"
  else lit "embedding_provider_rejected_request".

(** At most [max_characters] characters, and an ellipsis when some were cut. *)
Definition truncate (value : str) (max_characters : nat) : str :=
  take max_characters value ++ (if nonempty (drop max_characters value) then [8230%N] else []).

Definition nonempty_env (env : Env) (name : str) : option str :=
  filter_nonempty (trim <$> env name).

(** ** Vectors *)

(** [values.map(|v| v.powi(2)).sum::<f64>().sqrt()]; the sum starts at -0.0. *)
Definition magnitude (values : list f64) : f64 :=
  f64_sqrt (fold_left (fun acc v => f64_add acc (f64_mul v v)) values (S754_zero true)).

Definition validate_vector (vector : list f32) (expected_dimensions : N)
    : result QueryEmbeddingError (list f32) :=
  reject error (lit "embedding_dimension_mismatch")
           (lit "embedding provider returned " ++ N_to_string (N.of_nat (length vector)) ++
            lit " dimensions; expected " ++ N_to_string expected_dimensions) false
    when negb (N.of_nat (length vector) =? expected_dimensions)%N ;;
  reject error (lit "invalid_embedding_values")
           (lit "embedding provider returned non-finite values") false
    when existsb (fun value => negb (is_finite value)) vector ;;
  reject error (lit "zero_embedding_vector") (lit "embedding provider returned a zero vector") false
    when fle (magnitude (map f64_of_f32 vector)) f64_epsilon ;;
  Ok vector.

(** One step of the accumulation loop: the running sums and total weight. *)
Definition accumulate (dimensions : N) (acc : list f64 * f64) (item : EmbeddingInput * list f32)
    : result QueryEmbeddingError (list f64 * f64) :=
  let '(aggregate, total_weight) := acc in
  let '(input, vector) := item in
  reject error (lit "embedding_dimension_mismatch")
           (lit "embedding vectors did not share one dimension") false
    when negb (N.of_nat (length vector) =? dimensions)%N ;;
  let m := magnitude (map f64_of_f32 vector) in
  reject error (lit "zero_embedding_vector") (lit "embedding provider returned a zero vector") false
    when fle m f64_epsilon ;;
  let weight := f64_of_f32 (ei_weight input) in
  Ok (zip_with (fun a value => f64_add a (f64_mul (f64_div (f64_of_f32 value) m) weight))
        aggregate vector,
      f64_add total_weight weight).

Definition weighted_centroid (inputs : list EmbeddingInput) (vectors : list (list f32))
    (dimensions : N) : result QueryEmbeddingError (list f32) :=
  reject error (lit "invalid_embedding_aggregation")
           (lit "embedding inputs and vectors must have matching non-zero dimensions") false
    when negb (length inputs =? length vectors)%nat || (dimensions =? 0)%N ;;
  '(aggregate, total_weight) ←
    for_each (accumulate dimensions) (zip inputs vectors)
      (repeat fzero (N.to_nat dimensions), fzero);
  reject error (lit "invalid_embedding_weight")
           (lit "query embedding weights must have a positive sum") false
    when fle total_weight f64_epsilon ;;
  let aggregate := map (fun value => f64_div value total_weight) aggregate in
  let m := magnitude aggregate in
  reject error (lit "zero_embedding_centroid")
           (lit "weighted query embedding collapsed to a zero vector") false
    when fle m f64_epsilon ;;
  Ok (map (fun value => f32_of_f64 (f64_div value m)) aggregate).

(** ** The provider

    [ProviderRequest] is the JSON body sent; [Reply] is what [reqwest]
    reports: a transport error, or a status, the body text if it can be read,
    and the body parsed as a [ProviderResponse]. *)
Record ProviderRequest := {
  pq_model : str;
  pq_input : list str;
  pq_dimensions : N;
  pq_encoding_format : str
}.

Record ProviderEmbedding := { pe_index : N; pe_embedding : list f32 }.
Record ProviderResponse := { pr_data : list ProviderEmbedding; pr_model : option str }.

Inductive Reply :=
| SendError (message : str) (timeout_or_connect : bool)
| Received (status : N) (text : option str) (json : result str ProviderResponse).

Class HttpClient `{UrlLib} := {
  post : Url -> option str -> ProviderRequest -> Reply;
  client_build : result str unit
}.

Definition validate_provider_model `{UnicodeTables} (returned_model : option str)
    (configured_model : str) : result QueryEmbeddingError unit :=
  match returned_model with
  | Some returned_model =>
      reject error (lit "embedding_model_mismatch")
               (lit "embedding provider returned model " ++ debug_str returned_model ++
                lit "; expected " ++ debug_str configured_model) false
        when negb (bool_decide (returned_model = configured_model)) ;;
      Ok tt
  | None => Ok tt
  end.

Section Service.
Context `{HttpClient, UnicodeTables, SemanticContracts}.

Record QueryEmbeddingService := {
  qs_endpoint : Url;
  qs_api_key : option str;
  qs_model : str;
  qs_dimensions : N
}.

Definition validate_endpoint (endpoint : Url) (environment : str)
    : result QueryEmbeddingError unit :=
  reject error (lit "invalid_embedding_endpoint")
           (lit "embedding endpoint must not contain credentials, a query string, or a fragment")
           false
    when nonempty (url_username endpoint) || bool_decide (is_Some (url_password endpoint)) ||
         bool_decide (is_Some (url_query endpoint)) || bool_decide (is_Some (url_fragment endpoint)) ;;
  let secure := bool_decide (url_scheme endpoint = lit "https") in
  let development_loopback :=
    negb (bool_decide (environment = lit "production")) &&
    bool_decide (url_scheme endpoint = lit "http") &&
    bool_decide (url_host_str endpoint ∈
      [Some (lit "localhost"); Some (lit "127.0.0.1"); Some (lit "::1")]) in
  reject error (lit "insecure_embedding_endpoint")
           (lit "embedding endpoint must use HTTPS; development may use HTTP loopback only") false
    when negb secure && negb development_loopback ;;
  Ok tt.

Definition from_env (env : Env) (embedding_space : EmbeddingSpaceConfig) (environment : str)
    : result QueryEmbeddingError (option QueryEmbeddingService) :=
  match nonempty_env env (lit "EAL_EMBEDDING_ENDPOINT") with
  | None => Ok None
  | Some endpoint_value =>
      endpoint ← map_err (fun e => error (lit "invalid_embedding_endpoint")
          (lit "EAL_EMBEDDING_ENDPOINT is invalid: " ++ e) false) (url_parse endpoint_value);
      _ ← validate_endpoint endpoint environment;
      _ ← map_err (fun e => error (lit "embedding_client_build_failed")
          (lit "could not build embedding HTTP client: " ++ e) false) client_build;
      Ok (Some {| qs_endpoint := endpoint;
                  qs_api_key := nonempty_env env (lit "EAL_EMBEDDING_API_KEY");
                  qs_model := es_model embedding_space;
                  qs_dimensions := es_dimensions embedding_space |})
  end.

(** The vectors of a response in index order. *)
Definition indexed_vectors (dimensions : N) (data : list ProviderEmbedding)
    : result QueryEmbeddingError (list (list f32)) :=
  mapM (fun '(expected_index, item) =>
    reject error (lit "embedding_index_mismatch")
             (lit "embedding provider returned non-contiguous indices") false
      when negb (pe_index item =? expected_index)%N ;;
    validate_vector (pe_embedding item) dimensions)
    (imap (fun i item => (N.of_nat i, item)) data).

Definition embed_inputs (self : QueryEmbeddingService) (inputs : list EmbeddingInput)
    : result QueryEmbeddingError (list f32) :=
  reject error (lit "empty_embedding_inputs")
           (lit "at least one query embedding input is required") false
    when negb (nonempty inputs) ;;
  _ ← for_each (fun _ input =>
        map_err (fun e => error (ce_code e) (ce_message e) false) (input_validate input)) inputs tt;
  let payload := {| pq_model := qs_model self; pq_input := map ei_text inputs;
                    pq_dimensions := qs_dimensions self; pq_encoding_format := lit "float" |} in
  match post (qs_endpoint self) (qs_api_key self) payload with
  | SendError e retryable =>
      Err (error (lit "embedding_provider_unreachable")
             (lit "embedding provider request failed: " ++ e) retryable)
  | Received status text json =>
      reject error (provider_error_code status)
               (lit "embedding provider returned HTTP " ++ N_to_string status ++ lit ": " ++
                truncate (default [] text) MAX_PROVIDER_ERROR_CHARS)
               ((status =? 429)%N || is_server_error status)
        when negb (is_success status) ;;
      provider_response ← map_err (fun e => error (lit "invalid_embedding_provider_response")
          (lit "embedding provider response was invalid JSON: " ++ e) false) json;
      _ ← validate_provider_model (pr_model provider_response) (qs_model self);
      let data := sort_by_key pe_index (pr_data provider_response) in
      reject error (lit "embedding_count_mismatch")
               (lit "embedding provider returned " ++ N_to_string (N.of_nat (length data)) ++
                lit " vectors for " ++ N_to_string (N.of_nat (length inputs)) ++ lit " inputs") false
        when negb (length data =? length inputs)%nat ;;
      vectors ← indexed_vectors (qs_dimensions self) data;
      weighted_centroid inputs vectors (qs_dimensions self)
  end.
End Service.

(** ** The centroid, coordinate by coordinate *)
Definition vector_norm (vector : list f32) : f64 := magnitude (map f64_of_f32 vector).

(** What input [i] contributes to coordinate [j]: its unit vector's
    coordinate times its weight. *)
Definition contribution (j : nat) (item : EmbeddingInput * list f32) : f64 :=
  f64_mul (f64_div (f64_of_f32 (nth j item.2 fzero)) (vector_norm item.2))
    (f64_of_f32 (ei_weight item.1)).

Definition coordinate_sum (items : list (EmbeddingInput * list f32)) (j : nat) (start : f64) : f64 :=
  fold_left (fun acc item => f64_add acc (contribution j item)) items start.

Definition weight_sum (items : list (EmbeddingInput * list f32)) (start : f64) : f64 :=
  fold_left (fun acc item => f64_add acc (f64_of_f32 (ei_weight item.1))) items start.

(** The weighted mean of the unit vectors, before its own normalisation. *)
Definition weighted_mean (items : list (EmbeddingInput * list f32)) (dimensions : N) : list f64 :=
  map (fun j => f64_div (coordinate_sum items j fzero) (weight_sum items fzero))
    (seq 0 (N.to_nat dimensions)).

Definition usable_vector (dimensions : N) (vector : list f32) : Prop :=
  N.of_nat (length vector) = dimensions /\ fle (vector_norm vector) f64_epsilon = false.

Lemma zip_with_nth {A B C} (f : A -> B -> C) (l : list A) (k : list B) (d : B) :
  length l = length k -> zip_with f l k = imap (fun j a => f a (nth j k d)) l.
Proof.
  revert k. induction l as [|a l IH]; intros [|b k] Hl; simpl in *; try lia; [done|].
  f_equal. rewrite (IH k) by lia. apply imap_ext. done.
Qed.

Lemma imap_imap {A B C} (g : nat -> B -> C) (f : nat -> A -> B) l :
  imap g (imap f l) = imap (fun j x => g j (f j x)) l.
Proof.
  revert f g. induction l as [|x l IH]; intros f g; simpl; [done|]. f_equal. apply IH.
Qed.

Lemma accumulate_loop dimensions items agg w agg' w' :
  N.of_nat (length agg) = dimensions ->
  for_each (accumulate dimensions) items (agg, w) = Ok (agg', w') <->
  Forall (fun item => usable_vector dimensions item.2) items /\
  agg' = imap (fun j a => coordinate_sum items j a) agg /\ w' = weight_sum items w.
Proof.
  revert agg w. induction items as [|[i v] items IH]; intros agg w Hl.
  - simpl. unfold coordinate_sum, weight_sum. simpl. split.
    + intros [= <- <-]. split; [constructor|]. split; [|done].
      clear. induction agg as [|a agg IH]; simpl; [done|]. by f_equal.
    + intros (_ & -> & ->). do 2 f_equal. clear. induction agg as [|a agg IH]; simpl; [done|].
      by f_equal.
  - cbn [for_each accumulate]. rewrite Forall_cons. unfold usable_vector at 1. cbn [snd].
    fold (vector_norm v). destruct (N.eqb_spec (N.of_nat (length v)) dimensions) as [Hv|Hv]; cbn [negb].
    2:{ split; [discriminate | tauto]. }
    destruct (fle (vector_norm v) f64_epsilon); [split; [discriminate | intros [[[_ ?] _] _]; done]|].
    cbn [mbind result_bind].
    rewrite (zip_with_nth _ agg v fzero) by lia. rewrite IH by (rewrite length_imap; lia).
    rewrite imap_imap. unfold coordinate_sum, weight_sum. cbn [fold_left]. tauto.
Qed.

Lemma imap_repeat {A B} (f : nat -> A -> B) (x : A) n :
  imap f (repeat x n) = map (fun j => f j x) (seq 0 n).
Proof.
  revert f. induction n as [|n IH]; intros f; simpl; [done|]. f_equal.
  rewrite IH, <-seq_shift, map_map. done.
Qed.

(** A centroid has the space's dimension, at least 1. *)
Lemma weighted_centroid_length inputs vectors dimensions out :
  weighted_centroid inputs vectors dimensions = Ok out ->
  N.of_nat (length out) = dimensions /\ (1 <= dimensions)%N.
Proof.
  unfold weighted_centroid. intros [[Hl Hd]%orb_false_iff ([agg w] & Hloop & Hr)%bind_ok]%reject_ok.
  apply N.eqb_neq in Hd.
  apply accumulate_loop in Hloop as (_ & -> & _); [|rewrite repeat_length; lia].
  apply reject_ok in Hr as [_ [_ [= <-]]%reject_ok].
  rewrite !length_map, length_imap, repeat_length. lia.
Qed.

(** C36: the centroid exists exactly when there is one vector per input, every
    vector has the space's dimension and a norm above epsilon, and neither
    the weights nor the weighted mean of the unit vectors vanish; it is then
    that mean divided by its norm, rounded to single precision, so it has the
    space's dimension. *)
Theorem weighted_centroid_iff inputs vectors dimensions out :
  weighted_centroid inputs vectors dimensions = Ok out <->
  length inputs = length vectors /\ dimensions <> 0%N /\
  Forall (usable_vector dimensions) vectors /\
  fle (weight_sum (zip inputs vectors) fzero) f64_epsilon = false /\
  let mean := weighted_mean (zip inputs vectors) dimensions in
  fle (magnitude mean) f64_epsilon = false /\
  out = map (fun value => f32_of_f64 (f64_div value (magnitude mean))) mean.
Proof.
  unfold weighted_centroid. rewrite reject_ok, orb_false_iff, negb_false_iff, Nat.eqb_eq, N.eqb_neq.
  split.
  - intros [[Hl Hd] ([agg w] & Hloop & Hr)%bind_ok].
    apply accumulate_loop in Hloop as (Hall & -> & ->); [|rewrite repeat_length; lia].
    rewrite imap_repeat in Hr. apply reject_ok in Hr as [Hw Hr]. rewrite map_map in Hr.
    apply reject_ok in Hr as [Hm Hr]. injection Hr as <-.
    split; [done|]. split; [done|]. split; [|done].
    apply Forall_forall. intros v Hv.
    assert (exists i, (i, v) ∈ zip inputs vectors) as [i Hi].
    { apply list_elem_of_lookup in Hv as (k & Hk).
      destruct (lookup_lt_is_Some_2 inputs k) as [i Hi]; [rewrite Hl; by eapply lookup_lt_Some|].
      exists i. apply list_elem_of_lookup. exists k. apply lookup_zip_with_Some. eauto. }
    rewrite Forall_forall in Hall. by apply (Hall (i, v)).
  - intros (Hl & Hd & Hall & Hw & Hm & ->). split; [done|].
    assert (Forall (fun item => usable_vector dimensions item.2) (zip inputs vectors)) as Hu.
    { rewrite Forall_forall in Hall. apply Forall_forall.
      intros [i v] Hiv%elem_of_zip_r. by apply Hall. }
    assert (N.of_nat (length (repeat fzero (N.to_nat dimensions))) = dimensions) as Hr
      by (rewrite repeat_length; lia).
    rewrite (proj2 (accumulate_loop dimensions _ _ _ _ _ Hr) (conj Hu (conj eq_refl eq_refl))).
    cbn [mbind result_bind]. rewrite Hw, imap_repeat, map_map.
    fold (weighted_mean (zip inputs vectors) dimensions). by rewrite Hm.
Qed.

(** ** The endpoint policy *)
Section Endpoint.
Context `{HttpClient, UnicodeTables, SemanticContracts}.

Definition endpoint_ok (endpoint : Url) (environment : str) : Prop :=
  url_username endpoint = [] /\ url_password endpoint = None /\ url_query endpoint = None /\
  url_fragment endpoint = None /\
  (url_scheme endpoint = lit "https" \/
   environment <> lit "production" /\ url_scheme endpoint = lit "http" /\
   exists host, url_host_str endpoint = Some (lit host) /\
     host ∈ ["localhost"; "127.0.0.1"; "::1"]%string).

Lemma validate_endpoint_iff endpoint environment :
  validate_endpoint endpoint environment = Ok tt <-> endpoint_ok endpoint environment.
Proof.
  unfold validate_endpoint, endpoint_ok.
  rewrite !reject_ok, !orb_false_iff, !bool_decide_eq_false, <-!eq_None_not_Some, andb_false_iff,
    !negb_false_iff, !andb_true_iff, negb_true_iff, bool_decide_eq_false, !bool_decide_eq_true.
  assert (url_host_str endpoint ∈ [Some (lit "localhost"); Some (lit "127.0.0.1"); Some (lit "::1")] <->
    exists host, url_host_str endpoint = Some (lit host) /\
      host ∈ ["localhost"; "127.0.0.1"; "::1"]%string) as ->.
  { rewrite !elem_of_cons. setoid_rewrite elem_of_cons. setoid_rewrite elem_of_cons.
    setoid_rewrite elem_of_cons. setoid_rewrite elem_of_nil. naive_solver. }
  assert (nonempty (url_username endpoint) = false <-> url_username endpoint = []) as ->
    by (by destruct (url_username endpoint)).
  tauto.
Qed.

Lemma from_env_ok env space environment service :
  from_env env space environment = Ok (Some service) ->
  endpoint_ok (qs_endpoint service) environment /\
  qs_model service = es_model space /\ qs_dimensions service = es_dimensions space.
Proof.
  unfold from_env. destruct (nonempty_env _ _) as [value|]; [|discriminate].
  intros Hf. inv_ok. destruct a0. by apply validate_endpoint_iff in Ha0.
Qed.

(** A configured embedding service only ever talks to an endpoint without
    credentials, query or fragment, over HTTPS, or, outside production, over
    HTTP to a loopback host; in production it is always HTTPS. *)
Theorem from_env_endpoint_policy env space environment service :
  from_env env space environment = Ok (Some service) ->
  endpoint_ok (qs_endpoint service) environment /\
  (environment = lit "production" -> url_scheme (qs_endpoint service) = lit "https") /\
  qs_model service = es_model space /\ qs_dimensions service = es_dimensions space.
Proof.
  intros (He & Hm)%from_env_ok. split; [done|]. split; [|done]. intros Hp.
  destruct He as (_ & _ & _ & _ & [Hs | [Hn _]]); done.
Qed.
End Endpoint.

(** ** The provider's answer *)
Lemma perm_same_keys {A} (key : A -> N) l k :
  l ≡ₚ k -> map key l = map key k -> NoDup (map key k) -> l = k.
Proof.
  intros Hp Hk Hn. apply list_eq. intros i. destruct (l !! i) as [x|] eqn:Ei.
  - assert (x ∈ k) as (j & Ej)%list_elem_of_lookup by (rewrite <-Hp; by eapply list_elem_of_lookup_2).
    assert ((map key k) !! j = Some (key x)) as Hj by (rewrite list_lookup_fmap, Ej; done).
    assert ((map key k) !! i = Some (key x)) as Hi by (rewrite <-Hk, list_lookup_fmap, Ei; done).
    by rewrite (NoDup_lookup _ _ _ _ Hn Hi Hj), Ej.
  - symmetry. apply lookup_ge_None. rewrite <-Hp. by apply lookup_ge_None.
Qed.

Definition number_vectors (vectors : list (list f32)) : list ProviderEmbedding :=
  imap (fun i v => {| pe_index := N.of_nat i; pe_embedding := v |}) vectors.

Lemma number_vectors_keys vectors :
  map pe_index (number_vectors vectors) = map N.of_nat (seq 0 (length vectors)).
Proof.
  unfold number_vectors. assert (forall s,
    map pe_index (imap (fun i v => {| pe_index := N.of_nat (s + i); pe_embedding := v |}) vectors) =
    map N.of_nat (seq s (length vectors))) as Hs; [|apply (Hs 0)].
  induction vectors as [|v vectors IH]; intros s; simpl; [done|]. rewrite Nat.add_0_r. f_equal.
  rewrite <-IH. f_equal. apply imap_ext. intros. simpl. by rewrite Nat.add_succ_r.
Qed.

Lemma sort_numbered data vectors :
  data ≡ₚ number_vectors vectors -> sort_by_key pe_index data = number_vectors vectors.
Proof.
  intros Hp. apply (perm_same_keys pe_index).
  - rewrite <-Hp. apply sort_by_perm.
  - rewrite number_vectors_keys. apply sort_by_key_indices.
    rewrite <-number_vectors_keys. by apply fmap_Permutation.
  - rewrite number_vectors_keys. apply NoDup_fmap; [intros ??; lia | apply NoDup_seq].
Qed.

Definition valid_vector (dimensions : N) (vector : list f32) : Prop :=
  N.of_nat (length vector) = dimensions /\ Forall (fun x => is_finite x = true) vector /\
  fle (vector_norm vector) f64_epsilon = false.

Lemma validate_vector_iff vector dimensions out :
  validate_vector vector dimensions = Ok out <-> out = vector /\ valid_vector dimensions vector.
Proof.
  unfold validate_vector, valid_vector, vector_norm.
  rewrite !reject_ok, negb_false_iff, N.eqb_eq, existsb_false_Forall.
  setoid_rewrite negb_false_iff. naive_solver.
Qed.

Lemma imap_shift {A B} (h : nat -> A -> B) s l :
  imap ((fun i x => h (s + i) x) ∘ S) l = imap (fun i x => h (S s + i) x) l.
Proof. apply imap_ext. intros. simpl. by rewrite Nat.add_succ_r. Qed.

Lemma indexed_vectors_iff dimensions data vectors :
  indexed_vectors dimensions data = Ok vectors <->
  data = number_vectors vectors /\ Forall (valid_vector dimensions) vectors.
Proof.
  unfold indexed_vectors, number_vectors.
  assert (forall s, mapM (fun '(expected_index, item) =>
      reject error (lit "embedding_index_mismatch")
               (lit "embedding provider returned non-contiguous indices") false
        when negb (pe_index item =? expected_index)%N ;;
      validate_vector (pe_embedding item) dimensions)
      (imap (fun i item => (N.of_nat (s + i), item)) data) = Ok vectors <->
    data = imap (fun i v => {| pe_index := N.of_nat (s + i); pe_embedding := v |}) vectors /\
    Forall (valid_vector dimensions) vectors) as Hs; [|apply (Hs 0)].
  revert vectors. induction data as [|[i v] data IH]; intros vectors s.
  - simpl. destruct vectors; simpl; [by split; auto|]. split; [discriminate | by intros [? _]].
  - cbn [imap mapM pe_index pe_embedding]. rewrite Nat.add_0_r.
    split.
    + intros (v' & [Hi [-> Hv]%validate_vector_iff]%reject_ok & (vs & Hvs & [= <-])%bind_ok)%bind_ok.
      apply negb_false_iff, N.eqb_eq in Hi as ->.
      rewrite (imap_shift (fun j item => (N.of_nat j, item))) in Hvs.
      apply IH in Hvs as [-> Hall]. simpl. rewrite Nat.add_0_r. split; [|by constructor].
      f_equal. symmetry. apply (imap_shift (fun j v => {| pe_index := N.of_nat j; pe_embedding := v |})).
    + destruct vectors as [|w vs]; simpl; [by intros [? _]|]. rewrite Nat.add_0_r.
      intros [[= -> -> Hd] [Hw Hall]%Forall_cons].
      rewrite N.eqb_refl. cbn [negb]. rewrite (proj2 (validate_vector_iff w dimensions w)) by done.
      cbn [mbind result_bind].
      rewrite (imap_shift (fun j item => (N.of_nat j, item))).
      rewrite (proj2 (IH vs (S s))); [done|]. split; [|done]. rewrite Hd.
      apply (imap_shift (fun j v => {| pe_index := N.of_nat j; pe_embedding := v |})).
Qed.

Section Provider.
Context `{HttpClient, UnicodeTables, SemanticContracts}.

Definition request (self : QueryEmbeddingService) (inputs : list EmbeddingInput) : ProviderRequest :=
  {| pq_model := qs_model self; pq_input := map ei_text inputs;
     pq_dimensions := qs_dimensions self; pq_encoding_format := lit "float" |}.

Lemma validate_all_iff inputs :
  for_each (fun (_ : unit) input =>
    map_err (fun e => error (ce_code e) (ce_message e) false) (input_validate input)) inputs tt = Ok tt <->
  Forall (fun input => input_validate input = Ok tt) inputs.
Proof.
  induction inputs as [|i inputs IH]; simpl; [by split; auto|].
  rewrite Forall_cons, <-IH. destruct (input_validate i) as [[]|]; simpl; [tauto|].
  split; [discriminate | by intros [? _]].
Qed.

Lemma provider_model_iff returned model :
  validate_provider_model returned model = Ok tt <-> returned = None \/ returned = Some model.
Proof.
  unfold validate_provider_model. destruct returned as [m|]; [|split; auto].
  rewrite reject_ok, negb_false_iff, bool_decide_eq_true. split; [intros [-> _]; auto|].
  by intros [? | [= ->]].
Qed.

(** C37: embedding succeeds exactly when there is at least one input, every
    input is valid, and the provider answers 2xx, for the configured model if
    it names one, with exactly one valid vector per input; the order in which
    it lists them does not matter, only their indices 0 to n-1 do, and the
    result is the centroid of the inputs with their own vectors. *)
Theorem embed_inputs_iff self inputs out :
  embed_inputs self inputs = Ok out <->
  inputs <> [] /\ Forall (fun input => input_validate input = Ok tt) inputs /\
  exists status text response vectors,
    post (qs_endpoint self) (qs_api_key self) (request self inputs) = Received status text (Ok response) /\
    is_success status = true /\
    (pr_model response = None \/ pr_model response = Some (qs_model self)) /\
    pr_data response ≡ₚ number_vectors vectors /\ length vectors = length inputs /\
    Forall (valid_vector (qs_dimensions self)) vectors /\
    weighted_centroid inputs vectors (qs_dimensions self) = Ok out.
Proof.
  unfold embed_inputs. fold (request self inputs). split.
  - intros [Hn (u & Hv & Hr)%bind_ok]%reject_ok. destruct u. apply validate_all_iff in Hv.
    split; [by intros ->|]. split; [done|].
    destruct (post _ _ _) as [|status text json]; [discriminate|].
    apply reject_ok in Hr as [Hs (resp & ->%map_err_ok & ([] & Hm & [Hl (vs & Hvs & Hc)%bind_ok]%reject_ok)%bind_ok)%bind_ok].
    apply provider_model_iff in Hm. apply indexed_vectors_iff in Hvs as [Hd Hall].
    apply negb_false_iff in Hs. apply negb_false_iff, Nat.eqb_eq in Hl.
    exists status, text, resp, vs. rewrite <-Hd in *. split; [done|]. split; [done|]. split; [done|].
    split; [symmetry; apply sort_by_perm|]. split; [|done].
    rewrite <-Hl, Hd. unfold number_vectors. by rewrite length_imap.
  - intros (Hn & Hv%validate_all_iff & status & text & resp & vs & -> & Hs & Hm & Hd & Hl & Hall & Hc).
    destruct inputs as [|i inputs]; [done|]. cbn [nonempty negb]. rewrite Hv. cbn [mbind result_bind].
    rewrite Hs. cbn [negb map_err mbind result_bind]. rewrite (proj2 (provider_model_iff _ _) Hm).
    cbn [mbind result_bind].
    rewrite (sort_numbered _ _ Hd). unfold number_vectors at 1 2 3. rewrite !length_imap, Hl.
    rewrite Nat.eqb_refl. cbn [negb].
    rewrite (proj2 (indexed_vectors_iff _ _ vs)); [done | by split].
Qed.
End Provider.

(** ** A concrete provider, which answers out of order *)
Module EmbeddingExample.
Export QueryExample.
Export SampleUrl.
Definition url : sample_url := {|
  scheme := lit "https"; user := []; password := None;
  host := Some (Domain (lit "embeddings.example")); port := None;
  path := lit "/v1/embeddings"; query := None; fragment := None
|}.
Definition unit_vector (a b : spec_float) : list f32 := [a; b].
#[global] Instance http_client : HttpClient := {|
  post _ _ _ := Received 200 None (Ok {|
    pr_data := [ {| pe_index := 1; pe_embedding := unit_vector fzero f32_one |};
                 {| pe_index := 0; pe_embedding := unit_vector f32_one fzero |} ];
    pr_model := None |});
  client_build := Ok tt
|}.
Definition space : EmbeddingSpaceConfig := {|
  es_provider := lit "local"; es_model := lit "mini"; es_model_version := lit "1";
  es_dimensions := 2; es_normalization := L2
|}.
Definition env (name : str) : option str :=
  if bool_decide (name = lit "EAL_EMBEDDING_ENDPOINT") then Some (to_string url) else None.
Definition service : QueryEmbeddingService :=
  {| qs_endpoint := url; qs_api_key := None; qs_model := lit "mini"; qs_dimensions := 2 |}.
Definition input (ordinal : N) (weight : f32) : EmbeddingInput :=
  {| ei_kind := Query; ei_ordinal := ordinal; ei_text := lit "renewable"; ei_weight := weight |}.
(** 0.5 in single precision. *)
Definition half : f32 := S754_finite false 8388608 (-24).
Definition inputs : list EmbeddingInput := [input 0 f32_one; input 1 half].
End EmbeddingExample.

(** The first coordinate, of weight 1, is the larger one: 2/sqrt 5 and 1/sqrt 5. *)
Example embed_example :
  embed_inputs EmbeddingExample.service EmbeddingExample.inputs =
  Ok [S754_finite false 15005998 (-24); S754_finite false 15005998 (-25)].
Proof. by vm_compute. Qed.

Lemma from_env_endpoint_policy_witness :
  from_env EmbeddingExample.env EmbeddingExample.space (lit "production") =
    Ok (Some EmbeddingExample.service) /\
  endpoint_ok EmbeddingExample.url (lit "production").
Proof.
  split; [by vm_compute|].
  apply (from_env_endpoint_policy EmbeddingExample.env EmbeddingExample.space (lit "production")
    EmbeddingExample.service). by vm_compute.
Defined.
