(* ===== verification/Probe.v ===== *)
(** * The semantic query probe ([src/bin/semantic_query_probe.rs])

    The operator's command that puts query analysis and query embedding
    together, from the environment to a report which holds the length and the
    norm of the vector but not the vector. *)

From stdpp Require Import strings.
From S2P Require Import Prelude Ordered RustStr Floats Externals Samples Auth.
From S2P Require Import QueryAnalysis QueryEmbedding.

(** The parser derived for [RawEmbeddingSpaceConfig], which refuses unknown
    fields. *)
Class SpaceJson := { raw_space_from_str : str -> result str EmbeddingSpaceConfig }.

Section Probe.
Context `{HttpClient, UnicodeTables, SemanticContracts, SpaceJson}.

(** [EmbeddingSpaceConfig::deserialize]. *)
Definition deserialize (json : str) : result str EmbeddingSpaceConfig :=
  config ← raw_space_from_str json;
  _ ← EmbeddingSpaceConfig.validate config;
  Ok config.

(** The errors boxed by [main]. *)
Inductive ProbeError :=
| MissingEnv (message : str)
| InvalidSpace (message : str)
| AnalysisFailed (e : QueryAnalysisError)
| EmbeddingFailed (e : QueryEmbeddingError).

Definition required_env (env : Env) (name : str) : result ProbeError str :=
  ok_or (filter_nonempty (trim <$> env name)) (MissingEnv (name ++ lit " is required")).

Record InputReport := {
  ir_kind : EmbeddingInputKind;
  ir_ordinal : N;
  ir_characters : N;
  ir_weight : f32
}.

Record Report := {
  pb_query : str;
  pb_keywords : list str;
  pb_entities : list str;
  pb_embedding_inputs : list InputReport;
  pb_dimensions : N;
  pb_l2_norm : f64;
  pb_values_exposed : bool
}.

Definition input_report (input : EmbeddingInput) : InputReport :=
  {| ir_kind := ei_kind input; ir_ordinal := ei_ordinal input;
     ir_characters := chars_count (ei_text input); ir_weight := ei_weight input |}.

(** The printed JSON. *)
Definition report_of (views : QueryTextViews) (vector : list f32) : Report :=
  {| pb_query := qv_query_text views; pb_keywords := qv_keywords views;
     pb_entities := qv_entities views;
     pb_embedding_inputs := map input_report (qv_embedding_inputs views);
     pb_dimensions := N.of_nat (length vector);
     pb_l2_norm := magnitude (map f64_of_f32 vector); pb_values_exposed := false |}.

Definition main (env : Env) : result ProbeError Report :=
  query ← required_env env (lit "EAL_QUERY_TEXT");
  embedding_space_json ← required_env env (lit "EAL_EMBEDDING_SPACE_JSON");
  embedding_space ← map_err InvalidSpace (deserialize embedding_space_json);
  let environment := default (lit "development") (env (lit "APP_ENV")) in
  views ← map_err AnalysisFailed (analyze_query query);
  service ← map_err EmbeddingFailed (QueryEmbedding.from_env env embedding_space environment);
  service ← ok_or service
    (MissingEnv (lit "EAL_EMBEDDING_ENDPOINT is required for semantic_query_probe"));
  vector ← map_err EmbeddingFailed (embed_inputs service (qv_embedding_inputs views));
  Ok (report_of views vector).

(** ** What a report says *)
Lemma required_env_ok env name v :
  required_env env name = Ok v -> trim <$> env name = Some v /\ v <> [].
Proof.
  unfold required_env, filter_nonempty. intros Hv%ok_or_ok.
  destruct (trim <$> env name) as [[|c s]|]; try discriminate. by injection Hv as <-.
Qed.

Lemma deserialize_ok json space :
  deserialize json = Ok space -> EmbeddingSpaceConfig.validate space = Ok tt.
Proof. unfold deserialize. intros Hd. inv_ok. by destruct a0. Qed.

Lemma space_dimensions space :
  EmbeddingSpaceConfig.validate space = Ok tt -> (1 <= es_dimensions space <= 32768)%N.
Proof.
  unfold EmbeddingSpaceConfig.validate. rewrite !reject_ok, negb_false_iff, andb_true_iff, !N.leb_le.
  tauto.
Qed.

Lemma embed_inputs_length self inputs out :
  embed_inputs self inputs = Ok out -> N.of_nat (length out) = qs_dimensions self.
Proof.
  unfold embed_inputs. intros [_ (u & _ & Hr)%bind_ok]%reject_ok.
  destruct (post _ _ _); [discriminate|]. cbv zeta in Hr. inv_ok.
  by apply weighted_centroid_length in Hr as [Hr _].
Qed.

(** The inputs of the views are numbered from 0. *)
Lemma views_ordinals q :
  map ei_ordinal (qv_embedding_inputs (views_of q)) =
  map N.of_nat (seq 0 (length (qv_embedding_inputs (views_of q)))).
Proof.
  cbn [views_of qv_embedding_inputs]. unfold number_inputs. rewrite length_imap.
  etransitivity; [apply fmap_imap|]. etransitivity; [|apply imap_seq_0]. apply imap_ext.
  by intros i [[k t] w].
Qed.

(** C38: the probe reports only after every part has succeeded, and only what
    is safe to print.  The endpoint it talked to is over HTTPS without
    credentials, or, unless the environment is named production, over HTTP on
    a loopback host; the space is well-formed; the query was analysed as its
    normalised text with its keywords and entities, numbered from 0 and with
    one valid vector each; the report has the dimension of the space, between
    1 and 32768, and of the vector nothing but that and its norm. *)
Theorem probe_report env report :
  main env = Ok report ->
  exists query space service vector,
    trim <$> env (lit "EAL_QUERY_TEXT") = Some query /\ query <> [] /\
    EmbeddingSpaceConfig.validate space = Ok tt /\
    endpoint_ok (qs_endpoint service) (default (lit "development") (env (lit "APP_ENV"))) /\
    qs_model service = es_model space /\ qs_dimensions service = es_dimensions space /\
    let views := views_of (collapse_ws query) in
    analyze_query query = Ok views /\
    embed_inputs service (qv_embedding_inputs views) = Ok vector /\
    report = report_of views vector /\
    map ir_ordinal (pb_embedding_inputs report) =
      map N.of_nat (seq 0 (length (pb_embedding_inputs report))) /\
    pb_dimensions report = es_dimensions space /\ (1 <= pb_dimensions report <= 32768)%N.
Proof.
  unfold main. intros (query & Hq & (json & Hj & (space & Hs & Hm)%bind_ok)%bind_ok)%bind_ok.
  apply required_env_ok in Hq as [Hq Hne]. apply map_err_ok, deserialize_ok in Hs.
  apply bind_ok in Hm as (views & Ha%map_err_ok & (o & Ho%map_err_ok & (service & ->%ok_or_ok &
    (vector & He%map_err_ok & [= <-])%bind_ok)%bind_ok)%bind_ok).
  apply from_env_ok in Ho as (Hend & Hmodel & Hdim).
  pose proof (proj1 (analyze_query_ok _ _) Ha) as (_ & -> & _).
  pose proof (embed_inputs_length _ _ _ He) as Hlen. rewrite Hdim in Hlen.
  exists query, space, service, vector. do 9 (split; [done|]).
  split; [|split; [done|]; cbn [report_of pb_dimensions]; rewrite Hlen; by apply space_dimensions].
  cbn [report_of pb_embedding_inputs]. rewrite length_map, <-views_ordinals, map_map. done.
Qed.
End Probe.

(** ** A probe *)
Module ProbeExample.
Export EmbeddingExample.
#[export] Instance space_json : SpaceJson := {| raw_space_from_str _ := Ok EmbeddingExample.space |}.
Definition env (name : str) : option str :=
  if bool_decide (name = lit "EAL_QUERY_TEXT") then Some (lit " renewable ")
  else if bool_decide (name = lit "EAL_EMBEDDING_SPACE_JSON") then Some (lit "{}")
  else EmbeddingExample.env name.
End ProbeExample.
Import ProbeExample.

Lemma probe_report_witness :
  exists report, main ProbeExample.env = Ok report /\
    pb_keywords report = [lit "renewable"] /\ pb_dimensions report = 2%N /\
    exists space, EmbeddingSpaceConfig.validate space = Ok tt /\ pb_dimensions report = es_dimensions space.
Proof.
  destruct (main ProbeExample.env) as [report|e] eqn:E; [|vm_compute in E; discriminate E].
  exists report. split; [reflexivity|].
  assert (pb_keywords report = [lit "renewable"] /\ pb_dimensions report = 2%N) as [Hk Hd]
    by (revert E; vm_compute; intros [= <-]; split; reflexivity).
  split; [exact Hk|]. split; [exact Hd|].
  destruct (probe_report ProbeExample.env report E) as
    (query & space & service & vector & _ & _ & Hv & _ & _ & _ & _ & _ & _ & _ & Hs & _).
  exists space. split; [exact Hv | exact Hs].
Defined.
