(* ===== verification/Database.v ===== *)
(** * The database ([migrations/002], [004] to [007])

    The tables the API reads and writes, with the constraints, triggers and
    row-level policies the migrations declare, and the monad in which the
    store modules run SQL: statements are atomic, a transaction that ends in
    an error is rolled back, and identifiers and clock readings come from
    oracles.  Transactions are serial. *)

From stdpp Require Import strings.
From S2P Require Import Prelude Ordered RustStr Floats Externals HttpError.

(** ** Rows *)
Record SourceRow := {
  so_id : Uuid; so_tenant_id : Uuid; so_name : str; so_root_url : str;
  so_allowed_hosts : list str; so_allowed_path_prefixes : list str;
  so_include_subdomains : bool; so_discovery_modes : list DiscoveryMode;
  so_crawl_interval_seconds : Z; so_max_depth : Z; so_max_pages_per_run : Z;
  so_obey_robots : bool; so_enabled : bool;
  so_created_at : Timestamp; so_updated_at : Timestamp
}.

Record PageRow := {
  pg_id : Uuid; pg_tenant_id : Uuid; pg_source_id : Uuid; pg_canonical_url : str;
  pg_first_seen_at : Timestamp; pg_last_seen_at : Timestamp;
  pg_latest_revision_id : option Uuid;
  pg_created_at : Timestamp; pg_updated_at : Timestamp
}.

Record PageRevisionRow := {
  pv_id : Uuid; pv_tenant_id : Uuid; pv_page_id : Uuid;
  pv_predecessor_revision_id : option Uuid;
  pv_original_url : str; pv_final_url : str; pv_title : option str;
  pv_content_text : str; pv_content_sha256 : str; pv_content_type : str;
  pv_http_status : Z; pv_published_at : option Timestamp; pv_fetched_at : Timestamp;
  pv_created_at : Timestamp
}.

Record EmbeddingRow := {
  em_id : Uuid; em_tenant_id : Uuid; em_revision_id : Uuid;
  em_model : str; em_model_version : str; em_dimensions : Z; em_normalization : str;
  em_embedding : list f32; em_generated_at : Timestamp; em_created_at : Timestamp
}.

Record RuleRow := {
  ru_id : Uuid; ru_tenant_id : Uuid; ru_owner_subject : str;
  ru_active_revision_id : option Uuid;
  ru_created_at : Timestamp; ru_updated_at : Timestamp
}.

Record RuleRevisionRow := {
  rr_id : Uuid; rr_tenant_id : Uuid; rr_alert_rule_id : Uuid; rr_revision_number : Z;
  rr_created_by_subject : str; rr_name : str; rr_query_text : str;
  rr_embedding_model : str; rr_similarity_threshold : f32;
  rr_source_filters : list str; rr_delivery_channels : list str; rr_enabled : bool;
  rr_created_at : Timestamp
}.

Record RuleEmbeddingRow := {
  re_id : Uuid; re_tenant_id : Uuid; re_alert_rule_id : Uuid; re_alert_rule_revision_id : Uuid;
  re_model : str; re_model_version : str; re_dimensions : Z; re_normalization : str;
  re_embedding : list f32; re_embedding_sha256 : str;
  re_generated_at : Timestamp; re_created_at : Timestamp
}.

Inductive MatchMode := HistoricalPageSearch | ReverseAlertStream.
#[global] Instance match_mode_eq_dec : EqDecision MatchMode.
Proof. solve_decision. Defined.

(** The JSON object stored beside a match: its fields in order. *)
Inductive Evidence :=
| EvText (s : str)
| EvNumber (x : f64)
| EvInt (n : N)
| EvBool (b : bool).
Abbreviation Explanation := (list (str * Evidence)).

Record CandidateRow := {
  mc_id : Uuid; mc_tenant_id : Uuid; mc_alert_rule_id : Uuid;
  mc_alert_rule_revision_id : option Uuid; mc_revision_id : Uuid;
  mc_embedding_id : option Uuid; mc_match_mode : MatchMode;
  mc_alert_embedding_id : option Uuid; mc_page_embedding_sha256 : option str;
  mc_page_embedding_model : option str; mc_page_embedding_model_version : option str;
  mc_page_embedding_dimensions : option Z; mc_page_embedding_normalization : option str;
  mc_canonical_match_key : str; mc_similarity : f64; mc_threshold : f64;
  mc_status : str; mc_score_explanation : Explanation;
  mc_created_at : Timestamp; mc_updated_at : Timestamp
}.

Record Database := {
  sources : list SourceRow;
  pages : list PageRow;
  page_revisions : list PageRevisionRow;
  embeddings : list EmbeddingRow;
  rules : list RuleRow;
  rule_revisions : list RuleRevisionRow;
  rule_embeddings : list RuleEmbeddingRow;
  candidates : list CandidateRow
}.

Definition empty_database : Database := {|
  sources := []; pages := []; page_revisions := []; embeddings := [];
  rules := []; rule_revisions := []; rule_embeddings := []; candidates := []
|}.

Definition set_sources (f : list SourceRow -> list SourceRow) (db : Database) : Database :=
  Build_Database (f (sources db)) (pages db) (page_revisions db) (embeddings db)
    (rules db) (rule_revisions db) (rule_embeddings db) (candidates db).
Definition set_pages (f : list PageRow -> list PageRow) (db : Database) : Database :=
  Build_Database (sources db) (f (pages db)) (page_revisions db) (embeddings db)
    (rules db) (rule_revisions db) (rule_embeddings db) (candidates db).
Definition set_page_revisions (f : list PageRevisionRow -> list PageRevisionRow) (db : Database)
    : Database :=
  Build_Database (sources db) (pages db) (f (page_revisions db)) (embeddings db)
    (rules db) (rule_revisions db) (rule_embeddings db) (candidates db).
Definition set_embeddings (f : list EmbeddingRow -> list EmbeddingRow) (db : Database) : Database :=
  Build_Database (sources db) (pages db) (page_revisions db) (f (embeddings db))
    (rules db) (rule_revisions db) (rule_embeddings db) (candidates db).
Definition set_rules (f : list RuleRow -> list RuleRow) (db : Database) : Database :=
  Build_Database (sources db) (pages db) (page_revisions db) (embeddings db)
    (f (rules db)) (rule_revisions db) (rule_embeddings db) (candidates db).
Definition set_rule_revisions (f : list RuleRevisionRow -> list RuleRevisionRow) (db : Database)
    : Database :=
  Build_Database (sources db) (pages db) (page_revisions db) (embeddings db)
    (rules db) (f (rule_revisions db)) (rule_embeddings db) (candidates db).
Definition set_rule_embeddings (f : list RuleEmbeddingRow -> list RuleEmbeddingRow) (db : Database)
    : Database :=
  Build_Database (sources db) (pages db) (page_revisions db) (embeddings db)
    (rules db) (rule_revisions db) (f (rule_embeddings db)) (candidates db).
Definition set_candidates (f : list CandidateRow -> list CandidateRow) (db : Database) : Database :=
  Build_Database (sources db) (pages db) (page_revisions db) (embeddings db)
    (rules db) (rule_revisions db) (rule_embeddings db) (f (candidates db)).

(** ** Errors, oracles and pgvector *)
Inductive DbErr :=
| InvalidText
| UniqueViolation
| CheckViolation
| ForeignKeyViolation
| RowSecurityViolation
| RaiseException
| VectorError.

(** [gen_random_uuid()] and [Uuid::new_v4()] draw from one stream; [clock]
    gives [now()] of each transaction.  [bypass_rls] tells whether the
    connection's role is exempt from row-level security. *)
Class Deployment := {
  uuid_draw : nat -> Uuid;
  clock : nat -> Timestamp;
  bypass_rls : bool
}.

(** [to_rfc3339] followed by [::timestamptz] keeps microseconds. *)
Class PgLib := {
  pg_timestamptz : Timestamp -> Timestamp;
  f32_display : f32 -> str;
  vector_in : str -> option (list f32);
  cosine_distance : list f32 -> list f32 -> option f64;
  json_f64 : f64 -> option f64;
  json_f32 : f32 -> option f32
}.

(** ** Sessions *)

(** The transaction-local settings [app.tenant_id], [app.subject] and
    [app.is_tenant_admin], as [NULLIF(current_setting(...), '')] reads them. *)
Record Settings := {
  st_tenant_id : option Uuid;
  st_subject : option str;
  st_is_tenant_admin : bool
}.
Definition no_settings : Settings :=
  {| st_tenant_id := None; st_subject := None; st_is_tenant_admin := false |}.

Record World := {
  w_db : Database;
  w_draws : nat;
  w_ticks : nat;
  w_now : Timestamp;
  w_settings : Settings
}.

Definition with_db (w : World) (db : Database) : World :=
  {| w_db := db; w_draws := w_draws w; w_ticks := w_ticks w; w_now := w_now w;
     w_settings := w_settings w |}.

(** The store monad: an [Err] is what the handler's [?] propagates. *)
Definition M (A : Type) : Type := World -> result HttpError A * World.
#[global] Instance M_ret : MRet M := fun A a w => (Ok a, w).
#[global] Instance M_bind : MBind M := fun A B f m w =>
  match m w with
  | (Ok a, w') => f a w'
  | (Err e, w') => (Err e, w')
  end.
#[global] Instance M_fmap : FMap M := fun A B f m w =>
  match m w with
  | (Ok a, w') => (Ok (f a), w')
  | (Err e, w') => (Err e, w')
  end.
Definition lift {A} (r : result HttpError A) : M A := fun w => (r, w).
Definition throw {A} (e : HttpError) : M A := lift (Err e).

Section Sessions.
Context `{Deployment}.

(** A statement sees the transaction's time and settings, and may draw
    identifiers; a failing one changes nothing. *)
Definition Stmt (A : Type) : Type :=
  Timestamp -> Settings -> Database -> nat -> result DbErr (A * Database * nat).

Definition db_error (e : DbErr) : HttpError :=
  Http.from_db_err
    (match e with
     | InvalidText => lit "invalid text"
     | UniqueViolation => lit "unique violation"
     | CheckViolation => lit "check violation"
     | ForeignKeyViolation => lit "foreign key violation"
     | RowSecurityViolation => lit "row-level security violation"
     | RaiseException => lit "raised exception"
     | VectorError => lit "vector error"
     end).

Definition execute {A} (s : Stmt A) : M A := fun w =>
  match s (w_now w) (w_settings w) (w_db w) (w_draws w) with
  | Ok (a, db, draws) =>
      (Ok a, {| w_db := db; w_draws := draws; w_ticks := w_ticks w; w_now := w_now w;
                w_settings := w_settings w |})
  | Err e => (Err (db_error e), w)
  end.

(** [begin]; the body; [commit], or a rollback when the body returns early
    with an error and drops the transaction. *)
Definition with_transaction {A} (body : M A) : M A := fun w =>
  let w1 := {| w_db := w_db w; w_draws := w_draws w; w_ticks := S (w_ticks w);
               w_now := clock (w_ticks w); w_settings := no_settings |} in
  let '(r, w2) := body w1 in
  (r, {| w_db := match r with Ok _ => w_db w2 | Err _ => w_db w end;
         w_draws := w_draws w2; w_ticks := w_ticks w2; w_now := w_now w2;
         w_settings := w_settings w |}).

(** A statement outside a transaction is a transaction of its own. *)
Definition autocommit {A} (s : Stmt A) : M A := with_transaction (execute s).

(** [Uuid::new_v4()]. *)
Definition new_v4 : M Uuid := fun w =>
  (Ok (uuid_draw (w_draws w)),
   {| w_db := w_db w; w_draws := S (w_draws w); w_ticks := w_ticks w; w_now := w_now w;
      w_settings := w_settings w |}).

(** [Utc::now()]. *)
Definition utc_now : M Timestamp := fun w =>
  (Ok (clock (w_ticks w)),
   {| w_db := w_db w; w_draws := w_draws w; w_ticks := S (w_ticks w); w_now := w_now w;
      w_settings := w_settings w |}).

(** PostgreSQL text holds no NUL character. *)
Definition text_ok (s : str) : bool := negb (contains_char 0 s).
Definition texts_ok (l : list str) : bool := forallb text_ok l.

(** ** Row-level security of the alert tables *)

(** [eal_alert_rules_tenant_isolation], for both clauses. *)
Definition rule_policy (s : Settings) (tenant : Uuid) (owner : str) : bool :=
  bypass_rls ||
  (bool_decide (st_tenant_id s = Some tenant) &&
   (bool_decide (st_subject s = Some owner) || st_is_tenant_admin s)).

Definition visible_rules (s : Settings) (db : Database) : list RuleRow :=
  List.filter (fun r => rule_policy s (ru_tenant_id r) (ru_owner_subject r)) (rules db).

(** [eal_alert_rule_revisions_tenant_isolation]; the policies of the rules
    apply inside its subquery. *)
Definition revision_policy (s : Settings) (db : Database) (tenant rule_id : Uuid) : bool :=
  bypass_rls ||
  (bool_decide (st_tenant_id s = Some tenant) &&
   existsb (fun r => bool_decide (ru_tenant_id r = tenant) && bool_decide (ru_id r = rule_id))
     (visible_rules s db)).

Definition visible_rule_revisions (s : Settings) (db : Database) : list RuleRevisionRow :=
  List.filter (fun v => revision_policy s db (rr_tenant_id v) (rr_alert_rule_id v))
    (rule_revisions db).

(** [eal_alert_rule_embeddings_tenant_isolation]. *)
Definition rule_embedding_policy (s : Settings) (db : Database) (tenant rule_id : Uuid) : bool :=
  bypass_rls ||
  (bool_decide (st_tenant_id s = Some tenant) &&
   existsb (fun r => bool_decide (ru_tenant_id r = tenant) && bool_decide (ru_id r = rule_id) &&
      (bool_decide (st_subject s = Some (ru_owner_subject r)) || st_is_tenant_admin s))
     (visible_rules s db)).

Definition visible_rule_embeddings (s : Settings) (db : Database) : list RuleEmbeddingRow :=
  List.filter (fun e => rule_embedding_policy s db (re_tenant_id e) (re_alert_rule_id e))
    (rule_embeddings db).
End Sessions.

(** ** CHECK constraints *)
Definition char_length_between (lo hi : N) (s : str) : bool :=
  ((lo <=? chars_count s) && (chars_count s <=? hi))%N.
Definition between (lo hi z : Z) : bool := ((lo <=? z) && (z <=? hi))%Z.

(** [x BETWEEN lo AND hi] on floating-point numbers; NaN is above [hi]. *)
Definition pg_between (lo hi x : f64) : bool := pg_ge x lo && pg_ge hi x.
Definition f64_minus_one : f64 := S754_finite true (2 ^ 52) (-52).

(** [~ '^[0-9a-f]{64}$'] *)
Definition is_sha256_text (s : str) : bool := (length s =? 64)%nat && forallb is_lower_hex s.

Definition normalization_check (s : str) : bool :=
  bool_decide (s ∈ [lit "none"; lit "l2"; lit "unit_length"]).

Definition rule_check (r : RuleRow) : bool := char_length_between 1 256 (ru_owner_subject r).

Definition rule_revision_check (v : RuleRevisionRow) : bool :=
  (0 <? rr_revision_number v)%Z && char_length_between 1 256 (rr_created_by_subject v) &&
  char_length_between 1 256 (rr_name v) && char_length_between 3 700 (rr_query_text v) &&
  char_length_between 1 160 (rr_embedding_model v) &&
  pg_between fzero f32_one (rr_similarity_threshold v) &&
  (length (rr_source_filters v) <=? 128)%nat && (length (rr_delivery_channels v) <=? 32)%nat.

Definition rule_embedding_check (e : RuleEmbeddingRow) : bool :=
  char_length_between 1 256 (re_model e) && char_length_between 1 256 (re_model_version e) &&
  between 1 65535 (re_dimensions e) && normalization_check (re_normalization e) &&
  is_sha256_text (re_embedding_sha256 e).

Definition page_revision_check (v : PageRevisionRow) : bool :=
  (chars_count (pv_content_sha256 v) =? 64)%N && between 200 399 (pv_http_status v).

Definition source_check (s : SourceRow) : bool :=
  char_length_between 1 256 (so_name s) &&
  between 1 64 (Z.of_nat (length (so_allowed_hosts s))) &&
  between 1 128 (Z.of_nat (length (so_allowed_path_prefixes s))) &&
  (1 <=? length (so_discovery_modes s))%nat &&
  between 60 604800 (so_crawl_interval_seconds s) && between 0 16 (so_max_depth s) &&
  between 1 10000 (so_max_pages_per_run s) && so_obey_robots s.

Definition embedding_check (e : EmbeddingRow) : bool :=
  between 1 65535 (em_dimensions e) && normalization_check (em_normalization e).

(** A conjunct on a nullable column: NULL is not FALSE, so it does not fail
    the check. *)
Definition null_or {A} (o : option A) (p : A -> bool) : bool :=
  match o with Some a => p a | None => true end.

(** The inline checks, [eal_match_candidates_new_rows_have_rule_revision] and
    [eal_match_candidates_embedding_evidence_shape]. *)
Definition candidate_check (c : CandidateRow) : bool :=
  pg_between f64_minus_one f64_one (mc_similarity c) && pg_between fzero f64_one (mc_threshold c) &&
  bool_decide (is_Some (mc_alert_rule_revision_id c)) &&
  match mc_match_mode c with
  | HistoricalPageSearch => bool_decide (is_Some (mc_embedding_id c))
  | ReverseAlertStream =>
      bool_decide (is_Some (mc_alert_embedding_id c)) &&
      null_or (mc_page_embedding_sha256 c) is_sha256_text &&
      null_or (mc_page_embedding_model c) (char_length_between 1 256) &&
      null_or (mc_page_embedding_model_version c) (char_length_between 1 256) &&
      null_or (mc_page_embedding_dimensions c) (between 1 65535) &&
      null_or (mc_page_embedding_normalization c) normalization_check
  end.

(** ** Keys *)
Definition has_rule (db : Database) (tenant id : Uuid) : bool :=
  existsb (fun r => bool_decide (ru_tenant_id r = tenant) && bool_decide (ru_id r = id)) (rules db).
Definition has_rule_revision (db : Database) (tenant id : Uuid) : bool :=
  existsb (fun v => bool_decide (rr_tenant_id v = tenant) && bool_decide (rr_id v = id))
    (rule_revisions db).
Definition has_rule_embedding (db : Database) (tenant id : Uuid) : bool :=
  existsb (fun e => bool_decide (re_tenant_id e = tenant) && bool_decide (re_id e = id))
    (rule_embeddings db).
Definition has_source (db : Database) (id : Uuid) : bool :=
  existsb (fun s => bool_decide (so_id s = id)) (sources db).
Definition has_page (db : Database) (id : Uuid) : bool :=
  existsb (fun p => bool_decide (pg_id p = id)) (pages db).
Definition has_page_revision (db : Database) (id : Uuid) : bool :=
  existsb (fun v => bool_decide (pv_id v = id)) (page_revisions db).
Definition has_embedding (db : Database) (id : Uuid) : bool :=
  existsb (fun e => bool_decide (em_id e = id)) (embeddings db).
Definition has_candidate (db : Database) (id : Uuid) : bool :=
  existsb (fun c => bool_decide (mc_id c = id)) (candidates db).

Section ActiveLimit.
Context `{Deployment}.

(** [eal_enforce_active_alert_limit], before a rule row becomes [new]. *)
Definition enabled_active (v_list : list RuleRevisionRow) (r : RuleRow) : list RuleRevisionRow :=
  match ru_active_revision_id r with
  | None => []
  | Some active =>
      List.filter (fun v => bool_decide (rr_tenant_id v = ru_tenant_id r) &&
        bool_decide (rr_id v = active) && bool_decide (rr_alert_rule_id v = ru_id r) &&
        rr_enabled v) v_list
  end.

Definition active_count (s : Settings) (db : Database) (tenant : Uuid) (owner : str) (except : Uuid)
    : nat :=
  length (flat_map (enabled_active (visible_rule_revisions s db))
    (List.filter (fun r => bool_decide (ru_tenant_id r = tenant) &&
       bool_decide (ru_owner_subject r = owner) && negb (bool_decide (ru_id r = except)))
      (visible_rules s db))).

Definition active_limit_trigger (s : Settings) (db : Database) (new : RuleRow) : result DbErr unit :=
  match enabled_active (visible_rule_revisions s db) new with
  | [] => Ok tt
  | _ =>
      reject CheckViolation
        when (10 <=? active_count s db (ru_tenant_id new) (ru_owner_subject new) (ru_id new))%nat ;;
      Ok tt
  end.
End ActiveLimit.

(** ** Rows entering the tables

    [Ok] is the new database, or for the [ON CONFLICT DO NOTHING] inserts the
    new database and whether the row was inserted. *)
Section Inserts.
Context `{Deployment}.

Definition insert_rule (s : Settings) (db : Database) (row : RuleRow) : result DbErr Database :=
  reject InvalidText when negb (text_ok (ru_owner_subject row)) ;;
  _ ← active_limit_trigger s db row;
  reject RowSecurityViolation
    when negb (rule_policy s (ru_tenant_id row) (ru_owner_subject row)) ;;
  reject CheckViolation when negb (rule_check row) ;;
  reject UniqueViolation when existsb (fun r => bool_decide (ru_id r = ru_id row)) (rules db) ;;
  reject ForeignKeyViolation
    when negb (null_or (ru_active_revision_id row) (has_rule_revision db (ru_tenant_id row))) ;;
  Ok (set_rules (fun l => l ++ [row]) db).

Definition insert_rule_revision (s : Settings) (db : Database) (row : RuleRevisionRow)
    : result DbErr Database :=
  reject InvalidText
    when negb (texts_ok ([rr_created_by_subject row; rr_name row; rr_query_text row;
                          rr_embedding_model row] ++ rr_source_filters row ++
                         rr_delivery_channels row)) ;;
  reject RowSecurityViolation
    when negb (revision_policy s db (rr_tenant_id row) (rr_alert_rule_id row)) ;;
  reject CheckViolation when negb (rule_revision_check row) ;;
  reject UniqueViolation
    when existsb (fun v => bool_decide (rr_id v = rr_id row) ||
           (bool_decide (rr_tenant_id v = rr_tenant_id row) &&
            bool_decide (rr_alert_rule_id v = rr_alert_rule_id row) &&
            bool_decide (rr_revision_number v = rr_revision_number row))) (rule_revisions db) ;;
  reject ForeignKeyViolation when negb (has_rule db (rr_tenant_id row) (rr_alert_rule_id row)) ;;
  Ok (set_rule_revisions (fun l => l ++ [row]) db).

(** The single row an [UPDATE ... SET active_revision_id] by key reaches. *)
Definition update_active_revision (s : Settings) (db : Database) (now : Timestamp)
    (tenant id revision : Uuid) : result DbErr (nat * Database) :=
  match List.filter (fun r => bool_decide (ru_id r = id) && bool_decide (ru_tenant_id r = tenant))
          (visible_rules s db) with
  | [] => Ok (0, db)
  | r :: _ =>
      let new := {| ru_id := ru_id r; ru_tenant_id := ru_tenant_id r;
                    ru_owner_subject := ru_owner_subject r;
                    ru_active_revision_id := Some revision;
                    ru_created_at := ru_created_at r; ru_updated_at := now |} in
      _ ← active_limit_trigger s db new;
      reject ForeignKeyViolation when negb (has_rule_revision db tenant revision) ;;
      Ok (1, set_rules (map (fun x => if decide (ru_id x = id /\ ru_tenant_id x = tenant) then new
                                       else x)) db)
  end.

(** Two rows of one model space, [UNIQUE (tenant_id, ..., normalization)]. *)
Definition same_rule_embedding_key (a b : RuleEmbeddingRow) : bool :=
  bool_decide (re_tenant_id a = re_tenant_id b) &&
  bool_decide (re_alert_rule_revision_id a = re_alert_rule_revision_id b) &&
  bool_decide (re_model a = re_model b) && bool_decide (re_model_version a = re_model_version b) &&
  bool_decide (re_dimensions a = re_dimensions b) &&
  bool_decide (re_normalization a = re_normalization b).

Definition insert_rule_embedding (s : Settings) (db : Database) (row : RuleEmbeddingRow)
    : result DbErr (bool * Database) :=
  reject RowSecurityViolation
    when negb (rule_embedding_policy s db (re_tenant_id row) (re_alert_rule_id row)) ;;
  reject CheckViolation when negb (rule_embedding_check row) ;;
  if existsb (same_rule_embedding_key row) (rule_embeddings db) then Ok (false, db)
  else
    reject UniqueViolation
      when existsb (fun e => bool_decide (re_id e = re_id row)) (rule_embeddings db) ;;
    reject ForeignKeyViolation
      when negb (has_rule db (re_tenant_id row) (re_alert_rule_id row)) ||
           negb (has_rule_revision db (re_tenant_id row) (re_alert_rule_revision_id row)) ;;
    Ok (true, set_rule_embeddings (fun l => l ++ [row]) db).

Definition same_page_revision_key (a b : PageRevisionRow) : bool :=
  bool_decide (pv_tenant_id a = pv_tenant_id b) && bool_decide (pv_page_id a = pv_page_id b) &&
  bool_decide (pv_content_sha256 a = pv_content_sha256 b).

Definition insert_page_revision (db : Database) (row : PageRevisionRow)
    : result DbErr (bool * Database) :=
  reject CheckViolation when negb (page_revision_check row) ;;
  if existsb (same_page_revision_key row) (page_revisions db) then Ok (false, db)
  else
    reject UniqueViolation
      when existsb (fun v => bool_decide (pv_id v = pv_id row)) (page_revisions db) ;;
    reject ForeignKeyViolation
      when negb (has_page db (pv_page_id row)) ||
           negb (null_or (pv_predecessor_revision_id row) (has_page_revision db)) ;;
    Ok (true, set_page_revisions (fun l => l ++ [row]) db).

(** [UNIQUE (tenant_id, revision_id, model, model_version, dimensions,
    normalization)] *)
Definition same_embedding_key (a b : EmbeddingRow) : bool :=
  bool_decide (em_tenant_id a = em_tenant_id b) && bool_decide (em_revision_id a = em_revision_id b) &&
  bool_decide (em_model a = em_model b) && bool_decide (em_model_version a = em_model_version b) &&
  bool_decide (em_dimensions a = em_dimensions b) &&
  bool_decide (em_normalization a = em_normalization b).

Definition insert_embedding (db : Database) (row : EmbeddingRow) : result DbErr (bool * Database) :=
  reject CheckViolation when negb (embedding_check row) ;;
  if existsb (same_embedding_key row) (embeddings db) then Ok (false, db)
  else
    reject UniqueViolation when has_embedding db (em_id row) ;;
    reject ForeignKeyViolation when negb (has_page_revision db (em_revision_id row)) ;;
    Ok (true, set_embeddings (fun l => l ++ [row]) db).

(** [UNIQUE (tenant_id, root_url)] *)
Definition same_source_key (a b : SourceRow) : bool :=
  bool_decide (so_tenant_id a = so_tenant_id b) && bool_decide (so_root_url a = so_root_url b).

Definition insert_source (db : Database) (row : SourceRow) : result DbErr (bool * Database) :=
  reject InvalidText
    when negb (texts_ok ([so_name row; so_root_url row] ++ so_allowed_hosts row ++
                         so_allowed_path_prefixes row)) ;;
  reject CheckViolation when negb (source_check row) ;;
  if existsb (same_source_key row) (sources db) then Ok (false, db)
  else
    reject UniqueViolation when has_source db (so_id row) ;;
    Ok (true, set_sources (fun l => l ++ [row]) db).

(** [UNIQUE (tenant_id, canonical_match_key)] *)
Definition same_candidate_key (a b : CandidateRow) : bool :=
  bool_decide (mc_tenant_id b = mc_tenant_id a) &&
  bool_decide (mc_canonical_match_key b = mc_canonical_match_key a).

Definition insert_candidate (db : Database) (row : CandidateRow) : result DbErr (bool * Database) :=
  reject CheckViolation when negb (candidate_check row) ;;
  if existsb (same_candidate_key row) (candidates db) then Ok (false, db)
  else
    reject UniqueViolation
      when existsb (fun c => bool_decide (mc_id c = mc_id row)) (candidates db) ;;
    reject ForeignKeyViolation
      when negb (has_rule db (mc_tenant_id row) (mc_alert_rule_id row)) ||
           negb (null_or (mc_alert_rule_revision_id row) (has_rule_revision db (mc_tenant_id row))) ||
           negb (has_page_revision db (mc_revision_id row)) ||
           negb (null_or (mc_embedding_id row) (has_embedding db)) ||
           negb (null_or (mc_alert_embedding_id row) (has_rule_embedding db (mc_tenant_id row))) ;;
    Ok (true, set_candidates (fun l => l ++ [row]) db).
End Inserts.

(** ** Running the monad *)
Section Running.
Context `{Deployment}.

Lemma M_bind_run {A B} (f : A -> M B) (m : M A) w :
  mbind f m w = match m w with (Ok a, w') => f a w' | (Err e, w') => (Err e, w') end.
Proof. done. Qed.

Lemma execute_ok {A} (s : Stmt A) w a db draws :
  s (w_now w) (w_settings w) (w_db w) (w_draws w) = Ok (a, db, draws) ->
  execute s w = (Ok a, {| w_db := db; w_draws := draws; w_ticks := w_ticks w; w_now := w_now w;
                          w_settings := w_settings w |}).
Proof. intros E. unfold execute. by rewrite E. Qed.

Lemma execute_err {A} (s : Stmt A) w e :
  s (w_now w) (w_settings w) (w_db w) (w_draws w) = Err e -> execute s w = (Err (db_error e), w).
Proof. intros E. unfold execute. by rewrite E. Qed.
End Running.
