(* ===== verification/AlertStore.v ===== *)
(** * Alert-rule storage ([src/alert_store.rs])

    Creating, reading and listing alert rules inside transactions that first
    set the caller's row-level security context. *)

From stdpp Require Import strings.
From S2P Require Import Prelude Ordered RustStr Floats Externals HttpError Alerts.
From S2P Require Import Database.

Section AlertStore.
Context `{Deployment, PgLib}.

Definition set_request_context (tenant_id : Uuid) (subject : str) (tenant_admin : bool) : M unit :=
  fun w =>
    if negb (text_ok subject) then (Err (db_error InvalidText), w)
    else (Ok tt, {| w_db := w_db w; w_draws := w_draws w; w_ticks := w_ticks w; w_now := w_now w;
                    w_settings := {| st_tenant_id := Some tenant_id;
                                     st_subject := if nonempty subject then Some subject else None;
                                     st_is_tenant_admin := tenant_admin |} |}).

(** [FROM eal_alert_rules AS rule JOIN eal_alert_rule_revisions AS revision
    ON revision.id = rule.active_revision_id AND revision.tenant_id =
    rule.tenant_id], as the session sees the tables. *)
Definition active_rule_rows (s : Settings) (db : Database) : list (RuleRow * RuleRevisionRow) :=
  flat_map (fun rule =>
    map (fun revision => (rule, revision))
      (List.filter (fun revision =>
         bool_decide (ru_active_revision_id rule = Some (rr_id revision)) &&
         bool_decide (rr_tenant_id revision = ru_tenant_id rule)) (visible_rule_revisions s db)))
    (visible_rules s db).

(** [alert_rule_json] and [decode_json_row]. *)
Definition decode_alert_rule (row : RuleRow * RuleRevisionRow) : result HttpError AlertRule :=
  let '(rule, revision) := row in
  similarity_threshold ← ok_or (json_f32 (rr_similarity_threshold revision))
    (Http.from_json_err (lit "invalid number"));
  Ok {| ar_id := ru_id rule;
        ar_tenant_id := ru_tenant_id rule;
        ar_owner_subject := ru_owner_subject rule;
        ar_revision_id := rr_id revision;
        ar_revision_number := rr_revision_number revision;
        ar_created_at := ru_created_at rule;
        ar_updated_at := ru_updated_at rule;
        ar_revision_created_at := rr_created_at revision;
        ar_name := rr_name revision;
        ar_query_text := rr_query_text revision;
        ar_embedding_model := rr_embedding_model revision;
        ar_similarity_threshold := similarity_threshold;
        ar_source_filters := rr_source_filters revision;
        ar_delivery_channels := rr_delivery_channels revision;
        ar_enabled := rr_enabled revision |}.

(** [ORDER BY rule.updated_at DESC, rule.id ASC] *)
Definition rule_order (a b : RuleRow * RuleRevisionRow) : bool :=
  match (ru_updated_at b.1 ?= ru_updated_at a.1)%Z with
  | Lt => true
  | Eq => match ord_cmp (ru_id a.1) (ru_id b.1) with Gt => false | _ => true end
  | Gt => false
  end.

Definition list_statement (tenant_id : Uuid) (subject : str) (tenant_admin : bool)
    : Stmt (list (RuleRow * RuleRevisionRow)) := fun _ s db draws =>
  reject InvalidText when negb (text_ok subject) ;;
  Ok (take 500 (sort_by rule_order
        (List.filter (fun '(rule, _) => bool_decide (ru_tenant_id rule = tenant_id) &&
             (tenant_admin || bool_decide (ru_owner_subject rule = subject)))
           (active_rule_rows s db))), db, draws).

Definition list_alert_rules (tenant_id : Uuid) (subject : str) (tenant_admin : bool)
    : M (list AlertRule) :=
  rules ← with_transaction
    (_ ← set_request_context tenant_id subject tenant_admin;
     rows ← execute (list_statement tenant_id subject tenant_admin);
     mret (mapM decode_alert_rule rows));
  lift rules.

Definition get_statement (tenant_id rule_id : Uuid) (subject : str) (tenant_admin : bool)
    : Stmt (option (RuleRow * RuleRevisionRow)) := fun _ s db draws =>
  reject InvalidText when negb (text_ok subject) ;;
  Ok (head (List.filter (fun '(rule, _) => bool_decide (ru_tenant_id rule = tenant_id) &&
             bool_decide (ru_id rule = rule_id) &&
             (tenant_admin || bool_decide (ru_owner_subject rule = subject)))
           (active_rule_rows s db)), db, draws).

(** [row.map(decode_json_row).transpose()] *)
Definition decode_optional {A B} (decode : A -> result HttpError B) (row : option A)
    : result HttpError (option B) :=
  match row with
  | Some row => Some <$> decode row
  | None => Ok None
  end.

Definition get_alert_rule (tenant_id rule_id : Uuid) (subject : str) (tenant_admin : bool)
    : M (option AlertRule) :=
  rule ← with_transaction
    (_ ← set_request_context tenant_id subject tenant_admin;
     row ← execute (get_statement tenant_id rule_id subject tenant_admin);
     mret (decode_optional decode_alert_rule row));
  lift rule.

Definition require_alert_rule (tenant_id rule_id : Uuid) (subject : str) (tenant_admin : bool)
    : M AlertRule :=
  rule ← get_alert_rule tenant_id rule_id subject tenant_admin;
  lift (ok_or rule (Http.not_found (lit "alert rule was not found"))).

(** The three writes of a creation. *)
Definition new_rule (rule_id tenant_id : Uuid) (subject : str) (now : Timestamp) : RuleRow :=
  {| ru_id := rule_id; ru_tenant_id := tenant_id; ru_owner_subject := subject;
     ru_active_revision_id := None; ru_created_at := now; ru_updated_at := now |}.

Definition new_revision (revision_id tenant_id rule_id : Uuid) (subject : str)
    (input : CreateAlertRule) (now : Timestamp) : RuleRevisionRow :=
  {| rr_id := revision_id; rr_tenant_id := tenant_id; rr_alert_rule_id := rule_id;
     rr_revision_number := 1; rr_created_by_subject := subject; rr_name := name input;
     rr_query_text := query_text input; rr_embedding_model := embedding_model input;
     rr_similarity_threshold := similarity_threshold input;
     rr_source_filters := source_filters input;
     rr_delivery_channels := delivery_channels input; rr_enabled := enabled input;
     rr_created_at := now |}.

Definition insert_rule_statement (rule_id tenant_id : Uuid) (subject : str) : Stmt nat :=
  fun now s db draws =>
    db' ← insert_rule s db (new_rule rule_id tenant_id subject now);
    Ok (1, db', draws).

Definition insert_revision_statement (revision_id tenant_id rule_id : Uuid) (subject : str)
    (input : CreateAlertRule) : Stmt nat := fun now s db draws =>
  db' ← insert_rule_revision s db (new_revision revision_id tenant_id rule_id subject input now);
  Ok (1, db', draws).

Definition activate_statement (rule_id tenant_id revision_id : Uuid) : Stmt nat :=
  fun now s db draws =>
    '(affected, db') ← update_active_revision s db now tenant_id rule_id revision_id;
    Ok (affected, db', draws).

Definition created_statement (rule_id tenant_id : Uuid) : Stmt (option (RuleRow * RuleRevisionRow)) :=
  fun _ s db draws =>
    Ok (head (List.filter (fun '(rule, _) => bool_decide (ru_id rule = rule_id) &&
               bool_decide (ru_tenant_id rule = tenant_id)) (active_rule_rows s db)), db, draws).

(** [if rows_affected() != 1 { return Err(internal) }] *)
Definition require_one (affected : nat) (message : str) : M unit :=
  if (affected =? 1)%nat then mret tt else throw (Http.internal message).

Definition create_alert_rule (tenant_id : Uuid) (subject : str) (input : CreateAlertRule)
    : M AlertRule :=
  rule_id ← new_v4;
  revision_id ← new_v4;
  created ← with_transaction
    (_ ← set_request_context tenant_id subject false;
     inserted_rule ← execute (insert_rule_statement rule_id tenant_id subject);
     _ ← require_one inserted_rule (lit "alert-rule identity insert did not affect exactly one row");
     inserted_revision ← execute
       (insert_revision_statement revision_id tenant_id rule_id subject input);
     _ ← require_one inserted_revision
           (lit "alert-rule revision insert did not affect exactly one row");
     activated_rule ← execute (activate_statement rule_id tenant_id revision_id);
     _ ← require_one activated_rule (lit "alert-rule activation did not affect exactly one row");
     row ← execute (created_statement rule_id tenant_id);
     rule ← lift (decode_optional decode_alert_rule row);
     mret (ok_or rule (Http.internal (lit "alert-rule creation returned no durable record"))));
  lift created.
End AlertStore.
