(* ===== verification/AlertStoreSpec.v ===== *)
(** * What alert-rule storage guarantees ([src/alert_store.rs])

    The invariant of the alert tables, reads as a reference query that does
    not mention row-level security, and creation as a total function of its
    preconditions. *)

From stdpp Require Import strings.
From S2P Require Import Prelude Ordered RustStr Floats Externals HttpError Alerts.
From S2P Require Import Database AlertStore.

(** ** The invariant of the alert tables *)
Definition enabled_rule (db : Database) (r : RuleRow) : bool :=
  nonempty (enabled_active (rule_revisions db) r).

(** The enabled active rules of one owner. *)
Definition owner_active (db : Database) (tenant : Uuid) (owner : str) : list RuleRow :=
  List.filter (fun r => bool_decide (ru_tenant_id r = tenant) &&
    bool_decide (ru_owner_subject r = owner) && enabled_rule db r) (rules db).

Record alerts_wf (db : Database) : Prop := {
  aw_rule_ids : NoDup (map ru_id (rules db));
  aw_revision_ids : NoDup (map rr_id (rule_revisions db));
  aw_rule_check : forall r, r ∈ rules db -> rule_check r = true;
  aw_revision_rule : forall v, v ∈ rule_revisions db ->
    exists r, r ∈ rules db /\ ru_id r = rr_alert_rule_id v /\ ru_tenant_id r = rr_tenant_id v;
  aw_active : forall r a, r ∈ rules db -> ru_active_revision_id r = Some a ->
    exists v, v ∈ rule_revisions db /\ rr_id v = a /\ rr_tenant_id v = ru_tenant_id r /\
      rr_alert_rule_id v = ru_id r;
  aw_limit : forall tenant owner, length (owner_active db tenant owner) <= 10
}.

Lemma alerts_wf_empty : alerts_wf empty_database.
Proof. constructor; simpl; try constructor; try set_solver; simpl; lia. Qed.

(** Identifiers not yet in the alert tables. *)
Definition fresh_id (db : Database) (u : Uuid) : Prop :=
  (u ∉ map ru_id (rules db)) /\ (u ∉ map rr_id (rule_revisions db)).

(** ** Reads without row-level security *)
Definition rule_rows (db : Database) : list (RuleRow * RuleRevisionRow) :=
  flat_map (fun rule =>
    map (fun revision => (rule, revision))
      (List.filter (fun revision =>
         bool_decide (ru_active_revision_id rule = Some (rr_id revision)) &&
         bool_decide (rr_tenant_id revision = ru_tenant_id rule)) (rule_revisions db)))
    (rules db).

(** The rows a caller may read. *)
Definition permitted_rows (db : Database) (tenant : Uuid) (subject : str) (admin : bool)
    : list (RuleRow * RuleRevisionRow) :=
  List.filter (fun '(rule, _) => bool_decide (ru_tenant_id rule = tenant) &&
    (admin || bool_decide (ru_owner_subject rule = subject))) (rule_rows db).

Lemma elem_of_rule_rows db r v :
  (r, v) ∈ rule_rows db <->
  r ∈ rules db /\ v ∈ rule_revisions db /\ ru_active_revision_id r = Some (rr_id v) /\
  rr_tenant_id v = ru_tenant_id r.
Proof.
  unfold rule_rows. rewrite elem_of_flat_map. split.
  - intros (r' & Hr & (v' & [= -> ->] & Hv)%list_elem_of_fmap).
    apply elem_of_filter_bool in Hv as [Hv Hp]. bool_prop. auto.
  - intros (Hr & Hv & Ha & Ht). exists r. split; [done|]. apply list_elem_of_fmap. exists v.
    split; [done|]. apply elem_of_filter_bool. split; [done|].
    by rewrite !bool_decide_eq_true_2.
Qed.

Section Reads.
Context `{Deployment, PgLib}.

Definition context (tenant : Uuid) (subject : str) (admin : bool) : Settings :=
  {| st_tenant_id := Some tenant; st_subject := if nonempty subject then Some subject else None;
     st_is_tenant_admin := admin |}.

Lemma rule_check_owner r : rule_check r = true -> ru_owner_subject r <> [].
Proof. unfold rule_check, char_length_between. intros Hc E. by rewrite E in Hc. Qed.

Lemma context_policy tenant subject admin owner :
  owner <> [] -> admin || bool_decide (owner = subject) = true ->
  rule_policy (context tenant subject admin) tenant owner = true.
Proof.
  intros Ho Hp. unfold rule_policy. simpl. rewrite bool_decide_eq_true_2 by done.
  destruct admin; simpl in *; [by rewrite !orb_true_r|]. bool_prop. subst.
  destruct subject; [done|]. rewrite bool_decide_eq_true_2 by done. by rewrite orb_true_r.
Qed.

(** A visible rule makes its own revisions visible. *)
Lemma revision_visible s db r v :
  r ∈ visible_rules s db -> st_tenant_id s = Some (ru_tenant_id r) ->
  rr_tenant_id v = ru_tenant_id r -> rr_alert_rule_id v = ru_id r ->
  revision_policy s db (rr_tenant_id v) (rr_alert_rule_id v) = true.
Proof.
  intros Hr Hs Ht Hi. unfold revision_policy. rewrite Ht, Hi, Hs, bool_decide_eq_true_2 by done.
  apply orb_true_iff. right. apply existsb_true_Exists, Exists_exists. exists r.
  split; [done|]. by rewrite !bool_decide_eq_true_2.
Qed.

Lemma permitted_active_rows db tenant subject admin :
  alerts_wf db ->
  List.filter (fun '(rule, _) => bool_decide (ru_tenant_id rule = tenant) &&
      (admin || bool_decide (ru_owner_subject rule = subject)))
    (active_rule_rows (context tenant subject admin) db) =
  permitted_rows db tenant subject admin.
Proof.
  intros Hwf. unfold active_rule_rows, permitted_rows, rule_rows, visible_rules.
  set (s := context tenant subject admin). apply filter_flat_map_filter.
  - intros r Hr Hp. destruct (bool_decide (ru_tenant_id r = tenant) &&
      (admin || bool_decide (ru_owner_subject r = subject))) eqn:Ew.
    2:{ transitivity (@nil (RuleRow * RuleRevisionRow)); [|symmetry]; apply filter_none;
        intros x (v & -> & _)%list_elem_of_fmap; exact Ew. }
    f_equal. f_equal. unfold visible_rule_revisions. rewrite <-(filter_all
      (fun v => revision_policy s db (rr_tenant_id v) (rr_alert_rule_id v))
      (List.filter (fun revision => bool_decide (ru_active_revision_id r = Some (rr_id revision)) &&
         bool_decide (rr_tenant_id revision = ru_tenant_id r)) (rule_revisions db))).
    + rewrite !filter_filter_bool. apply filter_ext_elem. intros v _. apply andb_comm.
    + intros v [Hv Hm]%elem_of_filter_bool. bool_prop.
      destruct (aw_active _ Hwf r (rr_id v) Hr) as (v' & Hv' & Ei & Et & Er); [done|].
      assert (v = v') as <- by (by eapply (NoDup_map_inj rr_id); [apply Hwf|..]).
      apply (revision_visible s db r v); [|simpl; congruence | congruence | done].
      by apply elem_of_filter_bool.
  - intros r Hr Hp. apply filter_none. intros x (v & -> & _)%list_elem_of_fmap. simpl.
    destruct (bool_decide (ru_tenant_id r = tenant) &&
      (admin || bool_decide (ru_owner_subject r = subject))) eqn:Ew; [|done].
    apply andb_prop in Ew as [Et Eo]. bool_prop. subst.
    unfold s in Hp. rewrite context_policy in Hp; [done | | done]. by apply rule_check_owner, Hwf.
Qed.

(** The state after a read-only transaction: only the clock has advanced. *)
Definition same_data (w w' : World) : Prop := w_db w' = w_db w /\ w_draws w' = w_draws w.

(** The final state of a run is whatever the run computes. *)
Ltac run_done := eexists; split; [|reflexivity]; by split.

Lemma list_alert_rules_run tenant subject admin w :
  alerts_wf (w_db w) ->
  exists w', same_data w w' /\
    list_alert_rules tenant subject admin w =
    (if text_ok subject
     then mapM decode_alert_rule
            (take 500 (sort_by rule_order (permitted_rows (w_db w) tenant subject admin)))
     else Err (db_error InvalidText), w').
Proof.
  intros Hwf. unfold list_alert_rules, with_transaction, set_request_context, execute,
    list_statement, mbind, M_bind, mret, M_ret, lift. simpl.
  destruct (text_ok subject); simpl. 2:{ run_done. }
  fold (context tenant subject admin). rewrite permitted_active_rows by done. run_done.
Qed.

Lemma get_alert_rule_run tenant rule_id subject admin w :
  alerts_wf (w_db w) ->
  exists w', same_data w w' /\
    get_alert_rule tenant rule_id subject admin w =
    (if text_ok subject
     then decode_optional decode_alert_rule
            (head (List.filter (fun '(rule, _) => bool_decide (ru_id rule = rule_id))
               (permitted_rows (w_db w) tenant subject admin)))
     else Err (db_error InvalidText), w').
Proof.
  intros Hwf. unfold get_alert_rule, with_transaction, set_request_context, execute,
    get_statement, mbind, M_bind, mret, M_ret, lift. simpl.
  destruct (text_ok subject); simpl. 2:{ run_done. }
  fold (context tenant subject admin). rewrite <-permitted_active_rows, filter_filter_bool by done.
  rewrite (filter_ext_elem _ (fun x => (let '(rule, _) := x in
      bool_decide (ru_tenant_id rule = tenant) &&
      (admin || bool_decide (ru_owner_subject rule = subject))) &&
    (let '(rule, _) := x in bool_decide (ru_id rule = rule_id)))); [run_done|].
  intros [r v] _. rewrite <-!andb_assoc. f_equal. apply andb_comm.
Qed.

Lemma permitted_row_unique db tenant subject admin rule_id r v :
  alerts_wf db -> (r, v) ∈ rule_rows db -> ru_id r = rule_id -> ru_tenant_id r = tenant ->
  admin || bool_decide (ru_owner_subject r = subject) = true ->
  head (List.filter (fun '(rule, _) => bool_decide (ru_id rule = rule_id))
    (permitted_rows db tenant subject admin)) = Some (r, v).
Proof.
  intros Hwf Hrv Hi Ht Hp.
  destruct (List.filter _ _) as [|[r' v'] k] eqn:E.
  - assert ((r, v) ∈ (@nil (RuleRow * RuleRevisionRow))) as Hn; [|by apply elem_of_nil in Hn].
    rewrite <-E. apply elem_of_filter_bool. split; [|by rewrite bool_decide_eq_true_2].
    apply elem_of_filter_bool. split; [done|]. by rewrite bool_decide_eq_true_2, Hp.
  - simpl. assert ((r', v') ∈ (r', v') :: k) as Hx by left. rewrite <-E in Hx.
    apply elem_of_filter_bool in Hx as [[Hx _]%elem_of_filter_bool Hi']. bool_prop.
    apply elem_of_rule_rows in Hrv as (Hr & Hv & Ha & _), Hx as (Hr' & Hv' & Ha' & _).
    assert (r' = r) as -> by (by eapply (NoDup_map_inj ru_id); [apply Hwf|..|congruence]).
    assert (v' = v) as -> by (by eapply (NoDup_map_inj rr_id); [apply Hwf|..|congruence]).
    done.
Qed.

Lemma permitted_row_head db tenant subject admin rule_id r v :
  head (List.filter (fun '(rule, _) => bool_decide (ru_id rule = rule_id))
    (permitted_rows db tenant subject admin)) = Some (r, v) ->
  (r, v) ∈ rule_rows db /\ ru_id r = rule_id /\ ru_tenant_id r = tenant /\
  admin || bool_decide (ru_owner_subject r = subject) = true.
Proof.
  intros Hh%head_Some_elem_of.
  apply elem_of_filter_bool in Hh as [[Hr Hw]%elem_of_filter_bool Hi]. by bool_prop.
Qed.

(** C20: listing returns the decoded active rules of the caller's tenant that
    the caller owns, or all of them for an administrator, newest first and
    then by identifier, at most 500, and changes nothing; the answer is the
    same whether or not row-level security applies to the connection. *)
Theorem list_alert_rules_spec tenant subject admin w :
  alerts_wf (w_db w) -> text_ok subject = true ->
  exists w', w_db w' = w_db w /\
    list_alert_rules tenant subject admin w =
    (mapM decode_alert_rule
       (take 500 (sort_by rule_order (permitted_rows (w_db w) tenant subject admin))), w').
Proof.
  intros Hwf Ht. destruct (list_alert_rules_run tenant subject admin w Hwf) as (w' & [Hd _] & E).
  rewrite Ht in E. eauto.
Qed.

(** Reading a row the caller may see. *)
Lemma get_alert_rule_permitted tenant rule_id subject admin w ru v :
  alerts_wf (w_db w) -> text_ok subject = true ->
  (ru, v) ∈ rule_rows (w_db w) -> ru_id ru = rule_id -> ru_tenant_id ru = tenant ->
  admin || bool_decide (ru_owner_subject ru = subject) = true ->
  fst (get_alert_rule tenant rule_id subject admin w) = Some <$> decode_alert_rule (ru, v).
Proof.
  intros Hwf Ht Hrv Hi Htn Hp. destruct (get_alert_rule_run tenant rule_id subject admin w Hwf)
    as (w2 & _ & E). rewrite Ht in E. rewrite E. cbn [fst].
  by rewrite (permitted_row_unique _ _ _ _ _ _ _ Hwf Hrv Hi Htn Hp).
Qed.

(** A rule is returned to a caller exactly when it exists in the caller's
    tenant, is active and is the caller's own, or the caller is an
    administrator; any other identifier is answered with nothing, so a rule
    of another tenant or owner cannot be told from a missing one. *)
Theorem get_alert_rule_iff tenant rule_id subject admin w r w' :
  alerts_wf (w_db w) -> text_ok subject = true ->
  get_alert_rule tenant rule_id subject admin w = (r, w') ->
  w_db w' = w_db w /\
  (forall rule, r = Ok (Some rule) <->
    exists ru v, (ru, v) ∈ rule_rows (w_db w) /\ ru_id ru = rule_id /\ ru_tenant_id ru = tenant /\
      (admin = true \/ ru_owner_subject ru = subject) /\ decode_alert_rule (ru, v) = Ok rule) /\
  (r = Ok None <->
    ~ exists ru v, (ru, v) ∈ rule_rows (w_db w) /\ ru_id ru = rule_id /\ ru_tenant_id ru = tenant /\
      (admin = true \/ ru_owner_subject ru = subject)).
Proof.
  intros Hwf Ht Hg. destruct (get_alert_rule_run tenant rule_id subject admin w Hwf)
    as (w2 & [Hd _] & E). rewrite Ht in E. rewrite E in Hg. injection Hg as <- <-.
  split; [done|].
  assert (forall o, admin || bool_decide (o = subject) = true <-> admin = true \/ o = subject) as Ho
    by (intros; by rewrite orb_true_iff, bool_decide_eq_true).
  destruct (head _) as [[ru v]|] eqn:Eh; cbn [decode_optional].
  - apply permitted_row_head in Eh as (Hrv & Hi & Htn & Hp). split.
    + intros rule. split.
      * intros Hr. apply fmap_ok in Hr as (a & Ha & [= ->]).
        exists ru, v. rewrite <-Ho. auto.
      * intros (ru' & v' & Hrv' & Hi' & Ht' & Hp' & Hdec).
        pose proof (permitted_row_unique _ _ _ _ _ _ _ Hwf Hrv Hi Htn Hp) as E1.
        rewrite <-Ho in Hp'.
        rewrite (permitted_row_unique _ _ _ _ _ _ _ Hwf Hrv' Hi' Ht' Hp') in E1.
        injection E1 as -> ->. by rewrite Hdec.
    + split; [by case (decode_alert_rule (ru, v))|].
      intros Hn. destruct Hn. exists ru, v. by rewrite <-Ho.
  - assert (forall ru v, (ru, v) ∈ rule_rows (w_db w) -> ru_id ru = rule_id ->
      ru_tenant_id ru = tenant -> admin = true \/ ru_owner_subject ru = subject -> False) as Hno.
    { intros ru v Hrv Hi Htn Hp. apply Ho in Hp.
      by rewrite (permitted_row_unique _ _ _ _ _ _ _ Hwf Hrv Hi Htn Hp) in Eh. }
    split; [|split; [|done]].
    + intros rule. split; [discriminate|]. intros (ru & v & ? & ? & ? & ? & _). by destruct (Hno ru v).
    + intros _ (ru & v & ? & ? & ? & ?). by destruct (Hno ru v).
Qed.
End Reads.

(** ** Creation *)
Section Create.
Context `{Deployment, PgLib}.

Lemma existsb_fresh {A} (f : A -> Uuid) l u :
  u ∉ map f l -> existsb (fun x => bool_decide (f x = u)) l = false.
Proof.
  intros Hu. apply existsb_false_Forall, Forall_forall. intros x Hx.
  apply bool_decide_eq_false. intros <-. destruct Hu. by apply list_elem_of_fmap_2.
Qed.

Lemma existsb_fresh_inv {A} (f : A -> Uuid) l u :
  existsb (fun x => bool_decide (f x = u)) l = false -> u ∉ map f l.
Proof.
  intros Hu (x & -> & Hx)%list_elem_of_fmap. apply existsb_false_Forall in Hu.
  by eapply Forall_forall, bool_decide_eq_false in Hu.
Qed.

Lemma visible_rules_app s db r :
  visible_rules s (set_rules (fun l => l ++ [r]) db) =
  visible_rules s db ++
  (if rule_policy s (ru_tenant_id r) (ru_owner_subject r) then [r] else []).
Proof. unfold visible_rules. simpl. by rewrite List.filter_app. Qed.

Lemma elem_of_visible_rules s db r :
  r ∈ visible_rules s db <->
  r ∈ rules db /\ rule_policy s (ru_tenant_id r) (ru_owner_subject r) = true.
Proof. apply (elem_of_filter_bool (fun r => rule_policy s (ru_tenant_id r) (ru_owner_subject r))). Qed.

(** The first write: the rule's identity. *)
Lemma insert_rule_iff tenant subject db r :
  ru_tenant_id r = tenant -> ru_owner_subject r = subject -> ru_active_revision_id r = None ->
  ru_id r ∉ map ru_id (rules db) -> text_ok subject = true ->
  if rule_check r
  then insert_rule (context tenant subject false) db r = Ok (set_rules (fun l => l ++ [r]) db)
  else exists e, insert_rule (context tenant subject false) db r = Err e.
Proof.
  intros <- <- Ha Hf Ht. unfold insert_rule, active_limit_trigger, enabled_active.
  rewrite Ht, Ha. simpl. destruct (rule_check r) eqn:Hc.
  - rewrite context_policy; [|by apply rule_check_owner | by rewrite bool_decide_eq_true_2].
    simpl. by rewrite (existsb_fresh ru_id).
  - destruct (rule_policy _ _ _); simpl; eauto.
Qed.

(** The second write: its first revision. *)
Lemma insert_revision_iff tenant subject db r v :
  alerts_wf db -> rule_check r = true -> ru_tenant_id r = tenant -> ru_owner_subject r = subject ->
  ru_id r ∉ map ru_id (rules db) -> rr_id v ∉ map rr_id (rule_revisions db) ->
  rr_tenant_id v = tenant -> rr_alert_rule_id v = ru_id r ->
  let db1 := set_rules (fun l => l ++ [r]) db in
  if texts_ok ([rr_created_by_subject v; rr_name v; rr_query_text v; rr_embedding_model v] ++
       rr_source_filters v ++ rr_delivery_channels v) && rule_revision_check v
  then insert_rule_revision (context tenant subject false) db1 v =
       Ok (set_rule_revisions (fun l => l ++ [v]) db1)
  else exists e, insert_rule_revision (context tenant subject false) db1 v = Err e.
Proof.
  intros Hwf Hc <- <- Hf Hfv Ht Hi db1. unfold insert_rule_revision.
  destruct (texts_ok _); simpl; [|eauto].
  assert (r ∈ visible_rules (context (ru_tenant_id r) (ru_owner_subject r) false) db1) as Hvis.
  { apply elem_of_visible_rules. split; [apply elem_of_app; right; left|].
    apply context_policy; [by apply rule_check_owner | by rewrite bool_decide_eq_true_2]. }
  rewrite (revision_visible _ db1 r v) by (done || simpl; congruence). simpl.
  destruct (rule_revision_check v); simpl; [|eauto].
  assert (existsb (fun x => bool_decide (rr_id x = rr_id v) ||
    bool_decide (rr_tenant_id x = rr_tenant_id v) &&
    bool_decide (rr_alert_rule_id x = rr_alert_rule_id v) &&
    bool_decide (rr_revision_number x = rr_revision_number v)) (rule_revisions db) = false) as ->.
  { apply existsb_false_Forall, Forall_forall. intros x Hx.
    rewrite bool_decide_eq_false_2.
    2:{ intros E. destruct Hfv. rewrite <-E. by apply list_elem_of_fmap_2. }
    destruct (bool_decide (rr_alert_rule_id x = rr_alert_rule_id v)) eqn:E;
      [|by rewrite andb_false_r]. bool_prop.
    destruct (aw_revision_rule _ Hwf x Hx) as (y & Hy & Hyi & _).
    destruct Hf. rewrite <-Hi, <-E, <-Hyi. by apply list_elem_of_fmap_2. }
  assert (has_rule db1 (rr_tenant_id v) (rr_alert_rule_id v) = true) as ->; [|done].
  unfold has_rule. apply existsb_true_Exists, Exists_exists. exists r.
  split; [apply elem_of_app; right; left|]. by rewrite Ht, Hi, !bool_decide_eq_true_2.
Qed.

(** The third write: activation, under the owner's limit. *)
Lemma length_flat_map_bool {A B} (f : A -> list B) (p : A -> bool) l :
  (forall x, x ∈ l -> length (f x) = if p x then 1 else 0) ->
  length (flat_map f l) = length (List.filter p l).
Proof.
  induction l as [|x l IH]; simpl; intros Hf; [done|].
  rewrite length_app, (Hf x), IH by (left || (intros; apply Hf; by right)).
  by destruct (p x).
Qed.

Lemma enabled_active_length db r :
  alerts_wf db -> length (enabled_active (rule_revisions db) r) = if enabled_rule db r then 1 else 0.
Proof.
  intros Hwf. unfold enabled_rule. destruct (enabled_active (rule_revisions db) r) as [|v k] eqn:E; [done|].
  assert (enabled_active (rule_revisions db) r = [v]) as E'; [|rewrite E in E'; by rewrite E'].
  unfold enabled_active in *. destruct (ru_active_revision_id r) as [a|]; [|done].
  assert (v ∈ v :: k) as Hv by left. rewrite <-E in Hv.
  apply elem_of_filter_bool in Hv as [Hv Hp].
  apply (filter_unique rr_id); [apply Hwf | done | done|].
  intros y Hy Hq. bool_prop. congruence.
Qed.

Context (tenant : Uuid) (subject : str) (db : Database) (r : RuleRow) (v : RuleRevisionRow).
Context (Hwf : alerts_wf db) (Hc : rule_check r = true)
  (Ht : ru_tenant_id r = tenant) (Ho : ru_owner_subject r = subject)
  (Hr : ru_id r ∉ map ru_id (rules db)) (Hv : rr_id v ∉ map rr_id (rule_revisions db))
  (Hvt : rr_tenant_id v = tenant) (Hvr : rr_alert_rule_id v = ru_id r).

Let ctx := context tenant subject false.
Definition inserted_db : Database :=
  set_rule_revisions (fun l => l ++ [v]) (set_rules (fun l => l ++ [r]) db).

Lemma owned_visible x :
  x ∈ rules inserted_db -> ru_tenant_id x = tenant -> ru_owner_subject x = subject ->
  x ∈ visible_rules ctx inserted_db.
Proof.
  intros Hx <- <-. apply elem_of_visible_rules. split; [done|].
  apply context_policy; [|by rewrite bool_decide_eq_true_2].
  apply rule_check_owner. simpl in Hx. apply elem_of_app in Hx as [Hx | ->%list_elem_of_singleton];
    [by apply Hwf | done].
Qed.

Lemma enabled_active_visible x :
  x ∈ rules db -> ru_tenant_id x = tenant -> ru_owner_subject x = subject ->
  enabled_active (visible_rule_revisions ctx inserted_db) x = enabled_active (rule_revisions db) x.
Proof.
  intros Hx Hxt Hxo. unfold enabled_active. destruct (ru_active_revision_id x) as [a|] eqn:Ea; [|done].
  unfold visible_rule_revisions. simpl rule_revisions. rewrite filter_filter_bool, List.filter_app.
  assert (ru_id x <> ru_id r) as Hne.
  { intros E. destruct Hr. rewrite <-E. by apply list_elem_of_fmap_2. }
  rewrite (filter_none _ [v]), app_nil_r.
  2:{ intros y ->%list_elem_of_singleton. rewrite Hvr, (bool_decide_eq_false_2 (ru_id r = ru_id x)) by congruence.
      by rewrite !andb_false_r. }
  apply filter_ext_elem. intros y Hy.
  destruct (bool_decide (rr_tenant_id y = ru_tenant_id x) && bool_decide (rr_id y = a) &&
    bool_decide (rr_alert_rule_id y = ru_id x) && rr_enabled y) eqn:Ep; [|by rewrite andb_false_r].
  bool_prop. rewrite (revision_visible ctx inserted_db x y); [done | | simpl; congruence | done..].
  apply owned_visible; [apply elem_of_app; by left | done..].
Qed.

Lemma active_count_inserted :
  active_count ctx inserted_db tenant subject (ru_id r) = length (owner_active db tenant subject).
Proof.
  unfold active_count, owner_active.
  assert (List.filter (fun x => bool_decide (ru_tenant_id x = tenant) &&
      bool_decide (ru_owner_subject x = subject) && negb (bool_decide (ru_id x = ru_id r)))
      (visible_rules ctx inserted_db) =
    List.filter (fun x => bool_decide (ru_tenant_id x = tenant) &&
      bool_decide (ru_owner_subject x = subject)) (rules db)) as ->.
  { unfold visible_rules. simpl rules. rewrite filter_filter_bool, List.filter_app.
    rewrite (filter_none _ [r]), app_nil_r.
    2:{ intros y ->%list_elem_of_singleton. rewrite (bool_decide_eq_true_2 (ru_id r = ru_id r)) by done.
        by rewrite !andb_false_r. }
    apply filter_ext_elem. intros y Hy.
    assert (ru_id y <> ru_id r) as Hne.
    { intros E. destruct Hr. rewrite <-E. by apply list_elem_of_fmap_2. }
    rewrite (bool_decide_eq_false_2 _ Hne). simpl. rewrite andb_true_r.
    destruct (bool_decide (ru_tenant_id y = tenant) && bool_decide (ru_owner_subject y = subject)) eqn:E;
      [|by rewrite andb_false_r]. bool_prop.
    assert (y ∈ visible_rules ctx inserted_db) as [_ Hp]%elem_of_visible_rules.
    { apply owned_visible; [apply elem_of_app; by left | done..]. }
    by rewrite Hp. }
  rewrite (length_flat_map_bool _ (enabled_rule db)).
  - by rewrite filter_filter_bool.
  - intros x [Hx Hp]%elem_of_filter_bool. bool_prop.
    rewrite enabled_active_visible by done. by apply enabled_active_length.
Qed.

Definition activated (now : Timestamp) : RuleRow :=
  {| ru_id := ru_id r; ru_tenant_id := ru_tenant_id r; ru_owner_subject := ru_owner_subject r;
     ru_active_revision_id := Some (rr_id v); ru_created_at := ru_created_at r; ru_updated_at := now |}.

(** The tables after a creation. *)
Definition created_db (now : Timestamp) : Database :=
  set_rule_revisions (fun l => l ++ [v]) (set_rules (fun l => l ++ [activated now]) db).

Lemma r_visible : r ∈ visible_rules ctx inserted_db.
Proof. apply owned_visible; [apply elem_of_app; right; left | done..]. Qed.

Lemma enabled_active_new now :
  enabled_active (visible_rule_revisions ctx inserted_db) (activated now) =
  if rr_enabled v then [v] else [].
Proof.
  unfold enabled_active. simpl. unfold visible_rule_revisions. simpl rule_revisions.
  rewrite filter_filter_bool, List.filter_app. rewrite filter_none, app_nil_l.
  - simpl. rewrite (revision_visible ctx inserted_db r v) by (apply r_visible || simpl; congruence).
    rewrite !bool_decide_eq_true_2 by congruence. by destruct (rr_enabled v).
  - intros y Hy. rewrite (bool_decide_eq_false_2 (rr_id y = rr_id v)).
    + by rewrite !andb_false_r.
    + intros E. destruct Hv. rewrite <-E. by apply list_elem_of_fmap_2.
Qed.

Lemma activate_iff now :
  update_active_revision ctx inserted_db now tenant (ru_id r) (rr_id v) =
  if rr_enabled v && (10 <=? length (owner_active db tenant subject))%nat then Err CheckViolation
  else Ok (1, created_db now).
Proof.
  unfold update_active_revision.
  rewrite (filter_unique ru_id _ _ r);
    [|apply NoDup_map_filter, NoDup_map_snoc; split; [apply Hwf | done] | apply r_visible
     | by rewrite !bool_decide_eq_true_2 | intros y _ Hp; by bool_prop].
  fold (activated now). unfold active_limit_trigger. rewrite enabled_active_new.
  change (ru_tenant_id (activated now)) with (ru_tenant_id r).
  change (ru_owner_subject (activated now)) with (ru_owner_subject r).
  change (ru_id (activated now)) with (ru_id r). rewrite Ht, Ho, active_count_inserted.
  assert (has_rule_revision inserted_db tenant (rr_id v) = true) as ->.
  { unfold has_rule_revision. apply existsb_true_Exists, Exists_exists. exists v.
    split; [apply elem_of_app; right; left | by rewrite !bool_decide_eq_true_2]. }
  assert (set_rules (map (fun x =>
      if decide (ru_id x = ru_id r /\ ru_tenant_id x = tenant) then activated now else x)) inserted_db
    = created_db now) as ->.
  { unfold created_db, inserted_db, set_rules, set_rule_revisions. simpl. f_equal.
    rewrite map_app. simpl. rewrite decide_True by (split; [done | congruence]). f_equal.
    rewrite <-(map_id (rules db)) at 2. apply map_ext_in. intros x Hx%list_elem_of_In.
    rewrite decide_False; [done|]. intros [E _]. destruct Hr. rewrite <-E. by apply list_elem_of_fmap_2. }
  destruct (rr_enabled v); cbn [andb mbind result_bind negb]; [|done].
  by destruct (10 <=? length (owner_active db tenant subject))%nat.
Qed.

(** The reading back of the created rule. *)
Lemma created_row now :
  head (List.filter (fun '(rule, _) => bool_decide (ru_id rule = ru_id r) &&
      bool_decide (ru_tenant_id rule = tenant)) (active_rule_rows ctx (created_db now))) =
  Some (activated now, v).
Proof.
  assert (activated now ∈ visible_rules ctx (created_db now)) as Hvis.
  { apply elem_of_visible_rules. split; [apply elem_of_app; right; left|].
    simpl. rewrite Ht, Ho. apply context_policy; [|by rewrite bool_decide_eq_true_2].
    rewrite <-Ho. by apply rule_check_owner. }
  assert ((activated now, v) ∈ active_rule_rows ctx (created_db now)) as Hin.
  { unfold active_rule_rows. apply elem_of_flat_map. exists (activated now). split; [done|].
    apply list_elem_of_fmap. exists v. split; [done|]. apply elem_of_filter_bool.
    split; [|rewrite !bool_decide_eq_true_2; simpl; congruence].
    unfold visible_rule_revisions. apply elem_of_filter_bool.
    split; [apply elem_of_app; right; left|].
    apply (revision_visible ctx _ (activated now)); [done | simpl; congruence..]. }
  destruct (head _) as [[x y]|] eqn:E.
  - apply head_Some_elem_of, elem_of_filter_bool in E as [E Hp]. bool_prop.
    apply elem_of_flat_map in E as (x' & Hx & (y' & [= -> ->] & Hy)%list_elem_of_fmap).
    apply elem_of_filter_bool in Hy as [Hy Hp]. bool_prop.
    apply elem_of_visible_rules in Hx as [Hx _].
    unfold visible_rule_revisions in Hy. apply elem_of_filter_bool in Hy as [Hy _].
    assert (x' = activated now) as ->.
    { apply (NoDup_map_inj ru_id (rules (created_db now))); [|done | apply elem_of_app; right; left | done].
      apply NoDup_map_snoc. split; [apply Hwf | done]. }
    assert (y' = v) as ->; [|done].
    apply (NoDup_map_inj rr_id (rule_revisions (created_db now)));
      [|done | apply elem_of_app; right; left | simpl in *; congruence].
    apply NoDup_map_snoc. split; [apply Hwf | done].
  - assert (head (List.filter (fun '(rule, _) => bool_decide (ru_id rule = ru_id r) &&
      bool_decide (ru_tenant_id rule = tenant)) [(activated now, v)]) = Some (activated now, v)) as _
      by (simpl; by rewrite !bool_decide_eq_true_2).
    destruct (List.filter _ _) eqn:Ef; [|done].
    assert ((activated now, v) ∈ (@nil (RuleRow * RuleRevisionRow))) as Hn; [|by apply elem_of_nil in Hn].
    rewrite <-Ef. apply elem_of_filter_bool. split; [done|]. by rewrite !bool_decide_eq_true_2.
Qed.

Lemma enabled_rule_created now : enabled_rule (created_db now) (activated now) = rr_enabled v.
Proof.
  unfold enabled_rule, enabled_active. simpl. rewrite List.filter_app, filter_none, app_nil_l.
  - simpl. rewrite !bool_decide_eq_true_2 by congruence. by destruct (rr_enabled v).
  - intros y Hy. rewrite (bool_decide_eq_false_2 (rr_id y = rr_id v)).
    + by rewrite !andb_false_r.
    + intros E. destruct Hv. rewrite <-E. by apply list_elem_of_fmap_2.
Qed.

(** A creation adds at most one rule to its owner's enabled ones, and none to
    anybody else's. *)
Lemma owner_active_created now t o :
  length (owner_active (created_db now) t o) =
  length (owner_active db t o) +
  (if bool_decide (tenant = t) && bool_decide (subject = o) && rr_enabled v then 1 else 0).
Proof.
  unfold owner_active. simpl rules. rewrite List.filter_app, length_app. f_equal.
  - f_equal. apply filter_ext_elem. intros x Hx. f_equal. unfold enabled_rule, enabled_active. simpl.
    destruct (ru_active_revision_id x) as [a|] eqn:Ea; [|done].
    rewrite List.filter_app, (filter_none _ [v]), app_nil_r; [done|].
    intros y ->%list_elem_of_singleton. rewrite Hvr.
    rewrite (bool_decide_eq_false_2 (ru_id r = ru_id x)); [by rewrite andb_false_r|].
    intros E. destruct Hr. rewrite E. by apply list_elem_of_fmap_2.
  - cbn [List.filter]. rewrite enabled_rule_created.
    change (ru_tenant_id (activated now)) with (ru_tenant_id r).
    change (ru_owner_subject (activated now)) with (ru_owner_subject r). rewrite Ht, Ho.
    by destruct (bool_decide (tenant = t) && bool_decide (subject = o) && rr_enabled v).
Qed.

(** The invariant survives a creation the limit admits. *)
Lemma created_wf now :
  (rr_enabled v = true -> length (owner_active db tenant subject) < 10) ->
  alerts_wf (created_db now).
Proof.
  intros Hlim. constructor; simpl.
  - apply NoDup_map_snoc. split; [apply Hwf | done].
  - apply NoDup_map_snoc. split; [apply Hwf | done].
  - intros x [Hx | ->%list_elem_of_singleton]%elem_of_app; [by apply Hwf | done].
  - intros x [Hx | ->%list_elem_of_singleton]%elem_of_app.
    + destruct (aw_revision_rule _ Hwf x Hx) as (y & Hy & ?). exists y.
      split; [apply elem_of_app; by left | done].
    + exists (activated now). split; [apply elem_of_app; right; left|]. simpl. split; congruence.
  - intros x a [Hx | ->%list_elem_of_singleton]%elem_of_app Ha.
    + destruct (aw_active _ Hwf x a Hx Ha) as (y & Hy & ?). exists y.
      split; [apply elem_of_app; by left | done].
    + injection Ha as <-. exists v. split; [apply elem_of_app; right; left|].
      simpl. split; [done|]. split; congruence.
  - intros t o. rewrite owner_active_created. pose proof (aw_limit _ Hwf t o).
    destruct (bool_decide (tenant = t) && bool_decide (subject = o) && rr_enabled v) eqn:E; [|lia].
    bool_prop. subst t o. specialize (Hlim ltac:(done)). lia.
Qed.
End Create.

(** ** Creation as a function of its preconditions *)
Section CreateSpec.
Context `{Deployment, PgLib}.

(** The rows creation will write, from the identifiers it will draw. *)
Definition rule_to_create (w : World) (tenant : Uuid) (subject : str) : RuleRow :=
  new_rule (uuid_draw (w_draws w)) tenant subject (clock (w_ticks w)).
Definition revision_to_create (w : World) (tenant : Uuid) (subject : str) (input : CreateAlertRule)
    : RuleRevisionRow :=
  new_revision (uuid_draw (S (w_draws w))) tenant (uuid_draw (w_draws w)) subject input
    (clock (w_ticks w)).

(** What the database accepts: text without NUL, the CHECK constraints, a
    threshold that can be read back, and an owner below the limit if the rule
    is to be enabled. *)
Definition creatable (w : World) (tenant : Uuid) (subject : str) (input : CreateAlertRule) : bool :=
  let v := revision_to_create w tenant subject input in
  text_ok subject && rule_check (rule_to_create w tenant subject) &&
  (texts_ok ([rr_created_by_subject v; rr_name v; rr_query_text v; rr_embedding_model v] ++
       rr_source_filters v ++ rr_delivery_channels v) && rule_revision_check v) &&
  negb (enabled input && (10 <=? length (owner_active (w_db w) tenant subject))%nat) &&
  bool_decide (is_Some (json_f32 (similarity_threshold input))).

(** The next two identifiers are new, as random ones are. *)
Definition fresh_draws (w : World) : Prop :=
  (uuid_draw (w_draws w) ∉ map ru_id (rules (w_db w))) /\
  (uuid_draw (S (w_draws w)) ∉ map rr_id (rule_revisions (w_db w))).

Lemma create_run tenant subject input w :
  alerts_wf (w_db w) -> fresh_draws w ->
  let r := rule_to_create w tenant subject in
  let v := revision_to_create w tenant subject input in
  if creatable w tenant subject input
  then exists rule w', create_alert_rule tenant subject input w = (Ok rule, w') /\
    decode_alert_rule (activated r v (clock (w_ticks w)), v) = Ok rule /\
    w_db w' = created_db (w_db w) r v (clock (w_ticks w))
  else exists e w', create_alert_rule tenant subject input w = (Err e, w') /\
    e = Http.internal [] /\ w_db w' = w_db w.
Proof.
  destruct w as [db draws ticks now0 settings]. intros Hwf [Hfr Hfv] r v.
  unfold creatable. cbn [w_db w_draws w_ticks w_now w_settings] in *. fold r v.
  unfold create_alert_rule, new_v4, with_transaction, set_request_context, execute, require_one,
    throw, lift, mret, M_ret, mbind, M_bind. cbn [w_db w_draws w_ticks w_now w_settings].
  destruct (text_ok subject) eqn:Etx; cbn [negb andb]; [|by do 2 eexists].
  fold (context tenant subject false). unfold insert_rule_statement.
  cbn [w_db w_draws w_ticks w_now w_settings].
  change (new_rule (uuid_draw draws) tenant subject (clock ticks)) with r.
  pose proof (insert_rule_iff tenant subject db r eq_refl eq_refl eq_refl Hfr Etx) as H1.
  destruct (rule_check r) eqn:Hc; cbn [andb].
  2:{ destruct H1 as [e ->]. by do 2 eexists. }
  rewrite H1. cbn [mbind result_bind w_db w_draws w_ticks w_now w_settings Nat.eqb].
  unfold insert_revision_statement.
  cbn [w_db w_draws w_ticks w_now w_settings].
  change (new_revision (uuid_draw (S draws)) tenant (uuid_draw draws) subject input (clock ticks)) with v.
  pose proof (insert_revision_iff tenant subject db r v Hwf Hc eq_refl eq_refl Hfr Hfv eq_refl eq_refl)
    as H2. cbv zeta in H2. destruct (texts_ok _ && rule_revision_check v); cbn [andb].
  2:{ destruct H2 as [e ->]. by do 2 eexists. }
  rewrite H2. cbn [mbind result_bind w_db w_draws w_ticks w_now w_settings Nat.eqb].
  unfold activate_statement. cbn [w_db w_draws w_ticks w_now w_settings].
  fold (inserted_db db r v).
  change (update_active_revision (context tenant subject false) (inserted_db db r v) (clock ticks)
    tenant (uuid_draw draws) (uuid_draw (S draws))) with
    (update_active_revision (context tenant subject false) (inserted_db db r v) (clock ticks)
      tenant (ru_id r) (rr_id v)).
  rewrite (activate_iff tenant subject db r v Hwf Hc eq_refl eq_refl Hfr Hfv eq_refl eq_refl).
  change (rr_enabled v) with (enabled input).
  destruct (enabled input && (10 <=? length (owner_active db tenant subject))%nat); cbn [andb negb].
  { by do 2 eexists. }
  cbn [mbind result_bind w_db w_draws w_ticks w_now w_settings Nat.eqb].
  unfold created_statement. cbn [w_db w_draws w_ticks w_now w_settings].
  change (uuid_draw draws) with (ru_id r).
  rewrite (created_row tenant subject db r v Hwf Hc eq_refl eq_refl Hfr Hfv eq_refl eq_refl).
  cbn [decode_optional decode_alert_rule].
  change (rr_similarity_threshold v) with (similarity_threshold input).
  destruct (json_f32 (similarity_threshold input)) as [t|];
    [rewrite bool_decide_eq_true_2 by eauto | rewrite bool_decide_eq_false_2 by (by intros [])];
    cbn [ok_or mbind result_bind fmap result_fmap w_db w_draws w_ticks w_now w_settings];
    do 2 eexists; split; reflexivity || (split; reflexivity).
Qed.

Lemma text_ok_of_creatable w tenant subject input :
  creatable w tenant subject input = true -> text_ok subject = true.
Proof. unfold creatable. intros Hc. by bool_prop. Qed.

Lemma created_rows_member db r v now :
  rr_tenant_id v = ru_tenant_id r -> (activated r v now, v) ∈ rule_rows (created_db db r v now).
Proof.
  intros Ht. apply elem_of_rule_rows. repeat split; [..|done];
    apply elem_of_app; right; left.
Qed.

Lemma create_wf tenant subject input w rule w' :
  alerts_wf (w_db w) -> fresh_draws w -> create_alert_rule tenant subject input w = (rule, w') ->
  alerts_wf (w_db w').
Proof.
  intros Hwf Hf Hc. pose proof (create_run tenant subject input w Hwf Hf) as Hrun. cbv zeta in Hrun.
  destruct (creatable w tenant subject input) eqn:E.
  - destruct Hrun as (a & w2 & Er & _ & Hdb). rewrite Hc in Er. injection Er as _ <-. rewrite Hdb.
    unfold creatable in E. bool_prop. destruct Hf as [Hfr Hfv].
    apply (created_wf tenant subject); try done. simpl. intros Hen.
    destruct (enabled input); [|done]. simpl in *. bool_prop. by apply Nat.leb_gt.
  - destruct Hrun as (e & w2 & Er & _ & Hdb). rewrite Hc in Er. injection Er as _ <-. by rewrite Hdb.
Qed.

(** C21: creating a rule succeeds exactly when the database accepts its rows;
    the answer then has the caller's tenant and subject, revision number 1
    and the input's fields, every other rule is as before, and reading the
    identifier back as its owner returns the same answer.  A refused creation
    leaves no trace, not even of the rows written before the failure. *)
Theorem create_alert_rule_spec tenant subject input w :
  alerts_wf (w_db w) -> fresh_draws w ->
  if creatable w tenant subject input
  then exists rule w', create_alert_rule tenant subject input w = (Ok rule, w') /\
    ar_tenant_id rule = tenant /\ ar_owner_subject rule = subject /\ ar_revision_number rule = 1%Z /\
    ar_name rule = name input /\ ar_query_text rule = query_text input /\
    ar_embedding_model rule = embedding_model input /\
    json_f32 (similarity_threshold input) = Some (ar_similarity_threshold rule) /\
    ar_source_filters rule = source_filters input /\
    ar_delivery_channels rule = delivery_channels input /\ ar_enabled rule = enabled input /\
    (exists new, rules (w_db w') = rules (w_db w) ++ [new] /\ ru_id new = ar_id rule) /\
    fst (get_alert_rule tenant (ar_id rule) subject false w') = Ok (Some rule)
  else exists e w', create_alert_rule tenant subject input w = (Err e, w') /\
    e = Http.internal [] /\ w_db w' = w_db w.
Proof.
  intros Hwf Hf. pose proof (create_run tenant subject input w Hwf Hf) as Hrun. cbv zeta in Hrun.
  destruct (creatable w tenant subject input) eqn:E; [|done].
  destruct Hrun as (rule & w' & Hc & Hdec & Hdb). exists rule, w'. split; [done|].
  pose proof (create_wf _ _ _ _ _ _ Hwf Hf Hc) as Hwf'.
  pose proof (text_ok_of_creatable _ _ _ _ E) as Ht.
  assert (fst (get_alert_rule tenant (ar_id rule) subject false w') = Ok (Some rule)) as Eres.
  { rewrite (get_alert_rule_permitted _ _ _ _ _
      (activated (rule_to_create w tenant subject) (revision_to_create w tenant subject input)
         (clock (w_ticks w))) (revision_to_create w tenant subject input)); try done.
    - by rewrite Hdec.
    - rewrite Hdb. by apply created_rows_member.
    - unfold decode_alert_rule in Hdec. by inv_ok.
    - by rewrite bool_decide_eq_true_2. }
  unfold decode_alert_rule in Hdec. inv_ok. repeat (split; [done|]). split; [|done].
  eexists. rewrite Hdb. split; done.
Qed.

(** The invariant of the alert tables, with at most ten enabled active
    rules per owner, survives every creation, in both row-level security
    modes; an owner who has ten is refused an eleventh enabled rule, and the
    answer is the generic internal error. *)
Theorem create_keeps_active_limit tenant subject input w :
  alerts_wf (w_db w) -> fresh_draws w ->
  alerts_wf (w_db (snd (create_alert_rule tenant subject input w))) /\
  (length (owner_active (w_db w) tenant subject) = 10 -> enabled input = true ->
   exists e w', create_alert_rule tenant subject input w = (Err e, w') /\ w_db w' = w_db w /\
     status e = StatusCode.INTERNAL_SERVER_ERROR /\ code e = lit "internal_error").
Proof.
  intros Hwf Hf. split.
  - destruct (create_alert_rule tenant subject input w) as [r w'] eqn:E. by eapply create_wf.
  - intros Hn He. pose proof (create_run tenant subject input w Hwf Hf) as Hrun. cbv zeta in Hrun.
    assert (creatable w tenant subject input = false) as E.
    { unfold creatable. rewrite He, Hn. simpl. by rewrite andb_false_r. }
    rewrite E in Hrun. destruct Hrun as (e & w' & Hc & Hs & Hd). exists e, w'.
    split; [done|]. split; [done|]. by rewrite Hs.
Qed.
End CreateSpec.

(** ** A small deployment *)
Module AlertExample.
(** Identifiers count up from 1000, the clock ticks, and the connection is
    subject to row-level security. *)
#[global] Instance deployment : Deployment :=
  {| uuid_draw n := uuid_from_u128 (1000 + N.of_nat n); clock n := Z.of_nat n; bypass_rls := false |}.
#[global] Instance pg_lib : PgLib := {|
  pg_timestamptz t := t; f32_display _ := []; vector_in _ := None;
  cosine_distance _ _ := None; json_f64 x := if is_finite x then Some x else None;
  json_f32 x := if is_finite x then Some x else None
|}.
Definition world : World :=
  {| w_db := empty_database; w_draws := 0; w_ticks := 0; w_now := 0; w_settings := no_settings |}.
Definition tenant : Uuid := uuid_from_u128 1.
Definition owner : str := lit "user-1".
Definition input : CreateAlertRule := {|
  name := lit "Launches"; query_text := lit "renewable launches";
  embedding_model := lit "text-embedding-v1"; similarity_threshold := f32_one;
  source_filters := []; delivery_channels := [lit "email"]; enabled := true
|}.
(** The world after [n] creations by the same owner. *)
Fixpoint after (n : nat) : World :=
  match n with O => world | S n' => snd (create_alert_rule tenant owner input (after n')) end.
End AlertExample.

Lemma example_fresh n : (n <= 10)%nat -> fresh_draws (AlertExample.after n).
Proof.
  intros Hn. do 11 (destruct n as [|n]; [split; refine (proj1 (bool_decide_eq_true _) _); by vm_compute|]). lia.
Qed.

Lemma example_wf n : (n <= 10)%nat -> alerts_wf (w_db (AlertExample.after n)).
Proof.
  induction n as [|n IH]; intros Hn; [apply alerts_wf_empty|].
  cbn [AlertExample.after]. destruct (create_alert_rule _ _ _ _) as [r w'] eqn:E.
  eapply create_wf; [apply IH; lia | apply example_fresh; lia | exact E].
Qed.

Lemma list_alert_rules_spec_witness :
  exists w', list_alert_rules AlertExample.tenant AlertExample.owner false (AlertExample.after 2) =
    (mapM decode_alert_rule (take 500 (sort_by rule_order
       (permitted_rows (w_db (AlertExample.after 2)) AlertExample.tenant AlertExample.owner false))), w') /\
    length (permitted_rows (w_db (AlertExample.after 2)) AlertExample.tenant AlertExample.owner false) = 2.
Proof.
  destruct (list_alert_rules_spec AlertExample.tenant AlertExample.owner false (AlertExample.after 2))
    as (w' & _ & E); [apply example_wf; lia | done|].
  exists w'. split; [exact E | by vm_compute].
Defined.

Lemma get_alert_rule_iff_witness :
  fst (get_alert_rule AlertExample.tenant (uuid_draw 0) (lit "intruder") false (AlertExample.after 1)) = Ok None /\
  ~ exists ru v, (ru, v) ∈ rule_rows (w_db (AlertExample.after 1)) /\ ru_id ru = uuid_draw 0 /\
      ru_tenant_id ru = AlertExample.tenant /\ (false = true \/ ru_owner_subject ru = lit "intruder").
Proof.
  assert (fst (get_alert_rule AlertExample.tenant (uuid_draw 0) (lit "intruder") false
    (AlertExample.after 1)) = Ok None) as E by by vm_compute.
  split; [exact E|].
  destruct (get_alert_rule AlertExample.tenant (uuid_draw 0) (lit "intruder") false
    (AlertExample.after 1)) as [r w'] eqn:Eg.
  destruct (get_alert_rule_iff AlertExample.tenant (uuid_draw 0) (lit "intruder") false
    (AlertExample.after 1) r w') as (_ & _ & Hn); [apply example_wf; lia | done | exact Eg|].
  by apply Hn.
Defined.

Lemma create_alert_rule_spec_witness :
  creatable AlertExample.world AlertExample.tenant AlertExample.owner AlertExample.input = true /\
  exists rule w', create_alert_rule AlertExample.tenant AlertExample.owner AlertExample.input
      AlertExample.world = (Ok rule, w') /\ ar_owner_subject rule = AlertExample.owner.
Proof.
  assert (creatable AlertExample.world AlertExample.tenant AlertExample.owner AlertExample.input = true)
    as E by by vm_compute.
  split; [exact E|].
  pose proof (create_alert_rule_spec AlertExample.tenant AlertExample.owner AlertExample.input
    AlertExample.world (example_wf 0 ltac:(lia)) (example_fresh 0 ltac:(lia))) as Hs.
  rewrite E in Hs. destruct Hs as (rule & w' & Hc & _ & Ho & _). exists rule, w'. auto.
Defined.

Lemma create_keeps_active_limit_witness :
  length (owner_active (w_db (AlertExample.after 10)) AlertExample.tenant AlertExample.owner) = 10 /\
  exists e w', create_alert_rule AlertExample.tenant AlertExample.owner AlertExample.input
    (AlertExample.after 10) = (Err e, w') /\ status e = 500%N.
Proof.
  assert (length (owner_active (w_db (AlertExample.after 10)) AlertExample.tenant AlertExample.owner) = 10)
    as E by by vm_compute.
  split; [exact E|].
  destruct (create_keeps_active_limit AlertExample.tenant AlertExample.owner AlertExample.input
    (AlertExample.after 10) (example_wf 10 ltac:(lia)) (example_fresh 10 ltac:(lia))) as [_ Hl].
  destruct (Hl E eq_refl) as (e & w' & Hc & _ & Hs & _). exists e, w'. auto.
Defined.
