(* ===== verification/ReverseMatch.v ===== *)
(** * Reverse matching ([src/reverse_match.rs])

    Registering the embedding of an alert-rule revision, and matching one
    incoming page against the registered embeddings: the page and its
    revision are recorded, the candidate rules ranked, and a match row kept
    for each, in one transaction. *)

From stdpp Require Import strings.
From S2P Require Import Prelude Ordered RustStr Floats Externals HttpError Database.
From S2P Require Import AlertStore.

Definition DEFAULT_MAX_CANDIDATES : N := 100.
Definition MAX_CANDIDATES : N := 500.
Definition default_max_candidates : N := DEFAULT_MAX_CANDIDATES.

Record AlertRuleEmbeddingUpsertRequest := {
  au_alert_rule_revision_id : Uuid;
  au_embedding : EmbeddingPayload
}.

Record AlertRuleEmbeddingReceipt := {
  rc_id : Uuid;
  rc_alert_rule_id : Uuid;
  rc_alert_rule_revision_id : Uuid;
  rc_embedding_sha256 : str;
  rc_created : bool
}.

Record ReverseAlertPageRequest := {
  rp_source_id : Uuid;
  rp_url : str;
  rp_final_url : str;
  rp_title : option str;
  rp_content_text : str;
  rp_content_type : str;
  rp_http_status : N;
  rp_published_at : option Timestamp;
  rp_fetched_at : Timestamp;
  rp_embedding : EmbeddingPayload;
  rp_max_candidates : N
}.

Record ReverseAlertCandidate := {
  ra_id : Uuid;
  ra_alert_rule_id : Uuid;
  ra_alert_rule_revision_id : Uuid;
  ra_page_revision_id : Uuid;
  ra_alert_embedding_id : Uuid;
  ra_similarity : f64;
  ra_threshold : f64;
  ra_canonical_match_key : str
}.

Record ReverseAlertMatchResponse := {
  rm_page_id : Uuid;
  rm_page_revision_id : Uuid;
  rm_content_sha256 : str;
  rm_changed : bool;
  rm_page_vector_persisted : bool;
  rm_candidates : list ReverseAlertCandidate
}.

(** The JSON rows the SQL statements return. *)
Record PageWire := {
  pw_page_id : Uuid;
  pw_page_revision_id : Uuid;
  pw_content_sha256 : str;
  pw_changed : bool
}.

Record CandidateWire := {
  cw_alert_rule_id : Uuid;
  cw_alert_rule_revision_id : Uuid;
  cw_alert_embedding_id : Uuid;
  cw_similarity : f64;
  cw_threshold : f64
}.

Definition normalization_name (normalization : VectorNormalization) : str :=
  match normalization with
  | NoNormalization => lit "none"
  | L2 => lit "l2"
  | UnitLength => lit "unit_length"
  end.

Definition normalize_content (content : str) : str := join [32%N] (split_whitespace content).

(** [-0.0] is fingerprinted as [0.0]. *)
Definition canonical_zero (value : f32) : f32 := if is_zero value then fzero else value.

Record MatchIdentity := {
  mi_tenant_id : Uuid;
  mi_alert_rule_id : Uuid;
  mi_alert_rule_revision_id : Uuid;
  mi_page_revision_id : Uuid;
  mi_content_sha256 : str;
  mi_model : str;
  mi_model_version : str;
  mi_dimensions : N;
  mi_normalization : VectorNormalization
}.

Section ReverseMatch.
Context `{UuidLib, DigestLib, InterfacesLib, PgLib, Deployment}.

Definition upsert_validate (self : AlertRuleEmbeddingUpsertRequest) : result ValidationError unit :=
  embedding_validate (au_embedding self).

Definition page_of_request (self : ReverseAlertPageRequest) : PageIngestRequest := {|
  pi_source_id := rp_source_id self; pi_url := rp_url self; pi_final_url := rp_final_url self;
  pi_title := rp_title self; pi_content_text := rp_content_text self;
  pi_content_type := rp_content_type self; pi_http_status := rp_http_status self;
  pi_published_at := rp_published_at self; pi_fetched_at := rp_fetched_at self;
  pi_embedding := rp_embedding self
|}.

Definition validate (self : ReverseAlertPageRequest) : result ValidationError unit :=
  _ ← page_validate (page_of_request self);
  reject lit "max_candidates must be between 1 and 500"
    when negb ((1 <=? rp_max_candidates self) && (rp_max_candidates self <=? MAX_CANDIDATES))%N ;;
  Ok tt.

Definition vector_literal (values : list f32) : str :=
  lit "[" ++ join [44%N] (map f32_display values) ++ lit "]".

Definition embedding_sha256 (values : list f32) : str :=
  hex_encode (sha256 (concat (map (fun value =>
    u32_to_be_bytes (f32_to_bits (canonical_zero value))) values))).

Definition identity_fields (identity : MatchIdentity) : list str :=
  [uuid_to_string (mi_tenant_id identity);
   uuid_to_string (mi_alert_rule_id identity);
   uuid_to_string (mi_alert_rule_revision_id identity);
   uuid_to_string (mi_page_revision_id identity);
   mi_content_sha256 identity;
   mi_model identity;
   mi_model_version identity;
   N_to_string (mi_dimensions identity);
   normalization_name (mi_normalization identity)].

Definition match_key (identity : MatchIdentity) : str :=
  sha256_hex (json_string_array (identity_fields identity)).

(** ** Registering a rule embedding

    [X_statement_at snapshot] is a statement whose queries read the tables as
    they were when it began, [snapshot], while its inserts meet the tables as
    they are; without other transactions in between, [X_statement], the two
    are the same. *)

(** [target]: the enabled active revision the request names, if its model is
    the embedding's. *)
Definition upsert_target (s : Settings) (db : Database) (tenant_id alert_rule_id revision_id : Uuid)
    (model : str) : list (RuleRow * RuleRevisionRow) :=
  List.filter (fun '(rule, revision) =>
      bool_decide (rr_alert_rule_id revision = ru_id rule) &&
      bool_decide (ru_tenant_id rule = tenant_id) && bool_decide (ru_id rule = alert_rule_id) &&
      bool_decide (rr_id revision = revision_id) && rr_enabled revision &&
      bool_decide (rr_embedding_model revision = model))
    (active_rule_rows s db).

Definition upsert_row (id tenant_id : Uuid) (rule : RuleRow) (revision : RuleRevisionRow)
    (embedding : EmbeddingPayload) (vector : list f32) (vector_sha256 : str)
    (generated_at now : Timestamp) : RuleEmbeddingRow := {|
  re_id := id; re_tenant_id := tenant_id; re_alert_rule_id := ru_id rule;
  re_alert_rule_revision_id := rr_id revision;
  re_model := ep_model embedding; re_model_version := ep_model_version embedding;
  re_dimensions := as_i32 (Z.of_N (ep_dimensions embedding));
  re_normalization := normalization_name (ep_normalization embedding);
  re_embedding := vector; re_embedding_sha256 := vector_sha256;
  re_generated_at := pg_timestamptz generated_at; re_created_at := now
|}.

(** The statement: the row in the table after it and whether it is new. *)
Definition upsert_statement_at (snapshot : Database) (tenant_id alert_rule_id : Uuid)
    (request : AlertRuleEmbeddingUpsertRequest) (vector_sha256 : str) (generated_at : Timestamp)
    : Stmt (option (RuleEmbeddingRow * bool)) := fun now s db draws =>
  let embedding := au_embedding request in
  reject InvalidText when negb (texts_ok [ep_model embedding; ep_model_version embedding]) ;;
  vector ← ok_or (vector_in (vector_literal (ep_values embedding))) VectorError;
  match upsert_target s snapshot tenant_id alert_rule_id (au_alert_rule_revision_id request)
          (ep_model embedding) with
  | [] => Ok (None, db, draws)
  | (rule, revision) :: _ =>
      let row := upsert_row (uuid_draw draws) tenant_id rule revision embedding vector vector_sha256
                   generated_at now in
      '(inserted, db') ← insert_rule_embedding s db row;
      if (inserted : bool) then Ok (Some (row, true), db', S draws)
      else
        Ok (option_map (fun e => (e, false))
              (head (List.filter (fun e =>
                 bool_decide (re_alert_rule_revision_id e = rr_id revision) &&
                 bool_decide (re_alert_rule_id e = ru_id rule) &&
                 bool_decide (re_tenant_id e = tenant_id) &&
                 bool_decide (re_model e = re_model row) &&
                 bool_decide (re_model_version e = re_model_version row) &&
                 bool_decide (re_dimensions e = re_dimensions row) &&
                 bool_decide (re_normalization e = re_normalization row))
               (visible_rule_embeddings s snapshot))), db', S draws)
  end.

Definition upsert_statement (tenant_id alert_rule_id : Uuid)
    (request : AlertRuleEmbeddingUpsertRequest) (vector_sha256 : str) (generated_at : Timestamp)
    : Stmt (option (RuleEmbeddingRow * bool)) := fun now s db draws =>
  upsert_statement_at db tenant_id alert_rule_id request vector_sha256 generated_at now s db draws.

Definition upsert_alert_rule_embedding (tenant_id alert_rule_id : Uuid)
    (request : AlertRuleEmbeddingUpsertRequest) : M AlertRuleEmbeddingReceipt :=
  _ ← lift (map_err Http.validation (upsert_validate request));
  let vector_sha256 := embedding_sha256 (ep_values (au_embedding request)) in
  generated_at ← utc_now;
  row ← autocommit (upsert_statement tenant_id alert_rule_id request vector_sha256 generated_at);
  '(wire, created) ← lift (ok_or row (Http.validation
    (lit "alert embedding must target the enabled active rule revision and its configured model")));
  if bool_decide (re_embedding_sha256 wire <> vector_sha256)
  then throw (Http.conflict
    (lit "an immutable embedding already exists for this alert revision and model space"))
  else mret {| rc_id := re_id wire; rc_alert_rule_id := re_alert_rule_id wire;
               rc_alert_rule_revision_id := re_alert_rule_revision_id wire;
               rc_embedding_sha256 := re_embedding_sha256 wire; rc_created := created |}.

(** ** Recording the page *)
Definition same_page (tenant_id source_id : Uuid) (canonical_url : str) (p : PageRow) : bool :=
  bool_decide (pg_tenant_id p = tenant_id) && bool_decide (pg_source_id p = source_id) &&
  bool_decide (pg_canonical_url p = canonical_url).

(** [DO UPDATE SET last_seen_at = EXCLUDED.last_seen_at, updated_at = now()] *)
Definition seen_page (fetched_at now : Timestamp) (x : PageRow) : PageRow :=
  {| pg_id := pg_id x; pg_tenant_id := pg_tenant_id x; pg_source_id := pg_source_id x;
     pg_canonical_url := pg_canonical_url x; pg_first_seen_at := pg_first_seen_at x;
     pg_last_seen_at := fetched_at; pg_latest_revision_id := pg_latest_revision_id x;
     pg_created_at := pg_created_at x; pg_updated_at := now |}.

(** [upserted_page]: the row's identifier and latest revision, and the pages
    afterwards. *)
Definition upsert_page (tenant_id source_id : Uuid) (canonical_url : str) (id : Uuid)
    (fetched_at now : Timestamp) (db : Database)
    : result DbErr (Uuid * option Uuid * Database) :=
  match List.filter (same_page tenant_id source_id canonical_url) (pages db) with
  | p :: _ =>
      Ok (pg_id p, pg_latest_revision_id p,
          set_pages (map (fun x => if same_page tenant_id source_id canonical_url x
                                   then seen_page fetched_at now x else x)) db)
  | [] =>
      reject UniqueViolation when has_page db id ;;
      reject ForeignKeyViolation when negb (has_source db source_id) ;;
      Ok (id, None,
          set_pages (fun l => l ++
            [{| pg_id := id; pg_tenant_id := tenant_id; pg_source_id := source_id;
                pg_canonical_url := canonical_url; pg_first_seen_at := fetched_at;
                pg_last_seen_at := fetched_at; pg_latest_revision_id := None;
                pg_created_at := now; pg_updated_at := now |}]) db)
  end.

(** [NULLIF(x, '')] *)
Definition nullif_empty (s : str) : option str := if nonempty s then Some s else None.

Definition page_statement_at (snapshot : Database) (tenant_id source_id : Uuid) (request : ReverseAlertPageRequest)
    (canonical_original_url canonical_final_url content content_sha256 : str)
    : Stmt (option PageWire) := fun now _ db draws =>
  let title := default [] (rp_title request) in
  let fetched_at := pg_timestamptz (rp_fetched_at request) in
  reject InvalidText
    when negb (texts_ok [canonical_final_url; canonical_original_url; title; content;
                         content_sha256; rp_content_type request]) ;;
  '(page_id, latest_revision_id, db1) ←
    upsert_page tenant_id source_id canonical_final_url (uuid_draw draws) fetched_at now db;
  let row := {|
    pv_id := uuid_draw (S draws); pv_tenant_id := tenant_id; pv_page_id := page_id;
    pv_predecessor_revision_id := latest_revision_id;
    pv_original_url := canonical_original_url; pv_final_url := canonical_final_url;
    pv_title := nullif_empty title; pv_content_text := content;
    pv_content_sha256 := content_sha256; pv_content_type := rp_content_type request;
    pv_http_status := as_i16 (Z.of_N (rp_http_status request));
    pv_published_at := pg_timestamptz <$> rp_published_at request;
    pv_fetched_at := fetched_at; pv_created_at := now |} in
  '(inserted, db2) ← insert_page_revision db1 row;
  let selected :=
    if (inserted : bool) then Some (pv_id row, true)
    else option_map (fun v => (pv_id v, false))
           (head (List.filter (fun v => bool_decide (pv_page_id v = page_id) &&
              bool_decide (pv_tenant_id v = tenant_id) &&
              bool_decide (pv_content_sha256 v = content_sha256)) (page_revisions snapshot))) in
  Ok (option_map (fun '(revision_id, changed) =>
        {| pw_page_id := page_id; pw_page_revision_id := revision_id;
           pw_content_sha256 := content_sha256; pw_changed := changed |}) selected,
      db2, S (S draws)).

Definition page_statement (tenant_id source_id : Uuid) (request : ReverseAlertPageRequest)
    (canonical_original_url canonical_final_url content content_sha256 : str)
    : Stmt (option PageWire) := fun now s db draws =>
  page_statement_at db tenant_id source_id request canonical_original_url canonical_final_url content
    content_sha256 now s db draws.

(** [UPDATE eal_pages SET latest_revision_id, last_seen_at, updated_at] *)
Definition with_latest (revision_id : Uuid) (fetched_at now : Timestamp) (x : PageRow) : PageRow :=
  {| pg_id := pg_id x; pg_tenant_id := pg_tenant_id x; pg_source_id := pg_source_id x;
     pg_canonical_url := pg_canonical_url x; pg_first_seen_at := pg_first_seen_at x;
     pg_last_seen_at := fetched_at; pg_latest_revision_id := Some revision_id;
     pg_created_at := pg_created_at x; pg_updated_at := now |}.

Definition latest_revision_statement (tenant_id page_id revision_id : Uuid) (fetched_at : Timestamp)
    : Stmt unit := fun now _ db draws =>
  let matches p := bool_decide (pg_tenant_id p = tenant_id) && bool_decide (pg_id p = page_id) in
  reject ForeignKeyViolation
    when existsb matches (pages db) && negb (has_page_revision db revision_id) ;;
  Ok (tt, set_pages (map (fun x =>
            if matches x then with_latest revision_id (pg_timestamptz fetched_at) now x else x)) db,
      draws).

Definition upsert_page_revision (tenant_id source_id : Uuid) (request : ReverseAlertPageRequest)
    (canonical_original_url canonical_final_url : str) : M PageWire :=
  let normalized_content := normalize_content (rp_content_text request) in
  let content_sha256 := sha256_hex (as_bytes normalized_content) in
  row ← execute (page_statement tenant_id source_id request canonical_original_url
                   canonical_final_url normalized_content content_sha256);
  page ← lift (ok_or row
    (Http.internal (lit "transient page ingestion returned no durable revision")));
  _ ← execute (latest_revision_statement tenant_id (pw_page_id page) (pw_page_revision_id page)
                 (rp_fetched_at request));
  mret page.

(** ** Ranking the candidates *)

(** The joined rows before the threshold. *)
Definition eligible_embeddings (s : Settings) (db : Database) (tenant_id source_id : Uuid)
    (embedding : EmbeddingPayload) : list (RuleEmbeddingRow * RuleRevisionRow) :=
  flat_map (fun e =>
    flat_map (fun rule =>
      map (fun revision => (e, revision))
        (List.filter (fun revision =>
            bool_decide (rr_tenant_id revision = re_tenant_id e) &&
            bool_decide (rr_id revision = re_alert_rule_revision_id e) &&
            bool_decide (rr_alert_rule_id revision = re_alert_rule_id e) &&
            rr_enabled revision && bool_decide (rr_embedding_model revision = ep_model embedding) &&
            (negb (nonempty (rr_source_filters revision)) ||
             bool_decide (lit "source:" ++ uuid_to_string source_id ∈ rr_source_filters revision)))
          (visible_rule_revisions s db)))
      (List.filter (fun rule =>
          bool_decide (ru_tenant_id rule = re_tenant_id e) &&
          bool_decide (ru_id rule = re_alert_rule_id e) &&
          bool_decide (ru_active_revision_id rule = Some (re_alert_rule_revision_id e)))
        (visible_rules s db)))
    (List.filter (fun e =>
        bool_decide (re_tenant_id e = tenant_id) && bool_decide (re_model e = ep_model embedding) &&
        bool_decide (re_model_version e = ep_model_version embedding) &&
        bool_decide (re_dimensions e = as_i32 (Z.of_N (ep_dimensions embedding))) &&
        bool_decide (re_normalization e = normalization_name (ep_normalization embedding)))
      (visible_rule_embeddings s db)).

Record RankedEmbedding := {
  rk_embedding : RuleEmbeddingRow;
  rk_revision : RuleRevisionRow;
  rk_distance : f64
}.
Definition rk_similarity (r : RankedEmbedding) : f64 := f64_sub f64_one (rk_distance r).
Definition rk_threshold (r : RankedEmbedding) : f64 :=
  f64_of_f32 (rr_similarity_threshold (rk_revision r)).

(** [ORDER BY distance, embedding.id]; NaN is the greatest distance. *)
Definition rank_order (a b : RankedEmbedding) : bool :=
  if pg_lt (rk_distance a) (rk_distance b) then true
  else if pg_lt (rk_distance b) (rk_distance a) then false
  else match ord_cmp (re_id (rk_embedding a)) (re_id (rk_embedding b)) with Gt => false | _ => true end.

Definition candidate_statement (tenant_id source_id : Uuid) (request : ReverseAlertPageRequest)
    : Stmt (list RankedEmbedding) := fun _ s db draws =>
  let embedding := rp_embedding request in
  reject InvalidText when negb (texts_ok [ep_model embedding; ep_model_version embedding]) ;;
  vector ← ok_or (vector_in (vector_literal (ep_values embedding))) VectorError;
  ranked ← mapM (fun '(e, revision) =>
      distance ← ok_or (cosine_distance (re_embedding e) vector) VectorError;
      Ok {| rk_embedding := e; rk_revision := revision; rk_distance := distance |})
    (eligible_embeddings s db tenant_id source_id embedding);
  Ok (take (N.to_nat (rp_max_candidates request))
        (sort_by rank_order (List.filter (fun r => pg_ge (rk_similarity r) (rk_threshold r)) ranked)),
      db, draws).

Definition decode_candidate (r : RankedEmbedding) : result HttpError CandidateWire :=
  similarity ← ok_or (json_f64 (rk_similarity r)) (Http.from_json_err (lit "invalid number"));
  threshold ← ok_or (json_f64 (rk_threshold r)) (Http.from_json_err (lit "invalid number"));
  Ok {| cw_alert_rule_id := re_alert_rule_id (rk_embedding r);
        cw_alert_rule_revision_id := re_alert_rule_revision_id (rk_embedding r);
        cw_alert_embedding_id := re_id (rk_embedding r);
        cw_similarity := similarity; cw_threshold := threshold |}.

Definition find_alert_candidates (tenant_id source_id : Uuid) (request : ReverseAlertPageRequest)
    : M (list CandidateWire) :=
  rows ← execute (candidate_statement tenant_id source_id request);
  lift (mapM decode_candidate rows).

(** ** Keeping the evidence *)
Definition reverse_row (id tenant_id page_revision_id : Uuid) (request : ReverseAlertPageRequest)
    (page_embedding_sha256 : str) (candidate : CandidateWire) (key : str)
    (explanation : Explanation) (now : Timestamp) : CandidateRow := {|
  mc_id := id; mc_tenant_id := tenant_id; mc_alert_rule_id := cw_alert_rule_id candidate;
  mc_alert_rule_revision_id := Some (cw_alert_rule_revision_id candidate);
  mc_revision_id := page_revision_id; mc_embedding_id := None;
  mc_match_mode := ReverseAlertStream;
  mc_alert_embedding_id := Some (cw_alert_embedding_id candidate);
  mc_page_embedding_sha256 := Some page_embedding_sha256;
  mc_page_embedding_model := Some (ep_model (rp_embedding request));
  mc_page_embedding_model_version := Some (ep_model_version (rp_embedding request));
  mc_page_embedding_dimensions := Some (as_i32 (Z.of_N (ep_dimensions (rp_embedding request))));
  mc_page_embedding_normalization :=
    Some (normalization_name (ep_normalization (rp_embedding request)));
  mc_canonical_match_key := key;
  mc_similarity := cw_similarity candidate; mc_threshold := cw_threshold candidate;
  mc_status := lit "pending"; mc_score_explanation := explanation;
  mc_created_at := now; mc_updated_at := now
|}.

(** The stored row is evidence of the same match. *)
Definition same_reverse_evidence (a b : CandidateRow) : bool :=
  bool_decide (mc_tenant_id a = mc_tenant_id b) &&
  bool_decide (mc_canonical_match_key a = mc_canonical_match_key b) &&
  bool_decide (mc_alert_rule_id a = mc_alert_rule_id b) &&
  bool_decide (mc_alert_rule_revision_id a = mc_alert_rule_revision_id b) &&
  bool_decide (mc_revision_id a = mc_revision_id b) &&
  bool_decide (mc_match_mode a = ReverseAlertStream) &&
  bool_decide (mc_alert_embedding_id a = mc_alert_embedding_id b) &&
  bool_decide (mc_page_embedding_sha256 a = mc_page_embedding_sha256 b) &&
  bool_decide (mc_page_embedding_model a = mc_page_embedding_model b) &&
  bool_decide (mc_page_embedding_model_version a = mc_page_embedding_model_version b) &&
  bool_decide (mc_page_embedding_dimensions a = mc_page_embedding_dimensions b) &&
  bool_decide (mc_page_embedding_normalization a = mc_page_embedding_normalization b).

Definition evidence_texts (explanation : Explanation) : list str :=
  omap (fun '(_, e) => match e with EvText s => Some s | _ => None end) explanation.

Definition persist_statement_at (snapshot : Database) (tenant_id page_revision_id : Uuid) (content_sha256 : str)
    (request : ReverseAlertPageRequest) (page_embedding_sha256 : str) (candidate : CandidateWire)
    (key : str) (explanation : Explanation) : Stmt (option CandidateRow) := fun now _ db draws =>
  reject InvalidText
    when negb (texts_ok ([page_embedding_sha256; ep_model (rp_embedding request);
                          ep_model_version (rp_embedding request); key; content_sha256] ++
                         evidence_texts explanation)) ;;
  let row := reverse_row (uuid_draw draws) tenant_id page_revision_id request page_embedding_sha256
               candidate key explanation now in
  '(inserted, db') ← insert_candidate db row;
  let selected :=
    if (inserted : bool) then Some row
    else head (List.filter (fun existing => same_reverse_evidence existing row &&
           existsb (fun v => bool_decide (pv_tenant_id v = tenant_id) &&
               bool_decide (pv_id v = mc_revision_id existing) &&
               bool_decide (pv_content_sha256 v = content_sha256)) (page_revisions snapshot))
         (candidates snapshot)) in
  Ok (selected, db', S draws).

Definition persist_statement (tenant_id page_revision_id : Uuid) (content_sha256 : str)
    (request : ReverseAlertPageRequest) (page_embedding_sha256 : str) (candidate : CandidateWire)
    (key : str) (explanation : Explanation) : Stmt (option CandidateRow) := fun now s db draws =>
  persist_statement_at db tenant_id page_revision_id content_sha256 request page_embedding_sha256
    candidate key explanation now s db draws.

Definition decode_reverse_candidate (row : CandidateRow) : result HttpError ReverseAlertCandidate :=
  let bad := Http.from_json_err (lit "invalid row") in
  revision ← ok_or (mc_alert_rule_revision_id row) bad;
  alert_embedding ← ok_or (mc_alert_embedding_id row) bad;
  similarity ← ok_or (json_f64 (mc_similarity row)) bad;
  threshold ← ok_or (json_f64 (mc_threshold row)) bad;
  Ok {| ra_id := mc_id row; ra_alert_rule_id := mc_alert_rule_id row;
        ra_alert_rule_revision_id := revision; ra_page_revision_id := mc_revision_id row;
        ra_alert_embedding_id := alert_embedding; ra_similarity := similarity;
        ra_threshold := threshold; ra_canonical_match_key := mc_canonical_match_key row |}.

Definition persist_reverse_candidate (tenant_id page_revision_id : Uuid) (content_sha256 : str)
    (request : ReverseAlertPageRequest) (page_embedding_sha256 : str) (candidate : CandidateWire)
    (key : str) (explanation : Explanation) : M ReverseAlertCandidate :=
  row ← execute (persist_statement tenant_id page_revision_id content_sha256 request
                   page_embedding_sha256 candidate key explanation);
  decoded ← lift (decode_optional decode_reverse_candidate row);
  lift (ok_or decoded (Http.conflict
    (lit "canonical match identity exists with different evidence"))).

(** ** The whole operation *)
Definition candidate_identity (tenant_id : Uuid) (page : PageWire) (embedding : EmbeddingPayload)
    (candidate : CandidateWire) : MatchIdentity := {|
  mi_tenant_id := tenant_id; mi_alert_rule_id := cw_alert_rule_id candidate;
  mi_alert_rule_revision_id := cw_alert_rule_revision_id candidate;
  mi_page_revision_id := pw_page_revision_id page; mi_content_sha256 := pw_content_sha256 page;
  mi_model := ep_model embedding; mi_model_version := ep_model_version embedding;
  mi_dimensions := ep_dimensions embedding; mi_normalization := ep_normalization embedding
|}.

Definition explanation_of (page : PageWire) (embedding : EmbeddingPayload)
    (canonical_final_url page_vector_sha256 : str) (candidate : CandidateWire) : Explanation :=
  [(lit "match_mode", EvText (lit "reverse_alert_stream"));
   (lit "semantic_similarity", EvNumber (cw_similarity candidate));
   (lit "threshold", EvNumber (cw_threshold candidate));
   (lit "alert_rule_revision_id", EvText (uuid_to_string (cw_alert_rule_revision_id candidate)));
   (lit "page_revision_id", EvText (uuid_to_string (pw_page_revision_id page)));
   (lit "model", EvText (ep_model embedding));
   (lit "model_version", EvText (ep_model_version embedding));
   (lit "dimensions", EvInt (ep_dimensions embedding));
   (lit "normalization", EvText (normalization_name (ep_normalization embedding)));
   (lit "canonical_url", EvText canonical_final_url);
   (lit "content_sha256", EvText (pw_content_sha256 page));
   (lit "page_embedding_sha256", EvText page_vector_sha256);
   (lit "page_vector_persisted", EvBool false)].

Fixpoint persist_candidates (tenant_id : Uuid) (page : PageWire) (request : ReverseAlertPageRequest)
    (canonical_final_url page_vector_sha256 : str) (rows : list CandidateWire)
    : M (list ReverseAlertCandidate) :=
  match rows with
  | [] => mret []
  | candidate :: rows' =>
      if negb (is_finite (cw_similarity candidate)) ||
         flt (cw_similarity candidate) (cw_threshold candidate)
      then persist_candidates tenant_id page request canonical_final_url page_vector_sha256 rows'
      else
        durable ← persist_reverse_candidate tenant_id (pw_page_revision_id page)
          (pw_content_sha256 page) request page_vector_sha256 candidate
          (match_key (candidate_identity tenant_id page (rp_embedding request) candidate))
          (explanation_of page (rp_embedding request) canonical_final_url page_vector_sha256 candidate);
        durables ← persist_candidates tenant_id page request canonical_final_url page_vector_sha256 rows';
        mret (durable :: durables)
  end.

Definition ingest_and_reverse_match (tenant_id source_id : Uuid) (request : ReverseAlertPageRequest)
    (canonical_original_url canonical_final_url : str) : M ReverseAlertMatchResponse :=
  _ ← lift (map_err Http.validation (validate request));
  with_transaction
    (page ← upsert_page_revision tenant_id source_id request canonical_original_url
              canonical_final_url;
     let page_vector_sha256 := embedding_sha256 (ep_values (rp_embedding request)) in
     candidate_rows ← find_alert_candidates tenant_id source_id request;
     candidates ← persist_candidates tenant_id page request canonical_final_url page_vector_sha256
                    candidate_rows;
     mret {| rm_page_id := pw_page_id page; rm_page_revision_id := pw_page_revision_id page;
             rm_content_sha256 := pw_content_sha256 page; rm_changed := pw_changed page;
             rm_page_vector_persisted := false; rm_candidates := candidates |}).
End ReverseMatch.
