(* ===== verification/ReverseMatchSpec.v ===== *)
(** * What reverse matching guarantees ([src/reverse_match.rs])

    Match identities and vector fingerprints determine what they are computed
    from, and rule embeddings are immutable; [ReverseIngestSpec] treats the
    matching of pages. *)

From stdpp Require Import strings.
From S2P Require Import Prelude Ordered RustStr Floats Externals Samples HttpError.
From S2P Require Import Database AlertStore AlertStoreSpec ReverseMatch.

(** ** Identities *)
Section Identities.
Context `{UuidLaws, DigestLaws}.

Lemma normalization_name_inj a b : normalization_name a = normalization_name b -> a = b.
Proof. by destruct a, b. Qed.

Lemma identity_fields_inj a b : identity_fields a = identity_fields b -> a = b.
Proof.
  destruct a, b. unfold identity_fields. simpl. intros E. injection E as E1 E2 E3 E4 -> -> -> E5 E6.
  apply uuid_to_string_inj in E1 as ->, E2 as ->, E3 as ->, E4 as ->.
  apply N_to_string_inj in E5 as ->. by apply normalization_name_inj in E6 as ->.
Qed.

(** The message a match key is the digest of. *)
Definition identity_message (identity : MatchIdentity) : list N :=
  json_string_array (identity_fields identity).

(** Two match identities have the same key only if they are equal, or
    their own two messages are a SHA-256 collision: every field is bound, and
    no field can run into the next. *)
Theorem match_key_binds a b :
  match_key a = match_key b -> a = b \/ sha256_collides (identity_message a) (identity_message b).
Proof.
  unfold match_key. intros [E | Hc]%sha256_hex_eq; [left | by right].
  by apply identity_fields_inj, json_string_array_inj.
Qed.

(** The bytes a vector fingerprint is the digest of. *)
Definition vector_message (values : list f32) : list N :=
  concat (map (fun value => u32_to_be_bytes (f32_to_bits (canonical_zero value))) values).

Lemma canonical_zero_valid x : valid_f32 x = true -> valid_f32 (canonical_zero x) = true.
Proof. unfold canonical_zero. by destruct (is_zero x). Qed.

Lemma vector_message_inj a b :
  Forall (fun x => valid_f32 x = true) a -> Forall (fun x => valid_f32 x = true) b ->
  vector_message a = vector_message b -> map canonical_zero a = map canonical_zero b.
Proof.
  unfold vector_message. revert b.
  induction a as [|x a IH]; intros [|y b] Ha Hb; simpl; try done.
  apply Forall_cons in Ha as [Hx Ha]. apply Forall_cons in Hb as [Hy Hb].
  intros E. injection E as E3 E2 E1 E0 E. f_equal; [|by apply IH].
  apply canonical_zero_valid in Hx, Hy. apply f32_to_bits_inj; [done..|].
  apply u32_to_be_bytes_inj; [by apply f32_to_bits_range..|]. unfold u32_to_be_bytes. congruence.
Qed.

(** Vectors that are equal up to the sign of zeros have one fingerprint,
    and vectors with one fingerprint are equal up to the sign of zeros unless
    their own byte strings are a SHA-256 collision. *)
Theorem embedding_sha256_binds a b :
  Forall (fun x => valid_f32 x = true) a -> Forall (fun x => valid_f32 x = true) b ->
  (map canonical_zero a = map canonical_zero b -> embedding_sha256 a = embedding_sha256 b) /\
  (embedding_sha256 a = embedding_sha256 b ->
   map canonical_zero a = map canonical_zero b \/
   sha256_collides (vector_message a) (vector_message b)).
Proof.
  intros Ha Hb. unfold embedding_sha256. split.
  - intros E. do 3 f_equal. rewrite <-!(map_map canonical_zero (fun x => u32_to_be_bytes (f32_to_bits x))).
    by rewrite E.
  - intros [E | Hc]%sha256_hex_eq; [left | by right]. by apply vector_message_inj.
Qed.
End Identities.

(** ** Rule embeddings are immutable *)
Section Upsert.
Context `{UuidLib, DigestLaws, InterfacesLib, PgLib, Deployment}.

(** The stored row an upsert answers with when its model space is taken. *)
Definition taken_by (tenant : Uuid) (rule : RuleRow) (revision : RuleRevisionRow)
    (row e : RuleEmbeddingRow) : bool :=
  bool_decide (re_alert_rule_revision_id e = rr_id revision) &&
  bool_decide (re_alert_rule_id e = ru_id rule) && bool_decide (re_tenant_id e = tenant) &&
  bool_decide (re_model e = re_model row) && bool_decide (re_model_version e = re_model_version row) &&
  bool_decide (re_dimensions e = re_dimensions row) &&
  bool_decide (re_normalization e = re_normalization row).

Definition receipt_of (row : RuleEmbeddingRow) (created : bool) : AlertRuleEmbeddingReceipt := {|
  rc_id := re_id row; rc_alert_rule_id := re_alert_rule_id row;
  rc_alert_rule_revision_id := re_alert_rule_revision_id row;
  rc_embedding_sha256 := re_embedding_sha256 row; rc_created := created
|}.

(** Requests for one revision and model space. *)
Definition same_space (a b : AlertRuleEmbeddingUpsertRequest) : Prop :=
  au_alert_rule_revision_id a = au_alert_rule_revision_id b /\
  ep_model (au_embedding a) = ep_model (au_embedding b) /\
  ep_model_version (au_embedding a) = ep_model_version (au_embedding b) /\
  ep_dimensions (au_embedding a) = ep_dimensions (au_embedding b) /\
  ep_normalization (au_embedding a) = ep_normalization (au_embedding b).

Definition request_sha256 (request : AlertRuleEmbeddingUpsertRequest) : str :=
  embedding_sha256 (ep_values (au_embedding request)).

(** Requests [pgvector] accepts. *)
Definition acceptable (request : AlertRuleEmbeddingUpsertRequest) : Prop :=
  upsert_validate request = Ok tt /\
  is_Some (vector_in (vector_literal (ep_values (au_embedding request)))).

Lemma embedding_sha256_text values : is_sha256_text (embedding_sha256 values) = true.
Proof.
  unfold is_sha256_text, embedding_sha256.
  destruct (hex_encode_text _ (sha256_bytes (vector_message values))) as [Hl Hh].
  unfold vector_message in *. by rewrite Hl, Hh, sha256_length.
Qed.

Lemma insert_rule_embedding_ok s db row inserted db' :
  insert_rule_embedding s db row = Ok (inserted, db') ->
  rule_embedding_policy s db (re_tenant_id row) (re_alert_rule_id row) = true /\
  rule_embedding_check row = true /\ inserted = negb (existsb (same_rule_embedding_key row) (rule_embeddings db)) /\
  db' = if inserted then set_rule_embeddings (fun l => l ++ [row]) db else db.
Proof.
  unfold insert_rule_embedding. intros Hi. inv_ok. bool_prop.
  destruct (existsb _ (rule_embeddings db)); inv_ok; by simplify_eq.
Qed.

Lemma no_settings_policy db tenant rule_id :
  rule_embedding_policy no_settings db tenant rule_id = bypass_rls.
Proof. unfold rule_embedding_policy. simpl. by rewrite orb_false_r. Qed.

Lemma visible_rule_embeddings_no_settings db :
  visible_rule_embeddings no_settings db = if bypass_rls then rule_embeddings db else [].
Proof.
  unfold visible_rule_embeddings. destruct bypass_rls eqn:Eb.
  - apply filter_all. intros. by rewrite no_settings_policy.
  - apply filter_none. intros. by rewrite no_settings_policy.
Qed.

(** What a successful upsert did. *)
Record upserted (tenant rule_id : Uuid) (request : AlertRuleEmbeddingUpsertRequest)
    (db db' : Database) (receipt : AlertRuleEmbeddingReceipt)
    (row e : RuleEmbeddingRow) (ru : RuleRow) (rev : RuleRevisionRow) : Prop := {
  up_bypass : bypass_rls = true;
  up_valid : acceptable request;
  up_texts : texts_ok [ep_model (au_embedding request); ep_model_version (au_embedding request)] = true;
  up_target : exists rest, upsert_target no_settings db tenant rule_id
    (au_alert_rule_revision_id request) (ep_model (au_embedding request)) = (ru, rev) :: rest;
  up_row : exists id vector generated now, row =
    upsert_row id tenant ru rev (au_embedding request) vector (request_sha256 request) generated now;
  up_check : rule_embedding_check row = true;
  up_receipt : receipt = receipt_of e (negb (existsb (same_rule_embedding_key row) (rule_embeddings db)));
  up_sha : re_embedding_sha256 e = request_sha256 request;
  up_tables : if existsb (same_rule_embedding_key row) (rule_embeddings db)
    then head (List.filter (taken_by tenant ru rev row) (rule_embeddings db)) = Some e /\ db' = db
    else e = row /\ db' = set_rule_embeddings (fun l => l ++ [row]) db
}.

Lemma upsert_ok tenant rule_id request w receipt w' :
  upsert_alert_rule_embedding tenant rule_id request w = (Ok receipt, w') ->
  exists row e ru rev, upserted tenant rule_id request (w_db w) (w_db w') receipt row e ru rev.
Proof.
  unfold upsert_alert_rule_embedding, autocommit, with_transaction, utc_now, throw, lift, execute,
    mbind, M_bind, mret, M_ret.
  destruct (upsert_validate request) as [[]|] eqn:Ev; simpl; [|discriminate].
  unfold upsert_statement, upsert_statement_at.
  destruct (texts_ok _) eqn:Et; simpl; [|discriminate].
  destruct (vector_in _) as [vector|] eqn:Evec; simpl; [|discriminate].
  destruct (upsert_target _ _ _ _ _ _) as [|[ru rev] rest] eqn:Etg; simpl; [discriminate|].
  destruct (insert_rule_embedding _ _ _) as [[inserted db']|] eqn:Ei; simpl; [|discriminate].
  apply insert_rule_embedding_ok in Ei as (Hp & Hc & -> & ->).
  rewrite no_settings_policy in Hp. rewrite visible_rule_embeddings_no_settings, Hp.
  set (row := upsert_row _ _ _ _ _ _ _ _ _) in *.
  intros Hrun. exists row.
  destruct (existsb (same_rule_embedding_key row) (rule_embeddings (w_db w))) eqn:Ek; simpl in Hrun.
  - change (List.filter _ (rule_embeddings (w_db w))) with
      (List.filter (taken_by tenant ru rev row) (rule_embeddings (w_db w))) in Hrun.
    destruct (head _) as [e|] eqn:Eh; simpl in Hrun; [|discriminate].
    case_bool_decide as Hsha; [discriminate|]. simplify_eq/=.
    exists e, ru, rev. constructor; rewrite ?Ek; eauto; [].
    by split.
  - case_bool_decide as Hsha; [discriminate|]. simplify_eq/=.
    exists row, ru, rev. constructor; rewrite ?Ek; eauto; [].
    by split.
Qed.

(** Once its model space is taken, an upsert only compares fingerprints. *)
Lemma upsert_taken tenant rule_id request w ru rev rest e :
  bypass_rls = true -> acceptable request ->
  texts_ok [ep_model (au_embedding request); ep_model_version (au_embedding request)] = true ->
  upsert_target no_settings (w_db w) tenant rule_id (au_alert_rule_revision_id request)
    (ep_model (au_embedding request)) = (ru, rev) :: rest ->
  (forall id vector generated now,
     let row := upsert_row id tenant ru rev (au_embedding request) vector (request_sha256 request)
                  generated now in
     rule_embedding_check row = true /\
     existsb (same_rule_embedding_key row) (rule_embeddings (w_db w)) = true /\
     head (List.filter (taken_by tenant ru rev row) (rule_embeddings (w_db w))) = Some e) ->
  exists w', w_db w' = w_db w /\
    upsert_alert_rule_embedding tenant rule_id request w =
    (if bool_decide (re_embedding_sha256 e = request_sha256 request)
     then Ok (receipt_of e false)
     else Err (Http.conflict
       (lit "an immutable embedding already exists for this alert revision and model space")), w').
Proof.
  intros Hb [Hv [vector Hvec]] Ht Htg Hrow.
  unfold upsert_alert_rule_embedding, autocommit, with_transaction, utc_now, throw, lift, execute,
    mbind, M_bind, mret, M_ret. rewrite Hv. cbn [map_err].
  unfold upsert_statement, upsert_statement_at. rewrite Ht, Hvec. simpl. rewrite Htg. cbn [negb].
  specialize (Hrow (uuid_draw (w_draws w)) vector (clock (w_ticks w)) (clock (S (w_ticks w)))).
  set (row := upsert_row _ _ _ _ _ _ _ _ _) in *. destruct Hrow as (Hc & Hk & Hh).
  unfold insert_rule_embedding. rewrite no_settings_policy, Hb. cbn [negb].
  fold (request_sha256 request). fold row. rewrite Hc, Hk. simpl.
  rewrite visible_rule_embeddings_no_settings, Hb.
  change (List.filter _ (rule_embeddings (w_db w))) with
    (List.filter (taken_by tenant ru rev row) (rule_embeddings (w_db w))).
  rewrite Hh. simpl. rewrite bool_decide_not.
  case_bool_decide as E; simpl; (eexists; split; [|reflexivity]); done.
Qed.

Lemma taken_by_key tenant ru rev id embedding vector sha generated now e :
  let row := upsert_row id tenant ru rev embedding vector sha generated now in
  taken_by tenant ru rev row e = true -> same_rule_embedding_key row e = true.
Proof.
  unfold taken_by, same_rule_embedding_key. simpl. intros Ht. bool_prop.
  rewrite !bool_decide_eq_true_2 by congruence. done.
Qed.

(** The row that answers a successful upsert, in the tables afterwards. *)
Lemma upserted_taken tenant rule_id request db db' receipt row e ru rev :
  upserted tenant rule_id request db db' receipt row e ru rev ->
  existsb (same_rule_embedding_key row) (rule_embeddings db') = true /\
  head (List.filter (taken_by tenant ru rev row) (rule_embeddings db')) = Some e /\
  taken_by tenant ru rev row e = true.
Proof.
  intros [_ _ _ _ (id & vector & generated & now & Hrow) _ _ _ Ht].
  destruct (existsb _ (rule_embeddings db)) eqn:Ek.
  - destruct Ht as [Hh ->]. split; [done|]. split; [done|].
    by apply head_Some_elem_of, elem_of_filter_bool in Hh as [_ Hh].
  - destruct Ht as [-> ->]. simpl. rewrite existsb_app, List.filter_app, (filter_none _ (rule_embeddings db)).
    + subst row. simpl. unfold taken_by, same_rule_embedding_key. simpl.
      rewrite !bool_decide_eq_true_2 by done. split; [by rewrite orb_true_r | done].
    + intros x Hx. apply not_true_is_false. intros Hk. rewrite Hrow in Hk. apply taken_by_key in Hk.
      rewrite <-Hrow in Hk. apply existsb_false_Forall in Ek. rewrite Forall_forall in Ek.
      specialize (Ek x Hx). congruence.
Qed.

Lemma upsert_target_head s db tenant rule_id revision_id model ru rev rest :
  upsert_target s db tenant rule_id revision_id model = (ru, rev) :: rest ->
  ru_id ru = rule_id /\ rr_id rev = revision_id /\ ru_tenant_id ru = tenant /\ rr_enabled rev = true.
Proof.
  intros E. assert ((ru, rev) ∈ (ru, rev) :: rest) as Hx by left. rewrite <-E in Hx.
  apply elem_of_filter_bool in Hx as [_ Hx]. by bool_prop.
Qed.

(** C22: the embedding of a rule revision in a model space is written once.
    After a successful upsert the table has exactly the answered row more, or
    is unchanged; and from then on any acceptable request for that revision
    and model space leaves the tables as they are and is answered with the
    same row when its vector has the same fingerprint, and with a 409
    otherwise. *)
Theorem upsert_immutable tenant rule_id request w receipt w1 :
  upsert_alert_rule_embedding tenant rule_id request w = (Ok receipt, w1) ->
  (exists e, e ∈ rule_embeddings (w_db w1) /\ receipt = receipt_of e (rc_created receipt) /\
     re_tenant_id e = tenant /\ re_alert_rule_id e = rule_id /\
     re_alert_rule_revision_id e = au_alert_rule_revision_id request /\
     re_embedding_sha256 e = request_sha256 request /\
     w_db w1 = if rc_created receipt then set_rule_embeddings (fun l => l ++ [e]) (w_db w)
               else w_db w) /\
  forall request' w2, w_db w2 = w_db w1 -> same_space request request' -> acceptable request' ->
    exists w3, w_db w3 = w_db w2 /\
      upsert_alert_rule_embedding tenant rule_id request' w2 =
      (if bool_decide (request_sha256 request = request_sha256 request')
       then Ok {| rc_id := rc_id receipt; rc_alert_rule_id := rc_alert_rule_id receipt;
                  rc_alert_rule_revision_id := rc_alert_rule_revision_id receipt;
                  rc_embedding_sha256 := rc_embedding_sha256 receipt; rc_created := false |}
       else Err (Http.conflict
         (lit "an immutable embedding already exists for this alert revision and model space")), w3).
Proof.
  intros (row & e & ru & rev & Hup)%upsert_ok.
  destruct (upserted_taken _ _ _ _ _ _ _ _ _ _ Hup) as (Hk & Hh & Hte).
  pose proof Hup as [Hb _ Htx [rest Htg] (id & vector & generated & now & Hrow) Hc -> Hsha Htab].
  pose proof (upsert_target_head _ _ _ _ _ _ _ _ _ Htg) as (Hi & Hr & Ht & _).
  split.
  - exists e. apply head_Some_elem_of, elem_of_filter_bool in Hh as [Hin _].
    unfold taken_by in Hte. bool_prop. simpl. repeat (split; [congruence || done|]).
    destruct (existsb _ (rule_embeddings (w_db w))); simpl; [apply Htab|].
    destruct Htab as [-> Htab]. exact Htab.
  - intros request' w2 Hw2 (Hs1 & Hs2 & Hs3 & Hs4 & Hs5) Hacc.
    rewrite <-Hsha. apply (upsert_taken _ _ _ _ ru rev rest); [done | done | congruence | |].
    + rewrite Hw2, <-Hs1, <-Hs2, <-Htg.
      destruct (existsb _ (rule_embeddings (w_db w))); by destruct Htab as [_ ->].
    + intros id' vector' generated' now'. cbv zeta. rewrite Hw2.
      rewrite Hrow in Hc, Hk, Hh. clear -H1 Hc Hk Hh Hs2 Hs3 Hs4 Hs5.
      unfold rule_embedding_check, same_rule_embedding_key, taken_by, upsert_row in *. cbn in *.
      rewrite <-Hs2, <-Hs3, <-Hs4, <-Hs5. unfold request_sha256 in *.
      rewrite embedding_sha256_text in *. done.
Qed.
End Upsert.

(** ** A small deployment *)
Module ReverseExample.
Import SampleUuid SampleDigest.
(** The connection is exempt from row-level security, every payload is valid
    and every vector is parallel to every other. *)
#[export] Instance deployment : Deployment :=
  {| uuid_draw n := uuid_from_u128 (1000 + N.of_nat n); clock n := Z.of_nat n; bypass_rls := true |}.
#[export] Instance pg_lib : PgLib := {|
  pg_timestamptz t := t; f32_display _ := lit "1"; vector_in s := Some (map (fun _ => f32_one) s);
  cosine_distance _ _ := Some fzero; json_f64 x := if is_finite x then Some x else None;
  json_f32 x := if is_finite x then Some x else None
|}.
#[export] Instance interfaces_lib : InterfacesLib := {|
  embedding_validate _ := Ok tt; page_validate _ := Ok tt; create_source_validate _ := Ok tt;
  search_validate _ := Ok tt
|}.
Definition tenant : Uuid := uuid_from_u128 1.
Definition source_id : Uuid := uuid_from_u128 2.
Definition rule_id : Uuid := uuid_from_u128 3.
Definition revision_id : Uuid := uuid_from_u128 4.
Definition model : str := lit "text-embedding-v1".
Definition rule : RuleRow := {|
  ru_id := rule_id; ru_tenant_id := tenant; ru_owner_subject := lit "user-1";
  ru_active_revision_id := Some revision_id; ru_created_at := 0; ru_updated_at := 0 |}.
Definition revision : RuleRevisionRow := {|
  rr_id := revision_id; rr_tenant_id := tenant; rr_alert_rule_id := rule_id; rr_revision_number := 1;
  rr_created_by_subject := lit "user-1"; rr_name := lit "Launches"; rr_query_text := lit "renewable";
  rr_embedding_model := model; rr_similarity_threshold := f32_one; rr_source_filters := [];
  rr_delivery_channels := []; rr_enabled := true; rr_created_at := 0 |}.
Definition source : SourceRow := {|
  so_id := source_id; so_tenant_id := tenant; so_name := lit "News"; so_root_url := lit "u";
  so_allowed_hosts := [lit "h"]; so_allowed_path_prefixes := [lit "/"];
  so_include_subdomains := false; so_discovery_modes := [Manual]; so_crawl_interval_seconds := 60;
  so_max_depth := 1; so_max_pages_per_run := 1; so_obey_robots := true; so_enabled := true;
  so_created_at := 0; so_updated_at := 0 |}.
Definition world : World := {|
  w_db := {| sources := [source]; pages := []; page_revisions := []; embeddings := [];
             rules := [rule]; rule_revisions := [revision]; rule_embeddings := []; candidates := [] |};
  w_draws := 0; w_ticks := 0; w_now := 0; w_settings := no_settings |}.
Definition payload (x : f32) : EmbeddingPayload := {|
  ep_model := model; ep_model_version := lit "1"; ep_dimensions := 1; ep_normalization := L2;
  ep_values := [x] |}.
Definition request (x : f32) : AlertRuleEmbeddingUpsertRequest :=
  {| au_alert_rule_revision_id := revision_id; au_embedding := payload x |}.
(** The answer to registering the embedding, and the world afterwards. *)
Definition registered := upsert_alert_rule_embedding tenant rule_id (request f32_one) world.
Definition receipt : AlertRuleEmbeddingReceipt := receipt_of
  (upsert_row (uuid_draw 0) tenant rule revision (payload f32_one) (map (fun _ => f32_one) (lit "[1]"))
     (request_sha256 (request f32_one)) 0 1) true.
Definition identity : MatchIdentity := {|
  mi_tenant_id := tenant; mi_alert_rule_id := rule_id; mi_alert_rule_revision_id := revision_id;
  mi_page_revision_id := source_id; mi_content_sha256 := lit "c"; mi_model := model;
  mi_model_version := lit "1"; mi_dimensions := 1; mi_normalization := L2 |}.
End ReverseExample.
Import SampleUuid SampleDigest ReverseExample.

Lemma match_key_binds_witness :
  match_key identity = match_key identity /\
  (identity = identity \/ sha256_collides (identity_message identity) (identity_message identity)).
Proof. split; [reflexivity | apply (match_key_binds identity identity eq_refl)]. Defined.

Lemma embedding_sha256_binds_witness :
  embedding_sha256 [S754_zero true] = embedding_sha256 [S754_zero false].
Proof.
  apply (embedding_sha256_binds [S754_zero true] [S754_zero false]);
    [by repeat constructor | by repeat constructor | reflexivity].
Defined.

Lemma registered_run : exists w1, registered = (Ok receipt, w1).
Proof. exists (snd registered). vm_compute. reflexivity. Qed.

Lemma upsert_immutable_witness :
  exists w1 w2, registered = (Ok receipt, w1) /\
    upsert_alert_rule_embedding tenant rule_id (request (S754_zero false)) w1 =
    (Err (Http.conflict
       (lit "an immutable embedding already exists for this alert revision and model space")), w2).
Proof.
  destruct registered_run as [w1 E]. exists w1.
  destruct (upsert_immutable tenant rule_id (request f32_one) world receipt w1 E) as [_ Hre].
  destruct (Hre (request (S754_zero false)) w1 eq_refl) as (w2 & _ & E2);
    [by repeat split | split; [done | by eexists] |].
  exists w2. split; [exact E | exact E2].
Defined.
