(* ===== verification/ReverseIngestSpec.v ===== *)
(** * What ingesting a page guarantees ([src/reverse_match.rs])

    A page is recorded and matched atomically, only its tenant's pages change
    and evidence is only appended; matches come from the tenant's enabled
    active rules whose source scope admits the page; and repeating a request
    repeats the answer. *)

From stdpp Require Import strings.
From S2P Require Import Prelude Ordered RustStr Floats Externals Samples HttpError.
From S2P Require Import Database AlertStore AlertStoreSpec ReverseMatch.
From S2P Require Import ReverseMatchSpec.

(** ** The page phase *)
Section PagePhase.
Context `{UuidLib, DigestLib, InterfacesLib, PgLib, Deployment}.
Context (tenant source : Uuid) (request : ReverseAlertPageRequest) (original_url final_url : str).

Definition request_content : str := normalize_content (rp_content_text request).
Definition request_content_sha256 : str := sha256_hex (as_bytes request_content).

Definition page_texts : list str :=
  [final_url; original_url; default [] (rp_title request); request_content;
   request_content_sha256; rp_content_type request].

(** The stored revisions of a page with the request's content. *)
Definition same_content (page_id : Uuid) (v : PageRevisionRow) : bool :=
  bool_decide (pv_page_id v = page_id) && bool_decide (pv_tenant_id v = tenant) &&
  bool_decide (pv_content_sha256 v = request_content_sha256).

Definition revision_row (page_id : Uuid) (predecessor : option Uuid) (id : Uuid) (now : Timestamp)
    : PageRevisionRow := {|
  pv_id := id; pv_tenant_id := tenant; pv_page_id := page_id;
  pv_predecessor_revision_id := predecessor;
  pv_original_url := original_url; pv_final_url := final_url;
  pv_title := nullif_empty (default [] (rp_title request)); pv_content_text := request_content;
  pv_content_sha256 := request_content_sha256; pv_content_type := rp_content_type request;
  pv_http_status := as_i16 (Z.of_N (rp_http_status request));
  pv_published_at := pg_timestamptz <$> rp_published_at request;
  pv_fetched_at := pg_timestamptz (rp_fetched_at request); pv_created_at := now |}.

(** The page and the revision that hold the request's content. *)
Record page_recorded (db : Database) (page : PageWire) : Prop := {
  pr_texts : texts_ok page_texts = true;
  pr_check : forall predecessor id now,
    page_revision_check (revision_row (pw_page_id page) predecessor id now) = true;
  pr_sha : pw_content_sha256 page = request_content_sha256;
  pr_page : exists p, head (List.filter (same_page tenant source final_url) (pages db)) = Some p /\
    pg_id p = pw_page_id page /\ pg_latest_revision_id p = Some (pw_page_revision_id page);
  pr_settled : forall x, x ∈ pages db ->
    (same_page tenant source final_url x = true ->
       pg_last_seen_at x = pg_timestamptz (rp_fetched_at request)) /\
    (pg_tenant_id x = tenant -> pg_id x = pw_page_id page ->
       pg_last_seen_at x = pg_timestamptz (rp_fetched_at request) /\
       pg_latest_revision_id x = Some (pw_page_revision_id page));
  pr_revision : exists v,
    head (List.filter (same_content (pw_page_id page)) (page_revisions db)) = Some v /\
    pv_id v = pw_page_revision_id page
}.

(** Tables that differ at most in pages and page revisions. *)
Record pages_differ (db db' : Database) : Prop := {
  pd_sources : sources db' = sources db;
  pd_embeddings : embeddings db' = embeddings db;
  pd_rules : rules db' = rules db;
  pd_rule_revisions : rule_revisions db' = rule_revisions db;
  pd_rule_embeddings : rule_embeddings db' = rule_embeddings db;
  pd_candidates : candidates db' = candidates db
}.

(** The pages that are neither at the request's address nor the page [page_id]. *)
Definition elsewhere (page_id : Uuid) (p : PageRow) : bool :=
  negb (same_page tenant source final_url p) &&
  negb (bool_decide (pg_tenant_id p = tenant) && bool_decide (pg_id p = page_id)).

Lemma upsert_page_ok id fetched_at now db page_id latest db1 :
  upsert_page tenant source final_url id fetched_at now db = Ok (page_id, latest, db1) ->
  pages_differ db db1 /\ page_revisions db1 = page_revisions db /\
  List.filter (elsewhere page_id) (pages db1) = List.filter (elsewhere page_id) (pages db) /\
  (forall x, x ∈ pages db1 -> same_page tenant source final_url x = true ->
     pg_last_seen_at x = fetched_at) /\
  exists p, head (List.filter (same_page tenant source final_url) (pages db1)) = Some p /\
    pg_id p = page_id.
Proof.
  unfold upsert_page.
  destruct (List.filter (same_page tenant source final_url) (pages db)) as [|p rest] eqn:Ef.
  - intros Hok. inv_ok. simplify_eq. split; [done|]. split; [done|]. simpl.
    set (new := {| pg_id := page_id |}). assert (same_page tenant source final_url new = true) as Hn
      by (unfold same_page; simpl; by rewrite !bool_decide_eq_true_2).
    repeat split.
    + assert (elsewhere page_id new = false) as Ho by (unfold elsewhere; by rewrite Hn).
      rewrite List.filter_app. cbn [List.filter]. by rewrite Ho, app_nil_r.
    + intros x [Hx | ->%list_elem_of_singleton]%elem_of_app Hs; [|done].
      assert (x ∈ @nil PageRow) as Hn'; [|by apply elem_of_nil in Hn'].
      rewrite <-Ef. by apply elem_of_filter_bool.
    + exists new. rewrite List.filter_app, Ef. simpl. by rewrite Hn.
  - intros Hok. injection Hok as <- <- <-. split; [done|]. split; [done|]. simpl.
    assert (forall x, same_page tenant source final_url (seen_page fetched_at now x) =
      same_page tenant source final_url x) as Hs by done.
    split; [|split].
    + apply filter_map_unreached; [done|]. intros x Hx. unfold elsewhere in Hx. by bool_prop.
    + intros x (y & -> & _)%list_elem_of_fmap. by destruct (same_page tenant source final_url y) eqn:Ey;
        rewrite ?Hs, ?Ey.
    + rewrite filter_map_preserve by (intros x; by destruct (same_page tenant source final_url x) eqn:E).
      rewrite Ef. simpl. assert (same_page tenant source final_url p = true) as ->; [|eauto].
      assert (p ∈ p :: rest) as Hp by left. rewrite <-Ef in Hp.
      by apply elem_of_filter_bool in Hp as [_ Hp].
Qed.

Lemma head_same_page p l :
  head (List.filter (same_page tenant source final_url) l) = Some p ->
  p ∈ l /\ pg_tenant_id p = tenant.
Proof.
  intros [Hp Hs]%head_Some_elem_of%elem_of_filter_bool. split; [done|].
  unfold same_page in Hs. by bool_prop.
Qed.

Lemma latest_revision_ok page_id revision_id fetched_at now s db draws p :
  head (List.filter (same_page tenant source final_url) (pages db)) = Some p -> pg_id p = page_id ->
  has_page_revision db revision_id = true ->
  exists db', latest_revision_statement tenant page_id revision_id fetched_at now s db draws =
      Ok (tt, db', draws) /\
    pages_differ db db' /\ page_revisions db' = page_revisions db /\
    List.filter (elsewhere page_id) (pages db') = List.filter (elsewhere page_id) (pages db) /\
    (forall x, x ∈ pages db' -> exists y, y ∈ pages db /\
       x = if bool_decide (pg_tenant_id y = tenant) && bool_decide (pg_id y = page_id)
           then with_latest revision_id (pg_timestamptz fetched_at) now y else y) /\
    head (List.filter (same_page tenant source final_url) (pages db')) =
      Some (with_latest revision_id (pg_timestamptz fetched_at) now p).
Proof.
  intros Hp Hi Hr. unfold latest_revision_statement. rewrite Hr, andb_false_r.
  eexists. split; [reflexivity|]. split; [done|]. split; [done|]. simpl.
  set (reached := fun x => bool_decide (pg_tenant_id x = tenant) && bool_decide (pg_id x = page_id)).
  split; [|split].
  - apply (filter_map_unreached reached); [done|]. intros x Hx. unfold elsewhere in Hx. by bool_prop.
  - intros x (y & -> & Hy)%list_elem_of_fmap. by exists y.
  - rewrite (filter_map_preserve _ (fun x => if reached x then _ x else x))
      by (intros x; by destruct (reached x)).
    destruct (head_same_page _ _ Hp) as [_ Ht].
    destruct (List.filter _ _); [done|]. simpl in *. injection Hp as ->.
    unfold reached. by rewrite !bool_decide_eq_true_2.
Qed.

Lemma page_statement_ok now s db draws page db' draws' :
  page_statement tenant source request original_url final_url request_content
    request_content_sha256 now s db draws = Ok (Some page, db', draws') ->
  pages_differ db db' /\
  List.filter (elsewhere (pw_page_id page)) (pages db') =
    List.filter (elsewhere (pw_page_id page)) (pages db) /\
  texts_ok page_texts = true /\
  (forall predecessor id now, page_revision_check (revision_row (pw_page_id page) predecessor id now) = true) /\
  pw_content_sha256 page = request_content_sha256 /\
  (forall x, x ∈ pages db' -> same_page tenant source final_url x = true ->
     pg_last_seen_at x = pg_timestamptz (rp_fetched_at request)) /\
  (exists p, head (List.filter (same_page tenant source final_url) (pages db')) = Some p /\
     pg_id p = pw_page_id page) /\
  (exists v, head (List.filter (same_content (pw_page_id page)) (page_revisions db')) = Some v /\
     pv_id v = pw_page_revision_id page) /\
  exists predecessor, page_revisions db' = page_revisions db ++
    (if pw_changed page
     then [revision_row (pw_page_id page) predecessor (pw_page_revision_id page) now] else []).
Proof.
  unfold page_statement, page_statement_at. fold page_texts. intros Hst. inv_ok. bool_prop.
  destruct a as [[page_id latest] db1]. apply upsert_page_ok in Ha as (Hd & Hr & Ho & Hs & Hp).
  apply bind_ok in Hst as ([inserted db2] & Hins & Hst).
  change (insert_page_revision db1 (revision_row page_id latest (uuid_draw (S draws)) now) =
    Ok (inserted, db2)) in Hins.
  set (row := revision_row page_id latest (uuid_draw (S draws)) now) in *.
  unfold insert_page_revision in Hins. inv_ok. bool_prop.
  destruct (existsb (same_page_revision_key row) (page_revisions db1)) eqn:Ek; inv_ok; simplify_eq/=.
  - change (List.filter _ (page_revisions db)) with
      (List.filter (same_content page_id) (page_revisions db)) in Hst.
    destruct (head (List.filter (same_content page_id) _)) as [v|] eqn:Eh; simplify_eq/=.
    repeat (split; [by eauto|]). split; [rewrite Hr; by eauto|].
    exists None. by rewrite Hr, app_nil_r.
  - assert (same_content page_id row = true) as Hrow
      by (unfold same_content; simpl; by rewrite !bool_decide_eq_true_2).
    split; [destruct Hd; by constructor|].
    repeat (split; [by eauto|]). split; [|by exists latest; rewrite Hr].
    exists row. split; [|done]. rewrite List.filter_app. cbn [List.filter]. rewrite Hrow.
    rewrite (filter_none _ (page_revisions db1)); [done|]. intros v Hv.
    apply existsb_false_Forall in Ek. rewrite Forall_forall in Ek. specialize (Ek v Hv).
    apply not_true_is_false. intros Hc. unfold same_content in Hc. bool_prop.
    unfold same_page_revision_key in Ek. simpl in Ek.
    by rewrite !bool_decide_eq_true_2 in Ek by congruence.
Qed.

Lemma upsert_page_revision_ok w page w' :
  upsert_page_revision tenant source request original_url final_url w = (Ok page, w') ->
  pages_differ (w_db w) (w_db w') /\ w_settings w' = w_settings w /\ page_recorded (w_db w') page /\
  List.filter (elsewhere (pw_page_id page)) (pages (w_db w')) =
    List.filter (elsewhere (pw_page_id page)) (pages (w_db w)) /\
  exists predecessor now, page_revisions (w_db w') = page_revisions (w_db w) ++
    (if pw_changed page
     then [revision_row (pw_page_id page) predecessor (pw_page_revision_id page) now] else []).
Proof.
  unfold upsert_page_revision. fold request_content. fold request_content_sha256.
  rewrite M_bind_run. unfold execute at 1.
  destruct (page_statement _ _ _ _ _ _ _ _ _ _ _) as [[[[found|] db1] draws]|] eqn:Est; [|discriminate..].
  apply page_statement_ok in Est as (Hd & Ho & Htx & Hck & Hsha & Hseen & (p & Hp & Hpi) & Hv & pre & Hrev).
  rewrite M_bind_run. cbn [lift ok_or].
  rewrite M_bind_run. unfold execute. cbn [w_now w_settings w_db w_draws].
  destruct (latest_revision_ok (pw_page_id found) (pw_page_revision_id found) (rp_fetched_at request)
    (w_now w) (w_settings w) db1 draws p Hp Hpi) as (db2 & -> & Hd2 & Hr2 & Ho2 & Hst & Hh).
  { destruct Hv as (v & [Hin _]%head_Some_elem_of%elem_of_filter_bool & Hvi).
    apply (existsb_member _ _ v); [done|]. by apply bool_decide_eq_true_2. }
  intros [= <- <-]. simpl. split; [destruct Hd, Hd2; constructor; congruence|]. split; [done|].
  split; [|split; [congruence|]].
  - constructor; [done | done | done | | |].
    + eexists. split; [exact Hh|]. split; [exact Hpi | done].
    + intros x Hx. destruct (Hst x Hx) as (y & Hy & ->). specialize (Hseen y Hy).
      destruct (bool_decide (pg_tenant_id y = tenant)) eqn:Et, (bool_decide (pg_id y = pw_page_id found)) eqn:Ei;
        simpl; bool_prop; split; auto; congruence.
    + by rewrite Hr2.
  - rewrite Hr2. eauto.
Qed.
(** A page row but for [updated_at]. *)
Definition untimed (p : PageRow) : PageRow := {|
  pg_id := pg_id p; pg_tenant_id := pg_tenant_id p; pg_source_id := pg_source_id p;
  pg_canonical_url := pg_canonical_url p; pg_first_seen_at := pg_first_seen_at p;
  pg_last_seen_at := pg_last_seen_at p; pg_latest_revision_id := pg_latest_revision_id p;
  pg_created_at := pg_created_at p; pg_updated_at := 0
|}.

Definition unchanged (page : PageWire) : PageWire := {|
  pw_page_id := pw_page_id page; pw_page_revision_id := pw_page_revision_id page;
  pw_content_sha256 := pw_content_sha256 page; pw_changed := false
|}.

Lemma map_untimed (f : PageRow -> PageRow) l :
  (forall x, x ∈ l -> untimed (f x) = untimed x) -> map untimed (map f l) = map untimed l.
Proof.
  intros Hf. rewrite map_map. apply map_ext_in. intros x Hx. by apply Hf, list_elem_of_In.
Qed.

Lemma seen_page_untimed now x :
  pg_last_seen_at x = pg_timestamptz (rp_fetched_at request) ->
  untimed (seen_page (pg_timestamptz (rp_fetched_at request)) now x) = untimed x.
Proof. intros E. unfold untimed. simpl. by rewrite E. Qed.

(** Recording a recorded page again: the revision is found, and only
    [updated_at] moves. *)
Lemma page_statement_repeat now s db draws page :
  page_recorded db page ->
  exists db', page_statement tenant source request original_url final_url request_content
      request_content_sha256 now s db draws = Ok (Some (unchanged page), db', S (S draws)) /\
    pages_differ db db' /\ page_revisions db' = page_revisions db /\
    pages db' = map (fun x => if same_page tenant source final_url x
      then seen_page (pg_timestamptz (rp_fetched_at request)) now x else x) (pages db).
Proof.
  intros [Htx Hck Hsha (p & Hp & Hpi & Hpl) _ (v & Hv & Hvi)].
  unfold page_statement, page_statement_at. fold page_texts. rewrite Htx. cbn [negb].
  unfold upsert_page. destruct (List.filter (same_page tenant source final_url) (pages db)) as [|q rest];
    [done|]. injection Hp as ->. cbn [mbind result_bind]. rewrite Hpi.
  change (insert_page_revision _ _) with (insert_page_revision
    (set_pages (map (fun x => if same_page tenant source final_url x
      then seen_page (pg_timestamptz (rp_fetched_at request)) now x else x)) db)
    (revision_row (pw_page_id page) (pg_latest_revision_id p) (uuid_draw (S draws)) now)).
  unfold insert_page_revision. rewrite Hck. cbn [negb].
  assert (existsb (same_page_revision_key (revision_row (pw_page_id page) (pg_latest_revision_id p)
    (uuid_draw (S draws)) now)) (page_revisions db) = true) as Hk.
  { apply head_Some_elem_of, elem_of_filter_bool in Hv as [Hin Hsc].
    apply (existsb_member _ _ v); [done|]. unfold same_content in Hsc. bool_prop.
    unfold same_page_revision_key. simpl. by rewrite !bool_decide_eq_true_2 by congruence. }
  cbn [page_revisions set_pages]. rewrite Hk. cbn [mbind result_bind].
  change (List.filter _ (page_revisions db)) with
    (List.filter (same_content (pw_page_id page)) (page_revisions db)). rewrite Hv. simpl.
  eexists. split; [unfold unchanged; by rewrite Hvi, Hsha|]. done.
Qed.

Lemma upsert_page_revision_repeat w page :
  page_recorded (w_db w) page ->
  exists w', upsert_page_revision tenant source request original_url final_url w =
      (Ok (unchanged page), w') /\
    pages_differ (w_db w) (w_db w') /\ page_revisions (w_db w') = page_revisions (w_db w) /\
    map untimed (pages (w_db w')) = map untimed (pages (w_db w)) /\ w_settings w' = w_settings w.
Proof.
  intros Hrec. pose proof Hrec as [_ _ _ _ Hset (v & Hv & Hvi)].
  unfold upsert_page_revision. fold request_content. fold request_content_sha256.
  rewrite M_bind_run. unfold execute at 1.
  destruct (page_statement_repeat (w_now w) (w_settings w) (w_db w) (w_draws w) page Hrec)
    as (db1 & -> & Hd1 & Hr1 & Hp1).
  rewrite M_bind_run. cbn [lift ok_or]. rewrite M_bind_run. unfold execute.
  cbn [w_now w_settings w_db w_draws].
  unfold latest_revision_statement. cbn [pw_page_revision_id pw_page_id unchanged].
  assert (has_page_revision db1 (pw_page_revision_id page) = true) as ->.
  { unfold has_page_revision. rewrite Hr1.
    apply head_Some_elem_of, elem_of_filter_bool in Hv as [Hin _].
    apply (existsb_member _ _ v); [done|]. by apply bool_decide_eq_true_2. }
  rewrite andb_false_r. eexists. split; [reflexivity|]. simpl.
  split; [destruct Hd1; constructor; done|]. split; [done|]. split; [|done].
  rewrite Hp1, (map_map _ _ (pages (w_db w))), map_untimed; [done|]. intros x Hx. destruct (Hset x Hx) as [Hs Hl].
  assert (forall b : bool, pg_tenant_id (if b then seen_page (pg_timestamptz (rp_fetched_at request)) (w_now w) x else x) = pg_tenant_id x /\
    pg_id (if b then seen_page (pg_timestamptz (rp_fetched_at request)) (w_now w) x else x) = pg_id x) as He by by intros [].
  destruct (He (same_page tenant source final_url x)) as [-> ->].
  destruct (bool_decide (pg_tenant_id x = tenant)) eqn:Et, (bool_decide (pg_id x = pw_page_id page)) eqn:Ei;
    cbn [andb]; bool_prop;
    try (destruct (same_page tenant source final_url x) eqn:Es; [by apply seen_page_untimed, Hs | done]).
  destruct (Hl Et Ei) as [Hl1 Hl2]. unfold untimed.
  destruct (same_page tenant source final_url x); simpl; by rewrite Hl1, Hl2.
Qed.
End PagePhase.

(** ** The candidate phase *)
Section CandidatePhase.
Context `{UuidLib, DigestLib, InterfacesLib, PgLib, Deployment}.
Context (tenant : Uuid) (page : PageWire) (request : ReverseAlertPageRequest) (url vector_sha256 : str).

Definition wire_key (candidate : CandidateWire) : str :=
  match_key (candidate_identity tenant page (rp_embedding request) candidate).
Definition wire_explanation (candidate : CandidateWire) : Explanation :=
  explanation_of page (rp_embedding request) url vector_sha256 candidate.
Definition wire_row (candidate : CandidateWire) (id : Uuid) (now : Timestamp) : CandidateRow :=
  reverse_row id tenant (pw_page_revision_id page) request vector_sha256 candidate
    (wire_key candidate) (wire_explanation candidate) now.
Definition wire_texts (candidate : CandidateWire) : list str :=
  [vector_sha256; ep_model (rp_embedding request); ep_model_version (rp_embedding request);
   wire_key candidate; pw_content_sha256 page] ++ evidence_texts (wire_explanation candidate).
Definition kept (candidate : CandidateWire) : bool :=
  is_finite (cw_similarity candidate) && negb (flt (cw_similarity candidate) (cw_threshold candidate)).

Definition has_content (db : Database) (revision_id : Uuid) : bool :=
  existsb (fun v => bool_decide (pv_tenant_id v = tenant) && bool_decide (pv_id v = revision_id) &&
    bool_decide (pv_content_sha256 v = pw_content_sha256 page)) (page_revisions db).

(** The stored row a repeated candidate is answered with. *)
Definition stored (db : Database) (row : CandidateRow) : option CandidateRow :=
  head (List.filter (fun existing =>
    same_reverse_evidence existing row && has_content db (mc_revision_id existing)) (candidates db)).

Record durable_for (db : Database) (candidate : CandidateWire) (d : ReverseAlertCandidate) : Prop := {
  df_texts : texts_ok (wire_texts candidate) = true;
  df_check : forall id now, candidate_check (wire_row candidate id now) = true;
  df_stored : exists c, decode_reverse_candidate c = Ok d /\ c ∈ candidates db /\
    forall id now, stored db (wire_row candidate id now) = Some c
}.

Lemma stored_key db row c : stored db row = Some c -> c ∈ candidates db /\ same_candidate_key row c = true.
Proof.
  intros [Hin Hs]%head_Some_elem_of%elem_of_filter_bool. split; [done|].
  apply andb_prop in Hs as [Hs _]. unfold same_reverse_evidence in Hs. bool_prop.
  unfold same_candidate_key. by rewrite !bool_decide_eq_true_2.
Qed.

Lemma same_evidence_key a b : same_reverse_evidence a b = true -> same_candidate_key b a = true.
Proof.
  unfold same_reverse_evidence, same_candidate_key. intros Hs. bool_prop.
  by rewrite !bool_decide_eq_true_2.
Qed.

Lemma durable_for_grows db new candidate d :
  durable_for db candidate d -> durable_for (set_candidates (fun l => l ++ new) db) candidate d.
Proof.
  intros [Ht Hc (c & Hd & Hin & Hs)]. constructor; [done | done|]. exists c. split; [done|].
  split; [apply elem_of_app; by left|]. intros id now. specialize (Hs id now).
  unfold stored in *. by apply head_filter_app.
Qed.

Lemma set_candidates_nil db : set_candidates (fun l => l ++ []) db = db.
Proof. destruct db. unfold set_candidates. simpl. by rewrite app_nil_r. Qed.

Lemma set_candidates_app db a b :
  set_candidates (fun l => l ++ b) (set_candidates (fun l => l ++ a) db) =
  set_candidates (fun l => l ++ (a ++ b)) db.
Proof. unfold set_candidates. simpl. by rewrite app_assoc. Qed.

Lemma insert_candidate_ok db row inserted db' :
  insert_candidate db row = Ok (inserted, db') ->
  candidate_check row = true /\ inserted = negb (existsb (same_candidate_key row) (candidates db)) /\
  db' = set_candidates (fun l => l ++ if inserted then [row] else []) db.
Proof.
  unfold insert_candidate. intros Hi. inv_ok. bool_prop. split; [done|].
  destruct (existsb (same_candidate_key row) (candidates db)); inv_ok; simplify_eq; [by rewrite set_candidates_nil | done].
Qed.

Lemma fresh_stored db candidate id now id' now' :
  existsb (same_candidate_key (wire_row candidate id now)) (candidates db) = false ->
  has_content db (pw_page_revision_id page) = true ->
  stored (set_candidates (fun l => l ++ [wire_row candidate id now]) db) (wire_row candidate id' now') =
  Some (wire_row candidate id now).
Proof.
  intros Hk Hp. unfold stored. cbn [candidates set_candidates]. rewrite List.filter_app.
  rewrite (filter_none _ (candidates db)).
  - cbn [List.filter app]. change (has_content _ _) with (has_content db (pw_page_revision_id page)).
    rewrite Hp. unfold same_reverse_evidence. simpl. by rewrite !bool_decide_eq_true_2.
  - intros x Hx. apply existsb_false_Forall in Hk. rewrite Forall_forall in Hk. specialize (Hk x Hx).
    apply not_true_is_false. intros [Hs _]%andb_prop. apply same_evidence_key in Hs.
    change (same_candidate_key (wire_row candidate id now) x = true) in Hs. congruence.
Qed.

Definition persist_one (candidate : CandidateWire) : M ReverseAlertCandidate :=
  persist_reverse_candidate tenant (pw_page_revision_id page) (pw_content_sha256 page) request
    vector_sha256 candidate (wire_key candidate) (wire_explanation candidate).

Lemma persist_one_ok candidate w d w' :
  has_content (w_db w) (pw_page_revision_id page) = true ->
  persist_one candidate w = (Ok d, w') ->
  durable_for (w_db w') candidate d /\ w_settings w' = w_settings w /\
  exists new, w_db w' = set_candidates (fun l => l ++ new) (w_db w) /\
    (new = [] \/ exists id now, new = [wire_row candidate id now]).
Proof.
  intros Hp. unfold persist_one, persist_reverse_candidate. rewrite M_bind_run. unfold execute.
  destruct (persist_statement _ _ _ _ _ _ _ _ _ _ _ _) as [[[selected db'] draws]|] eqn:Est;
    [|discriminate].
  unfold persist_statement, persist_statement_at in Est. fold (wire_texts candidate) in Est. inv_ok. bool_prop.
  destruct a as [inserted db1]. rename Ha into Hins. injection Est as Hsel <- <-.
  fold (wire_row candidate (uuid_draw (w_draws w)) (w_now w)) in Hins, Hsel.
  apply insert_candidate_ok in Hins as (Hck & Hin & ->).
  rewrite !M_bind_run. cbn [lift]. destruct selected as [c|]; [|discriminate]. cbn [decode_optional].
  destruct (decode_reverse_candidate c) as [d'|] eqn:Hd; [|discriminate]. cbn.
  intros [= <- <-]. simpl. split; [|split; [done|]].
  - constructor; [done | by intros; exact Hck|]. exists c. split; [done|].
    destruct (existsb _ (candidates (w_db w))) eqn:Ek; subst inserted; cbn [negb] in *.
    + rewrite set_candidates_nil. assert (stored (w_db w) (wire_row candidate (uuid_draw (w_draws w)) (w_now w))
        = Some c) as Hs by exact Hsel.
      split; [by apply stored_key in Hs as [? _] | by intros; exact Hs].
    + injection Hsel as <-. split; [apply elem_of_app; right; left|]. intros. by apply fresh_stored.
  - eexists. split; [reflexivity|]. destruct inserted; [right; eauto | by left].
Qed.

Lemma persist_one_repeat candidate w d :
  durable_for (w_db w) candidate d ->
  exists w', persist_one candidate w = (Ok d, w') /\ w_db w' = w_db w /\ w_settings w' = w_settings w.
Proof.
  intros [Ht Hc (c & Hd & _ & Hs)]. unfold persist_one, persist_reverse_candidate.
  rewrite M_bind_run. unfold execute, persist_statement, persist_statement_at. fold (wire_texts candidate).
  rewrite Ht. cbn [negb].
  fold (wire_row candidate (uuid_draw (w_draws w)) (w_now w)).
  unfold insert_candidate. rewrite Hc. cbn [negb].
  specialize (Hs (uuid_draw (w_draws w)) (w_now w)).
  pose proof (stored_key _ _ _ Hs) as [Hin Hk]. rewrite (existsb_member _ _ c Hin Hk).
  cbn [mbind result_bind]. change (head _) with (stored (w_db w)
    (wire_row candidate (uuid_draw (w_draws w)) (w_now w))). rewrite Hs.
  rewrite !M_bind_run. cbn [lift decode_optional]. rewrite Hd. cbn. eauto.
Qed.
Lemma skip_kept candidate :
  negb (is_finite (cw_similarity candidate)) || flt (cw_similarity candidate) (cw_threshold candidate) =
  negb (kept candidate).
Proof. unfold kept. by rewrite negb_andb, negb_involutive. Qed.

Lemma persist_loop_ok rows w out w' :
  has_content (w_db w) (pw_page_revision_id page) = true ->
  persist_candidates tenant page request url vector_sha256 rows w = (Ok out, w') ->
  w_settings w' = w_settings w /\ Forall2 (durable_for (w_db w')) (List.filter kept rows) out /\
  exists new, w_db w' = set_candidates (fun l => l ++ new) (w_db w) /\
    Forall (fun c => exists candidate id now, candidate ∈ rows /\ kept candidate = true /\
      c = wire_row candidate id now) new.
Proof.
  revert w out w'. induction rows as [|candidate rows IH]; intros w out w' Hp; cbn [persist_candidates].
  { intros [= <- <-]. split; [done|]. split; [done|]. exists []. by rewrite set_candidates_nil. }
  rewrite skip_kept. cbn [List.filter]. destruct (kept candidate) eqn:Ek; cbn [negb].
  - rewrite M_bind_run. fold (wire_key candidate) (wire_explanation candidate) (persist_one candidate).
    destruct (persist_one candidate w) as [[d|] w1] eqn:E1; [|discriminate].
    apply persist_one_ok in E1 as (Hd & Hs1 & new1 & Hdb1 & Hn1); [|done].
    rewrite M_bind_run. destruct (persist_candidates _ _ _ _ _ rows w1) as [[ds|] w2] eqn:E2; [|discriminate].
    apply IH in E2 as (Hs2 & Hds & new2 & Hdb2 & Hn2); [|by rewrite Hdb1].
    intros [= <- <-]. split; [congruence|]. split.
    + constructor; [|done]. rewrite Hdb2. by apply durable_for_grows.
    + exists (new1 ++ new2). rewrite Hdb2, Hdb1, set_candidates_app. split; [done|].
      apply Forall_app. split.
      * destruct Hn1 as [-> | (id & now & ->)]; constructor; [|done].
        exists candidate, id, now. split; [left | done].
      * eapply Forall_impl; [exact Hn2|]. intros c (cand & id & now & Hin & Hk).
        exists cand, id, now. split; [by right | done].
  - intros (Hs & Hds & new & Hdb & Hn)%IH; [|done]. split; [done|]. split; [done|].
    exists new. split; [done|]. eapply Forall_impl; [exact Hn|].
    intros c (cand & id & now & Hin & Hk). exists cand, id, now. split; [by right | done].
Qed.

Lemma persist_loop_repeat rows w out :
  Forall2 (durable_for (w_db w)) (List.filter kept rows) out ->
  exists w', persist_candidates tenant page request url vector_sha256 rows w = (Ok out, w') /\
    w_db w' = w_db w /\ w_settings w' = w_settings w.
Proof.
  revert w out. induction rows as [|candidate rows IH]; intros w out; cbn [persist_candidates List.filter].
  { intros ->%Forall2_nil_inv_l. by exists w. }
  rewrite skip_kept. destruct (kept candidate); cbn [negb]; [|apply IH].
  intros (d & ds & Hd & Hds & ->)%Forall2_cons_inv_l.
  destruct (persist_one_repeat candidate w d Hd) as (w1 & E1 & Hdb1 & Hs1).
  rewrite <-Hdb1 in Hds. destruct (IH w1 ds Hds) as (w2 & E2 & Hdb2 & Hs2).
  exists w2. rewrite M_bind_run.
  fold (wire_key candidate) (wire_explanation candidate) (persist_one candidate).
  rewrite E1, M_bind_run, E2. split; [done|]. split; congruence.
Qed.
End CandidatePhase.

Lemma persist_unchanged `{UuidLib, DigestLib, InterfacesLib, PgLib, Deployment}
    tenant page request url vector_sha256 rows :
  persist_candidates tenant (unchanged page) request url vector_sha256 rows =
  persist_candidates tenant page request url vector_sha256 rows.
Proof. induction rows as [|candidate rows IH]; [done|]. cbn [persist_candidates]. by rewrite IH. Qed.

(** ** The whole operation *)
Section Ingest.
Context `{UuidLib, DigestLib, InterfacesLib, PgLib, Deployment}.
Context (tenant source : Uuid) (request : ReverseAlertPageRequest) (original_url final_url : str).

(** The candidates as a function of the tables. *)
Definition ranked_candidates (s : Settings) (db : Database) : result HttpError (list CandidateWire) :=
  '(rows, _, _) ← map_err db_error (candidate_statement tenant source request 0%Z s db 0);
  mapM decode_candidate rows.

Lemma find_run w :
  find_alert_candidates tenant source request w = (ranked_candidates (w_settings w) (w_db w), w).
Proof.
  unfold find_alert_candidates, ranked_candidates. rewrite M_bind_run. unfold execute, candidate_statement.
  destruct (texts_ok _); [|done]. cbn [negb].
  destruct (vector_in _); [|done]. cbn [ok_or mbind result_bind].
  destruct (mapM _ (eligible_embeddings _ _ _ _ _)); [|done]. by destruct w.
Qed.

Lemma ranked_candidates_tables s db db' :
  rules db' = rules db -> rule_revisions db' = rule_revisions db ->
  rule_embeddings db' = rule_embeddings db -> ranked_candidates s db' = ranked_candidates s db.
Proof.
  intros Hr Hv He. unfold ranked_candidates, candidate_statement.
  assert (visible_rules s db' = visible_rules s db) as Er by (unfold visible_rules; by rewrite Hr).
  assert (visible_rule_revisions s db' = visible_rule_revisions s db) as Ev.
  { unfold visible_rule_revisions. rewrite Hv. apply filter_ext_elem. intros x _.
    unfold revision_policy. by rewrite Er. }
  assert (visible_rule_embeddings s db' = visible_rule_embeddings s db) as Ee.
  { unfold visible_rule_embeddings. rewrite He. apply filter_ext_elem. intros x _.
    unfold rule_embedding_policy. by rewrite Er. }
  assert (eligible_embeddings s db' tenant source (rp_embedding request) =
    eligible_embeddings s db tenant source (rp_embedding request)) as ->
    by (unfold eligible_embeddings; by rewrite Er, Ev, Ee).
  destruct (texts_ok _); [|done]. destruct (vector_in _); [|done]. cbn.
  by destruct (mapM _ _).
Qed.

Definition response (page : PageWire) (out : list ReverseAlertCandidate) : ReverseAlertMatchResponse := {|
  rm_page_id := pw_page_id page; rm_page_revision_id := pw_page_revision_id page;
  rm_content_sha256 := pw_content_sha256 page; rm_changed := pw_changed page;
  rm_page_vector_persisted := false; rm_candidates := out
|}.

Definition request_vector_sha256 : str := embedding_sha256 (ep_values (rp_embedding request)).

(** What a successful run did, phase by phase. *)
Record ingested (db db' : Database) (page : PageWire) (rows : list CandidateWire)
    (out : list ReverseAlertCandidate) : Prop := {
  in_valid : validate request = Ok tt;
  in_ranked : ranked_candidates no_settings db = Ok rows;
  in_pages : pages_differ db (set_candidates (fun _ => candidates db) db');
  in_recorded : page_recorded tenant source request original_url final_url db' page;
  in_others : List.filter (elsewhere tenant source final_url (pw_page_id page)) (pages db') =
    List.filter (elsewhere tenant source final_url (pw_page_id page)) (pages db);
  in_revisions : exists predecessor now, page_revisions db' = page_revisions db ++
    (if pw_changed page
     then [revision_row tenant request original_url final_url (pw_page_id page) predecessor
             (pw_page_revision_id page) now]
     else []);
  in_durable : Forall2 (durable_for tenant page request final_url request_vector_sha256 db')
    (List.filter kept rows) out;
  in_candidates : exists new, candidates db' = candidates db ++ new /\
    Forall (fun c => exists candidate id now, candidate ∈ rows /\ kept candidate = true /\
      c = wire_row tenant page request final_url request_vector_sha256 candidate id now) new
}.

Lemma recorded_content db page :
  page_recorded tenant source request original_url final_url db page ->
  has_content tenant page db (pw_page_revision_id page) = true.
Proof.
  intros [_ _ Hsha _ _ (v & [Hin Hs]%head_Some_elem_of%elem_of_filter_bool & Hvi)].
  unfold same_content in Hs. bool_prop. apply (existsb_member _ _ v); [done|].
  by rewrite !bool_decide_eq_true_2 by congruence.
Qed.

Lemma ingest_ok w resp w' :
  ingest_and_reverse_match tenant source request original_url final_url w = (Ok resp, w') ->
  exists page rows out, ingested (w_db w) (w_db w') page rows out /\ resp = response page out.
Proof.
  unfold ingest_and_reverse_match. rewrite M_bind_run.
  destruct (validate request) as [[]|] eqn:Ev; [|discriminate]. cbn [map_err lift].
  unfold with_transaction. set (w0 := {| w_db := w_db w |}). rewrite M_bind_run.
  destruct (upsert_page_revision _ _ _ _ _ w0) as [[page|] w1] eqn:E1; [|discriminate].
  apply upsert_page_revision_ok in E1 as (Hd & Hs & Hrec & Ho & Hrev).
  rewrite M_bind_run, find_run, Hs. change (w_settings w0) with no_settings.
  rewrite (ranked_candidates_tables no_settings (w_db w0) (w_db w1)) by apply Hd.
  change (w_db w0) with (w_db w) in *.
  destruct (ranked_candidates no_settings (w_db w)) as [rows|] eqn:Er; [|discriminate].
  rewrite M_bind_run. fold request_vector_sha256.
  destruct (persist_candidates _ _ _ _ _ rows w1) as [[out|] w2] eqn:E2; [|discriminate].
  apply persist_loop_ok in E2 as (Hs2 & Hdur & new & Hdb & Hnew); [|by apply recorded_content].
  intros [= <- <-]. cbn [w_db]. exists page, rows, out. split; [|done].
  destruct Hd. constructor; rewrite ?Hdb; try done.
  - destruct Hrec; constructor; done.
  - by rewrite <-Hdb.
  - exists new. simpl. split; [congruence | done].
Qed.

Lemma ingest_err w e w' :
  ingest_and_reverse_match tenant source request original_url final_url w = (Err e, w') ->
  w_db w' = w_db w.
Proof.
  unfold ingest_and_reverse_match. rewrite M_bind_run.
  destruct (validate request) as [[]|]; [|by intros [= _ <-]]. cbn [map_err lift].
  unfold with_transaction.
  set (run := (upsert_page_revision _ _ _ _ _ ≫= _) _).
  destruct run as [[resp|e'] w2]; [discriminate | by intros [= _ <-]].
Qed.

(** C13: a page is ingested atomically.  An error leaves every table as it
    was.  A success changes no source, stored page vector, rule or rule
    embedding, and no page but the tenant's page at the request's source and
    address, which is the answered one; it appends at most one page
    revision, exactly when the answer says the content changed, and only
    reverse-stream evidence of this tenant for the answered revision; the
    tenant's page then points at that revision, whose digest is the digest
    of the request's normalised content. *)
Theorem reverse_match_writes w :
  match ingest_and_reverse_match tenant source request original_url final_url w with
  | (Err _, w') => w_db w' = w_db w
  | (Ok resp, w') =>
      let db := w_db w in let db' := w_db w' in
      sources db' = sources db /\ embeddings db' = embeddings db /\ rules db' = rules db /\
      rule_revisions db' = rule_revisions db /\ rule_embeddings db' = rule_embeddings db /\
      List.filter (elsewhere tenant source final_url (rm_page_id resp)) (pages db') =
        List.filter (elsewhere tenant source final_url (rm_page_id resp)) (pages db) /\
      (exists revisions, page_revisions db' = page_revisions db ++ revisions /\
         length revisions = (if rm_changed resp then 1 else 0) /\
         Forall (fun v => pv_tenant_id v = tenant /\ pv_id v = rm_page_revision_id resp) revisions) /\
      (exists evidence, candidates db' = candidates db ++ evidence /\
         Forall (fun c => mc_tenant_id c = tenant /\ mc_match_mode c = ReverseAlertStream /\
           mc_revision_id c = rm_page_revision_id resp) evidence) /\
      (exists p, p ∈ pages db' /\ pg_id p = rm_page_id resp /\ pg_tenant_id p = tenant /\
         pg_source_id p = source /\ pg_canonical_url p = final_url /\
         pg_latest_revision_id p = Some (rm_page_revision_id resp)) /\
      (exists v, v ∈ page_revisions db' /\ pv_id v = rm_page_revision_id resp /\
         pv_page_id v = rm_page_id resp /\ pv_tenant_id v = tenant /\
         pv_content_sha256 v = rm_content_sha256 resp) /\
      rm_content_sha256 resp = sha256_hex (as_bytes (normalize_content (rp_content_text request))) /\
      rm_page_vector_persisted resp = false
  end.
Proof.
  destruct (ingest_and_reverse_match tenant source request original_url final_url w) as [[resp|e] w'] eqn:E;
    [|by eapply ingest_err].
  apply ingest_ok in E as (page & rows & out & [_ _ [] Hrec Hot (pre & now & Hrev) _ (new & Hnew & Hkept)] & ->).
  destruct Hrec as [_ _ Hsha (p & Hp & Hpi & Hpl) _ (v & Hv & Hvi)]. cbv zeta. simpl in *.
  do 5 (split; [done|]). split; [exact Hot|].
  split; [|split; [|split; [|split; [|done]]]].
  - eexists. split; [exact Hrev|]. by destruct (pw_changed page); repeat constructor.
  - exists new. split; [done|]. eapply Forall_impl; [exact Hkept|].
    by intros c (candidate & id & now' & _ & _ & ->).
  - exists p. apply head_Some_elem_of, elem_of_filter_bool in Hp as [Hp Hs].
    unfold same_page in Hs. by bool_prop.
  - exists v. apply head_Some_elem_of, elem_of_filter_bool in Hv as [Hv Hs].
    unfold same_content in Hs. bool_prop. repeat (split; [done|]). congruence.
Qed.

(** C29: ingestion is idempotent.  Repeating a request on the tables its first
    run left answers with the same page, revision and candidates, now marked
    unchanged, and alters nothing but the pages' [updated_at]. *)
Theorem reverse_match_repeat w resp w1 w2 :
  ingest_and_reverse_match tenant source request original_url final_url w = (Ok resp, w1) ->
  w_db w2 = w_db w1 ->
  exists w3,
    ingest_and_reverse_match tenant source request original_url final_url w2 =
      (Ok {| rm_page_id := rm_page_id resp; rm_page_revision_id := rm_page_revision_id resp;
             rm_content_sha256 := rm_content_sha256 resp; rm_changed := false;
             rm_page_vector_persisted := false; rm_candidates := rm_candidates resp |}, w3) /\
    set_pages (map untimed) (w_db w3) = set_pages (map untimed) (w_db w1).
Proof.
  intros (page & rows & out & Hin & ->)%ingest_ok Hw2.
  destruct Hin as [Hv Hr [] Hrec _ _ Hdur _]. simpl in *.
  unfold ingest_and_reverse_match. rewrite M_bind_run, Hv. cbn [map_err lift].
  unfold with_transaction. set (w0 := {| w_db := w_db w2 |}).
  destruct (upsert_page_revision_repeat tenant source request original_url final_url w0 page)
    as (w3 & E3 & Hd3 & Hr3 & Hp3 & Hs3); [by simpl; rewrite Hw2|].
  rewrite M_bind_run, E3, M_bind_run, find_run, Hs3. change (w_settings w0) with no_settings.
  destruct Hd3. change (w_db w0) with (w_db w2) in *.
  rewrite (ranked_candidates_tables no_settings (w_db w) (w_db w3)) by congruence.
  rewrite Hr, M_bind_run, persist_unchanged.
  fold request_vector_sha256.
  destruct (persist_loop_repeat tenant page request final_url request_vector_sha256 rows w3 out)
    as (w4 & E4 & Hd4 & _).
  { eapply Forall2_impl; [exact Hdur|]. intros candidate d [Ht Hc (c & Hdec & Hcin & Hst)].
    constructor; [done | done|]. exists c. split; [done|].
    assert (candidates (w_db w3) = candidates (w_db w1)) as Ec by congruence.
    rewrite Ec. split; [done|]. intros id now. rewrite <-(Hst id now).
    unfold stored, has_content. by rewrite Hr3, Ec, Hw2. }
  rewrite E4. eexists. split; [reflexivity|]. cbn [w_db]. rewrite Hd4.
  unfold set_pages. rewrite Hr3, Hp3, Hw2. f_equal; congruence.
Qed.

(** ** Which rules a page matches *)

(** A registered embedding of the tenant in the page's model space, of an
    enabled active rule revision whose source scope admits the page. *)
Record admits (db : Database) (e : RuleEmbeddingRow) (ru : RuleRow) (v : RuleRevisionRow) : Prop := {
  ad_embedding : e ∈ rule_embeddings db;
  ad_rule : ru ∈ rules db;
  ad_revision : v ∈ rule_revisions db;
  ad_tenant : re_tenant_id e = tenant /\ ru_tenant_id ru = tenant /\ rr_tenant_id v = tenant;
  ad_ids : re_alert_rule_id e = ru_id ru /\ rr_alert_rule_id v = ru_id ru /\
    re_alert_rule_revision_id e = rr_id v;
  ad_active : ru_active_revision_id ru = Some (rr_id v);
  ad_enabled : rr_enabled v = true;
  ad_space : re_model e = ep_model (rp_embedding request) /\
    re_model_version e = ep_model_version (rp_embedding request) /\
    re_dimensions e = as_i32 (Z.of_N (ep_dimensions (rp_embedding request))) /\
    re_normalization e = normalization_name (ep_normalization (rp_embedding request)) /\
    rr_embedding_model v = ep_model (rp_embedding request);
  ad_scope : rr_source_filters v = [] \/ lit "source:" ++ uuid_to_string source ∈ rr_source_filters v
}.

Lemma eligible_admits s db e v :
  (e, v) ∈ eligible_embeddings s db tenant source (rp_embedding request) -> exists ru, admits db e ru v.
Proof.
  unfold eligible_embeddings. rewrite elem_of_flat_map. intros (e' & He & Hv).
  apply elem_of_flat_map in Hv as (ru & Hru & Hv).
  apply list_elem_of_fmap in Hv as (v' & [= <- <-] & Hv).
  apply elem_of_filter_bool in He as [He Hpe], Hru as [Hru Hpr], Hv as [Hv Hpv].
  apply elem_of_filter_bool in He as [He _], Hru as [Hru _], Hv as [Hv _].
  bool_prop. exists ru.
  assert (rr_source_filters v = [] \/ lit "source:" ++ uuid_to_string source ∈ rr_source_filters v) as Hs.
  { match goal with Hf : negb _ || _ = true |- _ => apply orb_prop in Hf as [Hf|Hf] end; bool_prop;
      [left; by destruct (rr_source_filters v) | by right]. }
  constructor; try done; repeat split; congruence.
Qed.

Lemma bypass_visible s db :
  bypass_rls = true ->
  visible_rules s db = rules db /\ visible_rule_revisions s db = rule_revisions db /\
  visible_rule_embeddings s db = rule_embeddings db.
Proof.
  intros Hb. unfold visible_rules, visible_rule_revisions, visible_rule_embeddings, rule_policy,
    revision_policy, rule_embedding_policy. rewrite Hb. by rewrite !filter_all.
Qed.

Lemma admits_eligible s db e ru v :
  bypass_rls = true -> admits db e ru v ->
  (e, v) ∈ eligible_embeddings s db tenant source (rp_embedding request).
Proof.
  intros Hb [He Hr Hv (Ht1 & Ht2 & Ht3) (Hi1 & Hi2 & Hi3) Ha Hen (Hm1 & Hm2 & Hm3 & Hm4 & Hm5) Hsc].
  destruct (bypass_visible s db Hb) as (Er & Ev & Ee).
  unfold eligible_embeddings. rewrite Er, Ev, Ee. apply elem_of_flat_map. exists e.
  split; [apply elem_of_filter_bool; split; [done|]; by rewrite !bool_decide_eq_true_2|].
  apply elem_of_flat_map. exists ru. split.
  { apply elem_of_filter_bool. split; [done|]. by rewrite !bool_decide_eq_true_2 by congruence. }
  apply list_elem_of_fmap. exists v. split; [done|]. apply elem_of_filter_bool. split; [done|].
  rewrite Hen, !bool_decide_eq_true_2 by congruence. simpl. destruct Hsc as [-> | Hsc]; [done|].
  by rewrite bool_decide_eq_true_2, orb_true_r.
Qed.

(** The similarity the database computes for a registered embedding. *)
Definition similarity_to (e : RuleEmbeddingRow) : option f64 :=
  vector ← vector_in (vector_literal (ep_values (rp_embedding request)));
  distance ← cosine_distance (re_embedding e) vector;
  Some (f64_sub f64_one distance).

Definition threshold_of (v : RuleRevisionRow) : f64 := f64_of_f32 (rr_similarity_threshold v).

Definition over_threshold (r : RankedEmbedding) : bool := pg_ge (rk_similarity r) (rk_threshold r).

Lemma ranked_run s db rows :
  ranked_candidates s db = Ok rows ->
  exists ranked,
    Forall2 (fun x r => rk_embedding r = x.1 /\ rk_revision r = x.2 /\
        similarity_to x.1 = Some (rk_similarity r))
      (eligible_embeddings s db tenant source (rp_embedding request)) ranked /\
    Forall2 (fun r c => decode_candidate r = Ok c)
      (take (N.to_nat (rp_max_candidates request))
         (sort_by rank_order (List.filter over_threshold ranked))) rows.
Proof.
  unfold ranked_candidates, candidate_statement. destruct (texts_ok _); [|done]. cbn [negb].
  destruct (vector_in _) as [vector|] eqn:Evec; [|done]. cbn [ok_or mbind result_bind].
  destruct (mapM _ _) as [ranked|] eqn:Er; [|done]. cbn [map_err mbind result_bind].
  intros Hrows%mapM_ok_Forall2. exists ranked. split; [|exact Hrows].
  apply mapM_ok_Forall2 in Er. eapply Forall2_impl; [exact Er|]. intros [e v] r Hd.
  apply bind_ok in Hd as (distance & Hd%ok_or_ok & [= <-]). cbn. split; [done|]. split; [done|].
  unfold similarity_to. rewrite Evec. cbn. by rewrite Hd.
Qed.

Lemma decode_candidate_ok r c :
  decode_candidate r = Ok c ->
  cw_alert_rule_id c = re_alert_rule_id (rk_embedding r) /\
  cw_alert_rule_revision_id c = re_alert_rule_revision_id (rk_embedding r) /\
  cw_alert_embedding_id c = re_id (rk_embedding r) /\
  json_f64 (rk_similarity r) = Some (cw_similarity c) /\
  json_f64 (rk_threshold r) = Some (cw_threshold c).
Proof. unfold decode_candidate. intros Hd. inv_ok. done. Qed.

Lemma ranked_candidates_ok s db rows :
  ranked_candidates s db = Ok rows ->
  (forall c, c ∈ rows -> exists e v similarity,
     (e, v) ∈ eligible_embeddings s db tenant source (rp_embedding request) /\
     similarity_to e = Some similarity /\ pg_ge similarity (threshold_of v) = true /\
     cw_alert_rule_id c = re_alert_rule_id e /\
     cw_alert_rule_revision_id c = re_alert_rule_revision_id e /\
     cw_alert_embedding_id c = re_id e /\ json_f64 similarity = Some (cw_similarity c) /\
     json_f64 (threshold_of v) = Some (cw_threshold c)) /\
  (length (eligible_embeddings s db tenant source (rp_embedding request)) <=
     N.to_nat (rp_max_candidates request) ->
   forall e v, (e, v) ∈ eligible_embeddings s db tenant source (rp_embedding request) ->
     exists similarity, similarity_to e = Some similarity /\
       (pg_ge similarity (threshold_of v) = true ->
        exists c, c ∈ rows /\ cw_alert_embedding_id c = re_id e /\
          json_f64 similarity = Some (cw_similarity c) /\
          json_f64 (threshold_of v) = Some (cw_threshold c))).
Proof.
  intros (ranked & Hranked & Hrows)%ranked_run. split.
  - intros c Hc. destruct (Forall2_elem_r _ _ _ _ Hrows Hc) as (r & Hr & Hd).
    apply elem_of_take in Hr as (i & Hr%list_elem_of_lookup_2 & _).
    apply elem_of_sort_by, elem_of_filter_bool in Hr as [Hr Hge].
    destruct (Forall2_elem_r _ _ _ _ Hranked Hr) as ([e v] & Hel & He & Hv & Hs). cbn in *.
    apply decode_candidate_ok in Hd as (Hd1 & Hd2 & Hd3 & Hd4 & Hd5). subst e v.
    exists (rk_embedding r), (rk_revision r), (rk_similarity r). done.
  - intros Hmax e v Hel. destruct (Forall2_elem_l _ _ _ _ Hranked Hel) as (r & Hr & He & Hv & Hs). cbn in *.
    exists (rk_similarity r). split; [done|]. intros Hge.
    assert (r ∈ take (N.to_nat (rp_max_candidates request))
      (sort_by rank_order (List.filter over_threshold ranked))) as Hin.
    { rewrite take_ge.
      - apply elem_of_sort_by, elem_of_filter_bool. split; [done|].
        unfold over_threshold, rk_threshold. by rewrite Hv.
      - rewrite sort_by_perm. etransitivity; [apply filter_length_le|].
        by rewrite <-(Forall2_length _ _ _ Hranked). }
    destruct (Forall2_elem_l _ _ _ _ Hrows Hin) as (c & Hc & Hd). exists c.
    apply decode_candidate_ok in Hd as (_ & _ & Hd3 & Hd4 & Hd5). subst e v. done.
Qed.

Lemma durable_fields page db candidate a :
  durable_for tenant page request final_url request_vector_sha256 db candidate a ->
  ra_alert_rule_id a = cw_alert_rule_id candidate /\
  ra_alert_rule_revision_id a = cw_alert_rule_revision_id candidate /\
  ra_alert_embedding_id a = cw_alert_embedding_id candidate /\
  ra_page_revision_id a = pw_page_revision_id page /\
  ra_canonical_match_key a = wire_key tenant page request candidate /\
  exists c, c ∈ candidates db /\ mc_id c = ra_id a /\ mc_tenant_id c = tenant /\
    mc_canonical_match_key c = ra_canonical_match_key a.
Proof.
  intros [_ _ (c & Hd & Hin & Hs)].
  specialize (Hs (cw_alert_rule_id candidate) 0%Z). apply head_Some_elem_of, elem_of_filter_bool in Hs as [_ Hs].
  apply andb_prop in Hs as [Hs _]. unfold same_reverse_evidence in Hs. bool_prop.
  unfold decode_reverse_candidate in Hd. inv_ok. cbn in *.
  repeat (split; [congruence|]). by exists c.
Qed.

(** The rule an answered candidate stands for. *)
Lemma candidate_admitted w resp w' a :
  ingest_and_reverse_match tenant source request original_url final_url w = (Ok resp, w') ->
  a ∈ rm_candidates resp ->
  exists e ru v, admits (w_db w) e ru v /\
    ra_alert_embedding_id a = re_id e /\ ra_alert_rule_id a = ru_id ru /\
    ra_alert_rule_revision_id a = rr_id v /\ ra_page_revision_id a = rm_page_revision_id resp /\
    (exists similarity, similarity_to e = Some similarity /\ pg_ge similarity (threshold_of v) = true) /\
    exists candidate page, cw_alert_rule_id candidate = ru_id ru /\
      cw_alert_rule_revision_id candidate = rr_id v /\
      pw_page_revision_id page = rm_page_revision_id resp /\
      pw_content_sha256 page = rm_content_sha256 resp /\
      ra_canonical_match_key a = wire_key tenant page request candidate /\
      exists c, c ∈ candidates (w_db w') /\ mc_id c = ra_id a /\ mc_tenant_id c = tenant /\
        mc_canonical_match_key c = ra_canonical_match_key a.
Proof.
  intros (page & rows & out & [_ Hr _ _ _ _ Hdur _] & ->)%ingest_ok Ha. cbn in Ha.
  destruct (Forall2_elem_r _ _ _ _ Hdur Ha) as (candidate & [Hc _]%elem_of_filter_bool & Hd).
  apply ranked_candidates_ok in Hr as [Hr _].
  destruct (Hr candidate Hc) as (e & v & similarity & Hel & Hs & Hge & H1' & H2' & H3' & _).
  apply eligible_admits in Hel as (ru & Had).
  apply durable_fields in Hd as (Hd1 & Hd2 & Hd3 & Hd4 & Hd5 & Hd6).
  exists e, ru, v. pose proof Had as [_ _ _ _ (Hi1 & Hi2 & Hi3) _ _ _ _].
  split; [done|]. do 4 (split; [cbn; congruence|]). split; [by eauto|].
  exists candidate, page. do 2 (split; [congruence|]). done.
Qed.

(** C1: a match is never invented.  Every candidate answered is evidence kept
    under this tenant, names the embedding, rule and revision of an enabled
    active rule of the tenant in the page's model space whose source scope
    admits the page and whose threshold its similarity reaches, and carries
    the key of exactly that match. *)
Theorem reverse_match_sound w resp w' a :
  ingest_and_reverse_match tenant source request original_url final_url w = (Ok resp, w') ->
  a ∈ rm_candidates resp ->
  exists e ru v, admits (w_db w) e ru v /\
    ra_alert_embedding_id a = re_id e /\ ra_alert_rule_id a = ru_id ru /\
    ra_alert_rule_revision_id a = rr_id v /\ ra_page_revision_id a = rm_page_revision_id resp /\
    (exists similarity, similarity_to e = Some similarity /\ pg_ge similarity (threshold_of v) = true) /\
    ra_canonical_match_key a = match_key {|
      mi_tenant_id := tenant; mi_alert_rule_id := ru_id ru; mi_alert_rule_revision_id := rr_id v;
      mi_page_revision_id := rm_page_revision_id resp; mi_content_sha256 := rm_content_sha256 resp;
      mi_model := ep_model (rp_embedding request);
      mi_model_version := ep_model_version (rp_embedding request);
      mi_dimensions := ep_dimensions (rp_embedding request);
      mi_normalization := ep_normalization (rp_embedding request) |} /\
    exists c, c ∈ candidates (w_db w') /\ mc_id c = ra_id a /\ mc_tenant_id c = tenant /\
      mc_canonical_match_key c = ra_canonical_match_key a.
Proof.
  intros E Ha. destruct (candidate_admitted _ _ _ _ E Ha)
    as (e & ru & v & Had & Hd1 & Hd2 & Hd3 & Hd4 & Hs & candidate & page & Hc1 & Hc2 & Hp1 & Hp2 & Hk & Hc).
  exists e, ru, v. do 6 (split; [done|]). split; [|done].
  rewrite Hk. unfold wire_key, candidate_identity. by rewrite Hc1, Hc2, Hp1, Hp2.
Qed.

(** C14: no matching rule is missed.  On a connection exempt from row-level
    security, when no more embeddings are eligible than the request allows, a
    successful ingestion has read back from JSON the similarity and the
    threshold of every admitted embedding whose similarity reaches its rule's
    threshold in the database; and the embedding is among the candidates
    unless the numbers that came back no longer reach it. *)
Theorem reverse_match_complete w resp w' e ru v :
  bypass_rls = true ->
  length (eligible_embeddings no_settings (w_db w) tenant source (rp_embedding request)) <=
    N.to_nat (rp_max_candidates request) ->
  ingest_and_reverse_match tenant source request original_url final_url w = (Ok resp, w') ->
  admits (w_db w) e ru v ->
  exists similarity, similarity_to e = Some similarity /\
    (pg_ge similarity (threshold_of v) = true ->
     exists read threshold,
       json_f64 similarity = Some read /\ json_f64 (threshold_of v) = Some threshold /\
       (is_finite read = true -> flt read threshold = false ->
        exists a, a ∈ rm_candidates resp /\ ra_alert_embedding_id a = re_id e)).
Proof.
  intros Hb Hmax (page & rows & out & [_ Hr _ _ _ _ Hdur _] & ->)%ingest_ok Had.
  apply ranked_candidates_ok in Hr as [_ Hr].
  destruct (Hr Hmax e v) as (similarity & Hs & Hge); [by eapply admits_eligible|].
  exists similarity. split; [done|]. intros Hover. destruct (Hge Hover) as (c & Hc & Hce & Hj1 & Hj2).
  exists (cw_similarity c), (cw_threshold c). split; [done|]. split; [done|]. intros Hfin Hlt.
  assert (c ∈ List.filter kept rows) as Hk.
  { apply elem_of_filter_bool. split; [done|]. unfold kept. by rewrite Hfin, Hlt. }
  destruct (Forall2_elem_l _ _ _ _ Hdur Hk) as (a & Ha & Hd). exists a. split; [done|].
  apply durable_fields in Hd as (_ & _ & -> & _). done.
Qed.

(** Numbers that come back as they were still reach it. *)
Lemma read_back_reaches similarity threshold :
  is_finite similarity = true -> is_finite threshold = true -> pg_ge similarity threshold = true ->
  flt similarity threshold = false.
Proof.
  intros Hs Ht Hge. rewrite flt_not_le by (by apply finite_not_nan).
  by rewrite (pg_ge_fle _ _ (finite_not_nan _ Hs) Hge).
Qed.

(** C34: neither operation sets the row-level security context, so on a
    connection the policies bind, no embedding can be registered and every
    page matches nothing. *)
Theorem reverse_match_needs_exempt_role w rule_id upsert :
  bypass_rls = false ->
  (exists e w', upsert_alert_rule_embedding tenant rule_id upsert w = (Err e, w') /\ w_db w' = w_db w) /\
  forall resp w', ingest_and_reverse_match tenant source request original_url final_url w = (Ok resp, w') ->
    rm_candidates resp = [].
Proof.
  intros Hb. assert (forall db, visible_rules no_settings db = []) as Hvis.
  { intros db. apply filter_none. intros r _. unfold rule_policy. by rewrite Hb. }
  split.
  - unfold upsert_alert_rule_embedding, autocommit, with_transaction, utc_now, throw, lift, execute,
      mbind, M_bind, mret, M_ret.
    destruct (upsert_validate upsert) as [[]|]; simpl; [|eauto]. unfold upsert_statement, upsert_statement_at.
    destruct (texts_ok _); simpl; [|eauto]. destruct (vector_in _); simpl; [|eauto].
    unfold upsert_target, active_rule_rows. rewrite Hvis. simpl. eauto.
  - intros resp w' (page & rows & out & [_ Hr _ _ _ _ Hdur _] & ->)%ingest_ok. cbn.
    assert (eligible_embeddings no_settings (w_db w) tenant source (rp_embedding request) = []) as He.
    { unfold eligible_embeddings. assert (visible_rule_embeddings no_settings (w_db w) = []) as ->; [|done].
      apply filter_none. intros x _. unfold rule_embedding_policy. by rewrite Hb. }
    apply ranked_candidates_ok in Hr as [Hr _]. destruct rows as [|c rows].
    + by apply Forall2_nil_inv_l in Hdur.
    + destruct (Hr c) as (e & v & _ & Hin & _); [left|]. rewrite He in Hin. by apply elem_of_nil in Hin.
Qed.
End Ingest.

(** ** A small deployment *)
Module IngestExample.
Import SampleUuid SampleDigest ReverseExample.
Definition page_request : ReverseAlertPageRequest := {|
  rp_source_id := source_id; rp_url := lit "u"; rp_final_url := lit "v"; rp_title := None;
  rp_content_text := lit "a  b"; rp_content_type := lit "text/html"; rp_http_status := 200;
  rp_published_at := None; rp_fetched_at := 7; rp_embedding := payload f32_one;
  rp_max_candidates := 100 |}.
(** A rule embedding is registered, and then the page ingested. *)
Definition before : World := snd registered.
Definition run := ingest_and_reverse_match tenant source_id page_request (lit "u") (lit "v") before.
Definition after : World := snd run.
Definition no_response : ReverseAlertMatchResponse := {|
  rm_page_id := tenant; rm_page_revision_id := tenant; rm_content_sha256 := []; rm_changed := false;
  rm_page_vector_persisted := true; rm_candidates := [] |}.
Definition answer : ReverseAlertMatchResponse := match fst run with Ok r => r | Err _ => no_response end.
Definition embedding_row : RuleEmbeddingRow :=
  upsert_row (uuid_draw 0) tenant rule revision (payload f32_one) (map (fun _ => f32_one) (lit "[1]"))
    (request_sha256 (request f32_one)) 0 1.
(** The same deployment on a connection the policies bind. *)
Definition bound : Deployment :=
  {| uuid_draw := uuid_draw; clock := clock; bypass_rls := false |}.
End IngestExample.
Import SampleUuid SampleDigest ReverseExample IngestExample.

Lemma ingest_example : run = (Ok answer, after) /\ length (rm_candidates answer) = 1.
Proof.
  assert (is_ok (fst run) && (length (rm_candidates answer) =? 1)%nat = true) as E by by vm_compute.
  unfold answer, after in *. destruct run as [[r|e] w]; [|done]. split; [done|]. simpl in *.
  by apply Nat.eqb_eq.
Qed.

Lemma reverse_match_repeat_witness :
  length (rm_candidates answer) = 1 /\
  exists w3, ingest_and_reverse_match tenant source_id page_request (lit "u") (lit "v") after =
    (Ok {| rm_page_id := rm_page_id answer; rm_page_revision_id := rm_page_revision_id answer;
           rm_content_sha256 := rm_content_sha256 answer; rm_changed := false;
           rm_page_vector_persisted := false; rm_candidates := rm_candidates answer |}, w3).
Proof.
  destruct ingest_example as [E El]. split; [exact El|].
  destruct (reverse_match_repeat tenant source_id page_request (lit "u") (lit "v") before answer after after
    E eq_refl) as (w3 & E3 & _).
  exists w3. exact E3.
Defined.

Lemma reverse_match_sound_witness :
  exists a e ru v, a ∈ rm_candidates answer /\
    admits tenant source_id page_request (w_db before) e ru v /\ ra_alert_embedding_id a = re_id e.
Proof.
  destruct ingest_example as [E El].
  destruct (rm_candidates answer) as [|a l] eqn:Ea; [discriminate El|].
  destruct (reverse_match_sound tenant source_id page_request (lit "u") (lit "v") before answer after a E)
    as (e & ru & v & Had & Hid & _); [rewrite Ea; left|].
  exists a, e, ru, v. split; [left | split; [exact Had | exact Hid]].
Defined.

Lemma example_admits : admits tenant source_id page_request (w_db before) embedding_row rule revision.
Proof.
  assert (w_db before = set_rule_embeddings (fun _ => [embedding_row]) (w_db world)) as E
    by (vm_compute; reflexivity).
  rewrite E. constructor; try done; try (by left). all: simpl; try (by apply list_elem_of_singleton).
Qed.

Lemma reverse_match_complete_witness :
  exists a, a ∈ rm_candidates answer /\ ra_alert_embedding_id a = re_id embedding_row.
Proof.
  destruct ingest_example as [E _].
  destruct (reverse_match_complete tenant source_id page_request (lit "u") (lit "v") before answer after
    embedding_row rule revision) as (similarity & Hs & Ha);
    [reflexivity | vm_compute; lia | exact E | apply example_admits|].
  injection Hs as <-. destruct Ha as (read & threshold & Hr & Ht & Ha); [by vm_compute|].
  injection Hr as <-. injection Ht as <-. apply Ha; by vm_compute.
Defined.

Lemma reverse_match_needs_exempt_role_witness :
  exists e w', @upsert_alert_rule_embedding _ _ _ bound tenant rule_id (request f32_one) world = (Err e, w').
Proof.
  destruct (@reverse_match_needs_exempt_role _ _ _ _ bound tenant source_id page_request (lit "u") (lit "v")
    world rule_id (request f32_one) eq_refl) as [(e & w' & E & _) _].
  exists e, w'. exact E.
Defined.
