(* ===== verification/Concurrency.v ===== *)
(** * Rules created at the same time ([src/alert_store.rs], [migrations/007])

    Elsewhere requests follow one another.  Here any number of rule creations
    run at once, one statement at a time, each seeing the committed tables and
    its own rows (READ COMMITTED), waiting for one another only where
    PostgreSQL makes them wait: on a unique key another transaction has just
    inserted, and on the advisory lock the active-limit trigger takes for the
    owner.  Creations are nevertheless serial, and always end. *)

From stdpp Require Import strings gmap relations.
From S2P Require Import Prelude Ordered RustStr Floats Externals HttpError Alerts.
From S2P Require Import Database AlertStore AlertStoreSpec.

(** [hashtextextended(text, 0)], the key of an advisory lock. *)
Class AdvisoryLib := { hashtextextended : str -> Z }.

Section Concurrency.
Context `{Deployment, PgLib, AdvisoryLib}.

(** ** One creation *)

(** The arguments of [create_alert_rule], and its places in the streams of
    identifiers and clock readings. *)
Record Creation := {
  cr_tenant_id : Uuid;
  cr_subject : str;
  cr_input : CreateAlertRule;
  cr_draws : nat;
  cr_ticks : nat
}.

Definition cr_rule_id (c : Creation) : Uuid := uuid_draw (cr_draws c).
Definition cr_revision_id (c : Creation) : Uuid := uuid_draw (S (cr_draws c)).

(** What the transaction has done; [LimitLocked] is the activation's
    [UPDATE] once its trigger has the owner's lock. *)
Inductive Phase := Begun | ContextSet | RuleInserted | RevisionInserted | LimitLocked | Activated.

#[export] Instance phase_eq_dec : EqDecision Phase.
Proof. solve_decision. Defined.

Definition rank (p : Phase) : nat :=
  match p with
  | Begun => 0 | ContextSet => 1 | RuleInserted => 2 | RevisionInserted => 3 | LimitLocked => 4
  | Activated => 5
  end.

Definition next_phase (p : Phase) : Phase :=
  match p with
  | Begun => ContextSet | ContextSet => RuleInserted | RuleInserted => RevisionInserted
  | RevisionInserted => LimitLocked | LimitLocked | Activated => Activated
  end.

(** A transaction in progress, with the rows it has written. *)
Record Session := {
  ss_creation : Creation;
  ss_phase : Phase;
  ss_settings : Settings;
  ss_rules : list RuleRow;
  ss_revisions : list RuleRevisionRow
}.

Definition begin (c : Creation) : Session :=
  {| ss_creation := c; ss_phase := Begun; ss_settings := no_settings; ss_rules := [];
     ss_revisions := [] |}.

(** The tables as the transaction sees them, and as its commit leaves them. *)
Definition overlay (s : Session) (db : Database) : Database :=
  set_rule_revisions (fun l => l ++ ss_revisions s) (set_rules (fun l => l ++ ss_rules s) db).

Definition session_world (s : Session) (db : Database) : World :=
  {| w_db := overlay s db; w_draws := S (S (cr_draws (ss_creation s)));
     w_ticks := S (cr_ticks (ss_creation s)); w_now := clock (cr_ticks (ss_creation s));
     w_settings := ss_settings s |}.

(** The transaction after a statement on the committed tables [db] left the
    world [w]: its own rows follow the committed ones. *)
Definition after_statement (s : Session) (db : Database) (w : World) : Session :=
  {| ss_creation := ss_creation s; ss_phase := next_phase (ss_phase s); ss_settings := w_settings w;
     ss_rules := drop (length (rules db)) (rules (w_db w));
     ss_revisions := drop (length (rule_revisions db)) (rule_revisions (w_db w)) |}.

(** The statement of each phase, with the check of its row count. *)
Definition phase_program (c : Creation) (p : Phase) : M unit :=
  match p with
  | Begun => set_request_context (cr_tenant_id c) (cr_subject c) false
  | ContextSet =>
      inserted_rule ← execute (insert_rule_statement (cr_rule_id c) (cr_tenant_id c) (cr_subject c));
      require_one inserted_rule (lit "alert-rule identity insert did not affect exactly one row")
  | RuleInserted =>
      inserted_revision ← execute (insert_revision_statement (cr_revision_id c) (cr_tenant_id c)
        (cr_rule_id c) (cr_subject c) (cr_input c));
      require_one inserted_revision (lit "alert-rule revision insert did not affect exactly one row")
  | RevisionInserted => mret tt
  | LimitLocked =>
      activated_rule ← execute
        (activate_statement (cr_rule_id c) (cr_tenant_id c) (cr_revision_id c));
      require_one activated_rule (lit "alert-rule activation did not affect exactly one row")
  | Activated => mret tt
  end.

(** The read before the commit. *)
Definition answer_program (c : Creation) : M (result HttpError AlertRule) :=
  row ← execute (created_statement (cr_rule_id c) (cr_tenant_id c));
  rule ← lift (decode_optional decode_alert_rule row);
  mret (ok_or rule (Http.internal (lit "alert-rule creation returned no durable record"))).

(** ** Waiting *)

(** [pg_advisory_xact_lock(hashtextextended(tenant_id::text || ':' || owner_subject, 0))],
    held until the transaction ends. *)
Definition limit_lock (c : Creation) : Z :=
  hashtextextended (uuid_to_string (cr_tenant_id c) ++ lit ":" ++ cr_subject c).

Definition holds_limit_lock (s : Session) : bool := (4 <=? rank (ss_phase s))%nat.

Definition shares_key {A} (key : A -> Uuid) (l k : list A) : bool :=
  existsb (fun x => existsb (fun y => bool_decide (key x = key y)) k) l.

(** Two transactions cannot both be like this: one waits for the other to
    end.  (The revision's second unique key contains its rule's.) *)
Definition conflicts (s t : Session) : bool :=
  shares_key ru_id (ss_rules s) (ss_rules t) ||
  shares_key rr_id (ss_revisions s) (ss_revisions t) ||
  (holds_limit_lock s && holds_limit_lock t &&
   (limit_lock (ss_creation s) =? limit_lock (ss_creation t))%Z).

Inductive Move :=
| Wait
| Next (s : Session)
| Commit (answer : result HttpError AlertRule)
| Fail (e : HttpError).

(** What a transaction does next beside [others]. *)
Definition session_step (others : list Session) (db : Database) (s : Session) : Move :=
  match ss_phase s with
  | Activated =>
      match (answer_program (ss_creation s) (session_world s db)).1 with
      | Ok answer => Commit answer
      | Err e => Fail e
      end
  | p =>
      match phase_program (ss_creation s) p (session_world s db) with
      | (Err e, _) => Fail e
      | (Ok _, w) =>
          let s' := after_statement s db w in
          if existsb (conflicts s') others then Wait else Next s'
      end
  end.

(** ** The system *)
Record System := { sy_db : Database; sy_sessions : gmap nat Session }.

Definition others (sy : System) (i : nat) : list Session :=
  (map_to_list (delete i (sy_sessions sy))).*2.

Definition with_sessions (sy : System) (m : gmap nat Session) : System :=
  {| sy_db := sy_db sy; sy_sessions := m |}.

(** A running creation goes on: the tables change only at its commit. *)
Inductive advance : System -> System -> Prop :=
| AdvanceNext sy i s s' :
    sy_sessions sy !! i = Some s -> session_step (others sy i) (sy_db sy) s = Next s' ->
    advance sy (with_sessions sy (<[i := s']> (sy_sessions sy)))
| AdvanceCommit sy i s answer :
    sy_sessions sy !! i = Some s -> session_step (others sy i) (sy_db sy) s = Commit answer ->
    advance sy {| sy_db := overlay s (sy_db sy); sy_sessions := delete i (sy_sessions sy) |}
| AdvanceFail sy i s e :
    sy_sessions sy !! i = Some s -> session_step (others sy i) (sy_db sy) s = Fail e ->
    advance sy (with_sessions sy (delete i (sy_sessions sy))).

(** A creation also starts at any time, or its client goes away and the
    transaction is dropped; and transactions that do not write the two rule
    tables commit in between. *)
Inductive system_step : System -> System -> Prop :=
| StepAdvance sy sy' : advance sy sy' -> system_step sy sy'
| StepStart sy i c :
    sy_sessions sy !! i = None ->
    system_step sy (with_sessions sy (<[i := begin c]> (sy_sessions sy)))
| StepCancel sy i : system_step sy (with_sessions sy (delete i (sy_sessions sy)))
| StepOther sy db' :
    rules db' = rules (sy_db sy) -> rule_revisions db' = rule_revisions (sy_db sy) ->
    system_step sy {| sy_db := db'; sy_sessions := sy_sessions sy |}.

Definition system_reachable (sy : System) : Prop :=
  exists db, alerts_wf db /\ rtc system_step {| sy_db := db; sy_sessions := ∅ |} sy.

(** The world in which the same creation runs alone on the tables [db]. *)
Definition serial_world (c : Creation) (db : Database) : World :=
  {| w_db := db; w_draws := cr_draws c; w_ticks := cr_ticks c; w_now := clock (cr_ticks c);
     w_settings := no_settings |}.

Definition create_serially (c : Creation) (db : Database) : result HttpError AlertRule * World :=
  create_alert_rule (cr_tenant_id c) (cr_subject c) (cr_input c) (serial_world c db).

(** The statements are those of [create_alert_rule], in its order. *)
Lemma create_phases c db :
  create_serially c db =
  (created ← with_transaction
     (_ ← phase_program c Begun; _ ← phase_program c ContextSet; _ ← phase_program c RuleInserted;
      _ ← phase_program c RevisionInserted; _ ← phase_program c LimitLocked; answer_program c);
   lift created)
  {| w_db := db; w_draws := S (S (cr_draws c)); w_ticks := cr_ticks c; w_now := clock (cr_ticks c);
     w_settings := no_settings |}.
Proof.
  unfold create_serially, create_alert_rule, new_v4, phase_program, answer_program, with_transaction,
    mbind, M_bind, mret, M_ret. cbn [serial_world w_db w_draws w_ticks w_now w_settings].
  destruct (set_request_context _ _ _ _) as [[[]|?] w1]; [|done].
  change (uuid_draw (cr_draws c)) with (cr_rule_id c).
  change (uuid_draw (S (cr_draws c))) with (cr_revision_id c).
  destruct (execute (insert_rule_statement _ _ _) w1) as [[n1|?] w2]; [|done].
  destruct (require_one n1 _ w2) as [[[]|?] w3]; [|done].
  destruct (execute (insert_revision_statement _ _ _ _ _) w3) as [[n2|?] w4]; [|done].
  destruct (require_one n2 _ w4) as [[[]|?] w5]; [|done].
  destruct (execute (activate_statement _ _ _) w5) as [[n3|?] w6]; [|done].
  by destruct (require_one n3 _ w6) as [[[]|?] w7].
Qed.

(** ** What holds of every transaction *)
Definition cr_rule (c : Creation) : RuleRow :=
  new_rule (cr_rule_id c) (cr_tenant_id c) (cr_subject c) (clock (cr_ticks c)).
Definition cr_revision (c : Creation) : RuleRevisionRow :=
  new_revision (cr_revision_id c) (cr_tenant_id c) (cr_rule_id c) (cr_subject c) (cr_input c)
    (clock (cr_ticks c)).
Definition cr_context (c : Creation) : Settings := context (cr_tenant_id c) (cr_subject c) false.
Definition cr_activated (c : Creation) : RuleRow :=
  activated (cr_rule c) (cr_revision c) (clock (cr_ticks c)).

Definition revision_accepted (v : RuleRevisionRow) : bool :=
  texts_ok ([rr_created_by_subject v; rr_name v; rr_query_text v; rr_embedding_model v] ++
    rr_source_filters v ++ rr_delivery_channels v) && rule_revision_check v.

(** Rows written up to a phase. *)
Definition rules_at (c : Creation) (p : Phase) : list RuleRow :=
  match p with
  | Begun | ContextSet => []
  | RuleInserted | RevisionInserted | LimitLocked => [cr_rule c]
  | Activated => [cr_activated c]
  end.
Definition revisions_at (c : Creation) (p : Phase) : list RuleRevisionRow :=
  match p with Begun | ContextSet | RuleInserted => [] | _ => [cr_revision c] end.

(** The transaction that has come to phase [p]. *)
Definition session_at (c : Creation) (p : Phase) : Session :=
  {| ss_creation := c; ss_phase := p;
     ss_settings := match p with Begun => no_settings | _ => cr_context c end;
     ss_rules := rules_at c p; ss_revisions := revisions_at c p |}.

Record passed (db : Database) (c : Creation) (p : Phase) : Prop := {
  ps_text : (1 <= rank p)%nat -> text_ok (cr_subject c) = true;
  ps_rule : (2 <= rank p)%nat ->
    rule_check (cr_rule c) = true /\ (cr_rule_id c ∉ map ru_id (rules db));
  ps_revision : (3 <= rank p)%nat ->
    revision_accepted (cr_revision c) = true /\ (cr_revision_id c ∉ map rr_id (rule_revisions db));
  ps_limit : p = Activated -> enabled (cr_input c) = true ->
    (length (owner_active db (cr_tenant_id c) (cr_subject c)) < 10)%nat
}.

Definition session_ok (db : Database) (s : Session) : Prop :=
  exists c p, s = session_at c p /\ passed db c p.

(** ** One statement *)
Lemma overlay_nil_revisions (s : Session) db :
  ss_revisions s = [] -> overlay s db = set_rules (fun l => l ++ ss_rules s) db.
Proof. intros E. unfold overlay, set_rule_revisions. rewrite E. simpl. by rewrite app_nil_r. Qed.

Lemma overlay_nil (s : Session) db : ss_rules s = [] -> ss_revisions s = [] -> overlay s db = db.
Proof.
  intros Er Ev. rewrite overlay_nil_revisions by done. unfold set_rules. rewrite Er, app_nil_r.
  by destruct db.
Qed.

(** What a statement that succeeds, or fails, says of the creation. *)
Definition statement_ok (db : Database) (c : Creation) (p : Phase) : Prop :=
  match phase_program c p (session_world (session_at c p) db) with
  | (Ok _, w) =>
      passed db c (next_phase p) /\ after_statement (session_at c p) db w = session_at c (next_phase p)
  | (Err e, _) =>
      e = Http.internal [] /\
      (fresh_draws (serial_world c db) ->
       creatable (serial_world c db) (cr_tenant_id c) (cr_subject c) (cr_input c) = false)
  end.

Lemma after_statement_eq db c p w :
  p <> Activated ->
  w_settings w = cr_context c -> rules (w_db w) = rules db ++ rules_at c (next_phase p) ->
  rule_revisions (w_db w) = rule_revisions db ++ revisions_at c (next_phase p) ->
  after_statement (session_at c p) db w = session_at c (next_phase p).
Proof.
  intros Hp Hs Hr Hv. unfold after_statement. cbn [ss_creation ss_phase session_at].
  rewrite Hs, Hr, Hv, !drop_app_length. by destruct p.
Qed.

Lemma begun_ok db c : passed db c Begun -> statement_ok db c Begun.
Proof.
  intros _. unfold statement_ok, phase_program, set_request_context.
  destruct (text_ok (cr_subject c)) eqn:Ht; cbn [negb].
  - split.
    + constructor; simpl; try done; lia.
    + apply after_statement_eq; try done; simpl; by rewrite !app_nil_r.
  - split; [done|]. intros _. unfold creatable. by rewrite Ht.
Qed.

Lemma context_set_ok db c : passed db c ContextSet -> statement_ok db c ContextSet.
Proof.
  intros P. pose proof (ps_text _ _ _ P ltac:(simpl; lia)) as Ht.
  unfold statement_ok, phase_program, execute, insert_rule_statement, require_one, mbind, M_bind.
  cbn [session_world w_now w_settings w_db w_draws]. rewrite overlay_nil by done.
  cbn [session_at ss_creation ss_settings]. fold (cr_rule c).
  destruct (insert_rule (cr_context c) db (cr_rule c)) as [db'|e] eqn:E; cbn [mbind result_bind].
  - unfold insert_rule in E. inv_ok. bool_prop. cbn [Nat.eqb]. split.
    + constructor; simpl; try done; try lia. intros _. split; [done|].
      by apply existsb_fresh_inv.
    + apply after_statement_eq; [done..|]. simpl. by rewrite app_nil_r.
  - split; [done|]. intros [Hf _].
    pose proof (insert_rule_iff (cr_tenant_id c) (cr_subject c) db (cr_rule c)
      eq_refl eq_refl eq_refl Hf Ht) as Hi. unfold creatable.
    change (rule_to_create (serial_world c db) (cr_tenant_id c) (cr_subject c)) with (cr_rule c).
    destruct (rule_check (cr_rule c)); [|by rewrite andb_false_r]. unfold cr_context in E. congruence.
Qed.

Lemma rule_inserted_ok db c : alerts_wf db -> passed db c RuleInserted -> statement_ok db c RuleInserted.
Proof.
  intros Hwf P. pose proof (ps_text _ _ _ P ltac:(simpl; lia)) as Ht.
  destruct (ps_rule _ _ _ P ltac:(simpl; lia)) as [Hc Hf].
  unfold statement_ok, phase_program, execute, insert_revision_statement, require_one, mbind, M_bind.
  cbn [session_world w_now w_settings w_db w_draws]. rewrite overlay_nil_revisions by done.
  cbn [session_at ss_creation ss_settings ss_rules rules_at]. fold (cr_revision c).
  destruct (insert_rule_revision (cr_context c) _ (cr_revision c)) as [db'|e] eqn:E;
    cbn [mbind result_bind].
  - unfold insert_rule_revision in E. inv_ok. bool_prop. cbn [Nat.eqb]. split.
    + constructor; simpl; try done; try lia. intros _. unfold revision_accepted.
      split; [by apply andb_true_iff|]. intros Hin. eapply existsb_fresh_inv; [|exact Hin].
      match goal with Hx : existsb _ (rule_revisions _) = false |- _ => rename Hx into Hu end.
      apply existsb_false_Forall in Hu. apply existsb_false_Forall. eapply Forall_impl; [exact Hu|].
      by intros x [? _]%orb_false_iff.
    + by apply after_statement_eq.
  - split; [done|]. intros [_ Hfv].
    pose proof (insert_revision_iff (cr_tenant_id c) (cr_subject c) db (cr_rule c) (cr_revision c)
      Hwf Hc eq_refl eq_refl Hf Hfv eq_refl eq_refl) as Hi. cbv zeta in Hi. unfold creatable.
    change (revision_to_create (serial_world c db) (cr_tenant_id c) (cr_subject c) (cr_input c))
      with (cr_revision c).
    destruct (texts_ok _ && rule_revision_check (cr_revision c)); [|by rewrite andb_false_r].
    unfold cr_context in E. congruence.
Qed.

(** Past the inserts only the limit is new. *)
Lemma passed_later db c p :
  passed db c p -> (3 <= rank p)%nat ->
  (next_phase p = Activated -> enabled (cr_input c) = true ->
   (length (owner_active db (cr_tenant_id c) (cr_subject c)) < 10)%nat) ->
  passed db c (next_phase p).
Proof. intros P Hp Hl. constructor; intros; [apply P | apply P | apply P | by apply Hl]; lia. Qed.

Lemma revision_inserted_ok db c : passed db c RevisionInserted -> statement_ok db c RevisionInserted.
Proof.
  intros P. unfold statement_ok. cbn [phase_program]. split.
  - by apply (passed_later _ _ RevisionInserted).
  - by apply after_statement_eq.
Qed.

Lemma limit_locked_ok db c : alerts_wf db -> passed db c LimitLocked -> statement_ok db c LimitLocked.
Proof.
  intros Hwf P. destruct (ps_rule _ _ _ P ltac:(simpl; lia)) as [Hc Hf].
  destruct (ps_revision _ _ _ P ltac:(simpl; lia)) as [Hv Hfv].
  unfold statement_ok, phase_program, execute, activate_statement, require_one, mbind, M_bind.
  cbn [session_world w_now w_settings w_db w_draws].
  change (overlay (session_at c LimitLocked) db) with (inserted_db db (cr_rule c) (cr_revision c)).
  cbn [session_at ss_creation ss_settings].
  change (cr_rule_id c) with (ru_id (cr_rule c)). change (cr_revision_id c) with (rr_id (cr_revision c)).
  unfold cr_context.
  rewrite (activate_iff (cr_tenant_id c) (cr_subject c) db (cr_rule c) (cr_revision c)) by done.
  change (rr_enabled (cr_revision c)) with (enabled (cr_input c)).
  destruct (enabled (cr_input c) && _) eqn:E; cbn [mbind result_bind Nat.eqb].
  - split; [done|]. intros _. unfold creatable. cbn [serial_world w_db]. by rewrite E, andb_false_r.
  - split.
    + apply (passed_later _ _ LimitLocked); [done | simpl; lia|]. intros _ He. rewrite He in E. bool_prop. simpl in E.
      by apply Nat.leb_gt.
    + by apply after_statement_eq.
Qed.

Lemma statement_spec db c p :
  alerts_wf db -> p <> Activated -> passed db c p -> statement_ok db c p.
Proof.
  intros Hwf Hp P. destruct p;
    [apply begun_ok | apply context_set_ok | apply rule_inserted_ok | apply revision_inserted_ok
    | apply limit_locked_ok |]; done.
Qed.

(** The answer read before the commit. *)
Lemma answer_read db c :
  alerts_wf db -> passed db c Activated ->
  (answer_program c (session_world (session_at c Activated) db)).1 =
  (Ok <$> decode_alert_rule (cr_activated c, cr_revision c)).
Proof.
  intros Hwf P. destruct (ps_rule _ _ _ P ltac:(simpl; lia)) as [Hc Hf].
  destruct (ps_revision _ _ _ P ltac:(simpl; lia)) as [_ Hfv].
  unfold answer_program, execute, created_statement, mbind, M_bind.
  cbn [session_world w_now w_settings w_db w_draws].
  change (overlay (session_at c Activated) db)
    with (created_db db (cr_rule c) (cr_revision c) (clock (cr_ticks c))).
  cbn [session_at ss_settings]. unfold cr_context.
  pose proof (created_row (cr_tenant_id c) (cr_subject c) db (cr_rule c) (cr_revision c) Hwf Hc
    eq_refl eq_refl Hf Hfv eq_refl eq_refl (clock (cr_ticks c))) as Hrow.
  change (ru_id (cr_rule c)) with (cr_rule_id c) in Hrow. rewrite Hrow.
  cbn [decode_optional]. unfold cr_activated. by destruct (decode_alert_rule _).
Qed.

(** ** What a step means serially *)
Definition commits (db : Database) (c : Creation) (answer : result HttpError AlertRule) : Prop :=
  exists w', create_serially c db = (answer, w') /\ w_db w' = overlay (session_at c Activated) db.

Definition refused (db : Database) (c : Creation) (e : HttpError) : Prop :=
  fresh_draws (serial_world c db) -> exists w', create_serially c db = (Err e, w') /\ w_db w' = db.

Lemma refused_intro db c :
  alerts_wf db ->
  (fresh_draws (serial_world c db) ->
   creatable (serial_world c db) (cr_tenant_id c) (cr_subject c) (cr_input c) = false) ->
  refused db c (Http.internal []).
Proof.
  intros Hwf Hn Hfresh. pose proof (create_run (cr_tenant_id c) (cr_subject c) (cr_input c)
    (serial_world c db) Hwf Hfresh) as Hrun. cbv zeta in Hrun. rewrite (Hn Hfresh) in Hrun.
  destruct Hrun as (e & w' & E & -> & Hd). by exists w'.
Qed.

(** The conditions a transaction has met, put together. *)
Lemma passed_creatable db c :
  passed db c Activated ->
  creatable (serial_world c db) (cr_tenant_id c) (cr_subject c) (cr_input c) =
  bool_decide (is_Some (json_f32 (similarity_threshold (cr_input c)))).
Proof.
  intros P. unfold creatable.
  change (rule_to_create (serial_world c db) (cr_tenant_id c) (cr_subject c)) with (cr_rule c).
  change (revision_to_create (serial_world c db) (cr_tenant_id c) (cr_subject c) (cr_input c))
    with (cr_revision c).
  destruct (ps_rule _ _ _ P ltac:(simpl; lia)) as [Hc _].
  destruct (ps_revision _ _ _ P ltac:(simpl; lia)) as [Hv _]. unfold revision_accepted in Hv.
  rewrite Hc, Hv, (ps_text _ _ _ P ltac:(simpl; lia)). cbn [andb serial_world w_db].
  destruct (enabled (cr_input c)) eqn:He; cbn [andb negb]; [|done].
  pose proof (ps_limit _ _ _ P eq_refl He) as Hl. by rewrite (proj2 (Nat.leb_gt _ _) Hl).
Qed.

Lemma answer_spec db c :
  alerts_wf db -> passed db c Activated ->
  match (answer_program c (session_world (session_at c Activated) db)).1 with
  | Ok answer => commits db c answer
  | Err e => refused db c e
  end.
Proof.
  intros Hwf P. rewrite answer_read by done.
  assert (fresh_draws (serial_world c db)) as Hfresh.
  { split; [apply (ps_rule _ _ _ P) | apply (ps_revision _ _ _ P)]; simpl; lia. }
  pose proof (create_run (cr_tenant_id c) (cr_subject c) (cr_input c) (serial_world c db) Hwf Hfresh)
    as Hrun. cbv zeta in Hrun. rewrite (passed_creatable _ _ P) in Hrun.
  change (activated (rule_to_create (serial_world c db) (cr_tenant_id c) (cr_subject c))
    (revision_to_create (serial_world c db) (cr_tenant_id c) (cr_subject c) (cr_input c))
    (clock (w_ticks (serial_world c db)))) with (cr_activated c) in Hrun.
  change (revision_to_create (serial_world c db) (cr_tenant_id c) (cr_subject c) (cr_input c))
    with (cr_revision c) in Hrun.
  destruct (bool_decide _) eqn:Ej.
  - destruct Hrun as (rule & w' & E & -> & Hd). by exists w'.
  - unfold decode_alert_rule. change (rr_similarity_threshold (cr_revision c))
      with (similarity_threshold (cr_input c)). bool_prop.
    destruct (json_f32 _); [destruct Ej; eauto|]. cbn [ok_or mbind result_bind fmap result_fmap].
    intros _. destruct Hrun as (e & w' & E & -> & Hd). by exists w'.
Qed.

Lemma session_step_spec others db c p :
  alerts_wf db -> passed db c p ->
  match session_step others db (session_at c p) with
  | Wait => p <> Activated /\ existsb (conflicts (session_at c (next_phase p))) others = true
  | Next s => p <> Activated /\ s = session_at c (next_phase p) /\ passed db c (next_phase p) /\
      existsb (conflicts s) others = false
  | Commit answer => p = Activated /\ commits db c answer
  | Fail e => refused db c e
  end.
Proof.
  intros Hwf P. destruct (decide (p = Activated)) as [->|Hp].
  - pose proof (answer_spec db c Hwf P) as Ha. unfold session_step. cbn [session_at ss_phase ss_creation].
    by destruct (_.1).
  - pose proof (statement_spec db c p Hwf Hp P) as Hs. unfold statement_ok in Hs.
    assert (session_step others db (session_at c p) =
      match phase_program c p (session_world (session_at c p) db) with
      | (Err e, _) => Fail e
      | (Ok _, w) =>
          let s' := after_statement (session_at c p) db w in
          if existsb (conflicts s') others then Wait else Next s'
      end) as -> by by destruct p.
    destruct (phase_program _ _ _) as [[?|e] w].
    + destruct Hs as [P' ->]. cbv zeta. by destruct (existsb _ _) eqn:Ex.
    + destruct Hs as [-> Hn]. by apply refused_intro.
Qed.

(** ** Transactions beside one another *)
Lemma shares_key_false {A} (key : A -> Uuid) l k :
  shares_key key l k = false <-> forall x y, x ∈ l -> y ∈ k -> key x <> key y.
Proof.
  unfold shares_key. rewrite existsb_false_Forall, Forall_forall. split.
  - intros Hl x y Hx Hy. specialize (Hl x Hx). apply existsb_false_Forall in Hl.
    by eapply Forall_forall, bool_decide_eq_false in Hl.
  - intros Hl x Hx. apply existsb_false_Forall, Forall_forall. intros y Hy.
    apply bool_decide_eq_false. auto.
Qed.

(** Transactions that need not wait for each other. *)
Record apart (s t : Session) : Prop := {
  ap_rules : forall x y, x ∈ ss_rules s -> y ∈ ss_rules t -> ru_id x <> ru_id y;
  ap_revisions : forall x y, x ∈ ss_revisions s -> y ∈ ss_revisions t -> rr_id x <> rr_id y;
  ap_lock : holds_limit_lock s = true -> holds_limit_lock t = true ->
    limit_lock (ss_creation s) <> limit_lock (ss_creation t)
}.

Lemma conflicts_false s t : conflicts s t = false <-> apart s t.
Proof.
  unfold conflicts. rewrite !orb_false_iff, !shares_key_false. split.
  - intros [[Hr Hv] Hl]. constructor; [done..|]. intros Hs Ht. rewrite Hs, Ht in Hl. simpl in Hl.
    by apply Z.eqb_neq.
  - intros [Hr Hv Hl]. split; [done|]. destruct (holds_limit_lock s), (holds_limit_lock t); try done.
    simpl. apply Z.eqb_neq. auto.
Qed.

#[export] Instance apart_symmetric : Symmetric apart.
Proof. intros s t [Hr Hv Hl]. constructor; intros; apply not_eq_sym; auto. Qed.

(** The same owner in one tenant is one lock. *)
Lemma limit_lock_owner c c' :
  cr_tenant_id c = cr_tenant_id c' -> cr_subject c = cr_subject c' -> limit_lock c = limit_lock c'.
Proof. unfold limit_lock. congruence. Qed.

Lemma committed_wf db c :
  alerts_wf db -> passed db c Activated -> alerts_wf (overlay (session_at c Activated) db).
Proof.
  intros Hwf P. destruct (ps_rule _ _ _ P ltac:(simpl; lia)) as [Hc Hf].
  destruct (ps_revision _ _ _ P ltac:(simpl; lia)) as [_ Hfv].
  apply (created_wf (cr_tenant_id c) (cr_subject c) db (cr_rule c) (cr_revision c)); try done.
  intros He. by apply (ps_limit _ _ _ P).
Qed.

(** The keys of the rows written so far. *)
Lemma rule_at c p x : x ∈ rules_at c p -> (2 <= rank p)%nat /\ ru_id x = cr_rule_id c.
Proof. destruct p; simpl; intros Hx; try (by inversion Hx); apply list_elem_of_singleton in Hx as ->; (split; [lia | done]). Qed.

Lemma rule_at_intro c p : (2 <= rank p)%nat -> exists x, x ∈ rules_at c p /\ ru_id x = cr_rule_id c.
Proof. destruct p; simpl; intros Hp; try lia; eexists; (split; [by left | done]). Qed.

Lemma revision_at c p x : x ∈ revisions_at c p -> (3 <= rank p)%nat /\ rr_id x = cr_revision_id c.
Proof. destruct p; simpl; intros Hx; try (by inversion Hx); apply list_elem_of_singleton in Hx as ->; (split; [lia | done]). Qed.

Lemma revision_at_intro c p :
  (3 <= rank p)%nat -> exists x, x ∈ revisions_at c p /\ rr_id x = cr_revision_id c.
Proof. destruct p; simpl; intros Hp; try lia; eexists; (split; [by left | done]). Qed.

(** A commit does not undo what another transaction has passed. *)
Lemma passed_commit db c c' p :
  passed db c Activated -> passed db c' p ->
  apart (session_at c' p) (session_at c Activated) ->
  passed (overlay (session_at c Activated) db) c' p.
Proof.
  intros P P' [Hr Hv Hl]. destruct (ps_rule _ _ _ P ltac:(simpl; lia)) as [_ Hf].
  destruct (ps_revision _ _ _ P ltac:(simpl; lia)) as [_ Hfv]. constructor.
  - apply P'.
  - intros Hp. destruct (ps_rule _ _ _ P' Hp) as [? Hf']. split; [done|].
    cbn. rewrite map_app. intros [?|Hin]%elem_of_app; [done|]. apply list_elem_of_singleton in Hin.
    destruct (rule_at_intro c' p Hp) as (x & Hx & E).
    eapply Hr; [exact Hx | by apply list_elem_of_singleton | by rewrite E].
  - intros Hp. destruct (ps_revision _ _ _ P' Hp) as [? Hf']. split; [done|].
    cbn. rewrite map_app. intros [?|Hin]%elem_of_app; [done|]. apply list_elem_of_singleton in Hin.
    destruct (revision_at_intro c' p Hp) as (x & Hx & E).
    eapply Hv; [exact Hx | by apply list_elem_of_singleton | by rewrite E].
  - intros -> He. pose proof (ps_limit _ _ _ P' eq_refl He) as Hlim.
    change (overlay (session_at c Activated) db)
      with (created_db db (cr_rule c) (cr_revision c) (clock (cr_ticks c))).
    rewrite (owner_active_created (cr_tenant_id c) (cr_subject c)) by done.
    destruct (bool_decide (cr_tenant_id c = _) && bool_decide (cr_subject c = _)) eqn:E; simpl; [|lia].
    bool_prop. destruct (Hl eq_refl eq_refl). by apply limit_lock_owner.
Qed.

Lemma passed_other db db' c p :
  rules db' = rules db -> rule_revisions db' = rule_revisions db -> passed db c p -> passed db' c p.
Proof.
  intros Er Ev [? ? ? Hl]. constructor; rewrite ?Er, ?Ev; [done..|].
  unfold owner_active, enabled_rule in *. by rewrite Er, Ev.
Qed.

Lemma alerts_wf_other db db' :
  rules db' = rules db -> rule_revisions db' = rule_revisions db -> alerts_wf db -> alerts_wf db'.
Proof.
  intros Er Ev [? ? ? ? ? Hl]. constructor; rewrite ?Er, ?Ev; try done.
  unfold owner_active, enabled_rule in *. by rewrite Er, Ev.
Qed.

(** ** The invariant of the system *)
Record system_ok (sy : System) : Prop := {
  so_alerts : alerts_wf (sy_db sy);
  so_sessions : forall i s, sy_sessions sy !! i = Some s -> session_ok (sy_db sy) s;
  so_apart : forall i j s t, i <> j -> sy_sessions sy !! i = Some s -> sy_sessions sy !! j = Some t ->
    apart s t
}.

Lemma elem_of_others sy i t :
  t ∈ others sy i <-> exists j, i <> j /\ sy_sessions sy !! j = Some t.
Proof.
  unfold others. rewrite list_elem_of_fmap. split.
  - intros ([j t'] & -> & Hj%elem_of_map_to_list%lookup_delete_Some). by exists j.
  - intros (j & Hij & Hj). exists (j, t). split; [done|]. by apply elem_of_map_to_list, lookup_delete_Some.
Qed.

Lemma no_conflict sy i s :
  existsb (conflicts s) (others sy i) = false <->
  forall j t, i <> j -> sy_sessions sy !! j = Some t -> apart s t.
Proof.
  rewrite existsb_false_Forall, Forall_forall. setoid_rewrite conflicts_false.
  setoid_rewrite elem_of_others. naive_solver.
Qed.

(** The next move of a transaction of a system in order. *)
Lemma system_move sy i s :
  system_ok sy -> sy_sessions sy !! i = Some s ->
  exists c p, s = session_at c p /\ passed (sy_db sy) c p /\
    match session_step (others sy i) (sy_db sy) s with
    | Wait => p <> Activated /\ existsb (conflicts (session_at c (next_phase p))) (others sy i) = true
    | Next s' => p <> Activated /\ s' = session_at c (next_phase p) /\
        passed (sy_db sy) c (next_phase p) /\ existsb (conflicts s') (others sy i) = false
    | Commit answer => p = Activated /\ commits (sy_db sy) c answer
    | Fail e => refused (sy_db sy) c e
    end.
Proof.
  intros Ok Hi. destruct (so_sessions _ Ok i s Hi) as (c & p & -> & P). exists c, p.
  split; [done|]. split; [done|]. apply session_step_spec; [apply Ok | done].
Qed.

Lemma system_ok_delete sy i :
  system_ok sy -> system_ok (with_sessions sy (delete i (sy_sessions sy))).
Proof.
  intros [Hwf Hs Ha]. constructor; [done|..]; simpl.
  - intros j s [_ Hj]%lookup_delete_Some. by eapply Hs.
  - intros j k s t Hjk [_ Hj]%lookup_delete_Some [_ Hk]%lookup_delete_Some. by apply (Ha j k).
Qed.

Lemma system_ok_insert sy i s :
  system_ok sy -> session_ok (sy_db sy) s ->
  (forall j t, i <> j -> sy_sessions sy !! j = Some t -> apart s t) ->
  system_ok (with_sessions sy (<[i := s]> (sy_sessions sy))).
Proof.
  intros [Hwf Hs Ha] Hss Hap. constructor; [done|..]; simpl.
  - intros j t [[-> <-]|[_ Hj]]%lookup_insert_Some; [done | by eapply Hs].
  - intros j k t u Hjk [[-> <-]|[Hij Hj]]%lookup_insert_Some [[-> <-]|[Hik Hk]]%lookup_insert_Some;
      [done | by eapply Hap | symmetry; by eapply Hap | by apply (Ha j k)].
Qed.

Lemma advance_ok sy sy' : advance sy sy' -> system_ok sy -> system_ok sy'.
Proof.
  intros [sy0 i s s' Hi Hst | sy0 i s answer Hi Hst | sy0 i s e Hi Hst] Ok;
    destruct (system_move _ _ _ Ok Hi) as (c & p & -> & P & Hm); rewrite Hst in Hm.
  - destruct Hm as (_ & -> & P' & Hc). apply system_ok_insert; [done | by exists c, (next_phase p)|].
    by apply no_conflict.
  - destruct Hm as [-> _]. constructor; simpl.
    + by apply committed_wf; [apply Ok|].
    + intros j t [Hij Hj]%lookup_delete_Some. destruct (so_sessions _ Ok j t Hj) as (c' & p' & -> & P').
      exists c', p'. split; [done|]. apply passed_commit; [done..|]. by apply (so_apart _ Ok j i).
    + intros j k t u Hjk [_ Hj]%lookup_delete_Some [_ Hk]%lookup_delete_Some. by apply (so_apart _ Ok j k).
  - by apply system_ok_delete.
Qed.

Lemma system_step_ok sy sy' : system_step sy sy' -> system_ok sy -> system_ok sy'.
Proof.
  intros [sy0 sy1 Ha | sy0 i c Hi | sy0 i | sy0 db' Er Ev] Ok.
  - by eapply advance_ok.
  - apply system_ok_insert; [done|..].
    + exists c, Begun. split; [done|]. constructor; simpl; done || lia.
    + intros j t _ _. constructor; simpl; done || set_solver.
  - by apply system_ok_delete.
  - destruct Ok as [Hwf Hs Ha]. constructor; simpl; [by eapply alerts_wf_other|..|done].
    intros i s Hi. destruct (Hs i s Hi) as (c & p & -> & P). exists c, p. split; [done|].
    by eapply passed_other.
Qed.

Lemma system_reachable_ok sy : system_reachable sy -> system_ok sy.
Proof.
  intros (db & Hwf & Hs). assert (system_ok {| sy_db := db; sy_sessions := ∅ |}) as Ok.
  { constructor; [done|..]; simpl; intros *; by rewrite lookup_empty. }
  revert Ok. remember {| sy_db := db; sy_sessions := ∅ |} as sy0. clear Heqsy0.
  induction Hs as [|? ? ? Hst _ IH]; [done|]. intros Ok. apply IH. by eapply system_step_ok.
Qed.

(** ** Every creation ends *)
Definition left_to_do (s : Session) : nat := 6 - rank (ss_phase s).
Definition work (sy : System) : nat :=
  map_fold (fun _ s n => left_to_do s + n) 0 (sy_sessions sy).

Lemma work_delete sy i s :
  sy_sessions sy !! i = Some s ->
  work sy = left_to_do s + work (with_sessions sy (delete i (sy_sessions sy))).
Proof. intros Hi. unfold work. rewrite (map_fold_delete_L _ _ i s); [done | intros; lia | done]. Qed.

Lemma work_advance sy sy' : advance sy sy' -> work sy' < work sy.
Proof.
  assert (forall s, 0 < left_to_do s) as Hpos by (intros []; unfold left_to_do; simpl; destruct ss_phase0; simpl; lia).
  intros [sy0 i s s' Hi Hst | sy0 i s answer Hi Hst | sy0 i s e Hi Hst].
  - rewrite (work_delete sy0 i s) by done.
    rewrite (work_delete _ i s') by apply lookup_insert_eq. simpl.
    rewrite delete_insert_eq. assert (left_to_do s' < left_to_do s); [|unfold with_sessions in *; simpl; lia].
    unfold session_step in Hst. unfold left_to_do.
    destruct (ss_phase s) eqn:Ep; try (by destruct (_.1));
      destruct (phase_program _ _ _) as [[] w]; try discriminate;
      destruct (existsb _ _); try discriminate; injection Hst as <-; simpl; rewrite Ep; simpl; lia.
  - rewrite (work_delete sy0 i s) by done. specialize (Hpos s). unfold work. simpl. lia.
  - rewrite (work_delete sy0 i s) by done. specialize (Hpos s). unfold work. simpl. lia.
Qed.

Lemma advance_terminates sy : Acc (fun b a => advance a b) sy.
Proof.
  induction sy as [sy IH] using (well_founded_induction (well_founded_ltof _ work)).
  constructor. intros sy' Ha. apply IH. by apply work_advance.
Qed.

(** Nobody waits for a transaction that has not come as far. *)
Lemma apart_later c c' p p' :
  p <> Activated -> rank p' <= rank p -> apart (session_at c p) (session_at c' p') ->
  apart (session_at c (next_phase p)) (session_at c' p').
Proof.
  intros Hp Hr [Ar Av Al]. constructor.
  - intros x y [_ Hx]%rule_at Hy E. destruct (rule_at _ _ _ Hy) as [Hy2 _].
    destruct (rule_at_intro c p) as (x' & Hx' & E'); [lia|]. apply (Ar x' y Hx' Hy). congruence.
  - intros x y [_ Hx]%revision_at Hy E. destruct (revision_at _ _ _ Hy) as [Hy2 _].
    destruct (revision_at_intro c p) as (x' & Hx' & E'); [lia|]. apply (Av x' y Hx' Hy). congruence.
  - intros Hs Ht. apply Al; [|done]. apply Nat.leb_le in Ht. apply Nat.leb_le. simpl in *. lia.
Qed.

Lemma max_rank (l : list (nat * Session)) :
  l <> [] -> exists x, x ∈ l /\ forall y, y ∈ l -> rank (ss_phase y.2) <= rank (ss_phase x.2).
Proof.
  induction l as [|a l IH]; [done|]. intros _. destruct l as [|b l].
  - exists a. split; [by left|]. by intros y ->%list_elem_of_singleton.
  - destruct IH as (x & Hx & Hm); [done|].
    destruct (le_lt_dec (rank (ss_phase a.2)) (rank (ss_phase x.2))) as [Hle|Hlt].
    + exists x. split; [by right|]. intros y [->|Hy]%elem_of_cons; auto.
    + exists a. split; [by left|]. intros y [->|Hy]%elem_of_cons; [done|]. specialize (Hm y Hy). lia.
Qed.

Lemma system_progress sy : system_ok sy -> sy_sessions sy <> ∅ -> exists sy', advance sy sy'.
Proof.
  intros Ok Hne. destruct (max_rank (map_to_list (sy_sessions sy))) as ([i s] & Hi & Hmax).
  { by intros ?%map_to_list_empty_iff. }
  apply elem_of_map_to_list in Hi. destruct (system_move _ _ _ Ok Hi) as (c & p & -> & P & Hm).
  destruct (session_step _ _ _) as [|s'|answer|e] eqn:Hst; [|eexists; by econstructor..].
  destruct Hm as [Hp Hw]. exfalso. apply Bool.not_false_iff_true in Hw. apply Hw, no_conflict.
  intros j t Hij Hj. destruct (so_sessions _ Ok j t Hj) as (c' & p' & -> & _).
  apply apart_later; [done | | by apply (so_apart _ Ok i j)].
  apply (Hmax (j, session_at c' p')). by apply elem_of_map_to_list.
Qed.

(** ** Schedules *)

(** Transaction [i] goes on if it need not wait. *)
Definition advance_at (i : nat) (sy : System) : System :=
  match sy_sessions sy !! i with
  | None => sy
  | Some s =>
      match session_step (others sy i) (sy_db sy) s with
      | Wait => sy
      | Next s' => with_sessions sy (<[i := s']> (sy_sessions sy))
      | Commit _ => {| sy_db := overlay s (sy_db sy); sy_sessions := delete i (sy_sessions sy) |}
      | Fail _ => with_sessions sy (delete i (sy_sessions sy))
      end
  end.

Lemma advance_at_step i sy : rtc system_step sy (advance_at i sy).
Proof.
  unfold advance_at. destruct (sy_sessions sy !! i) as [s|] eqn:Hi; [|done].
  destruct (session_step _ _ _) eqn:Hst; [done|..]; apply rtc_once, StepAdvance; by econstructor.
Qed.

Lemma schedule_steps l sy : rtc system_step sy (fold_left (fun sy i => advance_at i sy) l sy).
Proof.
  revert sy. induction l as [|i l IH]; intros sy; [done|]. simpl. etrans; [apply advance_at_step | apply IH].
Qed.

(** C12: rules created at the same time.  In every interleaving of any number
    of creations with one another and with transactions that do not write
    rules, committed tables satisfy the invariant of the alert tables, with at
    most ten enabled rules per owner.  A creation that commits gives exactly
    the answer and the tables it would give if it ran alone at the moment of
    its commit; one that fails with new identifiers would then fail alone
    with the same answer, and leaves no trace.  So creations are serial, in
    the order of their commits. *)
Theorem creations_serialize sy :
  system_reachable sy ->
  alerts_wf (sy_db sy) /\
  (forall tenant owner, length (owner_active (sy_db sy) tenant owner) <= 10) /\
  forall i s, sy_sessions sy !! i = Some s ->
    match session_step (others sy i) (sy_db sy) s with
    | Commit answer => exists w', create_serially (ss_creation s) (sy_db sy) = (answer, w') /\
        w_db w' = overlay s (sy_db sy)
    | Fail e => fresh_draws (serial_world (ss_creation s) (sy_db sy)) ->
        exists w', create_serially (ss_creation s) (sy_db sy) = (Err e, w') /\ w_db w' = sy_db sy
    | Wait | Next _ => True
    end.
Proof.
  intros Ok%system_reachable_ok. split; [apply Ok|]. split; [apply Ok|]. intros i s Hi.
  destruct (system_move _ _ _ Ok Hi) as (c & p & -> & _ & Hm).
  destruct (session_step _ _ _); [done..| |done]. by destruct Hm as [-> Hm].
Qed.

(** C15: concurrent creations always end.  From any state the system can
    reach, the running creations cannot go on for ever, and as long as there
    is one, one of them can go on: nobody waits in a circle, though they
    wait for unique keys and for the owner's lock. *)
Theorem creations_terminate sy :
  system_reachable sy ->
  Acc (fun b a => advance a b) sy /\
  forall sy', rtc system_step sy sy' -> sy_sessions sy' <> ∅ -> exists sy'', advance sy' sy''.
Proof.
  intros (db & Hwf & Hs). split; [apply advance_terminates|]. intros sy' Hs'.
  apply system_progress, system_reachable_ok. exists db. split; [done|]. by etrans.
Qed.
End Concurrency.

(** ** Two creations for one place *)
Module ConcurrencyExample.
#[export] Instance advisory : AdvisoryLib :=
  {| hashtextextended s := fold_left (fun h c => (31 * h + Z.of_N c)%Z) s 0%Z |}.

(** The owner has nine enabled rules and asks twice for another. *)
Definition creation (draws : nat) : Creation := {|
  cr_tenant_id := AlertExample.tenant; cr_subject := AlertExample.owner;
  cr_input := AlertExample.input; cr_draws := draws; cr_ticks := 9 |}.
Definition tables : Database := w_db (AlertExample.after 9).
Definition started : System := {|
  sy_db := tables; sy_sessions := <[1 := begin (creation 20)]> (<[0 := begin (creation 18)]> ∅) |}.
Definition schedule (l : list nat) : System := fold_left (fun sy i => advance_at i sy) l started.
(** Both have inserted their rows; the first has the lock and activates. *)
Definition contended : System := schedule [0; 1; 0; 1; 0; 1; 0; 1; 0].
End ConcurrencyExample.
Import ConcurrencyExample.

Lemma schedule_reachable l : system_reachable (schedule l).
Proof.
  exists tables. split; [apply (example_wf 9); lia|].
  eapply rtc_l; [apply (StepStart _ 0 (creation 18)); apply lookup_empty|].
  eapply rtc_l; [apply (StepStart _ 1 (creation 20)); reflexivity|].
  apply schedule_steps.
Qed.

Definition at_step (sy : System) (i : nat) : option Move :=
  session_step (others sy i) (sy_db sy) <$> sy_sessions sy !! i.

Lemma at_step_Some sy i m :
  at_step sy i = Some m ->
  exists s, sy_sessions sy !! i = Some s /\ m = session_step (others sy i) (sy_db sy) s.
Proof. intros (s & ? & ?)%fmap_Some. by exists s. Qed.

(** The second waits, then finds the place taken. *)
Example contended_moves :
  at_step contended 1 = Some Wait /\
  (exists rule, at_step contended 0 = Some (Commit (Ok rule))) /\
  at_step (schedule [0; 1; 0; 1; 0; 1; 0; 1; 0; 0; 1]) 1 = Some (Fail (db_error CheckViolation)).
Proof.
  split; [vm_compute; reflexivity|]. split; [eexists; vm_compute; reflexivity|].
  vm_compute. reflexivity.
Qed.

Lemma contended_first : sy_sessions contended !! 0 = Some (session_at (creation 18) Activated).
Proof. vm_compute. reflexivity. Qed.

Lemma creations_serialize_witness :
  at_step contended 1 = Some Wait /\
  exists rule w', create_serially (creation 18) (sy_db contended) = (Ok rule, w') /\
    length (owner_active (w_db w') AlertExample.tenant AlertExample.owner) = 10.
Proof.
  split; [exact (proj1 contended_moves)|].
  destruct (creations_serialize contended (schedule_reachable _)) as (_ & _ & Hmoves).
  destruct contended_moves as (_ & [rule Hc] & _). unfold at_step in Hc.
  apply at_step_Some in Hc as (s & Hi & Hc). specialize (Hmoves 0 s Hi). rewrite <-Hc in Hmoves.
  destruct Hmoves as (w' & E & Hd). rewrite contended_first in Hi. apply Some_inj in Hi. subst s.
  exists rule, w'. split; [exact E|]. rewrite Hd. vm_compute. reflexivity.
Defined.

Lemma creations_terminate_witness :
  size (sy_sessions contended) = 2 /\ exists sy, advance contended sy.
Proof.
  split; [vm_compute; reflexivity|].
  apply (proj2 (creations_terminate contended (schedule_reachable _)) contended); [reflexivity|].
  intros E. apply (f_equal size) in E. vm_compute in E. discriminate E.
Defined.
