(* ===== verification/Store.v ===== *)
(** * Sources, page ingestion, search and historical matching ([src/store.rs])

    Every query here is one statement outside a transaction, committed by
    itself before its row is decoded. *)

From stdpp Require Import strings.
From S2P Require Import Prelude Ordered RustStr Floats Externals HttpError Database.
From S2P Require Import AlertStore ReverseMatch.

Record SearchRecord := {
  se_hit : EmbeddingSearchHit;
  se_content_sha256 : str
}.

Record SearchPage := {
  sp_response : EmbeddingSearchResponse;
  sp_records : list SearchRecord
}.

(** The JSON row of one search hit. *)
Record SearchWire := {
  sw_embedding_id : Uuid;
  sw_revision_id : Uuid;
  sw_page_id : Uuid;
  sw_source_id : Uuid;
  sw_canonical_url : str;
  sw_content_sha256 : str;
  sw_title : option str;
  sw_excerpt : str;
  sw_similarity : f64;
  sw_distance : f64;
  sw_model : str;
  sw_model_version : str;
  sw_dimensions : N;
  sw_normalization : VectorNormalization;
  sw_fetched_at : Timestamp
}.

Definition into_record (self : SearchWire) : SearchRecord := {|
  se_content_sha256 := sw_content_sha256 self;
  se_hit := {|
    sh_embedding_id := sw_embedding_id self; sh_revision_id := sw_revision_id self;
    sh_page_id := sw_page_id self; sh_source_id := sw_source_id self;
    sh_canonical_url := sw_canonical_url self; sh_title := sw_title self;
    sh_excerpt := sw_excerpt self; sh_similarity := sw_similarity self;
    sh_distance := sw_distance self; sh_model := sw_model self;
    sh_model_version := sw_model_version self; sh_dimensions := sw_dimensions self;
    sh_normalization := sw_normalization self; sh_fetched_at := sw_fetched_at self
  |}
|}.

(** [SourcePolicy] and [MatchCandidate] of [eal_interfaces]: the types, their
    decoding from a whole row, and the policy fields the program reads. *)
Class RowDecoders := {
  SourcePolicy : Type;
  MatchCandidate : Type;
  source_policy_of_row : SourceRow -> option SourcePolicy;
  match_candidate_of_row : CandidateRow -> option MatchCandidate;
  po_enabled : SourcePolicy -> bool;
  po_allowed_hosts : SourcePolicy -> list str;
  po_include_subdomains : SourcePolicy -> bool;
  po_allowed_path_prefixes : SourcePolicy -> list str
}.

(** Decoding keeps the columns. *)
Class RowDecoderLaws `{RowDecoders} := {
  source_policy_fields row policy : source_policy_of_row row = Some policy ->
    po_enabled policy = so_enabled row /\ po_allowed_hosts policy = so_allowed_hosts row /\
    po_include_subdomains policy = so_include_subdomains row /\
    po_allowed_path_prefixes policy = so_allowed_path_prefixes row
}.

Section Store.
Context `{UuidLib, DigestLib, InterfacesLib, PgLib, Deployment, RowDecoders}.

Definition decode_row {A B} (decode : A -> option B) (row : A) : result HttpError B :=
  ok_or (decode row) (Http.from_json_err (lit "invalid row")).

(** ** Sources *)

(** [ORDER BY updated_at DESC, id ASC] *)
Definition source_order (a b : SourceRow) : bool :=
  match (so_updated_at b ?= so_updated_at a)%Z with
  | Lt => true
  | Eq => match ord_cmp (so_id a) (so_id b) with Gt => false | _ => true end
  | Gt => false
  end.

Definition list_sources_statement (tenant_id : Uuid) : Stmt (list SourceRow) :=
  fun _ _ db draws =>
    Ok (take 500 (sort_by source_order
          (List.filter (fun s => bool_decide (so_tenant_id s = tenant_id)) (sources db))), db, draws).

Definition list_sources (tenant_id : Uuid) : M (list SourcePolicy) :=
  rows ← autocommit (list_sources_statement tenant_id);
  lift (mapM (decode_row source_policy_of_row) rows).

Definition get_source_statement (tenant_id source_id : Uuid) : Stmt (option SourceRow) :=
  fun _ _ db draws =>
    Ok (head (List.filter (fun s => bool_decide (so_tenant_id s = tenant_id) &&
                                    bool_decide (so_id s = source_id)) (sources db)), db, draws).

Definition get_source (tenant_id source_id : Uuid) : M (option SourcePolicy) :=
  row ← autocommit (get_source_statement tenant_id source_id);
  lift (decode_optional (decode_row source_policy_of_row) row).

Definition new_source (id tenant_id : Uuid) (input : CreateSourcePolicy) (canonical_root_url : str)
    (now : Timestamp) : SourceRow := {|
  so_id := id; so_tenant_id := tenant_id; so_name := cs_name input;
  so_root_url := canonical_root_url; so_allowed_hosts := cs_allowed_hosts input;
  so_allowed_path_prefixes := cs_allowed_path_prefixes input;
  so_include_subdomains := cs_include_subdomains input;
  so_discovery_modes := cs_discovery_modes input;
  so_crawl_interval_seconds := as_i32 (Z.of_N (cs_crawl_interval_seconds input));
  so_max_depth := as_i16 (Z.of_N (cs_max_depth input));
  so_max_pages_per_run := as_i32 (Z.of_N (cs_max_pages_per_run input));
  so_obey_robots := cs_obey_robots input; so_enabled := cs_enabled input;
  so_created_at := now; so_updated_at := now
|}.

Definition create_source_statement (tenant_id : Uuid) (input : CreateSourcePolicy)
    (canonical_root_url : str) : Stmt (option SourceRow) := fun now _ db draws =>
  let row := new_source (uuid_draw draws) tenant_id input canonical_root_url now in
  '(inserted, db') ← insert_source db row;
  Ok (if (inserted : bool) then Some row else None, db', S draws).

Definition create_source (tenant_id : Uuid) (input : CreateSourcePolicy) (canonical_root_url : str)
    : M SourcePolicy :=
  row ← autocommit (create_source_statement tenant_id input canonical_root_url);
  lift (match row with
        | Some row => decode_row source_policy_of_row row
        | None => Err (Http.conflict (lit "a source with this canonical root URL already exists"))
        end).

(** ** Ingesting a page with its vector

    One statement: every sub-query reads the tables as they were before it,
    and a row it has already modified is not updated a second time. *)
Definition update_visible (snapshot : list PageRow) (modified : list Uuid) (target : Uuid)
    : list PageRow :=
  List.filter (fun p => bool_decide (pg_id p = target) && negb (bool_decide (pg_id p ∈ modified)))
    snapshot.

Definition ingest_revision_row (tenant_id page_id : Uuid) (predecessor : option Uuid)
    (input : PageIngestRequest) (canonical_original_url canonical_final_url content content_sha256 : str)
    (id : Uuid) (now : Timestamp) : PageRevisionRow := {|
  pv_id := id; pv_tenant_id := tenant_id; pv_page_id := page_id;
  pv_predecessor_revision_id := predecessor;
  pv_original_url := canonical_original_url; pv_final_url := canonical_final_url;
  pv_title := nullif_empty (default [] (pi_title input)); pv_content_text := content;
  pv_content_sha256 := content_sha256; pv_content_type := pi_content_type input;
  pv_http_status := as_i16 (Z.of_N (pi_http_status input));
  pv_published_at := pg_timestamptz <$> pi_published_at input;
  pv_fetched_at := pg_timestamptz (pi_fetched_at input); pv_created_at := now |}.

Definition ingest_embedding_row (tenant_id revision_id : Uuid) (input : PageIngestRequest)
    (vector : list f32) (id : Uuid) (now : Timestamp) : EmbeddingRow := {|
  em_id := id; em_tenant_id := tenant_id; em_revision_id := revision_id;
  em_model := ep_model (pi_embedding input); em_model_version := ep_model_version (pi_embedding input);
  em_dimensions := as_i32 (Z.of_N (ep_dimensions (pi_embedding input)));
  em_normalization := normalization_name (ep_normalization (pi_embedding input));
  em_embedding := vector; em_generated_at := pg_timestamptz (pi_fetched_at input);
  em_created_at := now |}.

(** [inserted_revision] and [selected_revision]. *)
Definition ingest_revision (snapshot db : Database) (tenant_id page_id : Uuid) (row : option Uuid -> PageRevisionRow)
    (content_sha256 : str) : result DbErr (option (Uuid * bool) * Database) :=
  let existing := option_map (fun v => (pv_id v, false))
    (head (List.filter (fun v => bool_decide (pv_page_id v = page_id) &&
       bool_decide (pv_tenant_id v = tenant_id) &&
       bool_decide (pv_content_sha256 v = content_sha256)) (page_revisions snapshot))) in
  match List.filter (fun p => bool_decide (pg_id p = page_id)) (pages snapshot) with
  | [] => Ok (existing, db)
  | current_page :: _ =>
      let new := row (pg_latest_revision_id current_page) in
      '(inserted, db') ← insert_page_revision db new;
      Ok (if (inserted : bool) then Some (pv_id new, true) else existing, db')
  end.

(** [inserted_embedding] and [selected_embedding]. *)
Definition ingest_embedding (snapshot db : Database) (row : EmbeddingRow)
    : result DbErr (option Uuid * Database) :=
  '(inserted, db') ← insert_embedding db row;
  Ok (if (inserted : bool) then Some (em_id row)
      else option_map em_id (head (List.filter (same_embedding_key row) (embeddings snapshot))), db').

Definition ingest_statement (tenant_id source_id : Uuid) (input : PageIngestRequest)
    (canonical_original_url canonical_final_url content content_sha256 : str)
    : Stmt (option PageRevision) := fun now _ db draws =>
  let fetched_at := pg_timestamptz (pi_fetched_at input) in
  reject InvalidText
    when negb (texts_ok [canonical_final_url; canonical_original_url; default [] (pi_title input);
                         content; content_sha256; pi_content_type input;
                         ep_model (pi_embedding input); ep_model_version (pi_embedding input)]) ;;
  vector ← ok_or (vector_in (vector_literal (ep_values (pi_embedding input)))) VectorError;
  '(page_id, _, db1) ←
    upsert_page tenant_id source_id canonical_final_url (uuid_draw draws) fetched_at now db;
  '(revision, db2) ← ingest_revision db db1 tenant_id page_id
    (fun predecessor => ingest_revision_row tenant_id page_id predecessor input
       canonical_original_url canonical_final_url content content_sha256 (uuid_draw (S draws)) now)
    content_sha256;
  match revision with
  | None => Ok (None, db2, S (S (S draws)))
  | Some (revision_id, changed) =>
      '(embedding, db3) ← ingest_embedding db db2
        (ingest_embedding_row tenant_id revision_id input vector (uuid_draw (S (S draws))) now);
      let updated := update_visible (pages db) [page_id] page_id in
      let db4 := set_pages (map (fun x =>
        if bool_decide (pg_id x ∈ map pg_id updated) then with_latest revision_id fetched_at now x
        else x)) db3 in
      Ok (match updated, embedding with
          | page :: _, Some embedding_id =>
              Some {| pn_page_id := pg_id page; pn_revision_id := revision_id;
                      pn_embedding_id := embedding_id; pn_source_id := source_id;
                      pn_tenant_id := tenant_id; pn_canonical_url := canonical_final_url;
                      pn_content_sha256 := content_sha256; pn_changed := changed;
                      pn_fetched_at := fetched_at |}
          | _, _ => None
          end, db4, S (S (S draws)))
  end.

Definition ingest_page (tenant_id source_id : Uuid) (input : PageIngestRequest)
    (canonical_original_url canonical_final_url : str) : M PageRevision :=
  let normalized_content := normalize_content (pi_content_text input) in
  let content_sha256 := sha256_hex (as_bytes normalized_content) in
  row ← autocommit (ingest_statement tenant_id source_id input canonical_original_url
                      canonical_final_url normalized_content content_sha256);
  lift (ok_or row (Http.internal (lit "page ingestion returned no durable record"))).

(** ** Search *)

(** One row of [ranked]. *)
Record RankedRow := {
  rw_embedding : EmbeddingRow;
  rw_revision : PageRevisionRow;
  rw_page : PageRow;
  rw_distance : f64
}.
Definition rw_similarity (r : RankedRow) : f64 := f64_sub f64_one (rw_distance r).
Definition rw_id (r : RankedRow) : Uuid := em_id (rw_embedding r).

(** The join, with the tenant, model-space and source conditions. *)
Definition joined_rows (db : Database) (tenant_id : Uuid) (request : EmbeddingSearchRequest)
    : list (EmbeddingRow * PageRevisionRow * PageRow) :=
  let payload := sr_embedding request in
  flat_map (fun e =>
    flat_map (fun v =>
      map (fun p => (e, v, p))
        (List.filter (fun p => bool_decide (pg_id p = pv_page_id v) &&
           bool_decide (pg_tenant_id p = pv_tenant_id v) &&
           (negb (nonempty (sr_source_ids request)) ||
            bool_decide (pg_source_id p ∈ sr_source_ids request))) (pages db)))
      (List.filter (fun v => bool_decide (pv_id v = em_revision_id e) &&
         bool_decide (pv_tenant_id v = em_tenant_id e)) (page_revisions db)))
    (List.filter (fun e => bool_decide (em_tenant_id e = tenant_id) &&
       bool_decide (em_model e = ep_model payload) &&
       bool_decide (em_model_version e = ep_model_version payload) &&
       bool_decide (em_dimensions e = as_i32 (Z.of_N (ep_dimensions payload))) &&
       bool_decide (em_normalization e = normalization_name (ep_normalization payload)))
      (embeddings db)).

(** PostgreSQL's [=] and [>] on [double precision]. *)
Definition pg_eq (x y : f64) : bool := pg_ge x y && pg_ge y x.

(** [distance > $d OR (distance = $d AND embedding_id > $id)] *)
Definition after_key (d : f64) (id : Uuid) (r : RankedRow) : bool :=
  pg_lt d (rw_distance r) ||
  (pg_eq (rw_distance r) d &&
   match ord_cmp id (rw_id r) with Lt => true | _ => false end).

(** [ORDER BY distance ASC, embedding_id ASC] *)
Definition hit_order (a b : RankedRow) : bool :=
  pg_lt (rw_distance a) (rw_distance b) ||
  (pg_eq (rw_distance a) (rw_distance b) &&
   match ord_cmp (rw_id a) (rw_id b) with Gt => false | _ => true end).

Definition cursor_admits (cursor : option SearchCursor) (r : RankedRow) : bool :=
  match cursor with
  | Some c => after_key (sc_distance c) (sc_embedding_id c) r
  | None => true
  end.

(** [ranked] and [filtered], before the cursor, order and limit. *)
Definition filtered_rows (db : Database) (tenant_id : Uuid) (request : EmbeddingSearchRequest)
    : result DbErr (list RankedRow) :=
  let payload := sr_embedding request in
  reject InvalidText when negb (texts_ok [ep_model payload; ep_model_version payload]) ;;
  vector ← ok_or (vector_in (vector_literal (ep_values payload))) VectorError;
  ranked ← mapM (fun '(e, v, p) =>
      distance ← ok_or (cosine_distance (em_embedding e) vector) VectorError;
      Ok {| rw_embedding := e; rw_revision := v; rw_page := p; rw_distance := distance |})
    (joined_rows db tenant_id request);
  Ok (List.filter (fun r => pg_ge (rw_similarity r) (f64_of_f32 (sr_min_similarity request))) ranked).

Definition search_statement (tenant_id : Uuid) (request : EmbeddingSearchRequest)
    : Stmt (list RankedRow) := fun _ _ db draws =>
  rows ← filtered_rows db tenant_id request;
  Ok (take (S (N.to_nat (sr_limit request)))
        (sort_by hit_order (List.filter (cursor_admits (sr_cursor request)) rows)), db, draws).

(** The normalization is decoded from the name it was stored under. *)
Definition parse_normalization (name : str) : option VectorNormalization :=
  find (fun n => bool_decide (normalization_name n = name)) [NoNormalization; L2; UnitLength].

Definition decode_search_wire (r : RankedRow) : result HttpError SearchWire :=
  let bad := Http.from_json_err (lit "invalid row") in
  similarity ← ok_or (json_f64 (rw_similarity r)) bad;
  distance ← ok_or (json_f64 (rw_distance r)) bad;
  normalization ← ok_or (parse_normalization (em_normalization (rw_embedding r))) bad;
  Ok {| sw_embedding_id := em_id (rw_embedding r); sw_revision_id := pv_id (rw_revision r);
        sw_page_id := pg_id (rw_page r); sw_source_id := pg_source_id (rw_page r);
        sw_canonical_url := pg_canonical_url (rw_page r);
        sw_content_sha256 := pv_content_sha256 (rw_revision r); sw_title := pv_title (rw_revision r);
        sw_excerpt := take 600 (pv_content_text (rw_revision r)); sw_similarity := similarity;
        sw_distance := distance; sw_model := em_model (rw_embedding r);
        sw_model_version := em_model_version (rw_embedding r);
        sw_dimensions := Z.to_N (em_dimensions (rw_embedding r));
        sw_normalization := normalization; sw_fetched_at := pv_fetched_at (rw_revision r) |}.

(** Truncation to the requested size, and the cursor of the last hit kept. *)
Definition search_page (limit : N) (records : list SearchRecord) : SearchPage :=
  let requested := N.to_nat limit in
  let has_more := (requested <? length records)%nat in
  let records := if has_more then take requested records else records in
  let next_cursor :=
    if has_more then
      option_map (fun record => {| sc_distance := sh_distance (se_hit record);
                                   sc_embedding_id := sh_embedding_id (se_hit record) |})
        (last records)
    else None in
  {| sp_response := {| es_hits := map se_hit records; es_next_cursor := next_cursor |};
     sp_records := records |}.

Definition search_embeddings (tenant_id : Uuid) (request : EmbeddingSearchRequest) : M SearchPage :=
  rows ← autocommit (search_statement tenant_id request);
  records ← lift (mapM (fun row => into_record <$> decode_search_wire row) rows);
  mret (search_page (sr_limit request) records).

(** ** Historical matching *)
Definition with_min_similarity (request : EmbeddingSearchRequest) (x : f32) : EmbeddingSearchRequest := {|
  sr_embedding := sr_embedding request; sr_min_similarity := x; sr_limit := sr_limit request;
  sr_source_ids := sr_source_ids request; sr_cursor := sr_cursor request
|}.

Definition match_identity (tenant_id alert_rule_id alert_rule_revision_id : Uuid) (record : SearchRecord)
    : MatchIdentity :=
  let hit := se_hit record in {|
  mi_tenant_id := tenant_id; mi_alert_rule_id := alert_rule_id;
  mi_alert_rule_revision_id := alert_rule_revision_id; mi_page_revision_id := sh_revision_id hit;
  mi_content_sha256 := se_content_sha256 record; mi_model := sh_model hit;
  mi_model_version := sh_model_version hit; mi_dimensions := sh_dimensions hit;
  mi_normalization := sh_normalization hit
|}.

Definition match_explanation (alert_rule_revision_id : Uuid) (threshold : f64) (record : SearchRecord)
    : Explanation :=
  let hit := se_hit record in
  [(lit "semantic_similarity", EvNumber (sh_similarity hit));
   (lit "threshold", EvNumber threshold);
   (lit "alert_rule_revision_id", EvText (uuid_to_string alert_rule_revision_id));
   (lit "page_revision_id", EvText (uuid_to_string (sh_revision_id hit)));
   (lit "model", EvText (sh_model hit));
   (lit "model_version", EvText (sh_model_version hit));
   (lit "dimensions", EvInt (sh_dimensions hit));
   (lit "normalization", EvText (normalization_name (sh_normalization hit)));
   (lit "canonical_url", EvText (sh_canonical_url hit));
   (lit "content_sha256", EvText (se_content_sha256 record))].

Definition historical_row (id tenant_id alert_rule_id alert_rule_revision_id : Uuid)
    (threshold : f64) (record : SearchRecord) (now : Timestamp) : CandidateRow := {|
  mc_id := id; mc_tenant_id := tenant_id; mc_alert_rule_id := alert_rule_id;
  mc_alert_rule_revision_id := Some alert_rule_revision_id;
  mc_revision_id := sh_revision_id (se_hit record);
  mc_embedding_id := Some (sh_embedding_id (se_hit record));
  mc_match_mode := HistoricalPageSearch; mc_alert_embedding_id := None;
  mc_page_embedding_sha256 := None; mc_page_embedding_model := None;
  mc_page_embedding_model_version := None; mc_page_embedding_dimensions := None;
  mc_page_embedding_normalization := None;
  mc_canonical_match_key :=
    match_key (match_identity tenant_id alert_rule_id alert_rule_revision_id record);
  mc_similarity := sh_similarity (se_hit record); mc_threshold := threshold;
  mc_status := lit "pending";
  mc_score_explanation := match_explanation alert_rule_revision_id threshold record;
  mc_created_at := now; mc_updated_at := now
|}.

Definition same_historical_match (row existing : CandidateRow) : bool :=
  bool_decide (mc_tenant_id existing = mc_tenant_id row) &&
  bool_decide (mc_alert_rule_id existing = mc_alert_rule_id row) &&
  bool_decide (mc_alert_rule_revision_id existing = mc_alert_rule_revision_id row) &&
  bool_decide (mc_revision_id existing = mc_revision_id row) &&
  bool_decide (mc_embedding_id existing = mc_embedding_id row) &&
  bool_decide (mc_canonical_match_key existing = mc_canonical_match_key row).

Definition match_statement_at (snapshot : Database) (tenant_id alert_rule_id alert_rule_revision_id : Uuid) (threshold : f64)
    (record : SearchRecord) : Stmt (option CandidateRow) := fun now _ db draws =>
  let row := historical_row (uuid_draw draws) tenant_id alert_rule_id alert_rule_revision_id
               threshold record now in
  reject InvalidText
    when negb (texts_ok (mc_canonical_match_key row :: evidence_texts (mc_score_explanation row))) ;;
  '(inserted, db') ← insert_candidate db row;
  Ok (if (inserted : bool) then Some row
      else head (List.filter (same_historical_match row) (candidates snapshot)), db', S draws).

Definition match_statement (tenant_id alert_rule_id alert_rule_revision_id : Uuid) (threshold : f64)
    (record : SearchRecord) : Stmt (option CandidateRow) := fun now s db draws =>
  match_statement_at db tenant_id alert_rule_id alert_rule_revision_id threshold record now s db draws.

Definition persist_match (tenant_id alert_rule_id alert_rule_revision_id : Uuid) (threshold : f64)
    (record : SearchRecord) : M MatchCandidate :=
  row ← autocommit (match_statement tenant_id alert_rule_id alert_rule_revision_id threshold record);
  candidate ← lift (decode_optional (decode_row match_candidate_of_row) row);
  lift (ok_or candidate (Http.internal (lit "match upsert returned no durable record"))).

Fixpoint persist_matches (tenant_id alert_rule_id alert_rule_revision_id : Uuid) (threshold : f64)
    (records : list SearchRecord) : M (list MatchCandidate) :=
  match records with
  | [] => mret []
  | record :: records' =>
      candidate ← persist_match tenant_id alert_rule_id alert_rule_revision_id threshold record;
      rest ← persist_matches tenant_id alert_rule_id alert_rule_revision_id threshold records';
      mret (candidate :: rest)
  end.

Definition evaluate_matches (tenant_id alert_rule_id alert_rule_revision_id : Uuid) (threshold : f64)
    (search : EmbeddingSearchRequest) : M (list MatchCandidate) :=
  let search := with_min_similarity search
                  (fmax (sr_min_similarity search) (f32_of_f64 threshold)) in
  page ← search_embeddings tenant_id search;
  persist_matches tenant_id alert_rule_id alert_rule_revision_id threshold (sp_records page).
End Store.

(** A row the statement has modified is not updated again. *)
Lemma update_visible_modified snapshot target : update_visible snapshot [target] target = [].
Proof.
  apply filter_none. intros p _. destruct (bool_decide (pg_id p = target)) eqn:E; [|done].
  bool_prop. subst. by rewrite bool_decide_eq_true_2 by left.
Qed.
