(* ===== verification/StoreSpec.v ===== *)
(** * What the store guarantees ([src/store.rs])

    Search is a page of one ordered result list, and cursors walk it without
    gaps or repetitions; the page-ingestion statement never returns a row;
    historical matching appends evidence of one tenant and repeats its answer. *)

From stdpp Require Import strings.
From S2P Require Import Prelude Ordered RustStr Floats Externals Samples HttpError.
From S2P Require Import Database AlertStore ReverseMatch ReverseMatchSpec.
From S2P Require Import ReverseIngestSpec Store.

(** ** The order of search results *)
Lemma hit_order_spec a b :
  hit_order a b = true <->
  pg_ge (rw_distance b) (rw_distance a) = true /\
  (pg_ge (rw_distance a) (rw_distance b) = true ->
   (uuid_u128 (rw_id a) <= uuid_u128 (rw_id b))%N).
Proof.
  unfold hit_order, pg_eq, pg_lt. simpl.
  pose proof (pg_ge_total (rw_distance a) (rw_distance b)) as Ht.
  destruct (pg_ge (rw_distance a) (rw_distance b)), (pg_ge (rw_distance b) (rw_distance a)); simpl;
    destruct (N.compare_spec (uuid_u128 (rw_id a)) (uuid_u128 (rw_id b)));
    split; try intuition (discriminate || lia); intros; destruct_and?; intuition (discriminate || lia).
Qed.

Lemma hit_order_total a b : hit_order a b = true \/ hit_order b a = true.
Proof.
  rewrite !hit_order_spec.
  destruct (pg_ge (rw_distance a) (rw_distance b)) eqn:E1, (pg_ge (rw_distance b) (rw_distance a)) eqn:E2;
    try (left; split; [done|]; discriminate); try (right; split; [done|]; discriminate).
  - destruct (N.le_ge_cases (uuid_u128 (rw_id a)) (uuid_u128 (rw_id b))); auto.
  - destruct (pg_ge_total (rw_distance a) (rw_distance b)); congruence.
Qed.

Lemma hit_order_trans a b c : hit_order a b = true -> hit_order b c = true -> hit_order a c = true.
Proof.
  rewrite !hit_order_spec. intros [Hab Iab] [Hbc Ibc]. split; [by eapply pg_ge_trans|].
  intros Hac. transitivity (uuid_u128 (rw_id b)).
  - apply Iab. by apply (pg_ge_trans _ (rw_distance c)).
  - apply Ibc. by apply (pg_ge_trans _ (rw_distance a)).
Qed.

Lemma hit_order_antisym a b : hit_order a b = true -> hit_order b a = true -> rw_id a = rw_id b.
Proof.
  rewrite !hit_order_spec. intros [H1 I1] [H2 I2]. apply uuid_eq.
  specialize (I1 H2). specialize (I2 H1). lia.
Qed.

(** The cursor of a row admits exactly the rows strictly after it. *)
Lemma after_key_spec x y : after_key (rw_distance x) (rw_id x) y = negb (hit_order y x).
Proof.
  unfold after_key, hit_order, pg_eq, pg_lt. simpl.
  pose proof (pg_ge_total (rw_distance x) (rw_distance y)) as Ht.
  destruct (pg_ge (rw_distance x) (rw_distance y)), (pg_ge (rw_distance y) (rw_distance x)); simpl;
    destruct (N.compare_spec (uuid_u128 (rw_id x)) (uuid_u128 (rw_id y)));
    destruct (N.compare_spec (uuid_u128 (rw_id y)) (uuid_u128 (rw_id x))); try lia; auto.
  all: by destruct Ht.
Qed.

(** ** Search *)

(** The primary keys of the searched tables. *)
Record search_wf (db : Database) : Prop := {
  se_embedding_ids : NoDup (map em_id (embeddings db));
  se_revision_ids : NoDup (map pv_id (page_revisions db));
  se_page_ids : NoDup (map pg_id (pages db))
}.

Section Search.
Context `{UuidLib, DigestLib, InterfacesLib, PgLib, Deployment, RowDecoders}.
Context (tenant : Uuid).

Lemma joined_rows_elem db request e v p :
  (e, v, p) ∈ joined_rows db tenant request <->
  (e ∈ embeddings db /\ v ∈ page_revisions db /\ p ∈ pages db) /\
  (em_tenant_id e = tenant /\ em_model e = ep_model (sr_embedding request) /\
   em_model_version e = ep_model_version (sr_embedding request) /\
   em_dimensions e = as_i32 (Z.of_N (ep_dimensions (sr_embedding request))) /\
   em_normalization e = normalization_name (ep_normalization (sr_embedding request))) /\
  (pv_id v = em_revision_id e /\ pv_tenant_id v = tenant) /\
  (pg_id p = pv_page_id v /\ pg_tenant_id p = tenant) /\
  (sr_source_ids request = [] \/ pg_source_id p ∈ sr_source_ids request).
Proof.
  unfold joined_rows. rewrite elem_of_flat_map. split.
  - intros (e' & [He Hpe]%elem_of_filter_bool & Hv).
    apply elem_of_flat_map in Hv as (v' & [Hv Hpv]%elem_of_filter_bool & Hp).
    apply list_elem_of_fmap in Hp as (p' & [= <- <- <-] & [Hp Hpp]%elem_of_filter_bool).
    apply andb_prop in Hpp as [Hpp Hs]. bool_prop.
    split; [done|]. split; [done|]. split; [split; congruence|]. split; [split; congruence|].
    apply orb_prop in Hs as [Hs|Hs]; bool_prop; [left; by destruct (sr_source_ids request) | by right].
  - intros ((He & Hv & Hp) & (E1 & E2 & E3 & E4 & E5) & (E6 & E7) & (E8 & E9) & Hs). exists e.
    split; [apply elem_of_filter_bool; split; [done|]; by rewrite !bool_decide_eq_true_2|].
    apply elem_of_flat_map. exists v.
    split; [apply elem_of_filter_bool; split; [done|]; by rewrite !bool_decide_eq_true_2 by congruence|].
    apply list_elem_of_fmap. exists p. split; [done|]. apply elem_of_filter_bool. split; [done|].
    rewrite !(bool_decide_eq_true_2 (_ = _)) by congruence. simpl.
    destruct Hs as [-> | Hs]; [done|]. by rewrite bool_decide_eq_true_2, orb_true_r.
Qed.

Lemma NoDup_of_map {A B} (f : A -> B) l : NoDup (map f l) -> NoDup l.
Proof. apply NoDup_fmap_1. Qed.

Lemma joined_rows_NoDup db request : search_wf db -> NoDup (joined_rows db tenant request).
Proof.
  intros [He Hv Hp]. unfold joined_rows. apply NoDup_flat_map.
  - by eapply NoDup_filter_bool, NoDup_of_map.
  - intros e _. apply NoDup_flat_map.
    + by eapply NoDup_filter_bool, NoDup_of_map.
    + intros v _. apply (NoDup_fmap_2 (fun p => (e, v, p))). by eapply NoDup_filter_bool, NoDup_of_map.
    + by intros v v' z (p & -> & _)%list_elem_of_fmap (p' & [= ->] & _)%list_elem_of_fmap.
  - intros e e' z (v & _ & Hz)%elem_of_flat_map (v' & _ & Hz')%elem_of_flat_map.
    apply list_elem_of_fmap in Hz as (p & -> & _), Hz' as (p' & [= ->] & _). done.
Qed.

Definition row_of (r : RankedRow) : EmbeddingRow * PageRevisionRow * PageRow :=
  (rw_embedding r, rw_revision r, rw_page r).

(** What filtering returns: the joined rows whose similarity is high enough,
    with their distances. *)
Lemma filtered_rows_ok db request rows :
  filtered_rows db tenant request = Ok rows ->
  exists vector ranked,
    vector_in (vector_literal (ep_values (sr_embedding request))) = Some vector /\
    map row_of ranked = joined_rows db tenant request /\
    (forall r, r ∈ ranked -> cosine_distance (em_embedding (rw_embedding r)) vector = Some (rw_distance r)) /\
    rows = List.filter (fun r => pg_ge (rw_similarity r) (f64_of_f32 (sr_min_similarity request))) ranked.
Proof.
  unfold filtered_rows. intros Hf. inv_ok. rename Ha into Hvec, Ha0 into Hr.
  apply mapM_ok_Forall2 in Hr. exists a, a0. split; [done|]. split; [|split; [|done]].
  - clear Hvec. induction Hr as [|[[e v] p] r l k Hx _ IH]; simpl; [done|].
    apply bind_ok in Hx as (d & _ & [= <-]). by rewrite IH.
  - intros r Hin. destruct (Forall2_elem_r _ _ _ _ Hr Hin) as ([[e v] p] & _ & Hx).
    by apply bind_ok in Hx as (d & Hd%ok_or_ok & [= <-]).
Qed.

Lemma filtered_rows_tie_free db request rows :
  search_wf db -> filtered_rows db tenant request = Ok rows ->
  NoDup rows /\ tie_free hit_order rows.
Proof.
  intros Hwf (vector & ranked & _ & Hmap & Hd & ->)%filtered_rows_ok.
  split.
  - apply NoDup_filter_bool, (NoDup_of_map row_of). rewrite Hmap. by apply joined_rows_NoDup.
  - intros x y [Hx _]%elem_of_filter_bool [Hy _]%elem_of_filter_bool Hxy Hyx.
    pose proof (hit_order_antisym x y Hxy Hyx) as Hid.
    assert (forall r, r ∈ ranked -> row_of r ∈ joined_rows db tenant request) as Hin
      by (intros r Hr; rewrite <-Hmap; by apply list_elem_of_fmap_2).
    pose proof (proj1 (joined_rows_elem _ _ _ _ _) (Hin x Hx)) as ((He & Hv & Hp) & _ & (Hvi & _) & (Hpi & _) & _).
    pose proof (proj1 (joined_rows_elem _ _ _ _ _) (Hin y Hy)) as ((He' & Hv' & Hp') & _ & (Hvi' & _) & (Hpi' & _) & _).
    apply Hd in Hx, Hy. destruct x as [e v p d], y as [e' v' p' d']. unfold rw_id in *. simpl in *.
    assert (e = e') as <- by (by eapply (NoDup_map_inj em_id); [apply Hwf|..]).
    assert (v = v') as <- by (eapply (NoDup_map_inj pv_id); [apply Hwf|done..|congruence]).
    assert (p = p') as <- by (eapply (NoDup_map_inj pg_id); [apply Hwf|done..|congruence]).
    f_equal. congruence.
Qed.

Definition with_cursor (request : EmbeddingSearchRequest) (cursor : option SearchCursor)
    : EmbeddingSearchRequest := {|
  sr_embedding := sr_embedding request; sr_min_similarity := sr_min_similarity request;
  sr_limit := sr_limit request; sr_source_ids := sr_source_ids request; sr_cursor := cursor
|}.

Definition decode_hit (row : RankedRow) : result HttpError SearchRecord :=
  into_record <$> decode_search_wire row.

(** The whole result list of a search: no cursor, no limit. *)
Definition all_hits (db : Database) (request : EmbeddingSearchRequest) : result HttpError (list SearchRecord) :=
  rows ← map_err db_error (filtered_rows db tenant request);
  mapM decode_hit (sort_by hit_order rows).

Definition cursor_of (record : SearchRecord) : SearchCursor := {|
  sc_distance := sh_distance (se_hit record); sc_embedding_id := sh_embedding_id (se_hit record)
|}.

(** The cursor after the first [k] hits. *)
Definition page_cursor (records : list SearchRecord) (k : nat) : option SearchCursor :=
  match k with O => None | S j => cursor_of <$> records !! j end.

(** The hits after a cursor: those whose distance and identifier, as the
    database computes them, come after the cursor's. *)
Definition hits_after (db : Database) (request : EmbeddingSearchRequest) (cursor : option SearchCursor)
    : result HttpError (list SearchRecord) :=
  rows ← map_err db_error (filtered_rows db tenant request);
  mapM decode_hit (sort_by hit_order (List.filter (cursor_admits cursor) rows)).

(** The distance of the [k]th hit is the same number after it has been
    written as JSON and read again. *)
Definition survives (db : Database) (request : EmbeddingSearchRequest) (k : nat) : Prop :=
  forall rows x, filtered_rows db tenant request = Ok rows ->
    sort_by hit_order rows !! pred k = Some x -> json_f64 (rw_distance x) = Some (rw_distance x).

Lemma decode_hit_cursor r record :
  json_f64 (rw_distance r) = Some (rw_distance r) -> decode_hit r = Ok record ->
  cursor_of record = {| sc_distance := rw_distance r; sc_embedding_id := rw_id r |}.
Proof.
  intros Hj Hd. unfold decode_hit, decode_search_wire in Hd. inv_ok. unfold cursor_of. cbn.
  match goal with E : json_f64 (rw_distance r) = _ |- _ => rewrite Hj in E; by injection E as <- end.
Qed.

Lemma cursor_drops db request rows records k :
  search_wf db -> filtered_rows db tenant request = Ok rows -> survives db request k ->
  Forall2 (fun r record => decode_hit r = Ok record) (sort_by hit_order rows) records ->
  k <= length records ->
  sort_by hit_order (List.filter (cursor_admits (page_cursor records k)) rows) =
  drop k (sort_by hit_order rows).
Proof.
  intros Hwf Hf Hsv Hdec Hk. destruct (filtered_rows_tie_free _ _ _ Hwf Hf) as [Hnd Htf].
  pose proof hit_order_total as Htot. pose proof hit_order_trans as Htr.
  rewrite (sort_by_filter _ Htot Htr) by done.
  destruct k as [|j]; [by apply filter_all|].
  destruct (lookup_lt_is_Some_2 records j Hk) as [record Hrec].
  destruct (Forall2_lookup_r _ _ _ _ _ Hdec Hrec) as (x & Hx & Hd).
  unfold page_cursor. rewrite Hrec. cbn. rewrite (decode_hit_cursor x record); [|by eapply Hsv | done]. cbn.
  rewrite <-(filter_after_sorted _ Htot _ j x); [|by apply sort_by_sorted | | |done].
  - apply filter_ext_elem. intros y _. apply after_key_spec.
  - by rewrite sort_by_perm.
  - intros a b Ha Hb. apply elem_of_sort_by in Ha, Hb. by apply Htf.
Qed.

Lemma mapM_ok_part {E A B} (f : A -> result E B) l part out :
  (forall x, x ∈ part -> x ∈ l) -> mapM f l = Ok out -> exists out', mapM f part = Ok out'.
Proof.
  intros Hp Hl%mapM_ok_Forall2. induction part as [|x part IH]; [by eexists|].
  destruct (Forall2_elem_l _ _ _ _ Hl (Hp x ltac:(left))) as (y & _ & Hy).
  destruct IH as [ys Hys]; [intros z Hz; apply Hp; by right|].
  exists (y :: ys). simpl. by rewrite Hy, Hys.
Qed.

Lemma page_cursor_drop (records : list SearchRecord) k n :
  0 < n -> page_cursor (drop k records) n = page_cursor records (n + k).
Proof. intros Hn. destruct n as [|n]; [lia|]. simpl. by rewrite lookup_drop, (Nat.add_comm k n). Qed.

Lemma search_page_window (n k : nat) limit records :
  limit = N.of_nat n -> 0 < n -> k <= length records ->
  let page := search_page limit (take (S n) (drop k records)) in
  es_hits (sp_response page) = map se_hit (take n (drop k records)) /\
  es_next_cursor (sp_response page) =
    (if (n + k <? length records)%nat then page_cursor records (n + k) else None) /\
  sp_records page = take n (drop k records).
Proof.
  intros -> Hn Hk. unfold search_page. rewrite Nat2N.id, length_take, length_drop.
  cbv zeta. cbn [sp_response sp_records es_hits es_next_cursor].
  destruct (Nat.ltb_spec n (min (S n) (length records - k))), (Nat.ltb_spec (n + k) (length records)); try lia.
  - rewrite take_take, Nat.min_l by lia. split; [done|]. split; [|done].
    destruct n as [|n]; [lia|]. cbn [page_cursor Nat.add]. rewrite last_lookup, length_take, length_drop.
    replace (Nat.pred (min (S n) (length records - k))) with n by lia.
    rewrite lookup_take_lt by lia. rewrite lookup_drop. by rewrite (Nat.add_comm k n).
  - rewrite !(take_ge (drop k records)) by (rewrite length_drop; lia). done.
Qed.

(** C17: pages of a search.  With distinct primary keys, a search that starts
    at a cursor answers with the first [limit] hits after it, in the order of
    distance and identifier, hands out the cursor of its last hit exactly when
    more follow, and changes no table.  The distance in a cursor has been
    written and read as JSON.  When that of the [k]th hit came through
    unchanged, the hits after its cursor are those of the complete result from
    the [k]th on: none is skipped and none comes twice.  (The cursor of a
    first page, [k = 0], holds no distance.) *)
Theorem search_pagination request records cursor w :
  search_wf (w_db w) -> (0 < sr_limit request)%N -> all_hits (w_db w) request = Ok records ->
  let n := N.to_nat (sr_limit request) in
  exists rest page w',
    hits_after (w_db w) request cursor = Ok rest /\
    search_embeddings tenant (with_cursor request cursor) w = (Ok page, w') /\
    w_db w' = w_db w /\
    es_hits (sp_response page) = map se_hit (take n rest) /\
    es_next_cursor (sp_response page) = (if (n <? length rest)%nat then page_cursor rest n else None) /\
    sp_records page = take n rest /\
    forall k, k <= length records -> cursor = page_cursor records k ->
      k = 0 \/ survives (w_db w) request k ->
      rest = drop k records /\ page_cursor rest n = page_cursor records (n + k).
Proof.
  intros Hwf Hl Hall n. unfold all_hits in Hall. inv_ok. rename a into rows, Ha into Hf.
  destruct (mapM_ok_part decode_hit (sort_by hit_order rows)
    (sort_by hit_order (List.filter (cursor_admits cursor) rows)) records) as [rest Hrest]; [|done|].
  { intros x Hx. apply elem_of_sort_by, elem_of_filter_bool in Hx as [Hx _].
    by apply elem_of_sort_by. }
  destruct (search_page_window n 0 (sr_limit request) rest) as (H1' & H2' & H3'); [lia..|].
  rewrite drop_0, Nat.add_0_r in *.
  exists rest, (search_page (sr_limit request) (take (S n) rest)).
  unfold search_embeddings, autocommit, with_transaction. rewrite M_bind_run. unfold execute, search_statement.
  cbn [w_db w_draws w_now w_settings with_cursor sr_limit sr_cursor].
  change (filtered_rows (w_db w) tenant (with_cursor _ _)) with (filtered_rows (w_db w) tenant request).
  unfold hits_after. rewrite Hf. cbn [mbind result_bind map_err]. rewrite M_bind_run. cbn [lift].
  assert (mapM decode_hit (take (S n) (sort_by hit_order (List.filter (cursor_admits cursor) rows))) =
    Ok (take (S n) rest)) as E.
  { apply mapM_ok_Forall2. by apply Forall2_take, mapM_ok_Forall2. }
  unfold n in E at 1. unfold decode_hit in E. rewrite E. eexists. split; [done|]. split; [reflexivity|].
  split; [done|]. do 3 (split; [done|]). intros k Hk -> Hsv.
  assert (rest = drop k records) as ->; [|split; [done | apply page_cursor_drop; lia]].
  pose proof (proj1 (mapM_ok_Forall2 _ _ _) Hall) as Hdec.
  assert (sort_by hit_order (List.filter (cursor_admits (page_cursor records k)) rows) =
    drop k (sort_by hit_order rows)) as Hdrop.
  { destruct Hsv as [-> | Hsv]; [|by eapply cursor_drops]. simpl. by rewrite filter_all. }
  rewrite Hdrop in Hrest. apply (Forall2_drop _ _ _ k), mapM_ok_Forall2 in Hdec. congruence.
Qed.

(** A search as a function of the tables. *)
Definition search_result (db : Database) (request : EmbeddingSearchRequest) : result HttpError SearchPage :=
  '(rows, _, _) ← map_err db_error (search_statement tenant request 0%Z no_settings db 0);
  records ← mapM decode_hit rows;
  Ok (search_page (sr_limit request) records).

Lemma search_run request w :
  exists w', search_embeddings tenant request w = (search_result (w_db w) request, w') /\ w_db w' = w_db w.
Proof.
  unfold search_embeddings, search_result, autocommit, with_transaction. rewrite M_bind_run.
  unfold execute, search_statement. cbn [w_db w_draws w_now w_settings].
  destruct (filtered_rows (w_db w) tenant request) as [rows|]; cbn; [|by eexists].
  fold decode_hit. destruct (mapM _ _); by eexists.
Qed.

Lemma search_result_candidates f db request :
  search_result (set_candidates f db) request = search_result db request.
Proof.
  unfold search_result, search_statement.
  change (filtered_rows (set_candidates f db) tenant request) with (filtered_rows db tenant request).
  by destruct (filtered_rows db tenant request).
Qed.

(** What a record of a search result stands for. *)
Definition found (db : Database) (request : EmbeddingSearchRequest) (hit : EmbeddingSearchHit) : Prop :=
  exists e v p d, e ∈ embeddings db /\ v ∈ page_revisions db /\ p ∈ pages db /\
    sh_embedding_id hit = em_id e /\ em_tenant_id e = tenant /\
    em_model e = ep_model (sr_embedding request) /\
    em_model_version e = ep_model_version (sr_embedding request) /\
    em_dimensions e = as_i32 (Z.of_N (ep_dimensions (sr_embedding request))) /\
    em_normalization e = normalization_name (ep_normalization (sr_embedding request)) /\
    sh_revision_id hit = pv_id v /\ em_revision_id e = pv_id v /\ pv_tenant_id v = tenant /\
    sh_page_id hit = pg_id p /\ pv_page_id v = pg_id p /\ pg_tenant_id p = tenant /\
    sh_source_id hit = pg_source_id p /\
    (sr_source_ids request = [] \/ pg_source_id p ∈ sr_source_ids request) /\
    (exists vector, vector_in (vector_literal (ep_values (sr_embedding request))) = Some vector /\
       cosine_distance (em_embedding e) vector = Some d) /\
    json_f64 d = Some (sh_distance hit) /\ json_f64 (f64_sub f64_one d) = Some (sh_similarity hit) /\
    pg_ge (f64_sub f64_one d) (f64_of_f32 (sr_min_similarity request)) = true.

Lemma search_found db request page :
  search_result db request = Ok page ->
  length (sp_records page) <= N.to_nat (sr_limit request) /\
  es_hits (sp_response page) = map se_hit (sp_records page) /\
  forall record, record ∈ sp_records page -> found db request (se_hit record).
Proof.
  unfold search_result, search_statement. intros Hs.
  apply bind_ok in Hs as ([[rows' db'] draws'] & Hst & Hs).
  apply bind_ok in Hs as (records & Hm & [= <-]). apply map_err_ok, bind_ok in Hst as (rows & Hf & Hst).
  injection Hst as Hrows _ _.
  unfold search_page. set (n := N.to_nat (sr_limit request)) in *. cbv zeta.
  cbn [sp_records sp_response es_hits].
  split; [destruct (Nat.ltb_spec n (length records)); [rewrite length_take|]; lia|]. split; [done|].
  intros record Hrec. assert (record ∈ records) as Hin.
  { destruct (n <? length records)%nat; [|done].
    by apply elem_of_take in Hrec as (i & Hr%list_elem_of_lookup_2 & _). }
  apply mapM_ok_Forall2 in Hm. destruct (Forall2_elem_r _ _ _ _ Hm Hin) as (r & Hr & Hd).
  rewrite <-Hrows in Hr. apply elem_of_take in Hr as (i & Hr%list_elem_of_lookup_2 & _).
  apply elem_of_sort_by, elem_of_filter_bool in Hr as [Hr _].
  apply filtered_rows_ok in Hf as (vector & ranked & Hvec & Hmap & Hdist & ->).
  apply elem_of_filter_bool in Hr as [Hr Hge].
  assert (row_of r ∈ joined_rows db tenant request) as Hj by (rewrite <-Hmap; by apply list_elem_of_fmap_2).
  apply joined_rows_elem in Hj as ((He & Hv & Hp) & (E1 & E2 & E3 & E4 & E5) & (E6 & E7) & (E8 & E9) & Hsrc).
  specialize (Hdist _ Hr). unfold decode_hit, decode_search_wire in Hd. inv_ok. cbn.
  exists (rw_embedding r), (rw_revision r), (rw_page r), (rw_distance r).
  repeat (split; [done || congruence|]). split; [by exists vector|]. done.
Qed.

(** C28: search is confined.  Every hit is a stored vector of the caller's
    tenant in the requested model space (model, version, dimensions and
    normalization), with its distance from the query vector, on a page of a requested source when
    any are named, at least as similar as asked; at most [limit] hits come
    back, and the tables do not change. *)
Theorem search_confined request w :
  let '(r, w') := search_embeddings tenant request w in
  w_db w' = w_db w /\
  forall page, r = Ok page ->
    length (es_hits (sp_response page)) <= N.to_nat (sr_limit request) /\
    forall hit, hit ∈ es_hits (sp_response page) -> found (w_db w) request hit.
Proof.
  destruct (search_run request w) as (w' & -> & Hw). split; [done|].
  intros page (Hl & Hh & Hf)%search_found. rewrite Hh, length_map. split; [done|].
  intros hit (record & -> & Hr)%list_elem_of_fmap. by apply Hf.
Qed.
End Search.

(** ** Page ingestion *)
Section Ingestion.
Context `{UuidLib, DigestLib, InterfacesLib, PgLib, Deployment, RowDecoders}.

(** The latest revision of each page is what it was, or none yet. *)
Definition latest_kept (db db' : Database) : Prop :=
  forall p', p' ∈ pages db' -> pg_latest_revision_id p' = None \/
    exists p, p ∈ pages db /\ pg_id p = pg_id p' /\ pg_latest_revision_id p = pg_latest_revision_id p'.

Lemma upsert_page_latest tenant source url id fetched_at now db page_id latest db' :
  upsert_page tenant source url id fetched_at now db = Ok (page_id, latest, db') ->
  latest_kept db db' /\ page_revisions db' = page_revisions db /\ embeddings db' = embeddings db /\
  candidates db' = candidates db.
Proof.
  unfold upsert_page. destruct (List.filter _ _) as [|q rest].
  - intros Hu. inv_ok. simplify_eq. split; [|done]. intros p [Hp | ->%list_elem_of_singleton]%elem_of_app.
    + right. by exists p.
    + by left.
  - intros [= _ _ <-]. split; [|done]. intros p (x & -> & Hx)%list_elem_of_fmap. right. exists x.
    by destruct (same_page tenant source url x).
Qed.

Lemma insert_page_revision_ok db row inserted db' :
  insert_page_revision db row = Ok (inserted, db') ->
  pages db' = pages db /\ embeddings db' = embeddings db /\ candidates db' = candidates db /\
  appends (page_revisions db) (page_revisions db').
Proof.
  unfold insert_page_revision. intros Hi. inv_ok. destruct (existsb _ _); inv_ok; simplify_eq.
  - repeat split. apply appends_refl.
  - repeat split. by eexists.
Qed.

Lemma insert_embedding_ok db row inserted db' :
  insert_embedding db row = Ok (inserted, db') ->
  pages db' = pages db /\ page_revisions db' = page_revisions db /\ candidates db' = candidates db /\
  appends (embeddings db) (embeddings db').
Proof.
  unfold insert_embedding. intros Hi. inv_ok. destruct (existsb _ _); inv_ok; simplify_eq.
  - repeat split. apply appends_refl.
  - repeat split. by eexists.
Qed.

Lemma ingest_statement_ok tenant source input original_url final_url content sha now s db draws row db' draws' :
  ingest_statement tenant source input original_url final_url content sha now s db draws =
    Ok (row, db', draws') ->
  row = None /\ latest_kept db db' /\ appends (page_revisions db) (page_revisions db') /\
  appends (embeddings db) (embeddings db') /\ candidates db' = candidates db.
Proof.
  unfold ingest_statement. intros Hi. inv_ok. rename Ha into Hvec.
  destruct a0 as [[page_id latest] db1]. rename Ha0 into Hup. apply upsert_page_latest in Hup as (Hl & Hr1 & He1 & Hc1).
  apply bind_ok in Hi as ([revision db2] & Hrev & Hi).
  assert (pages db2 = pages db1 /\ embeddings db2 = embeddings db1 /\ candidates db2 = candidates db1 /\
    appends (page_revisions db1) (page_revisions db2)) as (Hp2 & He2 & Hc2 & Hr2).
  { unfold ingest_revision in Hrev. destruct (List.filter _ (pages db)).
    - injection Hrev as _ <-. repeat split. apply appends_refl.
    - inv_ok. destruct a0 as [inserted db2']. injection Hrev as _ <-. by eapply insert_page_revision_ok. }
  destruct revision as [[revision_id changed]|].
  - apply bind_ok in Hi as ([embedding db3] & Hemb & Hi).
    unfold ingest_embedding in Hemb. apply bind_ok in Hemb as ([inserted db3'] & Ha & Hemb).
    injection Hemb as _ <-.
    apply insert_embedding_ok in Ha as (Hp3 & Hr3 & Hc3 & He3).
    rewrite update_visible_modified in Hi. injection Hi as <- <- _. split; [done|]. unfold latest_kept. simpl.
    rewrite map_id_elem by done.
    rewrite Hp3, Hp2, Hr3, <-Hr1, <-He1, <-He2. repeat (split; [done|]). congruence.
  - injection Hi as <- <- _. split; [done|]. unfold latest_kept. rewrite Hp2, <-Hr1, He2, He1.
    split; [done|]. split; [done|]. split; [apply appends_refl | congruence].
Qed.

(** C30: the page-ingestion route cannot succeed.  Every call ends in the
    generic internal error, for the statement updates a page it has already
    modified and so returns no row; yet it commits, keeping what it inserted:
    page revisions and vectors are appended, while no page's latest revision
    ever moves. *)
Theorem ingest_page_outcome tenant source input original_url final_url w :
  exists e w', ingest_page tenant source input original_url final_url w = (Err e, w') /\
    status e = StatusCode.INTERNAL_SERVER_ERROR /\ code e = lit "internal_error" /\
    latest_kept (w_db w) (w_db w') /\
    appends (page_revisions (w_db w)) (page_revisions (w_db w')) /\
    appends (embeddings (w_db w)) (embeddings (w_db w')) /\
    candidates (w_db w') = candidates (w_db w).
Proof.
  unfold ingest_page, autocommit, with_transaction. rewrite M_bind_run. unfold execute.
  cbn [w_db w_draws w_now w_settings].
  destruct (ingest_statement _ _ _ _ _ _ _ _ _ _ _) as [[[row db'] draws]|e] eqn:Est.
  - apply ingest_statement_ok in Est as (-> & Hl & Hr & He & Hc). do 2 eexists. split; [reflexivity|]. done.
  - do 2 eexists. split; [reflexivity|]. cbn. split; [done|]. split; [done|].
    split; [intros p Hp; right; by exists p|]. split; [apply appends_refl|]. by split; [apply appends_refl|].
Qed.
End Ingestion.

(** ** Historical matching *)
Section Matching.
Context `{UuidLib, DigestLib, InterfacesLib, PgLib, Deployment, RowDecoders}.
Context (tenant rule_id revision_id : Uuid) (threshold : f64).

Definition match_row (record : SearchRecord) (id : Uuid) (now : Timestamp) : CandidateRow :=
  historical_row id tenant rule_id revision_id threshold record now.

Definition match_texts (record : SearchRecord) : list str :=
  match_key (match_identity tenant rule_id revision_id record) ::
  evidence_texts (match_explanation revision_id threshold record).

Definition stored_match (db : Database) (row : CandidateRow) : option CandidateRow :=
  head (List.filter (same_historical_match row) (candidates db)).

(** The tables hold the evidence a record is answered with. *)
Record matched (db : Database) (record : SearchRecord) (m : MatchCandidate) : Prop := {
  ma_texts : texts_ok (match_texts record) = true;
  ma_check : forall id now, candidate_check (match_row record id now) = true;
  ma_stored : exists c, match_candidate_of_row c = Some m /\
    forall id now, stored_match db (match_row record id now) = Some c
}.

Lemma same_historical_key row c : same_historical_match row c = true -> same_candidate_key row c = true.
Proof.
  unfold same_historical_match, same_candidate_key. intros Hs. bool_prop.
  by rewrite !bool_decide_eq_true_2.
Qed.

Lemma same_historical_refl record id now id' now' :
  same_historical_match (match_row record id now) (match_row record id' now') = true.
Proof. unfold same_historical_match. simpl. by rewrite !bool_decide_eq_true_2. Qed.

Lemma matched_grows db new record m :
  matched db record m -> matched (set_candidates (fun l => l ++ new) db) record m.
Proof.
  intros [Ht Hc (c & Hd & Hs)]. constructor; [done | done|]. exists c. split; [done|].
  intros id now. unfold stored_match. by apply head_filter_app, Hs.
Qed.

Lemma fresh_match db record id now id' now' :
  existsb (same_candidate_key (match_row record id now)) (candidates db) = false ->
  stored_match (set_candidates (fun l => l ++ [match_row record id now]) db) (match_row record id' now') =
  Some (match_row record id now).
Proof.
  intros Hk. unfold stored_match. cbn [candidates set_candidates]. rewrite List.filter_app.
  rewrite (filter_none _ (candidates db)).
  - cbn [List.filter app]. by rewrite same_historical_refl.
  - intros x Hx. apply existsb_false_Forall in Hk. rewrite Forall_forall in Hk. specialize (Hk x Hx).
    apply not_true_is_false. intros Hs%same_historical_key.
    change (same_candidate_key (match_row record id now) x = true) in Hs. congruence.
Qed.

(** The rows a match may add. *)
Definition new_match (records : list SearchRecord) (c : CandidateRow) : Prop :=
  candidate_check c = true /\ exists record id now, record ∈ records /\ c = match_row record id now.

Lemma persist_match_run record w r w' :
  persist_match tenant rule_id revision_id threshold record w = (r, w') ->
  (forall m, r = Ok m -> matched (w_db w') record m) /\
  exists new, w_db w' = set_candidates (fun l => l ++ new) (w_db w) /\ Forall (new_match [record]) new.
Proof.
  unfold persist_match. rewrite M_bind_run. unfold autocommit, with_transaction, execute.
  cbn [w_db w_draws w_now w_settings].
  destruct (match_statement _ _ _ _ _ _ _ _ _) as [[[selected db'] draws]|] eqn:Est.
  2:{ intros [= <- <-]. split; [done|]. exists []. by rewrite set_candidates_nil. }
  unfold match_statement, match_statement_at in Est. inv_ok. destruct a as [inserted db1]. injection Est as Hsel <- <-.
  apply insert_candidate_ok in Ha as (Hck & Hin & ->). apply negb_false_iff in Hb.
  fold (match_row record (uuid_draw (w_draws w)) (clock (w_ticks w))) in Hck, Hin, Hsel |- *.
  rewrite M_bind_run. cbn [lift]. intros Hrun.
  assert (exists k, w_db w' = set_candidates (fun l => l ++ if inserted then
      [match_row record (uuid_draw (w_draws w)) (clock (w_ticks w))] else []) (w_db w) /\
    k = match decode_optional (decode_row match_candidate_of_row) selected with
        | Ok candidate => ok_or candidate (Http.internal (lit "match upsert returned no durable record"))
        | Err e => Err e end /\ r = k) as (k & Hdb & -> & ->).
  { destruct (decode_optional _ _); injection Hrun as <- <-; by eexists. }
  rewrite Hdb. split.
  - intros m Hm. destruct selected as [c|]; [|done]. cbn in Hm. unfold decode_row in Hm.
    destruct (match_candidate_of_row c) as [m'|] eqn:Hd; [|done]. cbn in Hm. injection Hm as ->.
    constructor; [exact Hb | by intros; exact Hck|]. exists c. split; [done|]. intros id now.
    destruct (existsb _ (candidates (w_db w))) eqn:Ek; subst inserted; cbn [negb] in *.
    + rewrite set_candidates_nil. exact Hsel.
    + injection Hsel as <-. by apply fresh_match.
  - eexists. split; [reflexivity|]. destruct inserted; [|constructor].
    constructor; [|constructor]. split; [done|]. do 3 eexists. split; [left | reflexivity].
Qed.

Lemma persist_match_repeat record w m :
  matched (w_db w) record m ->
  exists w', persist_match tenant rule_id revision_id threshold record w = (Ok m, w') /\ w_db w' = w_db w.
Proof.
  intros [Ht Hc (c & Hd & Hs)]. unfold persist_match. rewrite M_bind_run.
  unfold autocommit, with_transaction, execute, match_statement, match_statement_at. cbn [w_db w_draws w_now w_settings].
  fold (match_row record (uuid_draw (w_draws w)) (clock (w_ticks w))).
  change (mc_canonical_match_key _ :: _) with (match_texts record). rewrite Ht. cbn [negb].
  unfold insert_candidate. rewrite Hc. cbn [negb].
  specialize (Hs (uuid_draw (w_draws w)) (clock (w_ticks w))).
  rewrite (existsb_member _ _ c); cbn [mbind result_bind].
  2,3: apply head_Some_elem_of, elem_of_filter_bool in Hs as [? ?]; auto using same_historical_key.
  change (head _) with (stored_match (w_db w) (match_row record (uuid_draw (w_draws w)) (clock (w_ticks w)))).
  rewrite Hs, M_bind_run. cbn [lift decode_optional]. unfold decode_row. rewrite Hd. cbn. eauto.
Qed.

Lemma new_match_mono a b new :
  (forall r, r ∈ a -> r ∈ b) -> Forall (new_match a) new -> Forall (new_match b) new.
Proof.
  intros Hab Hf. eapply Forall_impl; [exact Hf|]. intros c [Hc (r & id & now & Hr & E)]. split; [done|].
  exists r, id, now. auto.
Qed.

Lemma persist_matches_run records w r w' :
  persist_matches tenant rule_id revision_id threshold records w = (r, w') ->
  (forall ms, r = Ok ms -> Forall2 (matched (w_db w')) records ms) /\
  exists new, w_db w' = set_candidates (fun l => l ++ new) (w_db w) /\ Forall (new_match records) new.
Proof.
  revert w r w'. induction records as [|record records IH]; intros w r w'; cbn [persist_matches].
  { intros [= <- <-]. split; [by intros ms [= <-]|]. exists []. by rewrite set_candidates_nil. }
  rewrite M_bind_run. destruct (persist_match _ _ _ _ record w) as [[m|e] w1] eqn:E1;
    apply persist_match_run in E1 as (Hm & new1 & Hdb1 & Hn1).
  2:{ intros [= <- <-]. split; [done|]. exists new1. split; [done|].
      eapply new_match_mono; [|done]. intros x ->%list_elem_of_singleton. left. }
  rewrite M_bind_run. destruct (persist_matches _ _ _ _ records w1) as [rs w2] eqn:E2.
  apply IH in E2 as (Hms & new2 & Hdb2 & Hn2). intros Hrun.
  assert (w2 = w') as -> by (destruct rs; by injection Hrun).
  split.
  - intros ms ->. destruct rs as [ms'|]; [|discriminate]. injection Hrun as <-. constructor; [|by apply Hms].
    rewrite Hdb2. by apply matched_grows, Hm.
  - exists (new1 ++ new2). rewrite Hdb2, Hdb1, set_candidates_app. split; [done|]. apply Forall_app. split.
    + eapply new_match_mono; [|done]. intros x ->%list_elem_of_singleton. left.
    + eapply new_match_mono; [|done]. intros x. by right.
Qed.

Lemma persist_matches_repeat records w ms :
  Forall2 (matched (w_db w)) records ms ->
  exists w', persist_matches tenant rule_id revision_id threshold records w = (Ok ms, w') /\ w_db w' = w_db w.
Proof.
  intros Hf. revert w Hf. revert ms. induction records as [|record records IH]; intros ms w; cbn [persist_matches].
  { intros ->%Forall2_nil_inv_l. by exists w. }
  intros (m & ms' & Hm & Hms & ->)%Forall2_cons_inv_l.
  destruct (persist_match_repeat record w m Hm) as (w1 & E1 & Hd1). rewrite <-Hd1 in Hms.
  destruct (IH ms' w1 Hms) as (w2 & E2 & Hd2). exists w2. rewrite M_bind_run, E1, M_bind_run, E2.
  split; [done | congruence].
Qed.

Definition evaluated_search (search : EmbeddingSearchRequest) : EmbeddingSearchRequest :=
  with_min_similarity search (fmax (sr_min_similarity search) (f32_of_f64 threshold)).

(** A row a historical evaluation may keep. *)
Definition historical_evidence (db : Database) (search : EmbeddingSearchRequest) (c : CandidateRow) : Prop :=
  candidate_check c = true /\ mc_tenant_id c = tenant /\ mc_alert_rule_id c = rule_id /\
  mc_alert_rule_revision_id c = Some revision_id /\ mc_match_mode c = HistoricalPageSearch /\
  mc_threshold c = threshold /\
  exists hit, found tenant db (evaluated_search search) hit /\
    mc_embedding_id c = Some (sh_embedding_id hit) /\ mc_revision_id c = sh_revision_id hit /\
    mc_similarity c = sh_similarity hit.

(** What an evaluation answers with is kept. *)
Definition kept_match (db : Database) (m : MatchCandidate) : Prop :=
  exists c, c ∈ candidates db /\ match_candidate_of_row c = Some m /\ mc_tenant_id c = tenant /\
    mc_alert_rule_id c = rule_id /\ mc_alert_rule_revision_id c = Some revision_id.

Lemma matched_kept db record m : matched db record m -> kept_match db m.
Proof.
  intros [_ _ (c & Hd & Hs)]. specialize (Hs rule_id 0%Z). exists c.
  apply head_Some_elem_of, elem_of_filter_bool in Hs as [Hin Hs]. split; [done|]. split; [done|].
  unfold same_historical_match in Hs. by bool_prop.
Qed.

(** Evaluating a rule against the stored pages only appends evidence, whether
    it succeeds or stops at an error: rows of this tenant, rule and revision,
    in historical mode, with the given threshold, each for a hit of the
    confined search. *)
Lemma evaluate_run search w :
  let '(r, w') := evaluate_matches tenant rule_id revision_id threshold search w in
  (exists new, w_db w' = set_candidates (fun l => l ++ new) (w_db w) /\
     Forall (historical_evidence (w_db w) search) new) /\
  forall ms, r = Ok ms ->
    length ms <= N.to_nat (sr_limit search) /\ Forall (kept_match (w_db w')) ms.
Proof.
  unfold evaluate_matches. rewrite M_bind_run. fold (evaluated_search search).
  destruct (search_run tenant (evaluated_search search) w) as (w1 & -> & Hw1).
  destruct (search_result tenant (w_db w) (evaluated_search search)) as [page|e] eqn:Es.
  2:{ split; [|done]. exists []. by rewrite set_candidates_nil. }
  destruct (persist_matches _ _ _ _ _ w1) as [r w'] eqn:Er.
  apply persist_matches_run in Er as (Hms & new & Hdb & Hnew).
  apply search_found in Es as (Hl & _ & Hf). split.
  - exists new. split; [congruence|]. eapply Forall_impl; [exact Hnew|].
    intros c [Hck (record & id & now & Hr & ->)]. split; [exact Hck|]. repeat (split; [done|]).
    exists (se_hit record). split; [by apply Hf | done].
  - intros ms ->. specialize (Hms ms eq_refl). split; [by rewrite <-(Forall2_length _ _ _ Hms)|].
    apply Forall_forall. intros m Hm. destruct (Forall2_elem_r _ _ _ _ Hms Hm) as (record & _ & Hk).
    by eapply matched_kept.
Qed.

(** C32: repeating a successful evaluation on the tables it left gives the
    same candidates and adds nothing. *)
Theorem evaluate_repeat search w ms w1 w2 :
  evaluate_matches tenant rule_id revision_id threshold search w = (Ok ms, w1) -> w_db w2 = w_db w1 ->
  exists w3, evaluate_matches tenant rule_id revision_id threshold search w2 = (Ok ms, w3) /\
    w_db w3 = w_db w1.
Proof.
  unfold evaluate_matches. fold (evaluated_search search). rewrite !M_bind_run.
  destruct (search_run tenant (evaluated_search search) w) as (w' & -> & Hw').
  destruct (search_run tenant (evaluated_search search) w2) as (w2' & -> & Hw2').
  destruct (search_result tenant (w_db w) (evaluated_search search)) as [page|e] eqn:Es; [|discriminate].
  intros Hrun Hw2. apply persist_matches_run in Hrun as (Hms & new & Hdb & _).
  specialize (Hms ms eq_refl).
  assert (search_result tenant (w_db w2) (evaluated_search search) = Ok page) as ->
    by (rewrite Hw2, Hdb, Hw'; by rewrite search_result_candidates).
  destruct (persist_matches_repeat (sp_records page) w2' ms) as (w3 & E3 & Hd3).
  { by rewrite Hw2', Hw2. }
  exists w3. split; [exact E3 | congruence].
Qed.

(** The two matching modes compute one key, so evidence of the reverse stream
    makes the historical evaluation of the same match an internal error. *)
Lemma cross_mode_conflict record w c :
  texts_ok (match_texts record) = true -> (forall id now, candidate_check (match_row record id now) = true) ->
  c ∈ candidates (w_db w) -> mc_tenant_id c = tenant ->
  mc_canonical_match_key c = match_key (match_identity tenant rule_id revision_id record) ->
  (forall c', c' ∈ candidates (w_db w) -> same_candidate_key c c' = true -> mc_embedding_id c' = None) ->
  exists w', persist_match tenant rule_id revision_id threshold record w =
    (Err (Http.internal (lit "match upsert returned no durable record")), w') /\ w_db w' = w_db w.
Proof.
  intros Ht Hc Hin Htn Hk Hnone. unfold persist_match. rewrite M_bind_run.
  unfold autocommit, with_transaction, execute, match_statement, match_statement_at. cbn [w_db w_draws w_now w_settings].
  fold (match_row record (uuid_draw (w_draws w)) (clock (w_ticks w))).
  change (mc_canonical_match_key _ :: _) with (match_texts record). rewrite Ht. cbn [negb].
  unfold insert_candidate. rewrite Hc. cbn [negb].
  rewrite (existsb_member _ _ c); cbn [mbind result_bind]; [|done|].
  - rewrite filter_none; [cbn; eauto|]. intros x Hx. apply not_true_is_false. intros Hs.
    pose proof (same_historical_key _ _ Hs) as Hsk. unfold same_historical_match in Hs. bool_prop.
    rewrite (Hnone x Hx) in *; [done|]. unfold same_candidate_key in *. cbn in *. bool_prop.
    rewrite !bool_decide_eq_true_2 by congruence. done.
  - unfold same_candidate_key. cbn. by rewrite !bool_decide_eq_true_2.
Qed.
End Matching.

(** ** Sources *)
Section Sources.
Context `{UuidLib, DigestLib, InterfacesLib, PgLib, Deployment, RowDecoders}.
Context (tenant : Uuid).

Lemma insert_source_ok db row inserted db' :
  insert_source db row = Ok (inserted, db') ->
  source_check row = true /\ inserted = negb (existsb (same_source_key row) (sources db)) /\
  (inserted = true -> has_source db (so_id row) = false) /\
  db' = if inserted then set_sources (fun l => l ++ [row]) db else db.
Proof.
  unfold insert_source. intros Hi. inv_ok. bool_prop.
  destruct (existsb _ (sources db)); inv_ok; by simplify_eq.
Qed.

Lemma get_source_new db row w :
  so_tenant_id row = tenant -> has_source db (so_id row) = false ->
  w_db w = set_sources (fun l => l ++ [row]) db ->
  fst (get_source tenant (so_id row) w) =
  Some <$> decode_row source_policy_of_row row.
Proof.
  intros Ht Hf Hw. unfold get_source. rewrite M_bind_run. unfold autocommit, with_transaction, execute,
    get_source_statement. cbn [w_db]. rewrite Hw. cbn [sources set_sources].
  rewrite List.filter_app, (filter_none _ (sources db)).
  - cbn [List.filter app]. rewrite Ht, !bool_decide_eq_true_2 by done. cbn. by destruct (decode_row _ _).
  - intros s Hs. unfold has_source in Hf. apply existsb_false_Forall in Hf. rewrite Forall_forall in Hf.
    rewrite (Hf s Hs). apply andb_false_r.
Qed.

(** A checked column holds the value it was given, not a wrapped one. *)
Lemma wrap_signed_id w z : (0 < w)%Z -> (0 <= z < 2 ^ w)%Z -> (0 <= wrap_signed w z)%Z -> wrap_signed w z = z.
Proof.
  intros Hw Hz Hp. unfold wrap_signed in *.
  assert (2 ^ w = 2 * 2 ^ (w - 1))%Z as E by (rewrite <-Z.pow_succ_r by lia; f_equal; lia).
  destruct (Z.lt_ge_cases z (2 ^ (w - 1))).
  - rewrite Z.mod_small by lia. lia.
  - replace (z + 2 ^ (w - 1))%Z with (z - 2 ^ (w - 1) + 1 * 2 ^ w)%Z in * by lia.
    rewrite Z_mod_plus_full, Z.mod_small in Hp by lia. lia.
Qed.

(** C33: a source is created once per tenant and root URL.  Success appends
    one row, within the table's bounds and holding the requested values
    unwrapped, that [get_source] then returns; a 409 is given only for a
    source the tenant already has at that URL; and no other outcome changes
    the tables, but for a row whose decoding fails. *)
Theorem create_source_spec input url w :
  let row := new_source (uuid_draw (w_draws w)) tenant input url (clock (w_ticks w)) in
  match create_source tenant input url w with
  | (Ok policy, w') =>
      w_db w' = set_sources (fun l => l ++ [row]) (w_db w) /\ source_policy_of_row row = Some policy /\
      source_check row = true /\ existsb (same_source_key row) (sources (w_db w)) = false /\
      ((cs_crawl_interval_seconds input < 2 ^ 32)%N ->
         so_crawl_interval_seconds row = Z.of_N (cs_crawl_interval_seconds input)) /\
      ((cs_max_pages_per_run input < 2 ^ 32)%N ->
         so_max_pages_per_run row = Z.of_N (cs_max_pages_per_run input)) /\
      fst (get_source tenant (so_id row) w') = Ok (Some policy)
  | (Err e, w') =>
      (w_db w' = w_db w \/
       (w_db w' = set_sources (fun l => l ++ [row]) (w_db w) /\ source_policy_of_row row = None)) /\
      (status e = StatusCode.CONFLICT -> w_db w' = w_db w /\
         exists s, s ∈ sources (w_db w) /\ so_tenant_id s = tenant /\ so_root_url s = url)
  end.
Proof.
  intros row. unfold create_source. rewrite M_bind_run. unfold autocommit, with_transaction, execute.
  cbn [w_db w_draws w_now w_settings].
  destruct (create_source_statement _ _ _ _ _ _ _) as [[[selected db'] draws]|e] eqn:Est.
  2:{ cbn. split; [by left | done]. }
  unfold create_source_statement in Est. inv_ok. destruct a as [inserted db1]. injection Est as <- <- _.
  fold row in Ha |- *. apply insert_source_ok in Ha as (Hck & Hin & Hid & ->).
  assert (forall w', inserted = true -> w_db w' = set_sources (fun l => l ++ [row]) (w_db w) ->
    fst (get_source tenant (so_id row) w') = Some <$> decode_row source_policy_of_row row) as Hget
    by (intros w' Hi Hw'; by apply (get_source_new (w_db w)); [|apply Hid|]).
  cbn. destruct inserted; cbn.
  - unfold decode_row. destruct (source_policy_of_row row) as [policy|] eqn:Hd; cbn.
    + apply eq_sym, negb_true_iff in Hin. repeat (split; [done|]).
      split_and!; [..|etransitivity; [by apply Hget | unfold decode_row; by rewrite Hd]].
      all: unfold source_check, between in Hck; bool_prop.
      all: subst row; cbn [so_crawl_interval_seconds so_max_pages_per_run new_source] in *;
        unfold as_i32 in *; intros; apply wrap_signed_id; lia.
    + split; [by right | done].
  - split; [by left|]. intros _. split; [done|]. apply eq_sym, negb_false_iff in Hin.
    apply existsb_true_Exists, Exists_exists in Hin as (s & Hs & Hk). exists s. split; [done|].
    unfold same_source_key in Hk. bool_prop. by cbn in *.
Qed.
End Sources.

(** ** A small deployment *)
Module StoreExample.
Import SampleUuid SampleDigest ReverseExample.
(** Rows decode to themselves; a stored vector's similarity to the query is
    0.7 rounded to single precision, just below 0.7. *)
#[export] Instance row_decoders : RowDecoders := {|
  SourcePolicy := SourceRow; MatchCandidate := CandidateRow;
  source_policy_of_row := Some; match_candidate_of_row := Some; po_enabled := so_enabled;
  po_allowed_hosts := so_allowed_hosts; po_include_subdomains := so_include_subdomains;
  po_allowed_path_prefixes := so_allowed_path_prefixes |}.
Definition threshold : f64 := S754_finite false 6305039478318694 (-53).
#[export] Instance pg_lib : PgLib := {|
  pg_timestamptz t := t; f32_display _ := lit "1"; vector_in s := Some (map (fun _ => f32_one) s);
  cosine_distance _ _ := Some (f64_sub f64_one (f64_of_f32 (f32_of_f64 threshold)));
  json_f64 x := if is_finite x then Some x else None;
  json_f32 x := if is_finite x then Some x else None
|}.
Definition id (n : N) : Uuid := uuid_from_u128 n.
Definition page (n : N) : PageRow := {|
  pg_id := id (10 + n); pg_tenant_id := tenant; pg_source_id := source_id; pg_canonical_url := lit "u";
  pg_first_seen_at := 0; pg_last_seen_at := 0; pg_latest_revision_id := None; pg_created_at := 0;
  pg_updated_at := 0 |}.
Definition page_revision (n : N) : PageRevisionRow := {|
  pv_id := id (20 + n); pv_tenant_id := tenant; pv_page_id := id (10 + n);
  pv_predecessor_revision_id := None; pv_original_url := lit "u"; pv_final_url := lit "u";
  pv_title := None; pv_content_text := lit "t"; pv_content_sha256 := repeat 97%N 64;
  pv_content_type := lit "text/html"; pv_http_status := 200; pv_published_at := None;
  pv_fetched_at := 0; pv_created_at := 0 |}.
Definition vector_row (n : N) : EmbeddingRow := {|
  em_id := id (30 + n); em_tenant_id := tenant; em_revision_id := id (20 + n); em_model := model;
  em_model_version := lit "1"; em_dimensions := 1; em_normalization := lit "l2";
  em_embedding := [f32_one]; em_generated_at := 0; em_created_at := 0 |}.
(** Two pages, each with a revision and its vector. *)
Definition indexed : World := {|
  w_db := {| sources := [source]; pages := [page 0; page 1];
             page_revisions := [page_revision 0; page_revision 1];
             embeddings := [vector_row 0; vector_row 1]; rules := [rule]; rule_revisions := [revision];
             rule_embeddings := []; candidates := [] |};
  w_draws := 0; w_ticks := 0; w_now := 0; w_settings := no_settings |}.
Definition search : EmbeddingSearchRequest := {|
  sr_embedding := payload f32_one; sr_min_similarity := fzero; sr_limit := 1; sr_source_ids := [];
  sr_cursor := None |}.
Definition hits : list SearchRecord :=
  match all_hits tenant (w_db indexed) search with Ok l => l | Err _ => [] end.
Definition evaluated := evaluate_matches tenant rule_id revision_id threshold search indexed.
Definition kept_matches : list MatchCandidate := match fst evaluated with Ok l => l | Err _ => [] end.
Definition page_input : PageIngestRequest := {|
  pi_source_id := source_id; pi_url := lit "u"; pi_final_url := lit "v"; pi_title := None;
  pi_content_text := lit "a"; pi_content_type := lit "text/html"; pi_http_status := 200;
  pi_published_at := None; pi_fetched_at := 7; pi_embedding := payload f32_one |}.
(** Ingesting the same page twice. *)
Definition once : World := snd (ingest_page tenant source_id page_input (lit "u") (lit "v") world).
Definition twice : World := snd (ingest_page tenant source_id page_input (lit "u") (lit "v") once).
End StoreExample.
Import SampleUuid SampleDigest ReverseExample StoreExample.

Lemma example_search_wf : search_wf (w_db indexed).
Proof. constructor; refine (proj1 (bool_decide_eq_true _) _); by vm_compute. Qed.

Lemma search_pagination_witness :
  exists page w', search_embeddings tenant (with_cursor search (page_cursor hits 1)) indexed = (Ok page, w') /\
    es_hits (sp_response page) = map se_hit (drop 1 hits) /\ es_next_cursor (sp_response page) = None.
Proof.
  destruct (search_pagination tenant search hits (page_cursor hits 1) indexed)
    as (rest & page & w' & _ & E & _ & Hh & Hc & _ & Hk);
    [apply example_search_wf | done | vm_compute; reflexivity|].
  destruct (Hk 1) as [Hr _]; [by vm_compute; lia | reflexivity | |].
  - right. intros rows x Hrows. vm_compute in Hrows. injection Hrows as <-. vm_compute.
    intros [= <-]. reflexivity.
  - exists page, w'. split; [exact E|]. rewrite Hh, Hc, Hr. split; by vm_compute.
Defined.

Lemma evaluated_run : evaluated = (Ok kept_matches, snd evaluated) /\ length kept_matches = 1.
Proof.
  assert (is_ok (fst evaluated) && (length kept_matches =? 1)%nat = true) as E by by vm_compute.
  unfold kept_matches in *. destruct evaluated as [[l|e] w]; [|done]. split; [done|]. simpl in *.
  by apply Nat.eqb_eq.
Qed.

Lemma evaluate_repeat_witness :
  length kept_matches = 1 /\
  exists w3, evaluate_matches tenant rule_id revision_id threshold search (snd evaluated) =
    (Ok kept_matches, w3) /\ w_db w3 = w_db (snd evaluated).
Proof.
  destruct evaluated_run as [E El]. split; [exact El|].
  apply (evaluate_repeat tenant rule_id revision_id threshold search indexed kept_matches (snd evaluated)
    (snd evaluated) E eq_refl).
Defined.

(** The f64 threshold is compared after rounding to f32, so a match whose
    similarity is below the threshold recorded with it is kept. *)
Theorem evaluate_below_threshold :
  exists c, c ∈ candidates (w_db (snd evaluated)) /\ flt (mc_similarity c) (mc_threshold c) = true.
Proof.
  assert (existsb (fun c => flt (mc_similarity c) (mc_threshold c)) (candidates (w_db (snd evaluated))) = true)
    as E by by vm_compute.
  apply existsb_true_Exists, Exists_exists in E as (c & Hc & Hl). by exists c.
Qed.

(** After two failed ingestions the revision and its vector are stored, and
    the page still has no latest revision. *)
Theorem ingest_page_leaves_rows :
  length (page_revisions (w_db twice)) = 1 /\ length (embeddings (w_db twice)) = 1 /\
  map pg_latest_revision_id (pages (w_db twice)) = [None].
Proof. by vm_compute. Qed.
