(* ===== verification/StoreHelpers.v ===== *)
(** * The helpers [src/store.rs] keeps of its own

    [src/store.rs] and [src/reverse_match.rs] each have a copy of the helpers
    that make identities and SQL texts.  [Store] uses those of
    [ReverseMatch]; here are the copies of [src/store.rs], and that they
    agree, so that both ways of finding a match give it one key. *)

From stdpp Require Import strings.
From S2P Require Import Prelude RustStr Floats Externals Database ReverseMatch.

Definition normalization_name (normalization : VectorNormalization) : str :=
  match normalization with
  | NoNormalization => lit "none"
  | L2 => lit "l2"
  | UnitLength => lit "unit_length"
  end.

Definition normalize_content (content : str) : str := join [32%N] (split_whitespace content).

Record MatchIdentity := {
  tenant_id : Uuid;
  alert_rule_id : Uuid;
  alert_rule_revision_id : Uuid;
  page_revision_id : Uuid;
  content_sha256 : str;
  model : str;
  model_version : str;
  dimensions : N;
  normalization : VectorNormalization
}.

Section Helpers.
Context `{UuidLib, DigestLib, PgLib}.

(** [vector.push] and [write!] onto the string so far. *)
Fixpoint push_values (index : nat) (vector : str) (values : list f32) : str :=
  match values with
  | [] => vector
  | value :: values' =>
      let vector := if Nat.ltb 0 index then vector ++ [44%N] else vector in
      push_values (S index) (vector ++ f32_display value) values'
  end.

Definition vector_literal (values : list f32) : str :=
  push_values 0 (lit "[") values ++ lit "]".

Definition sha256_hex (bytes : list N) : str := hex_encode (sha256 bytes).

Definition match_key (identity : MatchIdentity) : str :=
  let canonical_fields :=
    [uuid_to_string (tenant_id identity); uuid_to_string (alert_rule_id identity);
     uuid_to_string (alert_rule_revision_id identity); uuid_to_string (page_revision_id identity);
     content_sha256 identity; model identity; model_version identity;
     N_to_string (dimensions identity); normalization_name (normalization identity)] in
  sha256_hex (json_string_array canonical_fields).
End Helpers.

(** ** Agreement *)
Definition identity_of (identity : MatchIdentity) : ReverseMatch.MatchIdentity := {|
  mi_tenant_id := tenant_id identity; mi_alert_rule_id := alert_rule_id identity;
  mi_alert_rule_revision_id := alert_rule_revision_id identity;
  mi_page_revision_id := page_revision_id identity; mi_content_sha256 := content_sha256 identity;
  mi_model := model identity; mi_model_version := model_version identity;
  mi_dimensions := dimensions identity; mi_normalization := normalization identity
|}.

Section Agreement.
Context `{UuidLib, DigestLib, PgLib}.

Lemma push_values_join index vector values :
  0 < index ->
  push_values index vector values = vector ++ concat (map (fun v => [44%N] ++ f32_display v) values).
Proof.
  revert index vector. induction values as [|v values IH]; intros [|index] vector Hi; simpl;
    [lia | by rewrite app_nil_r | lia |].
  rewrite IH by lia. by rewrite <-!app_assoc.
Qed.

Lemma join_concat (c s : str) (l : list str) : join c (s :: l) = s ++ concat (map (fun x => c ++ x) l).
Proof.
  revert s. induction l as [|t l IH]; intros s; simpl; [by rewrite app_nil_r|].
  change (s ++ c ++ join c (t :: l) = s ++ (c ++ t) ++ concat (map (fun x => c ++ x) l)).
  by rewrite IH, <-!app_assoc.
Qed.

(** The two copies of the helpers compute the same texts: the vector literal
    written value by value is the bracketed list, and a match has one key
    whichever file computes it. *)
Theorem helpers_agree :
  (forall normalization, normalization_name normalization = ReverseMatch.normalization_name normalization) /\
  (forall content, normalize_content content = ReverseMatch.normalize_content content) /\
  (forall values, vector_literal values = ReverseMatch.vector_literal values) /\
  (forall identity, match_key identity = ReverseMatch.match_key (identity_of identity)).
Proof.
  split; [done|]. split; [done|]. split; [|done].
  intros values. unfold vector_literal, ReverseMatch.vector_literal.
  destruct values as [|v values]; [done|].
  cbn [push_values map Nat.ltb Nat.leb]. rewrite push_values_join by lia.
  rewrite join_concat, map_map. by rewrite <-!app_assoc.
Qed.
End Agreement.
