(* ===== verification/Catalog.v ===== *)
(** * The catalogue and the statements that define the schema

    What PostgreSQL knows of the schema: extensions, trigger functions and
    relations; a table has columns with types, keys, named constraints,
    triggers and policies.  [run_ddl] is the effect of one statement of the
    migrations, with everything it needs of the catalogue: a statement that
    names a missing relation, column, key or function is an error.

    A [DROP ... IF EXISTS] with the [CREATE] that follows it is one statement,
    and so is a [DO] block that handles [duplicate_object].  All names are of
    the schema [public], the role owns its tables, columns have one of the
    types the migrations use, and the names of unnamed constraints are chosen
    by PostgreSQL and clash with none. *)

From stdpp Require Import gmap strings.
From S2P Require Import Prelude RustStr.

(** ** The catalogue *)
Inductive ColumnType :=
| PgUuid | PgText | PgJsonb | PgBoolean | PgSmallint | PgInteger | PgReal | PgDouble
| PgTimestamptz | PgVector.
#[global] Instance column_type_eq_dec : EqDecision ColumnType.
Proof. solve_decision. Defined.

Record Column := { co_type : ColumnType; co_not_null : bool }.
#[global] Instance column_eq_dec : EqDecision Column.
Proof. solve_decision. Defined.

(** [tb_keys]: the column lists of the primary key and the unique constraints.
    [tb_orphans]: the foreign keys, by name, that stored rows do not satisfy;
    a new table has no rows. *)
Record Table := {
  tb_columns : gmap str Column;
  tb_primary : list str;
  tb_keys : list (list str);
  tb_constraints : gset str;
  tb_triggers : gset str;
  tb_policies : gset str;
  tb_row_security : bool;
  tb_forced : bool;
  tb_orphans : gset str
}.
#[global] Instance table_eq_dec : EqDecision Table.
Proof. solve_decision. Defined.

(** Tables and indexes share one name space with views and sequences. *)
Inductive Relation :=
| TableRelation (t : Table)
| IndexRelation (columns : list str)
| OtherRelation (columns : list str).
#[global] Instance relation_eq_dec : EqDecision Relation.
Proof. solve_decision. Defined.

(** [functions]: those without arguments that return [trigger]. *)
Record Catalog := {
  extensions : gset str;
  functions : gset str;
  relations : gmap str Relation
}.
Definition empty_catalog : Catalog := {| extensions := ∅; functions := ∅; relations := ∅ |}.

Inductive MigrationErr :=
| ExtensionUnavailable | UndefinedTable | WrongObjectType | UndefinedColumn | UndefinedType
| UndefinedFunction | UndefinedConstraint | DatatypeMismatch | InvalidForeignKey
| ForeignKeyViolated | InvalidTableDefinition.

Definition has_relation (c : Catalog) (name : str) : bool :=
  bool_decide (is_Some (relations c !! name)).

(** [pg_attribute]: the columns of any relation. *)
Definition relation_has_column (r : Relation) (column : str) : bool :=
  match r with
  | TableRelation t => bool_decide (is_Some (tb_columns t !! column))
  | IndexRelation columns | OtherRelation columns => bool_decide (column ∈ columns)
  end.
Definition has_column (c : Catalog) (name column : str) : bool :=
  match relations c !! name with Some r => relation_has_column r column | None => false end.

(** [pg_trigger]: the triggers of all tables. *)
Definition relation_has_trigger (trigger : str) (r : Relation) : bool :=
  match r with TableRelation t => bool_decide (trigger ∈ tb_triggers t) | _ => false end.
Definition has_trigger (c : Catalog) (trigger : str) : bool :=
  existsb (fun x => relation_has_trigger trigger x.2) (map_to_list (relations c)).

Definition set_relation (name : str) (r : Relation) (c : Catalog) : Catalog :=
  {| extensions := extensions c; functions := functions c; relations := <[name := r]> (relations c) |}.

(** ** Statements *)

(** What an expression, a predicate or a policy needs: a column that one of
    its operators takes, and two columns it compares. *)
Inductive Condition :=
| OfType (table column : str) (types : list ColumnType)
| Compared (table column table' column' : str).

Record ForeignKey := {
  fk_columns : list str;
  fk_table : str;
  fk_referenced : list str;
  fk_validated : bool
}.

(** What a statement does with an object of its name: a handler for
    [duplicate_object] keeps it, a [DROP ... IF EXISTS] before replaces it. *)
Inductive Existing := Kept | Replaced.
#[global] Instance existing_eq_dec : EqDecision Existing.
Proof. solve_decision. Defined.

Inductive Commented :=
| OnTable (table : str)
| OnColumn (table column : str)
| OnIndex (index : str)
| OnConstraint (table name : str)
| OnFunction (name : str).

Inductive Ddl :=
| CreateExtension (name : str)
| CreateTable (name : str) (t : Table) (references : list ForeignKey)
| CreateIndex (name table : str) (columns : list str) (predicate : list Condition)
| AddForeignKey (existing : Existing) (table name : str) (fk : ForeignKey)
| AddCheck (table name : str) (expression : list Condition)
| AddColumn (table column : str) (definition : Column)
| DropNotNull (table column : str)
| EnableRowSecurity (table : str)
| ForceRowSecurity (table : str)
| CreateFunction (name : str)
| CreateTrigger (name table : str) (columns : list str) (function : str)
| CreatePolicy (name table : str) (expression : list Condition)
| Comment (object : Commented).

Definition with_columns (t : Table) (columns : gmap str Column) : Table := {|
  tb_columns := columns; tb_primary := tb_primary t; tb_keys := tb_keys t;
  tb_constraints := tb_constraints t; tb_triggers := tb_triggers t; tb_policies := tb_policies t;
  tb_row_security := tb_row_security t; tb_forced := tb_forced t; tb_orphans := tb_orphans t |}.

Definition with_names (t : Table) (constraints triggers policies : gset str) : Table := {|
  tb_columns := tb_columns t; tb_primary := tb_primary t; tb_keys := tb_keys t;
  tb_constraints := constraints ∪ tb_constraints t; tb_triggers := triggers ∪ tb_triggers t;
  tb_policies := policies ∪ tb_policies t; tb_row_security := tb_row_security t;
  tb_forced := tb_forced t; tb_orphans := tb_orphans t |}.

Definition with_security (t : Table) (enabled forced : bool) : Table := {|
  tb_columns := tb_columns t; tb_primary := tb_primary t; tb_keys := tb_keys t;
  tb_constraints := tb_constraints t; tb_triggers := tb_triggers t; tb_policies := tb_policies t;
  tb_row_security := enabled || tb_row_security t; tb_forced := forced || tb_forced t;
  tb_orphans := tb_orphans t |}.

Definition add_column (column : str) (definition : Column) (t : Table) : Table :=
  match tb_columns t !! column with
  | Some _ => t
  | None => with_columns t (<[column := definition]> (tb_columns t))
  end.

Definition drop_not_null (column : str) (t : Table) : Table :=
  with_columns t (alter (fun k => {| co_type := co_type k; co_not_null := false |}) column (tb_columns t)).

(** ** Running a statement *)
Definition table_of (c : Catalog) (name : str) : result MigrationErr Table :=
  match relations c !! name with
  | None => Err UndefinedTable
  | Some (TableRelation t) => Ok t
  | Some _ => Err WrongObjectType
  end.

Definition column_of (t : Table) (column : str) : result MigrationErr Column :=
  ok_or (tb_columns t !! column) UndefinedColumn.

Definition column_type (c : Catalog) (table column : str) : result MigrationErr ColumnType :=
  t ← table_of c table; co_type <$> column_of t column.

Definition integral (ty : ColumnType) : bool := bool_decide (ty ∈ [PgSmallint; PgInteger]).
Definition numeric (ty : ColumnType) : bool :=
  bool_decide (ty ∈ [PgSmallint; PgInteger; PgReal; PgDouble]).
(** An operator [=] takes both. *)
Definition comparable (a b : ColumnType) : bool := bool_decide (a = b) || numeric a && numeric b.
(** A foreign key of type [a] may reference a key of type [b]. *)
Definition may_reference (a b : ColumnType) : bool :=
  bool_decide (a = b) || integral a && integral b || numeric a && numeric b && negb (integral b).

(** The first error of a list of checks. *)
Definition check_all {A} (check : A -> result MigrationErr unit) (l : list A) : result MigrationErr unit :=
  for_each (fun _ a => check a) l tt.

Definition check_condition (c : Catalog) (condition : Condition) : result MigrationErr unit :=
  match condition with
  | OfType table column types =>
      ty ← column_type c table column;
      reject DatatypeMismatch when negb (bool_decide (ty ∈ types)) ;; Ok tt
  | Compared table column table' column' =>
      ty ← column_type c table column;
      ty' ← column_type c table' column';
      reject DatatypeMismatch when negb (comparable ty ty') ;; Ok tt
  end.

Definition check_column (t : Table) (column : str) : result MigrationErr unit :=
  (fun _ => tt) <$> column_of t column.

(** A key is found whatever the order of its columns. *)
Definition same_columns (a b : list str) : bool :=
  forallb (fun x => bool_decide (x ∈ b)) a && forallb (fun x => bool_decide (x ∈ a)) b.

Definition check_foreign_key (c : Catalog) (table : str) (fk : ForeignKey) : result MigrationErr unit :=
  referenced ← table_of c (fk_table fk);
  types ← mapM (column_type c table) (fk_columns fk);
  types' ← mapM (column_type c (fk_table fk)) (fk_referenced fk);
  reject InvalidForeignKey
    when negb (existsb (same_columns (fk_referenced fk)) (tb_keys referenced)) ;;
  reject DatatypeMismatch when negb (forallb (fun '(a, b) => may_reference a b) (zip types types')) ;;
  Ok tt.

Definition check_comment (c : Catalog) (object : Commented) : result MigrationErr unit :=
  match object with
  | OnTable table => (fun _ => tt) <$> table_of c table
  | OnColumn table column => t ← table_of c table; check_column t column
  | OnIndex index =>
      match relations c !! index with
      | None => Err UndefinedTable
      | Some (IndexRelation _) => Ok tt
      | Some _ => Err WrongObjectType
      end
  | OnConstraint table name =>
      t ← table_of c table;
      reject UndefinedConstraint when negb (bool_decide (name ∈ tb_constraints t)) ;; Ok tt
  | OnFunction name => reject UndefinedFunction when negb (bool_decide (name ∈ functions c)) ;; Ok tt
  end.

(** [ALTER] of the table. *)
Definition on_table (c : Catalog) (table : str) (f : Table -> Table) : result MigrationErr Catalog :=
  t ← table_of c table; Ok (set_relation table (TableRelation (f t)) c).

Definition add_constraint (name : str) (t : Table) : Table := with_names t {[name]} ∅ ∅.
Definition has_vector (t : Table) : bool :=
  existsb (fun x => bool_decide (co_type x.2 = PgVector)) (map_to_list (tb_columns t)).

Section Run.
Context (available : str -> bool).

Definition run_ddl (c : Catalog) (d : Ddl) : result MigrationErr Catalog :=
  match d with
  | CreateExtension name =>
      if bool_decide (name ∈ extensions c) then Ok c
      else
        reject ExtensionUnavailable when negb (available name) ;;
        Ok {| extensions := {[name]} ∪ extensions c; functions := functions c; relations := relations c |}
  | CreateTable name t references =>
      if has_relation c name then Ok c
      else
        reject UndefinedType when has_vector t && negb (bool_decide (lit "vector" ∈ extensions c)) ;;
        let c' := set_relation name (TableRelation t) c in
        _ ← check_all (check_foreign_key c' name) references;
        Ok c'
  | CreateIndex name table columns predicate =>
      t ← table_of c table;
      _ ← check_all (check_condition c) predicate;
      _ ← check_all (check_column t) columns;
      if has_relation c name then Ok c else Ok (set_relation name (IndexRelation columns) c)
  | AddForeignKey existing table name fk =>
      t ← table_of c table;
      if bool_decide (existing = Kept) && bool_decide (name ∈ tb_constraints t) then Ok c
      else
        _ ← check_foreign_key c table fk;
        reject ForeignKeyViolated when fk_validated fk && bool_decide (name ∈ tb_orphans t) ;;
        on_table c table (add_constraint name)
  | AddCheck table name expression =>
      _ ← check_all (check_condition c) expression;
      on_table c table (add_constraint name)
  | AddColumn table column definition => on_table c table (add_column column definition)
  | DropNotNull table column =>
      t ← table_of c table;
      _ ← check_column t column;
      reject InvalidTableDefinition when bool_decide (column ∈ tb_primary t) ;;
      on_table c table (drop_not_null column)
  | EnableRowSecurity table => on_table c table (fun t => with_security t true false)
  | ForceRowSecurity table => on_table c table (fun t => with_security t false true)
  | CreateFunction name =>
      Ok {| extensions := extensions c; functions := {[name]} ∪ functions c; relations := relations c |}
  | CreateTrigger name table columns function =>
      t ← table_of c table;
      _ ← check_all (check_column t) columns;
      reject UndefinedFunction when negb (bool_decide (function ∈ functions c)) ;;
      on_table c table (fun t => with_names t ∅ {[name]} ∅)
  | CreatePolicy name table expression =>
      _ ← check_all (check_condition c) expression;
      on_table c table (fun t => with_names t ∅ ∅ {[name]})
  | Comment object => _ ← check_comment c object; Ok c
  end.

Definition execute_unprepared (c : Catalog) (sql : list Ddl) : result MigrationErr Catalog :=
  for_each run_ddl sql c.
End Run.

(** ** Catalogues that extend one another *)

(** Nothing is lost: columns keep their types and may only become nullable. *)
Record table_extends (t t' : Table) : Prop := {
  te_columns : forall column k, tb_columns t !! column = Some k ->
    exists k', tb_columns t' !! column = Some k' /\ co_type k' = co_type k /\
      (co_not_null k' = true -> co_not_null k = true);
  te_primary : tb_primary t' = tb_primary t;
  te_keys : tb_keys t' = tb_keys t;
  te_constraints : tb_constraints t ⊆ tb_constraints t';
  te_triggers : tb_triggers t ⊆ tb_triggers t';
  te_policies : tb_policies t ⊆ tb_policies t';
  te_row_security : tb_row_security t = true -> tb_row_security t' = true;
  te_forced : tb_forced t = true -> tb_forced t' = true;
  te_orphans : tb_orphans t' = tb_orphans t
}.

Definition relation_extends (r r' : Relation) : Prop :=
  match r, r' with
  | TableRelation t, TableRelation t' => table_extends t t'
  | _, _ => r = r'
  end.

Record extends (c c' : Catalog) : Prop := {
  ex_extensions : extensions c ⊆ extensions c';
  ex_functions : functions c ⊆ functions c';
  ex_relations : forall name r, relations c !! name = Some r ->
    exists r', relations c' !! name = Some r' /\ relation_extends r r'
}.

#[export] Instance table_extends_preorder : PreOrder table_extends.
Proof.
  split.
  - intros t. constructor; eauto.
  - intros t u v [C1 P1 K1 N1 T1 L1 R1 F1 O1] [C2 P2 K2 N2 T2 L2 R2 F2 O2].
    constructor; eauto; try (by etrans); try congruence.
    intros column k Hk. destruct (C1 _ _ Hk) as (k1 & Hk1 & E1 & H1).
    destruct (C2 _ _ Hk1) as (k2 & Hk2 & E2 & H2). exists k2. split; [done|]. split; [congruence | eauto].
Qed.

#[export] Instance relation_extends_preorder : PreOrder relation_extends.
Proof.
  split.
  - intros r. by destruct r; simpl.
  - intros r r1 r2. destruct r, r1, r2; simpl; try done; try congruence. apply transitivity.
Qed.

#[export] Instance extends_preorder : PreOrder extends.
Proof.
  split.
  - intros c. constructor; eauto. intros name r Hr. by exists r.
  - intros a b c [E1 F1 R1] [E2 F2 R2]. constructor; [by etrans..|]. intros name r Hr.
    destruct (R1 _ _ Hr) as (r1 & Hr1 & H1). destruct (R2 _ _ Hr1) as (r2 & Hr2 & H2).
    exists r2. split; [done | by etrans].
Qed.

(** What a check finds in [c] it finds in an extension of [c]. *)
Section Extends.
Context (c c' : Catalog) (Hext : extends c c').

Lemma has_relation_extends name : has_relation c name = true -> has_relation c' name = true.
Proof.
  unfold has_relation. rewrite !bool_decide_eq_true. intros [r Hr].
  destruct (ex_relations _ _ Hext _ _ Hr) as (r' & Hr' & _). by exists r'.
Qed.

Lemma table_of_extends name t :
  table_of c name = Ok t -> exists t', table_of c' name = Ok t' /\ table_extends t t'.
Proof.
  unfold table_of. destruct (relations c !! name) as [r|] eqn:Hr; [|done].
  destruct (ex_relations _ _ Hext _ _ Hr) as (r' & -> & He).
  destruct r as [u|l|l], r' as [u'|l'|l']; try done. intros [= ->]. by exists u'.
Qed.

Lemma column_of_extends t t' column k :
  table_extends t t' -> column_of t column = Ok k ->
  exists k', column_of t' column = Ok k' /\ co_type k' = co_type k.
Proof.
  unfold column_of. rewrite ok_or_ok. intros He Hk. destruct (te_columns _ _ He _ _ Hk) as (k' & -> & E & _).
  by exists k'.
Qed.

Lemma column_type_extends table column ty :
  column_type c table column = Ok ty -> column_type c' table column = Ok ty.
Proof.
  unfold column_type. intros (t & Ht & (k & Hk & <-)%fmap_ok)%bind_ok.
  destruct (table_of_extends _ _ Ht) as (t' & -> & He).
  destruct (column_of_extends _ _ _ _ He Hk) as (k' & Hk' & E). cbn [mbind result_bind].
  rewrite Hk'. cbn. by rewrite E.
Qed.

Lemma column_types_extends table columns types :
  mapM (column_type c table) columns = Ok types -> mapM (column_type c' table) columns = Ok types.
Proof.
  rewrite !mapM_ok_Forall2. intros Hf. eapply Forall2_impl; [exact Hf|]. intros. by apply column_type_extends.
Qed.

Lemma check_condition_extends condition :
  check_condition c condition = Ok tt -> check_condition c' condition = Ok tt.
Proof.
  destruct condition as [table column types|table column table' column']; simpl; intros Hc; inv_ok.
  - match goal with H : column_type _ _ _ = Ok _ |- _ => apply column_type_extends in H; rewrite H end.
    cbn. by rewrite Hb.
  - repeat match goal with H : column_type c _ _ = Ok _ |- _ => apply column_type_extends in H; rewrite H end.
    cbn. by rewrite Hb.
Qed.

Lemma check_column_extends t t' column :
  table_extends t t' -> check_column t column = Ok tt -> check_column t' column = Ok tt.
Proof.
  unfold check_column. intros He (k & Hk & _)%fmap_ok.
  destruct (column_of_extends _ _ _ _ He Hk) as (k' & -> & _). done.
Qed.

Lemma check_foreign_key_extends table fk :
  check_foreign_key c table fk = Ok tt -> check_foreign_key c' table fk = Ok tt.
Proof.
  unfold check_foreign_key. intros Hc. inv_ok. rename Ha into Ht.
  destruct (table_of_extends _ _ Ht) as (t' & -> & He). cbn [mbind result_bind].
  repeat match goal with H : mapM _ _ = Ok _ |- _ => apply column_types_extends in H; rewrite H end.
  cbn [mbind result_bind]. rewrite (te_keys _ _ He). by rewrite Hb, Hb0.
Qed.
End Extends.

Lemma check_all_Forall {A} (check : A -> result MigrationErr unit) l :
  check_all check l = Ok tt <-> Forall (fun a => check a = Ok tt) l.
Proof.
  unfold check_all. induction l as [|a l IH]; simpl; [done|]. rewrite Forall_cons, <-IH.
  destruct (check a) as [[]|e]; simpl; [tauto|]. split; [done | by intros [? _]].
Qed.

Lemma check_all_impl {A} (check check' : A -> result MigrationErr unit) l :
  (forall a, check a = Ok tt -> check' a = Ok tt) -> check_all check l = Ok tt -> check_all check' l = Ok tt.
Proof. rewrite !check_all_Forall. intros Hi Hl. by eapply Forall_impl. Qed.

(** ** What a run leaves behind *)
Definition table_has (c : Catalog) (table : str) (P : Table -> Prop) : Prop :=
  exists t, table_of c table = Ok t /\ P t.

(** The statement has been carried out: running it changes nothing. *)
Definition satisfied (c : Catalog) (d : Ddl) : Prop :=
  match d with
  | CreateExtension name => name ∈ extensions c
  | CreateTable name _ _ => has_relation c name = true
  | CreateIndex name table columns predicate =>
      has_relation c name = true /\ check_all (check_condition c) predicate = Ok tt /\
      table_has c table (fun t => check_all (check_column t) columns = Ok tt)
  | AddForeignKey Kept table name _ => table_has c table (fun t => name ∈ tb_constraints t)
  | AddForeignKey Replaced table name fk =>
      check_foreign_key c table fk = Ok tt /\
      table_has c table (fun t => name ∈ tb_constraints t /\
        fk_validated fk && bool_decide (name ∈ tb_orphans t) = false)
  | AddCheck table name expression =>
      check_all (check_condition c) expression = Ok tt /\ table_has c table (fun t => name ∈ tb_constraints t)
  | AddColumn table column _ => table_has c table (fun t => is_Some (tb_columns t !! column))
  | DropNotNull table column =>
      table_has c table (fun t => (column ∉ tb_primary t) /\
        (exists k, tb_columns t !! column = Some k /\ co_not_null k = false))
  | EnableRowSecurity table => table_has c table (fun t => tb_row_security t = true)
  | ForceRowSecurity table => table_has c table (fun t => tb_forced t = true)
  | CreateFunction name => name ∈ functions c
  | CreateTrigger name table columns function =>
      function ∈ functions c /\
      table_has c table (fun t => name ∈ tb_triggers t /\ check_all (check_column t) columns = Ok tt)
  | CreatePolicy name table expression =>
      check_all (check_condition c) expression = Ok tt /\ table_has c table (fun t => name ∈ tb_policies t)
  | Comment object => check_comment c object = Ok tt
  end.

Lemma table_has_extends c c' table (P : Table -> Prop) :
  extends c c' -> (forall t t', table_extends t t' -> P t -> P t') ->
  table_has c table P -> table_has c' table P.
Proof.
  intros He HP (t & Ht & Hp). destruct (table_of_extends _ _ He _ _ Ht) as (t' & Ht' & Hte).
  exists t'. eauto.
Qed.

(** A comment stays possible: what it is on is there. *)
Lemma check_comment_extends c c' o :
  extends c c' -> check_comment c o = Ok tt -> check_comment c' o = Ok tt.
Proof.
  intros He. destruct o as [table|table column|index|table name|name]; simpl.
  - intros (t & Ht & _)%fmap_ok. by destruct (table_of_extends _ _ He _ _ Ht) as (t' & -> & _).
  - intros (t & Ht & Hk)%bind_ok. destruct (table_of_extends _ _ He _ _ Ht) as (t' & -> & Hte).
    cbn [mbind result_bind]. by eapply check_column_extends.
  - destruct (relations c !! index) as [[]|] eqn:Er; try done. intros _.
    destruct (ex_relations _ _ He _ _ Er) as (r & -> & E). simpl in E. by subst r.
  - intros (t & Ht & Hn%reject_ok)%bind_ok. destruct (table_of_extends _ _ He _ _ Ht) as (t' & -> & Hte).
    cbn [mbind result_bind]. destruct Hn as [Hn _]. bool_prop.
    rewrite bool_decide_eq_true_2; [done|]. by apply (te_constraints _ _ Hte).
  - intros [Hn _]%reject_ok. bool_prop. rewrite bool_decide_eq_true_2; [done|].
    by apply (ex_functions _ _ He).
Qed.

Lemma satisfied_extends c c' d : extends c c' -> satisfied c d -> satisfied c' d.
Proof.
  intros He.
  assert (forall l, check_all (check_condition c) l = Ok tt -> check_all (check_condition c') l = Ok tt) as Hc.
  { intros l. apply check_all_impl. intros a. by apply check_condition_extends. }
  assert (forall t t' l, table_extends t t' -> check_all (check_column t) l = Ok tt ->
    check_all (check_column t') l = Ok tt) as Hk.
  { intros t t' l Ht. apply check_all_impl. intros a. by apply check_column_extends. }
  destruct d as [ | | |[]| | | | | | | | | ]; cbn [satisfied].
  - apply He.
  - by apply has_relation_extends.
  - intros (Hr & Hp & Ht). split; [by eapply has_relation_extends|]. split; [by apply Hc|].
    revert Ht. apply table_has_extends; [done|]. eauto.
  - apply table_has_extends; [done|]. intros t t' Ht. apply (te_constraints _ _ Ht).
  - intros [Hf Ht]. split; [by eapply check_foreign_key_extends|]. revert Ht. apply table_has_extends; [done|].
    intros t t' Hte [Hn Ho]. rewrite (te_orphans _ _ Hte). split; [by apply (te_constraints _ _ Hte) | done].
  - intros [Hp Ht]. split; [by apply Hc|]. revert Ht. apply table_has_extends; [done|].
    intros t t' Hte. apply (te_constraints _ _ Hte).
  - apply table_has_extends; [done|]. intros t t' Hte [k Hk'].
    destruct (te_columns _ _ Hte _ _ Hk') as (k' & ? & _). by exists k'.
  - apply table_has_extends; [done|]. intros t t' Hte (Hp & k & Hk' & Hn).
    rewrite (te_primary _ _ Hte). split; [done|].
    destruct (te_columns _ _ Hte _ _ Hk') as (k' & ? & _ & Hn'). exists k'. split; [done|].
    destruct (co_not_null k'); [|done]. rewrite Hn' in Hn by done. done.
  - apply table_has_extends; [done|]. intros t t' Hte. apply (te_row_security _ _ Hte).
  - apply table_has_extends; [done|]. intros t t' Hte. apply (te_forced _ _ Hte).
  - apply He.
  - intros [Hf Ht]. split; [by apply (ex_functions _ _ He)|]. revert Ht. apply table_has_extends; [done|].
    intros t t' Hte [Hn Hc']. split; [by apply (te_triggers _ _ Hte) | by eapply Hk].
  - intros [Hp Ht]. split; [by apply Hc|]. revert Ht. apply table_has_extends; [done|].
    intros t t' Hte. apply (te_policies _ _ Hte).
  - by apply check_comment_extends.
Qed.

(** *** Altering a table *)
Lemma on_table_ok c table f c' :
  on_table c table f = Ok c' -> (forall t, table_extends t (f t)) ->
  extends c c' /\ exists t, table_of c table = Ok t /\ table_of c' table = Ok (f t).
Proof.
  unfold on_table. intros (t & Ht & [= <-])%bind_ok Hf. split.
  - constructor; [done..|]. intros name r Hr. simpl. destruct (decide (table = name)) as [<-|Hn].
    + rewrite lookup_insert_eq. eexists. split; [done|]. unfold table_of in Ht. rewrite Hr in Ht.
      destruct r; [|done..]. injection Ht as ->. apply Hf.
    + rewrite lookup_insert_ne by done. by exists r.
  - exists t. split; [done|]. unfold table_of. simpl. by rewrite lookup_insert_eq.
Qed.

Lemma on_table_same c table f : table_has c table (fun t => f t = t) -> on_table c table f = Ok c.
Proof.
  intros (t & Ht & Hf). unfold on_table. rewrite Ht. cbn [mbind result_bind]. rewrite Hf. f_equal.
  unfold table_of in Ht. destruct c as [E F R]. simpl in *. unfold set_relation. simpl. f_equal.
  apply insert_id. destruct (R !! table) as [[]|]; [|done..]. by injection Ht as ->.
Qed.

Lemma with_names_extends t a b d : table_extends t (with_names t a b d).
Proof. constructor; simpl; eauto; set_solver. Qed.

Lemma with_names_same t a b d :
  a ⊆ tb_constraints t -> b ⊆ tb_triggers t -> d ⊆ tb_policies t -> with_names t a b d = t.
Proof.
  intros. unfold with_names. destruct t. simpl in *. f_equal; apply leibniz_equiv; set_solver.
Qed.

Lemma with_security_extends t a b : table_extends t (with_security t a b).
Proof. constructor; simpl; eauto; intros ->; by rewrite orb_true_r. Qed.

Lemma add_column_extends column definition t : table_extends t (add_column column definition t).
Proof.
  unfold add_column. destruct (tb_columns t !! column) eqn:Ek; [done|]. constructor; simpl; eauto.
  intros k d Hk. exists d. split; [|done]. rewrite lookup_insert_ne; [done | congruence].
Qed.

Lemma drop_not_null_extends column t : table_extends t (drop_not_null column t).
Proof.
  constructor; simpl; eauto. intros k d Hk. destruct (decide (column = k)) as [<-|Hn].
  - rewrite lookup_alter_eq, Hk. simpl. by eexists.
  - rewrite lookup_alter_ne by done. eauto.
Qed.

Lemma drop_not_null_same column t k :
  tb_columns t !! column = Some k -> co_not_null k = false -> drop_not_null column t = t.
Proof.
  intros Hk Hn. unfold drop_not_null, with_columns. destruct t. simpl in *. f_equal.
  apply map_eq. intros i. destruct (decide (column = i)) as [<-|Hi].
  - rewrite lookup_alter_eq, Hk. simpl. destruct k. simpl in *. by subst.
  - by rewrite lookup_alter_ne.
Qed.

(** *** Running statements *)
Section Runs.
Context (available : str -> bool).

Lemma set_relation_extends name r c : has_relation c name = false -> extends c (set_relation name r c).
Proof.
  intros Hn. constructor; [done..|]. intros k r' Hk. exists r'. split; [|done]. simpl.
  rewrite lookup_insert_ne; [done|]. intros ->. unfold has_relation in Hn. rewrite Hk in Hn.
  by rewrite bool_decide_eq_true_2 in Hn.
Qed.

Lemma set_relation_has name r c : has_relation (set_relation name r c) name = true.
Proof. unfold has_relation. simpl. rewrite lookup_insert_eq. by apply bool_decide_eq_true_2. Qed.

(** After altering the table, [P] holds of it. *)
Lemma on_table_has c table f c' (P : Table -> Prop) :
  on_table c table f = Ok c' -> (forall t, table_extends t (f t)) ->
  (forall t, table_of c table = Ok t -> P (f t)) -> extends c c' /\ table_has c' table P.
Proof.
  intros Hr Hf HP. destruct (on_table_ok _ _ _ _ Hr Hf) as [He (t & Ht & Ht')].
  split; [done|]. exists (f t). auto.
Qed.

Lemma run_ddl_ok c d c' : run_ddl available c d = Ok c' -> extends c c' /\ satisfied c' d.
Proof.
  assert (forall c c' l, extends c c' -> check_all (check_condition c) l = Ok tt ->
    check_all (check_condition c') l = Ok tt) as Hc.
  { intros c0 c1 l He. apply check_all_impl. intros a. by apply check_condition_extends. }
  destruct d as [name|name t fks|name table columns predicate|existing table name fk|table name l|
    table column definition|table column|table|table|name|name table columns function|name table l|o];
    cbn [run_ddl].
  - case_bool_decide as Hn; intros Hr; inv_ok; [done|]. split; [constructor; simpl; [set_solver | done|]|].
    + intros k r Hk. by exists r.
    + cbn. set_solver.
  - destruct (has_relation c name) eqn:Eh; intros Hr; inv_ok; [done|].
    split; [by apply set_relation_extends | by apply set_relation_has].
  - intros Hr. inv_ok. destruct a0, a1. rename Ha into Ht, Ha0 into Hp, Ha1 into Hk.
    assert (extends c c' /\ has_relation c' name = true) as [He Hn].
    { destruct (has_relation c name) eqn:Eh; inv_ok; [done|].
      split; [by apply set_relation_extends | by apply set_relation_has]. }
    split; [done|]. split; [done|]. split; [by eapply Hc|].
    destruct (table_of_extends _ _ He _ _ Ht) as (t' & Ht' & Hte). exists t'. split; [done|].
    revert Hk. apply check_all_impl. intros k. by apply check_column_extends.
  - intros Hr. inv_ok. rename Ha into Ht. destruct existing; cbn [satisfied].
    + rewrite (bool_decide_eq_true_2 (Kept = Kept)) in Hr by done. cbn [andb] in Hr.
      case_bool_decide as Hn; inv_ok; [split; [done | by exists a]|].
      eapply on_table_has; [done | intros; apply with_names_extends|]. intros t _. simpl. set_solver.
    + rewrite (bool_decide_eq_false_2 (Replaced = Kept)) in Hr by done. cbn [andb] in Hr.
      inv_ok. destruct a0. apply on_table_has with (P := fun t => name ∈ tb_constraints t /\
        fk_validated fk && bool_decide (name ∈ tb_orphans t) = false) in Hr as [He Hh];
        [split; [done|]; split; [by eapply check_foreign_key_extends | done] | intros; apply with_names_extends|].
      intros t Ht'. rewrite Ht in Ht'. injection Ht' as <-. simpl. split; [set_solver | done].
  - intros Hr. inv_ok. destruct a. apply on_table_has with (P := fun t => name ∈ tb_constraints t) in Hr
      as [He Hh]; [|intros; apply with_names_extends | intros; simpl; set_solver].
    split; [done|]. split; [by eapply Hc | done].
  - intros Hr. eapply on_table_has; [done | intros; apply add_column_extends|]. intros t _. unfold add_column.
    destruct (tb_columns t !! column) eqn:Ek; [by rewrite Ek|]. simpl. rewrite lookup_insert_eq. by eexists.
  - intros Hr. inv_ok. rename Ha into Ht. destruct a0. unfold check_column, column_of in Ha0.
    apply fmap_ok in Ha0 as (k & Hk%ok_or_ok & _).
    eapply on_table_has; [done | intros; apply drop_not_null_extends|]. intros t Ht'.
    rewrite Ht in Ht'. injection Ht' as <-. bool_prop. split; [done|]. simpl. rewrite lookup_alter_eq, Hk.
    by eexists.
  - intros Hr. cbn [satisfied]. eapply on_table_has; [done | intros; apply with_security_extends | done].
  - intros Hr. cbn [satisfied]. eapply on_table_has; [done | intros; apply with_security_extends | done].
  - intros [= <-]. split; [constructor; simpl; [done | set_solver|] | cbn; set_solver].
    intros k r Hk. by exists r.
  - intros Hr. inv_ok. rename Ha into Ht. destruct a0. bool_prop.
    apply on_table_has with (P := fun t => name ∈ tb_triggers t /\ check_all (check_column t) columns = Ok tt) in Hr
      as [He Hh]; [|intros; apply with_names_extends|].
    + split; [done|]. split; [by apply (ex_functions _ _ He) | done].
    + intros t Ht'. rewrite Ht in Ht'. injection Ht' as <-. simpl. split; [set_solver | done].
  - intros Hr. inv_ok. destruct a. apply on_table_has with (P := fun t => name ∈ tb_policies t) in Hr
      as [He Hh]; [|intros; apply with_names_extends | intros; simpl; set_solver].
    split; [done|]. split; [by eapply Hc | done].
  - intros Hr. inv_ok. by destruct a.
Qed.

Lemma run_ddl_satisfied c d : satisfied c d -> run_ddl available c d = Ok c.
Proof.
  destruct d as [name|name t fks|name table columns predicate|[] table name fk|table name l|
    table column definition|table column|table|table|name|name table columns function|name table l|o];
    cbn [run_ddl satisfied].
  - intros Hn. by rewrite bool_decide_eq_true_2.
  - by intros ->.
  - intros (Hn & -> & t & -> & Hk). cbn [mbind result_bind]. by rewrite Hk, Hn.
  - intros (t & -> & Hn). cbn [mbind result_bind]. rewrite (bool_decide_eq_true_2 (Kept = Kept)) by done.
    by rewrite bool_decide_eq_true_2.
  - intros (-> & t & Ht & Hn & Ho). rewrite Ht. cbn [mbind result_bind].
    rewrite (bool_decide_eq_false_2 (Replaced = Kept)) by done. cbn [andb]. rewrite Ho.
    apply on_table_same. exists t. split; [done|]. apply with_names_same; set_solver.
  - intros (-> & t & Ht & Hn). apply on_table_same. exists t. split; [done|].
    apply with_names_same; set_solver.
  - intros (t & Ht & k & Hk). apply on_table_same. exists t. split; [done|]. unfold add_column. by rewrite Hk.
  - intros (t & Ht & Hp & k & Hk & Hn). rewrite Ht. cbn [mbind result_bind]. unfold check_column, column_of.
    rewrite Hk. cbn. rewrite bool_decide_eq_false_2 by done. apply on_table_same. exists t. split; [done|].
    by eapply drop_not_null_same.
  - intros (t & Ht & Hs). apply on_table_same. exists t. split; [done|]. unfold with_security.
    destruct t. simpl in *. by subst.
  - intros (t & Ht & Hs). apply on_table_same. exists t. split; [done|]. unfold with_security.
    destruct t. simpl in *. by subst.
  - intros Hn. f_equal. destruct c. simpl in *. f_equal. apply leibniz_equiv. set_solver.
  - intros (Hf & t & Ht & Hn & Hk). rewrite Ht. cbn [mbind result_bind]. rewrite Hk. cbn.
    rewrite bool_decide_eq_true_2 by done. cbn. apply on_table_same. exists t. split; [done|].
    apply with_names_same; set_solver.
  - intros (-> & t & Ht & Hn). apply on_table_same. exists t. split; [done|].
    apply with_names_same; set_solver.
  - by intros ->.
Qed.

Lemma run_ok l c c' :
  execute_unprepared available c l = Ok c' -> extends c c' /\ Forall (satisfied c') l.
Proof.
  unfold execute_unprepared. revert c. induction l as [|d l IH]; intros c Hr; simpl in Hr.
  - injection Hr as <-. done.
  - apply bind_ok in Hr as (c1 & [He Hs]%run_ddl_ok & Hr). destruct (IH _ Hr) as [He' Hl].
    split; [by etrans|]. constructor; [by eapply satisfied_extends | done].
Qed.

Lemma run_satisfied l c : Forall (satisfied c) l -> execute_unprepared available c l = Ok c.
Proof.
  unfold execute_unprepared. induction 1 as [|d l Hd _ IH]; simpl; [done|].
  by rewrite run_ddl_satisfied.
Qed.
End Runs.

(** ** Catalogues side by side *)

(** [c] with the objects of [f] beside it. *)
Definition beside (c f : Catalog) : Catalog :=
  {| extensions := extensions c ∪ extensions f; functions := functions c ∪ functions f;
     relations := relations c ∪ relations f |}.

(** The relations a statement looks at or creates. *)
Definition named_by_condition (condition : Condition) : list str :=
  match condition with
  | OfType table _ _ => [table]
  | Compared table _ table' _ => [table; table']
  end.

Definition named_by (d : Ddl) : list str :=
  match d with
  | CreateExtension _ | CreateFunction _ => []
  | CreateTable name _ references => name :: map fk_table references
  | CreateIndex name table _ predicate => name :: table :: flat_map named_by_condition predicate
  | AddForeignKey _ table _ fk => [table; fk_table fk]
  | AddCheck table _ expression | CreatePolicy _ table expression =>
      table :: flat_map named_by_condition expression
  | AddColumn table _ _ | DropNotNull table _ | EnableRowSecurity table | ForceRowSecurity table
  | CreateTrigger _ table _ _ => [table]
  | Comment (OnTable table) | Comment (OnColumn table _) | Comment (OnConstraint table _) => [table]
  | Comment (OnIndex index) => [index]
  | Comment (OnFunction _) => []
  end.

Section Beside.
Context (f : Catalog).

Definition unnamed (names : list str) : Prop := Forall (fun n => relations f !! n = None) names.

Lemma beside_lookup c name : relations f !! name = None -> relations (beside c f) !! name = relations c !! name.
Proof. apply lookup_union_l. Qed.

Lemma beside_table_of c name : relations f !! name = None -> table_of (beside c f) name = table_of c name.
Proof. intros Hn. unfold table_of. by rewrite beside_lookup. Qed.

Lemma beside_has_relation c name :
  relations f !! name = None -> has_relation (beside c f) name = has_relation c name.
Proof. intros Hn. unfold has_relation. by rewrite beside_lookup. Qed.

Lemma beside_set_relation c name r : set_relation name r (beside c f) = beside (set_relation name r c) f.
Proof. unfold set_relation, beside. simpl. by rewrite insert_union_l. Qed.

Lemma beside_column_type c table column :
  relations f !! table = None -> column_type (beside c f) table column = column_type c table column.
Proof. intros Hn. unfold column_type. by rewrite beside_table_of. Qed.

Lemma beside_condition c condition :
  unnamed (named_by_condition condition) -> check_condition (beside c f) condition = check_condition c condition.
Proof.
  destruct condition; simpl; intros Hn; repeat apply Forall_cons in Hn as [? Hn];
    by rewrite !beside_column_type.
Qed.

Lemma check_all_ext {A} (check check' : A -> result MigrationErr unit) l :
  Forall (fun a => check a = check' a) l -> check_all check l = check_all check' l.
Proof. unfold check_all. induction 1 as [|a l Ha _ IH]; simpl; [done|]. rewrite Ha. by destruct (check' a) as [[]|]. Qed.

Lemma beside_conditions c l :
  unnamed (flat_map named_by_condition l) ->
  check_all (check_condition (beside c f)) l = check_all (check_condition c) l.
Proof.
  intros Hn. apply check_all_ext. apply Forall_forall. intros x Hx. apply beside_condition.
  apply Forall_forall. intros n Hin. unfold unnamed in Hn. rewrite Forall_forall in Hn. apply Hn.
  apply elem_of_flat_map. by exists x.
Qed.

Lemma beside_foreign_key c table fk :
  relations f !! table = None -> relations f !! fk_table fk = None ->
  check_foreign_key (beside c f) table fk = check_foreign_key c table fk.
Proof.
  intros Ht Hr. unfold check_foreign_key. rewrite (beside_table_of c (fk_table fk)) by done.
  destruct (table_of c (fk_table fk)) as [t|e]; [|done]. cbn [mbind result_bind].
  assert (forall n l, relations f !! n = None ->
    mapM (column_type (beside c f) n) l = mapM (column_type c n) l) as Hm.
  { intros n l Hn. induction l as [|x l IH]; simpl; [done|]. by rewrite beside_column_type, IH. }
  by rewrite !Hm.
Qed.

Lemma beside_comment c o :
  unnamed (named_by (Comment o)) -> check_comment c o = Ok tt -> check_comment (beside c f) o = Ok tt.
Proof.
  unfold unnamed. destruct o; simpl; intros Hn; repeat apply Forall_cons in Hn as [? Hn];
    rewrite ?beside_table_of, ?lookup_union_l by done; try done.
  intros [Hf _]%reject_ok. bool_prop. rewrite bool_decide_eq_true_2; [done | set_solver].
Qed.

Lemma beside_on_table c table g :
  relations f !! table = None ->
  on_table (beside c f) table g = (fun c' => beside c' f) <$> on_table c table g.
Proof.
  intros Hn. unfold on_table. rewrite beside_table_of by done. destruct (table_of c table); [|done].
  cbn. by rewrite beside_set_relation.
Qed.

(** What a statement does on [c] it does beside [f], where an extension may be
    there already. *)
Lemma run_ddl_beside available c d c' :
  (forall name, d = CreateExtension name -> name ∈ extensions f \/ available name = true) ->
  unnamed (named_by d) -> run_ddl (fun _ => true) c d = Ok c' ->
  run_ddl available (beside c f) d = Ok (beside c' f).
Proof.
  unfold unnamed. intros Ha Hn.
  destruct d as [name|name t fks|name table columns predicate|existing table name fk|table name l|
    table column definition|table column|table|table|name|name table columns function|name table l|o];
    cbn [named_by] in Hn; cbn [run_ddl]; try (apply Forall_cons in Hn as [Ht Hn]);
    rewrite ?beside_on_table, ?beside_table_of by done.
  - specialize (Ha name eq_refl). intros Hr. assert (c' = {| extensions := {[name]} ∪ extensions c;
      functions := functions c; relations := relations c |}) as ->.
    { case_bool_decide; injection Hr as <-; [|done]. destruct c. simpl in *. f_equal.
      apply leibniz_equiv. set_solver. }
    clear Hr. unfold beside. simpl. case_bool_decide as Hi.
    + do 2 f_equal. apply leibniz_equiv. set_solver.
    + destruct Ha as [Ha| ->]; [set_solver|]. simpl. do 2 f_equal. by rewrite (assoc_L (∪)).
  - rewrite beside_has_relation by done. destruct (has_relation c name); [by intros [= ->]|].
    intros [Hv Hr]%reject_ok. apply bind_ok in Hr as ([] & Hc & [= <-]).
    assert (has_vector t && negb (bool_decide (lit "vector" ∈ extensions (beside c f))) = false) as ->.
    { destruct (has_vector t); [|done]. simpl in *. bool_prop. rewrite bool_decide_eq_true_2; [done|set_solver]. }
    rewrite beside_set_relation.
    rewrite (check_all_ext _ (check_foreign_key (set_relation name (TableRelation t) c) name)); [by rewrite Hc|].
    apply Forall_map in Hn. eapply Forall_impl; [exact Hn|]. intros fk Hfk. by apply beside_foreign_key.
  - apply Forall_cons in Hn as [Ht' Hn]. rewrite beside_table_of, beside_conditions by done.
    destruct (table_of c table); [|done]. cbn [mbind result_bind].
    destruct (check_all (check_condition c) predicate); [|done]. cbn [mbind result_bind].
    destruct (check_all (check_column a) columns); [|done]. cbn [mbind result_bind].
    rewrite beside_has_relation by done. destruct (has_relation c name); intros [= <-]; [done|].
    by rewrite beside_set_relation.
  - apply Forall_cons in Hn as [Hf _]. destruct (table_of c table); [|done]. cbn [mbind result_bind].
    destruct (_ && bool_decide (name ∈ _)); [by intros [= ->]|]. rewrite beside_foreign_key by done.
    destruct (check_foreign_key c table fk); [|done]. cbn [mbind result_bind].
    destruct (fk_validated fk && _); [done|]. rewrite ?beside_on_table by done. by intros ->.
  - rewrite beside_conditions by done. destruct (check_all _ l); [|done]. cbn [mbind result_bind].
    rewrite ?beside_on_table by done. by intros ->.
  - by intros ->.
  - destruct (table_of c table); [|done]. cbn [mbind result_bind].
    destruct (check_column a column); [|done]. cbn [mbind result_bind].
    destruct (bool_decide _); [done|]. rewrite ?beside_on_table by done. by intros ->.
  - by intros ->.
  - by intros ->.
  - intros [= <-]. unfold beside. simpl. by rewrite (assoc_L (∪)).
  - destruct (table_of c table); [|done]. cbn [mbind result_bind].
    destruct (check_all _ columns); [|done]. cbn [mbind result_bind].
    case_bool_decide as Hf; simpl; [|done]. rewrite bool_decide_eq_true_2 by set_solver. simpl.
    rewrite ?beside_on_table by done. by intros ->.
  - rewrite beside_conditions by done. destruct (check_all _ l); [|done]. cbn [mbind result_bind].
    rewrite ?beside_on_table by done. by intros ->.
  - intros ([] & Hc & [= <-])%bind_ok. by rewrite (beside_comment c o).
Qed.

Lemma run_beside available l c c' :
  (forall name, CreateExtension name ∈ l -> name ∈ extensions f \/ available name = true) ->
  unnamed (flat_map named_by l) -> execute_unprepared (fun _ => true) c l = Ok c' ->
  execute_unprepared available (beside c f) l = Ok (beside c' f).
Proof.
  unfold execute_unprepared. revert c. induction l as [|d l IH]; intros c Ha Hn; simpl; [by intros [= ->]|].
  apply Forall_app in Hn as [Hd Hn]. intros (c1 & Hc1 & Hr)%bind_ok.
  rewrite (run_ddl_beside available c d c1); [|intros name ->; apply Ha; left | done | done].
  apply IH; [|done | done]. intros name Hin. apply Ha. by right.
Qed.
End Beside.
