(* ===== verification/Migrations.v ===== *)
(** * The migration runner ([src/migrations.rs])

    The six migrations as the lists of their statements, each over the
    catalogue of [Catalog], the transaction that runs them, and the query that
    checks the schema.  Function bodies, the CHECKs inside a [CREATE TABLE] and
    defaults are left out: they are about rows, which [Database] models, and
    need nothing of the catalogue that the same statement does not create. *)

From stdpp Require Import gmap strings.
From S2P Require Import Prelude Ordered RustStr Catalog.

(** ** Notation for the statements *)
Definition words (s : str) : list str := split_on 32 s.

Definition required (ty : ColumnType) (names : str) : list (str * Column) :=
  map (fun n => (n,
    {| co_type := ty; co_not_null := true |})) (words names).
Definition nullable (ty : ColumnType) (names : str) : list (str * Column) :=
  map (fun n => (n,
    {| co_type := ty; co_not_null := false |})) (words names).

(** A new table: its primary key is [id], and it has no rows. *)
Definition new_table (columns : list (list (str * Column))) (unique constraints : list str) : Table := {|
  tb_columns := list_to_map (concat columns);
  tb_primary := [lit "id"]; tb_keys := [lit "id"] :: map words unique;
  tb_constraints := list_to_set constraints; tb_triggers := ∅; tb_policies := ∅;
  tb_row_security := false; tb_forced := false; tb_orphans := ∅ |}.

Definition references (columns table referenced : str) : ForeignKey := {|
  fk_columns := words columns; fk_table := table; fk_referenced := words referenced;
  fk_validated := true |}.
Definition not_valid (fk : ForeignKey) : ForeignKey := {|
  fk_columns := fk_columns fk; fk_table := fk_table fk; fk_referenced := fk_referenced fk;
  fk_validated := false |}.

Definition any_type : list ColumnType :=
  [PgUuid; PgText; PgJsonb; PgBoolean; PgSmallint; PgInteger; PgReal; PgDouble; PgTimestamptz; PgVector].
(** [tenant_id = NULLIF(current_setting('app.tenant_id', TRUE), '')::UUID] *)
Definition of_tenant (table : str) : Condition := OfType table (lit "tenant_id") [PgUuid].
Definition is_text (table column : str) : Condition := OfType table column [PgText].

(** ** The migrations *)
Definition INDEXING_MIGRATION : list Ddl := [
  CreateExtension (lit "pgcrypto");
  CreateExtension (lit "vector");
  CreateTable (lit "eal_sources") (new_table [
     required PgUuid (lit "id tenant_id");
     required PgText (lit "name root_url");
     required PgJsonb (lit "allowed_hosts allowed_path_prefixes discovery_modes");
     required PgBoolean (lit "include_subdomains obey_robots enabled");
     required PgInteger (lit "crawl_interval_seconds max_pages_per_run");
     required PgSmallint (lit "max_depth");
     required PgTimestamptz (lit "created_at updated_at")]
     [lit "tenant_id root_url"] [])
    [];
  CreateIndex (lit "eal_sources_tenant_enabled_idx") (lit "eal_sources")
    (words (lit "tenant_id enabled updated_at id")) [];
  CreateTable (lit "eal_crawl_queue") (new_table [
     required PgUuid (lit "id tenant_id source_id");
     required PgText (lit "url canonical_url discovered_by status");
     required PgSmallint (lit "depth");
     required PgInteger (lit "priority attempt_count");
     required PgTimestamptz (lit "next_attempt_at created_at updated_at");
     nullable PgText (lit "lease_owner last_error");
     nullable PgTimestamptz (lit "lease_expires_at")]
     [lit "tenant_id source_id canonical_url"] [])
    [references (lit "source_id") (lit "eal_sources") (lit "id")];
  CreateIndex (lit "eal_crawl_queue_claim_idx") (lit "eal_crawl_queue")
    (words (lit "status next_attempt_at priority created_at"))
    [is_text (lit "eal_crawl_queue") (lit "status")];
  CreateTable (lit "eal_pages") (new_table [
     required PgUuid (lit "id tenant_id source_id");
     required PgText (lit "canonical_url");
     required PgTimestamptz (lit "first_seen_at last_seen_at created_at updated_at");
     nullable PgUuid (lit "latest_revision_id")]
     [lit "tenant_id source_id canonical_url"] [])
    [references (lit "source_id") (lit "eal_sources") (lit "id")];
  CreateIndex (lit "eal_pages_tenant_source_seen_idx") (lit "eal_pages")
    (words (lit "tenant_id source_id last_seen_at id")) [];
  CreateTable (lit "eal_page_revisions") (new_table [
     required PgUuid (lit "id tenant_id page_id");
     nullable PgUuid (lit "predecessor_revision_id");
     required PgText (lit "original_url final_url content_text content_sha256 content_type");
     nullable PgText (lit "title");
     required PgSmallint (lit "http_status");
     nullable PgTimestamptz (lit "published_at");
     required PgTimestamptz (lit "fetched_at created_at")]
     [lit "tenant_id page_id content_sha256"] [])
    [references (lit "page_id") (lit "eal_pages") (lit "id");
     references (lit "predecessor_revision_id") (lit "eal_page_revisions") (lit "id")];
  AddForeignKey Replaced (lit "eal_pages") (lit "eal_pages_latest_revision_fk")
    (references (lit "latest_revision_id") (lit "eal_page_revisions") (lit "id"));
  CreateIndex (lit "eal_page_revisions_tenant_fetched_idx") (lit "eal_page_revisions")
    (words (lit "tenant_id fetched_at id")) [];
  CreateTable (lit "eal_embeddings") (new_table [
     required PgUuid (lit "id tenant_id revision_id");
     required PgText (lit "model model_version normalization");
     required PgInteger (lit "dimensions");
     required PgVector (lit "embedding");
     required PgTimestamptz (lit "generated_at created_at")]
     [lit "tenant_id revision_id model model_version dimensions normalization"] [])
    [references (lit "revision_id") (lit "eal_page_revisions") (lit "id")];
  CreateIndex (lit "eal_embeddings_provenance_idx") (lit "eal_embeddings")
    (words (lit "tenant_id model model_version dimensions normalization created_at id")) [];
  CreateTable (lit "eal_match_candidates") (new_table [
     required PgUuid (lit "id tenant_id alert_rule_id revision_id embedding_id");
     required PgText (lit "canonical_match_key status");
     required PgDouble (lit "similarity threshold");
     required PgJsonb (lit "score_explanation");
     required PgTimestamptz (lit "created_at updated_at")]
     [lit "tenant_id canonical_match_key"] [])
    [references (lit "revision_id") (lit "eal_page_revisions") (lit "id");
     references (lit "embedding_id") (lit "eal_embeddings") (lit "id")];
  CreateIndex (lit "eal_match_candidates_rule_status_idx") (lit "eal_match_candidates")
    (words (lit "tenant_id alert_rule_id status created_at id")) [];
  EnableRowSecurity (lit "eal_sources");
  EnableRowSecurity (lit "eal_crawl_queue");
  EnableRowSecurity (lit "eal_pages");
  EnableRowSecurity (lit "eal_page_revisions");
  EnableRowSecurity (lit "eal_embeddings");
  EnableRowSecurity (lit "eal_match_candidates")
].

Definition SEMANTIC_INPUT_MIGRATION : list Ddl := [
  CreateTable (lit "eal_semantic_input_sets") (new_table [
     required PgUuid (lit "id tenant_id subject_id embedding_space_id");
     required PgText (lit "subject_kind extractor_name extractor_version source_content_sha256");
     required PgJsonb (lit "provenance");
     required PgTimestamptz (lit "created_at")]
     [lit "tenant_id subject_kind subject_id embedding_space_id extractor_name extractor_version source_content_sha256"] [])
    [];
  CreateTable (lit "eal_semantic_inputs") (new_table [
     required PgUuid (lit "id tenant_id input_set_id");
     required PgText (lit "kind input_text input_text_sha256");
     required PgSmallint (lit "ordinal");
     required PgReal (lit "weight");
     required PgTimestamptz (lit "created_at")]
     [lit "input_set_id ordinal"; lit "input_set_id kind input_text_sha256"] [])
    [references (lit "input_set_id") (lit "eal_semantic_input_sets") (lit "id")];
  CreateTable (lit "eal_semantic_input_vectors") (new_table [
     required PgUuid (lit "id tenant_id semantic_input_id embedding_space_id");
     required PgVector (lit "embedding");
     nullable PgText (lit "provider_request_id");
     required PgTimestamptz (lit "generated_at")]
     [lit "semantic_input_id embedding_space_id"] [])
    [references (lit "semantic_input_id") (lit "eal_semantic_inputs") (lit "id")];
  CreateIndex (lit "eal_semantic_input_sets_subject_idx") (lit "eal_semantic_input_sets")
    (words (lit "tenant_id subject_kind subject_id embedding_space_id created_at")) [];
  CreateIndex (lit "eal_semantic_inputs_set_kind_idx") (lit "eal_semantic_inputs")
    (words (lit "tenant_id input_set_id kind ordinal")) [];
  CreateIndex (lit "eal_semantic_input_vectors_space_idx") (lit "eal_semantic_input_vectors")
    (words (lit "tenant_id embedding_space_id generated_at")) [];
  EnableRowSecurity (lit "eal_semantic_input_sets");
  EnableRowSecurity (lit "eal_semantic_inputs");
  EnableRowSecurity (lit "eal_semantic_input_vectors");
  ForceRowSecurity (lit "eal_semantic_input_sets");
  ForceRowSecurity (lit "eal_semantic_inputs");
  ForceRowSecurity (lit "eal_semantic_input_vectors");
  CreatePolicy (lit "eal_semantic_input_sets_tenant_isolation") (lit "eal_semantic_input_sets")
    [of_tenant (lit "eal_semantic_input_sets")];
  CreatePolicy (lit "eal_semantic_inputs_tenant_isolation") (lit "eal_semantic_inputs")
    [of_tenant (lit "eal_semantic_inputs")];
  CreatePolicy (lit "eal_semantic_input_vectors_tenant_isolation") (lit "eal_semantic_input_vectors")
    [of_tenant (lit "eal_semantic_input_vectors")];
  Comment (OnTable (lit "eal_semantic_input_sets"));
  Comment (OnTable (lit "eal_semantic_inputs"));
  Comment (OnTable (lit "eal_semantic_input_vectors"))
].

Definition ALERT_RULE_MIGRATION : list Ddl := [
  CreateTable (lit "eal_alert_rules") (new_table [
     required PgUuid (lit "id tenant_id");
     required PgText (lit "owner_subject");
     nullable PgUuid (lit "active_revision_id");
     required PgTimestamptz (lit "created_at updated_at")]
     [lit "tenant_id id"] [])
    [];
  CreateTable (lit "eal_alert_rule_revisions") (new_table [
     required PgUuid (lit "id tenant_id alert_rule_id");
     required PgInteger (lit "revision_number");
     required PgText (lit "created_by_subject name query_text embedding_model");
     required PgReal (lit "similarity_threshold");
     required PgJsonb (lit "source_filters delivery_channels");
     required PgBoolean (lit "enabled");
     required PgTimestamptz (lit "created_at")]
     [lit "tenant_id id";
      lit "tenant_id alert_rule_id revision_number"]
     [lit "eal_alert_rule_revisions_rule_fk"])
    [references (lit "tenant_id alert_rule_id") (lit "eal_alert_rules") (lit "tenant_id id")];
  AddForeignKey Kept (lit "eal_alert_rules") (lit "eal_alert_rules_active_revision_fk")
    (references (lit "tenant_id active_revision_id") (lit "eal_alert_rule_revisions") (lit "tenant_id id"));
  CreateIndex (lit "eal_alert_rules_tenant_owner_idx") (lit "eal_alert_rules")
    (words (lit "tenant_id owner_subject updated_at id")) [];
  CreateIndex (lit "eal_alert_rule_revisions_rule_idx") (lit "eal_alert_rule_revisions")
    (words (lit "tenant_id alert_rule_id revision_number created_at id")) [];
  CreateFunction (lit "eal_reject_alert_rule_revision_mutation");
  CreateTrigger (lit "eal_alert_rule_revisions_immutable") (lit "eal_alert_rule_revisions") []
    (lit "eal_reject_alert_rule_revision_mutation");
  EnableRowSecurity (lit "eal_alert_rules");
  EnableRowSecurity (lit "eal_alert_rule_revisions");
  ForceRowSecurity (lit "eal_alert_rules");
  ForceRowSecurity (lit "eal_alert_rule_revisions");
  CreatePolicy (lit "eal_alert_rules_tenant_isolation") (lit "eal_alert_rules")
    [of_tenant (lit "eal_alert_rules"); is_text (lit "eal_alert_rules") (lit "owner_subject")];
  CreatePolicy (lit "eal_alert_rule_revisions_tenant_isolation") (lit "eal_alert_rule_revisions")
    [of_tenant (lit "eal_alert_rule_revisions");
     Compared (lit "eal_alert_rules") (lit "tenant_id") (lit "eal_alert_rule_revisions") (lit "tenant_id");
     Compared (lit "eal_alert_rules") (lit "id") (lit "eal_alert_rule_revisions") (lit "alert_rule_id")];
  AddForeignKey Kept (lit "eal_match_candidates") (lit "eal_match_candidates_alert_rule_fk")
    (not_valid
      (references (lit "tenant_id alert_rule_id") (lit "eal_alert_rules") (lit "tenant_id id")));
  Comment (OnTable (lit "eal_alert_rules"));
  Comment (OnTable (lit "eal_alert_rule_revisions"))
].

Definition MATCH_IDENTITY_MIGRATION : list Ddl := [
  AddColumn (lit "eal_match_candidates") (lit "alert_rule_revision_id")
    {| co_type := PgUuid; co_not_null := false |};
  AddForeignKey Kept (lit "eal_match_candidates") (lit "eal_match_candidates_alert_rule_revision_fk")
    (not_valid
      (references (lit "tenant_id alert_rule_revision_id") (lit "eal_alert_rule_revisions") (lit "tenant_id id")));
  AddCheck (lit "eal_match_candidates") (lit "eal_match_candidates_new_rows_have_rule_revision")
    [OfType (lit "eal_match_candidates") (lit "alert_rule_revision_id") any_type];
  CreateIndex (lit "eal_match_candidates_rule_revision_status_idx") (lit "eal_match_candidates")
    (words (lit "tenant_id alert_rule_id alert_rule_revision_id status created_at id")) [];
  CreateFunction (lit "eal_reject_match_evidence_mutation");
  CreateTrigger (lit "eal_match_candidates_evidence_immutable") (lit "eal_match_candidates") []
    (lit "eal_reject_match_evidence_mutation");
  Comment (OnColumn (lit "eal_match_candidates") (lit "alert_rule_revision_id"));
  Comment (OnConstraint (lit "eal_match_candidates") (lit "eal_match_candidates_new_rows_have_rule_revision"))
].

Definition REVERSE_ALERT_MIGRATION : list Ddl := [
  CreateTable (lit "eal_alert_rule_embeddings") (new_table [
     required PgUuid (lit "id tenant_id alert_rule_id alert_rule_revision_id");
     required PgText (lit "model model_version normalization embedding_sha256");
     required PgInteger (lit "dimensions");
     required PgVector (lit "embedding");
     required PgTimestamptz (lit "generated_at created_at")]
     [lit "tenant_id id";
      lit "tenant_id alert_rule_revision_id model model_version dimensions normalization"]
     [lit "eal_alert_rule_embeddings_rule_fk";
      lit "eal_alert_rule_embeddings_revision_fk"])
    [references (lit "tenant_id alert_rule_id") (lit "eal_alert_rules") (lit "tenant_id id");
     references (lit "tenant_id alert_rule_revision_id") (lit "eal_alert_rule_revisions") (lit "tenant_id id")];
  CreateIndex (lit "eal_alert_rule_embeddings_hot_lookup_idx") (lit "eal_alert_rule_embeddings")
    (words (lit "tenant_id model model_version dimensions normalization alert_rule_revision_id id")) [];
  Comment (OnIndex (lit "eal_alert_rule_embeddings_hot_lookup_idx"));
  CreateFunction (lit "eal_reject_alert_embedding_mutation");
  CreateTrigger (lit "eal_alert_rule_embeddings_immutable") (lit "eal_alert_rule_embeddings") []
    (lit "eal_reject_alert_embedding_mutation");
  EnableRowSecurity (lit "eal_alert_rule_embeddings");
  ForceRowSecurity (lit "eal_alert_rule_embeddings");
  CreatePolicy (lit "eal_alert_rule_embeddings_tenant_isolation") (lit "eal_alert_rule_embeddings")
    [of_tenant (lit "eal_alert_rule_embeddings");
     Compared (lit "eal_alert_rules") (lit "tenant_id") (lit "eal_alert_rule_embeddings") (lit "tenant_id");
     Compared (lit "eal_alert_rules") (lit "id") (lit "eal_alert_rule_embeddings") (lit "alert_rule_id");
     is_text (lit "eal_alert_rules") (lit "owner_subject")];
  DropNotNull (lit "eal_match_candidates") (lit "embedding_id");
  AddColumn (lit "eal_match_candidates") (lit "match_mode")
    {| co_type := PgText; co_not_null := true |};
  AddColumn (lit "eal_match_candidates") (lit "alert_embedding_id")
    {| co_type := PgUuid; co_not_null := false |};
  AddColumn (lit "eal_match_candidates") (lit "page_embedding_sha256")
    {| co_type := PgText; co_not_null := false |};
  AddColumn (lit "eal_match_candidates") (lit "page_embedding_model")
    {| co_type := PgText; co_not_null := false |};
  AddColumn (lit "eal_match_candidates") (lit "page_embedding_model_version")
    {| co_type := PgText; co_not_null := false |};
  AddColumn (lit "eal_match_candidates") (lit "page_embedding_dimensions")
    {| co_type := PgInteger; co_not_null := false |};
  AddColumn (lit "eal_match_candidates") (lit "page_embedding_normalization")
    {| co_type := PgText; co_not_null := false |};
  AddForeignKey Kept (lit "eal_match_candidates") (lit "eal_match_candidates_alert_embedding_fk")
    (not_valid
      (references (lit "tenant_id alert_embedding_id") (lit "eal_alert_rule_embeddings") (lit "tenant_id id")));
  AddCheck (lit "eal_match_candidates") (lit "eal_match_candidates_embedding_evidence_shape")
    [is_text (lit "eal_match_candidates") (lit "match_mode");
     OfType (lit "eal_match_candidates") (lit "embedding_id") any_type;
     OfType (lit "eal_match_candidates") (lit "alert_embedding_id") any_type;
     is_text (lit "eal_match_candidates") (lit "page_embedding_sha256");
     is_text (lit "eal_match_candidates") (lit "page_embedding_model");
     is_text (lit "eal_match_candidates") (lit "page_embedding_model_version");
     OfType (lit "eal_match_candidates") (lit "page_embedding_dimensions")
       [PgSmallint; PgInteger; PgReal; PgDouble];
     is_text (lit "eal_match_candidates") (lit "page_embedding_normalization")];
  CreateIndex (lit "eal_match_candidates_reverse_evidence_idx") (lit "eal_match_candidates")
    (words (lit "tenant_id alert_embedding_id alert_rule_revision_id revision_id created_at id"))
    [is_text (lit "eal_match_candidates") (lit "match_mode")];
  CreateFunction (lit "eal_reject_match_evidence_mutation");
  Comment (OnTable (lit "eal_alert_rule_embeddings"));
  Comment (OnColumn (lit "eal_match_candidates") (lit "match_mode"));
  Comment (OnColumn (lit "eal_match_candidates") (lit "page_embedding_sha256"))
].

Definition ACTIVE_ALERT_LIMIT_MIGRATION : list Ddl := [
  CreateFunction (lit "eal_enforce_active_alert_limit");
  CreateTrigger (lit "eal_alert_rules_active_limit") (lit "eal_alert_rules") [lit "active_revision_id"]
    (lit "eal_enforce_active_alert_limit");
  Comment (OnFunction (lit "eal_enforce_active_alert_limit"))
].

(** ** Running and checking *)

(** One transaction: an error leaves the catalogue as it was. *)
Definition migrate_all (available : str -> bool) (c : Catalog) : result MigrationErr unit * Catalog :=
  match
    (c ← execute_unprepared available c INDEXING_MIGRATION;
     c ← execute_unprepared available c SEMANTIC_INPUT_MIGRATION;
     c ← execute_unprepared available c ALERT_RULE_MIGRATION;
     c ← execute_unprepared available c MATCH_IDENTITY_MIGRATION;
     c ← execute_unprepared available c REVERSE_ALERT_MIGRATION;
     execute_unprepared available c ACTIVE_ALERT_LIMIT_MIGRATION)
  with
  | Ok c' => (Ok tt, c')
  | Err e => (Err e, c)
  end.

(** [store::migrate]: the first migration alone.  PostgreSQL runs the
    statements of one simple query as one transaction. *)
Definition migrate (available : str -> bool) (c : Catalog) : result MigrationErr unit * Catalog :=
  match execute_unprepared available c INDEXING_MIGRATION with
  | Ok c' => (Ok tt, c')
  | Err e => (Err e, c)
  end.

(** The constant ['public.eal_match_candidates'::regclass] is resolved before
    the query runs, so the query is an error when the table is missing. *)
Definition schema_ready (c : Catalog) : result MigrationErr bool :=
  reject UndefinedTable when negb (has_relation c (lit "eal_match_candidates")) ;;
  Ok (has_relation c (lit "eal_sources") && has_relation c (lit "eal_page_revisions") &&
      has_relation c (lit "eal_embeddings") && has_relation c (lit "eal_alert_rule_embeddings") &&
      has_relation c (lit "eal_match_candidates") && has_relation c (lit "eal_semantic_input_sets") &&
      has_relation c (lit "eal_alert_rules") && has_relation c (lit "eal_alert_rule_revisions") &&
      has_column c (lit "eal_match_candidates") (lit "alert_rule_revision_id") &&
      has_column c (lit "eal_match_candidates") (lit "match_mode") &&
      has_trigger c (lit "eal_alert_rule_revisions_immutable") &&
      has_trigger c (lit "eal_alert_rule_embeddings_immutable") &&
      has_trigger c (lit "eal_alert_rules_active_limit") &&
      has_trigger c (lit "eal_match_candidates_evidence_immutable")).

(** ** What a run does *)
Definition all_migrations : list Ddl :=
  INDEXING_MIGRATION ++ SEMANTIC_INPUT_MIGRATION ++ ALERT_RULE_MIGRATION ++
  MATCH_IDENTITY_MIGRATION ++ REVERSE_ALERT_MIGRATION ++ ACTIVE_ALERT_LIMIT_MIGRATION.

Lemma migrate_all_run available c :
  migrate_all available c =
  match execute_unprepared available c all_migrations with
  | Ok c' => (Ok tt, c')
  | Err e => (Err e, c)
  end.
Proof.
  unfold migrate_all, all_migrations, execute_unprepared.
  rewrite for_each_app. destruct (for_each _ INDEXING_MIGRATION c) as [c1|e]; cbn [mbind result_bind]; [|done].
  rewrite for_each_app. destruct (for_each _ _ c1) as [c2|e]; cbn [mbind result_bind]; [|done].
  rewrite for_each_app. destruct (for_each _ _ c2) as [c3|e]; cbn [mbind result_bind]; [|done].
  rewrite for_each_app. destruct (for_each _ _ c3) as [c4|e]; cbn [mbind result_bind]; [|done].
  rewrite for_each_app. by destruct (for_each _ _ c4).
Qed.

Lemma table_has_trigger c table trigger :
  table_has c table (fun t => trigger ∈ tb_triggers t) -> has_trigger c trigger = true.
Proof.
  intros (t & Ht & Hn). unfold table_of in Ht. destruct (relations c !! table) as [[u| |]|] eqn:Er; try done.
  injection Ht as ->. apply (existsb_member _ _ (table, TableRelation t)).
  - by apply elem_of_map_to_list.
  - by apply bool_decide_eq_true_2.
Qed.

Lemma table_has_column c table column :
  table_has c table (fun t => is_Some (tb_columns t !! column)) -> has_column c table column = true.
Proof.
  intros (t & Ht & Hk). unfold table_of in Ht. unfold has_column.
  destruct (relations c !! table) as [[u| |]|]; try done. injection Ht as ->. by apply bool_decide_eq_true_2.
Qed.

(** The objects [schema_ready] asks for are created by some statement. *)
Definition created (test : Ddl -> bool) : bool := existsb test all_migrations.
Definition creates_table (table : str) (d : Ddl) : bool :=
  match d with CreateTable t _ _ => bool_decide (t = table) | _ => false end.
Definition creates_trigger (name : str) (d : Ddl) : bool :=
  match d with CreateTrigger n _ _ _ => bool_decide (n = name) | _ => false end.
Definition adds_column (table column : str) (d : Ddl) : bool :=
  match d with
  | AddColumn t k _ => bool_decide (t = table) && bool_decide (k = column)
  | _ => false
  end.

Lemma created_satisfied c test (P : Prop) :
  Forall (satisfied c) all_migrations -> created test = true ->
  (forall d, test d = true -> satisfied c d -> P) -> P.
Proof.
  intros Hs Hc HP. apply existsb_true_Exists, Exists_exists in Hc as (d & Hd & Ht).
  rewrite Forall_forall in Hs. eauto.
Qed.

Lemma all_satisfied_ready c : Forall (satisfied c) all_migrations -> schema_ready c = Ok true.
Proof.
  intros Hs.
  assert (forall t, created (creates_table t) = true -> has_relation c t = true) as Ht.
  { intros t Hc. apply (created_satisfied _ _ _ Hs Hc). intros []; simpl; try done. intros Hb Hr.
    by bool_prop; subst. }
  assert (forall n, created (creates_trigger n) = true -> has_trigger c n = true) as Hn.
  { intros n Hc. apply (created_satisfied _ _ _ Hs Hc). intros []; simpl; try done.
    intros Hb (_ & t & Hr & Hin & _). bool_prop. subst. eapply table_has_trigger. by exists t. }
  assert (forall t k, created (adds_column t k) = true -> has_column c t k = true) as Hk.
  { intros t k Hc. apply (created_satisfied _ _ _ Hs Hc). intros []; simpl; try done. intros Hb Hr.
    bool_prop. subst. by apply table_has_column. }
  unfold schema_ready. by rewrite !Ht, !Hn, !Hk by (by vm_compute).
Qed.

Lemma migrated available c u c' :
  migrate_all available c = (Ok u, c') -> extends c c' /\ schema_ready c' = Ok true.
Proof.
  rewrite migrate_all_run. destruct (execute_unprepared _ _ _) as [c1|e] eqn:Er; [|done].
  intros [= _ <-]. destruct (run_ok _ _ _ _ Er). split; [done | by eapply all_satisfied_ready].
Qed.

Lemma migrated_again available c u c' :
  migrate_all available c = (Ok u, c') -> migrate_all available c' = (Ok tt, c').
Proof.
  rewrite !migrate_all_run. destruct (execute_unprepared available c _) as [c1|e] eqn:Er; [|done].
  intros [= _ <-]. destruct (run_ok _ _ _ _ Er) as [_ Hs]. by rewrite run_satisfied.
Qed.

(** ** Databases a migration may meet *)

(** The schema the migrations make of an empty database. *)
Definition full_schema : Catalog :=
  match execute_unprepared (fun _ => true) empty_catalog all_migrations with
  | Ok c => c
  | Err _ => empty_catalog
  end.

Lemma full_schema_run : execute_unprepared (fun _ => true) empty_catalog all_migrations = Ok full_schema.
Proof.
  assert (is_ok (execute_unprepared (fun _ => true) empty_catalog all_migrations) = true) as Hok
    by (by vm_compute).
  unfold full_schema. by destruct (execute_unprepared _ _ _).
Qed.

(** The first statements of the migrations have been run, none or all of them
    included, beside objects [f] that have no name the migrations use. *)
Definition half_migrated (f c : Catalog) : Prop :=
  unnamed f (flat_map named_by all_migrations) /\
  exists finished rest p, all_migrations = finished ++ rest /\
    execute_unprepared (fun _ => true) empty_catalog finished = Ok p /\ c = beside p f.

Lemma half_migrated_empty : half_migrated empty_catalog empty_catalog.
Proof.
  split; [apply Forall_forall; intros; apply lookup_empty|].
  exists [], all_migrations, empty_catalog. done.
Qed.

(** The server has the extension, or it is installed already. *)
Definition provided (available : str -> bool) (f : Catalog) : Prop :=
  Forall (fun name => name ∈ extensions f \/ available name = true) [lit "pgcrypto"; lit "vector"].

Lemma half_migrated_completes available f c :
  half_migrated f c -> provided available f ->
  migrate_all available c = (Ok tt, beside full_schema f).
Proof.
  intros (Hn & finished & rest & p & Ea & Hp & ->) Ha. rewrite migrate_all_run.
  rewrite (run_beside f available all_migrations p full_schema); [done | | done|].
  - intros name Hin. unfold provided in Ha. rewrite Forall_forall in Ha. apply Ha.
    assert (Forall (fun d => match d with
      | CreateExtension name => name ∈ [lit "pgcrypto"; lit "vector"]
      | _ => True end) all_migrations) as Hall.
    { repeat (apply Forall_cons; split; [first [exact I | by left | by right; left]|]). apply Forall_nil_2. }
    rewrite Forall_forall in Hall. exact (Hall _ Hin).
  - pose proof full_schema_run as Hf. rewrite Ea in Hf |- *. unfold execute_unprepared in *.
    rewrite for_each_app in Hf |- *. rewrite Hp in Hf. cbn [mbind result_bind] in Hf.
    destruct (run_ok _ _ _ _ Hp) as [_ Hs]. apply (run_satisfied (fun _ => true)) in Hs.
    unfold execute_unprepared in Hs. by rewrite Hs.
Qed.

Lemma create_extension_relations available c name c' :
  run_ddl available c (CreateExtension name) = Ok c' -> relations c' = relations c.
Proof. cbn [run_ddl]. case_bool_decide; intros Hr; by inv_ok. Qed.

(** A table that is there already is not looked at, so one that lacks a column
    makes the first index on it fail. *)
Lemma stale_table_refused available c t column e1 e2 table definition fks index columns rest :
  table_of c table = Ok t -> tb_columns t !! column = None -> column ∈ columns ->
  exists e, execute_unprepared available c
    (CreateExtension e1 :: CreateExtension e2 :: CreateTable table definition fks ::
     CreateIndex index table columns [] :: rest) = Err e.
Proof.
  intros Ht Hk Hin. unfold execute_unprepared. destruct (for_each _ _ c) as [c'|e] eqn:Er; [|by exists e].
  exfalso. revert Er. cbn [for_each].
  intros (c1 & H1%create_extension_relations & (c2 & H2%create_extension_relations & Hr)%bind_ok)%bind_ok.
  apply bind_ok in Hr as (c3 & H3 & (c4 & H4 & _)%bind_ok). cbn [run_ddl] in H3, H4.
  assert (table_of c2 table = Ok t) as Ht2 by (unfold table_of in *; by rewrite H2, H1).
  assert (has_relation c2 table = true) as Hs.
  { unfold has_relation. unfold table_of in Ht2. destruct (relations c2 !! _); [|done].
    by apply bool_decide_eq_true_2. }
  rewrite Hs in H3. injection H3 as <-. rewrite Ht2 in H4. cbn [mbind result_bind] in H4.
  apply bind_ok in H4 as (_ & _ & (u & Hc & _)%bind_ok). destruct u.
  apply check_all_Forall in Hc. rewrite Forall_forall in Hc. specialize (Hc column Hin).
  unfold check_column, column_of in Hc. by rewrite Hk in Hc.
Qed.

Lemma migrations_begin : exists definition rest, all_migrations =
  CreateExtension (lit "pgcrypto") :: CreateExtension (lit "vector") ::
  CreateTable (lit "eal_sources") definition [] ::
  CreateIndex (lit "eal_sources_tenant_enabled_idx") (lit "eal_sources")
    (words (lit "tenant_id enabled updated_at id")) [] :: rest.
Proof. do 2 eexists. unfold all_migrations, INDEXING_MIGRATION. cbn [app]. reflexivity. Qed.

Lemma stale_sources_refused available c t column :
  table_of c (lit "eal_sources") = Ok t -> tb_columns t !! column = None ->
  column ∈ words (lit "tenant_id enabled updated_at id") ->
  exists e, migrate_all available c = (Err e, c).
Proof.
  intros Ht Hk Hin. rewrite migrate_all_run.
  destruct migrations_begin as (definition & rest & ->).
  destruct (stale_table_refused available c t column (lit "pgcrypto") (lit "vector") (lit "eal_sources")
    definition [] (lit "eal_sources_tenant_enabled_idx") (words (lit "tenant_id enabled updated_at id")) rest
    Ht Hk Hin) as [e ->].
  by exists e.
Qed.

(** C27: migrating.  It is one transaction: an error leaves the catalogue as it
    was.  A success keeps every object that was there, leaves a schema that
    [schema_ready] accepts, and migrating again then changes nothing.  On a
    database that holds the objects of the first statements of the migrations,
    none or all of them included, beside any objects of other names, it
    succeeds and makes the full schema beside those objects, if the extensions
    are installed or available.  What is there under the migrations' own names
    is not repaired: with an [eal_sources] that lacks a column of its index it
    fails.  Before the first migration [schema_ready] is an error, never
    [false]. *)
Theorem migrate_all_ready available c :
  match migrate_all available c with
  | (Ok _, c') =>
      schema_ready c' = Ok true /\ extends c c' /\ migrate_all available c' = (Ok tt, c')
  | (Err _, c') => c' = c
  end /\
  (forall f, half_migrated f c -> provided available f ->
     migrate_all available c = (Ok tt, beside full_schema f)) /\
  (forall t column, table_of c (lit "eal_sources") = Ok t -> tb_columns t !! column = None ->
     column ∈ words (lit "tenant_id enabled updated_at id") ->
     exists e, migrate_all available c = (Err e, c)) /\
  (has_relation c (lit "eal_match_candidates") = false -> schema_ready c = Err UndefinedTable).
Proof.
  split; [|split; [|split]].
  - destruct (migrate_all available c) as [[u|e] c'] eqn:Em.
    + destruct (migrated _ _ _ _ Em). split; [done|]. split; [done|]. by eapply migrated_again.
    + revert Em. rewrite migrate_all_run. destruct (execute_unprepared _ _ _); [done|]. by intros [= _ <-].
  - intros f. apply half_migrated_completes.
  - intros t column. apply stale_sources_refused.
  - unfold schema_ready. by intros ->.
Qed.

(** [migrate_all] completes what [migrate] began, to the same catalogue. *)
Lemma migrate_completed available c c' :
  migrate available c = (Ok tt, c') ->
  (migrate_all available c').1 = (migrate_all available c).1 /\
  forall c2, migrate_all available c = (Ok tt, c2) -> migrate_all available c' = (Ok tt, c2).
Proof.
  unfold migrate. destruct (execute_unprepared available c INDEXING_MIGRATION) as [c1|e] eqn:Er; [|done].
  intros [= ->]. destruct (run_ok _ _ _ _ Er) as [_ Hs].
  rewrite !migrate_all_run. unfold all_migrations.
  unfold execute_unprepared in *. rewrite !(for_each_app _ INDEXING_MIGRATION), Er.
  pose proof (run_satisfied available INDEXING_MIGRATION c' Hs) as Er'.
  unfold execute_unprepared in Er'. rewrite Er'. cbn [mbind result_bind].
  clear Er'. destruct (for_each _ _ c'); (split; [done | congruence]).
Qed.

(** Alone it leaves a schema that is not ready. *)
Example migrate_not_ready :
  schema_ready (migrate (fun _ => true) empty_catalog).2 = Ok false.
Proof. by vm_compute. Qed.

(** A migration before the ones it builds on is refused, and undone. *)
Example identity_first :
  execute_unprepared (fun _ => true) empty_catalog MATCH_IDENTITY_MIGRATION = Err UndefinedTable.
Proof. by vm_compute. Qed.

(** ** A database with a table of another program *)
Module MigratedExample.
(** The table [alert_documents] of an earlier version, and [vector]. *)
Definition legacy : Catalog :=
  set_relation (lit "alert_documents") (TableRelation (new_table [required PgUuid (lit "id")] [] []))
    {| extensions := {[lit "vector"]}; functions := ∅; relations := ∅ |}.
Definition only_pgcrypto (name : str) : bool := bool_decide (name = lit "pgcrypto").
(** After [store::migrate]. *)
Definition begun : Catalog :=
  match execute_unprepared (fun _ => true) empty_catalog INDEXING_MIGRATION with
  | Ok p => beside p legacy
  | Err _ => legacy
  end.

(** An [eal_pages] without its sources. *)
Definition stale : Catalog :=
  set_relation (lit "eal_pages") (TableRelation (new_table [required PgUuid (lit "id tenant_id")] [] []))
    empty_catalog.
(** Pages that point at revisions which are gone. *)
Definition dangling : Catalog :=
  match relations full_schema !! lit "eal_pages" with
  | Some (TableRelation t) =>
      set_relation (lit "eal_pages") (TableRelation {|
        tb_columns := tb_columns t; tb_primary := tb_primary t; tb_keys := tb_keys t;
        tb_constraints := ∅; tb_triggers := ∅; tb_policies := ∅; tb_row_security := false;
        tb_forced := false; tb_orphans := {[lit "eal_pages_latest_revision_fk"]} |}) full_schema
  | _ => full_schema
  end.
End MigratedExample.
Import MigratedExample.

Example bad_tables_refused :
  (migrate_all (fun _ => true) stale).1 = Err UndefinedColumn /\
  (migrate_all (fun _ => true) dangling).1 = Err ForeignKeyViolated /\
  (migrate_all (fun _ => false) empty_catalog).1 = Err ExtensionUnavailable.
Proof. split; [|split]; vm_compute; reflexivity. Qed.

Lemma half_migrated_begun : half_migrated legacy begun.
Proof.
  split; [refine (proj1 (bool_decide_eq_true _) _); vm_compute; reflexivity|].
  exists INDEXING_MIGRATION, (drop (length INDEXING_MIGRATION) all_migrations).
  unfold begun. assert (is_ok (execute_unprepared (fun _ => true) empty_catalog INDEXING_MIGRATION) = true) as Hok
    by (by vm_compute).
  destruct (execute_unprepared _ _ _) as [p|e]; [|done]. by exists p.
Qed.

Lemma migrate_all_ready_witness :
  schema_ready begun = Ok false /\ migrate_all only_pgcrypto begun = (Ok tt, beside full_schema legacy) /\
  schema_ready empty_catalog = Err UndefinedTable.
Proof.
  split; [vm_compute; reflexivity|]. split.
  - apply (migrate_all_ready only_pgcrypto begun); [apply half_migrated_begun|].
    refine (proj1 (bool_decide_eq_true _) _). vm_compute. reflexivity.
  - apply (migrate_all_ready only_pgcrypto empty_catalog). reflexivity.
Defined.
