(* ===== verification/ConcurrentMigrations.v ===== *)
(** * Servers that migrate at the same time ([src/migrations.rs])

    Every server migrates when it starts, and several start at once.  Here any
    number of runs of [migrate_all] take their statements in turn, each seeing
    the committed catalogue and its own objects (READ COMMITTED), after the
    advisory lock that the first statement of the transaction takes.  A
    statement that names a table which another transaction in progress has
    named is a [Clash]: PostgreSQL makes it wait, and refuses it when both
    create the table or when each waits for the other.  The lock rules clashes
    out, and makes the runs serial. *)

From stdpp Require Import gmap strings relations.
From S2P Require Import Prelude Ordered RustStr Catalog Migrations.

(** ** The objects of a transaction *)

(** The objects that [v] has and [c] lacks, and the relations they have
    different versions of. *)
Definition added (v c : Catalog) : Catalog :=
  {| extensions := extensions v ∖ extensions c; functions := functions v ∖ functions c;
     relations := merge (fun r r' => if bool_decide (r = r') then None else r) (relations v) (relations c) |}.

Lemma beside_empty c : beside empty_catalog c = c.
Proof.
  destruct c as [E F R]. unfold beside. simpl. f_equal; [set_solver..|]. apply (left_id_L ∅ (∪)).
Qed.

Lemma beside_added c v : extends c v -> beside (added v c) c = v.
Proof.
  intros [HE HF HR]. destruct v as [E F R]. unfold beside, added. simpl in *.
  assert (forall A B : gset str, B ⊆ A -> A ∖ B ∪ B = A) as Hset.
  { intros A B Hs. apply leibniz_equiv. intros x. destruct (decide (x ∈ B)); set_solver. }
  rewrite !Hset by done. f_equal. apply map_eq. intros name. specialize (HR name).
  rewrite lookup_union, lookup_merge. destruct (relations c !! name) as [r'|].
  - destruct (HR r' eq_refl) as (r & -> & _). simpl. case_bool_decide as Hr; simpl; [by injection Hr as ->|done].
  - by destruct (R !! name).
Qed.

(** ** One run *)

Record Migrator := {
  mg_locked : bool;
  mg_rest : list Ddl;
  mg_named : gset str;
  mg_own : Catalog
}.

Definition begin_migration : Migrator :=
  {| mg_locked := false; mg_rest := all_migrations; mg_named := ∅; mg_own := empty_catalog |}.

(** [SELECT pg_advisory_xact_lock(...)], held until the transaction ends. *)
Definition lock_migrations (s : Migrator) : Migrator :=
  {| mg_locked := true; mg_rest := mg_rest s; mg_named := mg_named s; mg_own := mg_own s |}.

Definition view (s : Migrator) (c : Catalog) : Catalog := beside (mg_own s) c.

Definition clashes (d : Ddl) (s : Migrator) : bool :=
  existsb (fun name => bool_decide (name ∈ mg_named s)) (named_by d).

Inductive MigrationMove :=
| AwaitLock
| Ran (s : Migrator)
| Commits
| Refused (e : MigrationErr)
| Clash.

Section ConcurrentMigrations.
Context (available : str -> bool).

(** What a run does next beside [others]. *)
Definition migrator_step (others : list Migrator) (c : Catalog) (s : Migrator) : MigrationMove :=
  if negb (mg_locked s) then
    if existsb mg_locked others then AwaitLock else Ran (lock_migrations s)
  else
    match mg_rest s with
    | [] => Commits
    | d :: rest =>
        if existsb (clashes d) others then Clash
        else
          match run_ddl available (view s c) d with
          | Err e => Refused e
          | Ok v =>
              Ran {| mg_locked := true; mg_rest := rest;
                     mg_named := list_to_set (named_by d) ∪ mg_named s; mg_own := added v c |}
          end
    end.

(** ** The servers *)
Record Servers := { sv_catalog : Catalog; sv_runs : gmap nat Migrator }.

Definition other_runs (sy : Servers) (i : nat) : list Migrator :=
  (map_to_list (delete i (sv_runs sy))).*2.

Definition with_runs (sy : Servers) (m : gmap nat Migrator) : Servers :=
  {| sv_catalog := sv_catalog sy; sv_runs := m |}.

(** A run goes on; the catalogue changes only when one commits. *)
Inductive migration_advance : Servers -> Servers -> Prop :=
| MigrationRan sy i s s' :
    sv_runs sy !! i = Some s -> migrator_step (other_runs sy i) (sv_catalog sy) s = Ran s' ->
    migration_advance sy (with_runs sy (<[i := s']> (sv_runs sy)))
| MigrationCommits sy i s :
    sv_runs sy !! i = Some s -> migrator_step (other_runs sy i) (sv_catalog sy) s = Commits ->
    migration_advance sy {| sv_catalog := view s (sv_catalog sy); sv_runs := delete i (sv_runs sy) |}
| MigrationRefused sy i s e :
    sv_runs sy !! i = Some s -> migrator_step (other_runs sy i) (sv_catalog sy) s = Refused e ->
    migration_advance sy (with_runs sy (delete i (sv_runs sy)))
| MigrationClash sy i s :
    sv_runs sy !! i = Some s -> migrator_step (other_runs sy i) (sv_catalog sy) s = Clash ->
    migration_advance sy (with_runs sy (delete i (sv_runs sy))).

(** A server also starts at any time, or dies and its transaction is undone. *)
Inductive migration_step : Servers -> Servers -> Prop :=
| MigrationAdvance sy sy' : migration_advance sy sy' -> migration_step sy sy'
| MigrationStart sy i :
    sv_runs sy !! i = None ->
    migration_step sy (with_runs sy (<[i := begin_migration]> (sv_runs sy)))
| MigrationDies sy i : migration_step sy (with_runs sy (delete i (sv_runs sy))).

Definition migrating (c : Catalog) (sy : Servers) : Prop :=
  rtc migration_step {| sv_catalog := c; sv_runs := ∅ |} sy.

(** ** What holds of every run *)

(** Before the lock nothing is done; with it, the statements so far have had
    the effect on the committed catalogue they have when nobody else runs. *)
Definition run_consistent (c : Catalog) (s : Migrator) : Prop :=
  if mg_locked s then
    exists finished, all_migrations = finished ++ mg_rest s /\
      execute_unprepared available c finished = Ok (view s c)
  else s = begin_migration.

Record servers_ok (c0 : Catalog) (sy : Servers) : Prop := {
  mo_catalog : sv_catalog sy = c0 \/ migrate_all available c0 = (Ok tt, sv_catalog sy);
  mo_runs : forall i s, sv_runs sy !! i = Some s -> run_consistent (sv_catalog sy) s;
  mo_lock : forall i j s t, sv_runs sy !! i = Some s -> sv_runs sy !! j = Some t ->
    mg_locked s = true -> mg_locked t = true -> i = j
}.

Lemma elem_of_other_runs sy i t :
  t ∈ other_runs sy i <-> exists j, i <> j /\ sv_runs sy !! j = Some t.
Proof.
  unfold other_runs. rewrite list_elem_of_fmap. split.
  - intros ([j u] & -> & Hj%elem_of_map_to_list%lookup_delete_Some). by exists j.
  - intros (j & Hij & Hj). exists (j, t). split; [done|]. by apply elem_of_map_to_list, lookup_delete_Some.
Qed.

Lemma lock_held sy i :
  existsb mg_locked (other_runs sy i) = true <->
  exists j t, i <> j /\ sv_runs sy !! j = Some t /\ mg_locked t = true.
Proof.
  rewrite existsb_true_Exists, Exists_exists. setoid_rewrite elem_of_other_runs. naive_solver.
Qed.

(** Runs that have named nothing clash with nobody. *)
Lemma no_clash d l : Forall (fun t => t = begin_migration) l -> existsb (clashes d) l = false.
Proof.
  intros Hl. apply existsb_false_Forall. eapply Forall_impl; [exact Hl|]. intros t ->.
  apply existsb_false_Forall, Forall_forall. intros name _. apply bool_decide_eq_false.
  apply not_elem_of_empty.
Qed.

(** The holder of the lock is beside runs that have not begun. *)
Lemma beside_holder c0 sy i s :
  servers_ok c0 sy -> sv_runs sy !! i = Some s -> mg_locked s = true ->
  Forall (fun t => t = begin_migration) (other_runs sy i).
Proof.
  intros Hok Hi Hl. apply Forall_forall. intros t (j & Hij & Hj)%elem_of_other_runs.
  pose proof (mo_runs _ _ Hok j t Hj) as Ht. unfold run_consistent in Ht.
  destruct (mg_locked t) eqn:El; [|done]. destruct Hij. by apply (mo_lock _ _ Hok i j s t).
Qed.

Lemma execute_app c l k :
  execute_unprepared available c (l ++ k) =
  (c' ← execute_unprepared available c l; execute_unprepared available c' k).
Proof. apply for_each_app. Qed.

Definition move_spec (sy : Servers) (i : nat) (s : Migrator) (m : MigrationMove) : Prop :=
  match m with
  | AwaitLock => mg_locked s = false /\
      exists j t, i <> j /\ sv_runs sy !! j = Some t /\ mg_locked t = true
  | Ran s' => mg_locked s' = true /\ run_consistent (sv_catalog sy) s' /\
      forall j t, sv_runs sy !! j = Some t -> mg_locked t = true -> i = j
  | Commits => migrate_all available (sv_catalog sy) = (Ok tt, view s (sv_catalog sy))
  | Refused e => migrate_all available (sv_catalog sy) = (Err e, sv_catalog sy)
  | Clash => False
  end.

Lemma statement_move c0 sy i s d rest :
  servers_ok c0 sy -> sv_runs sy !! i = Some s -> mg_locked s = true -> mg_rest s = d :: rest ->
  move_spec sy i s (migrator_step (other_runs sy i) (sv_catalog sy) s).
Proof.
  intros Hok Hi Hl Er. unfold migrator_step. rewrite Hl, Er. cbn [negb].
  rewrite (no_clash d) by by eapply beside_holder.
  pose proof (mo_runs _ _ Hok i s Hi) as Hs. unfold run_consistent in Hs. rewrite Hl, Er in Hs.
  destruct Hs as (finished & Ea & Hrun). destruct (run_ddl _ _ d) as [v|e] eqn:Ed; cbn [move_spec].
  - split; [done|]. split.
    + exists (finished ++ [d]). cbn [mg_rest]. rewrite <-app_assoc. split; [done|].
      assert (execute_unprepared available (sv_catalog sy) (finished ++ [d]) = Ok v) as Hv.
      { rewrite execute_app, Hrun. cbn [mbind result_bind]. unfold execute_unprepared.
        cbn [for_each]. by rewrite Ed. }
      rewrite Hv. unfold view. cbn [mg_own]. by rewrite beside_added by by eapply run_ok.
    + intros j t Hj Ht. by apply (mo_lock _ _ Hok i j s t).
  - rewrite migrate_all_run, Ea, execute_app, Hrun. cbn [mbind result_bind]. unfold execute_unprepared.
    cbn [for_each]. by rewrite Ed.
Qed.

Lemma move_ok c0 sy i s :
  servers_ok c0 sy -> sv_runs sy !! i = Some s ->
  move_spec sy i s (migrator_step (other_runs sy i) (sv_catalog sy) s).
Proof.
  intros Hok Hi. destruct (mg_locked s) eqn:Hl.
  - destruct (mg_rest s) as [|d rest] eqn:Er; [|by eapply statement_move].
    unfold migrator_step. rewrite Hl, Er. cbn [negb move_spec].
    pose proof (mo_runs _ _ Hok i s Hi) as Hs. unfold run_consistent in Hs. rewrite Hl, Er in Hs.
    destruct Hs as (finished & Ea & Hrun). rewrite app_nil_r in Ea. subst finished.
    by rewrite migrate_all_run, Hrun.
  - unfold migrator_step. rewrite Hl. cbn [negb]. destruct (existsb _ _) eqn:Ex; cbn [move_spec].
    + split; [done|]. by apply lock_held.
    + split; [done|]. pose proof (mo_runs _ _ Hok i s Hi) as Hs. unfold run_consistent in Hs.
      rewrite Hl in Hs. subst s. split.
      * exists []. split; [done|]. unfold view. by rewrite beside_empty.
      * intros j t Hj Ht. destruct (decide (i = j)) as [|Hij]; [done|].
        rewrite (proj2 (lock_held sy i)) in Ex; [done | by exists j, t].
Qed.

(** ** The invariant *)
Lemma servers_ok_delete c0 sy i :
  servers_ok c0 sy -> servers_ok c0 (with_runs sy (delete i (sv_runs sy))).
Proof.
  intros [Hc Hr Hl]. constructor; [done|..]; simpl.
  - intros j s [_ Hj]%lookup_delete_Some. by eapply Hr.
  - intros j k s t [_ Hj]%lookup_delete_Some [_ Hk]%lookup_delete_Some. by apply Hl.
Qed.

Lemma servers_ok_insert c0 sy i s :
  servers_ok c0 sy -> run_consistent (sv_catalog sy) s ->
  (mg_locked s = true -> forall j t, sv_runs sy !! j = Some t -> mg_locked t = true -> i = j) ->
  servers_ok c0 (with_runs sy (<[i := s]> (sv_runs sy))).
Proof.
  intros [Hc Hr Hl] Hs Hi. constructor; [done|..]; simpl.
  - intros j t [[-> <-]|[_ Hj]]%lookup_insert_Some; [done | by eapply Hr].
  - intros j k t u [[-> <-]|[_ Hj]]%lookup_insert_Some [[-> <-]|[_ Hk]]%lookup_insert_Some Ht Hu;
      [done | by eapply Hi | symmetry; by eapply Hi | by eapply Hl].
Qed.

(** A second migration changes nothing, so commits leave one catalogue. *)
Lemma committed_catalog c0 c c' :
  c = c0 \/ migrate_all available c0 = (Ok tt, c) -> migrate_all available c = (Ok tt, c') ->
  migrate_all available c0 = (Ok tt, c').
Proof.
  intros [->|H0] H1; [done|]. apply migrated_again in H0 as H2. rewrite H1 in H2. by injection H2 as ->.
Qed.

Lemma servers_ok_commit c0 sy i s :
  servers_ok c0 sy -> sv_runs sy !! i = Some s -> mg_locked s = true ->
  migrate_all available (sv_catalog sy) = (Ok tt, view s (sv_catalog sy)) ->
  servers_ok c0 {| sv_catalog := view s (sv_catalog sy); sv_runs := delete i (sv_runs sy) |}.
Proof.
  intros Hok Hi Hl Hm. constructor; simpl.
  - right. eapply committed_catalog; [apply Hok | done].
  - intros j t [Hij Hj]%lookup_delete_Some.
    pose proof (beside_holder _ _ _ _ Hok Hi Hl) as Hb. rewrite Forall_forall in Hb.
    rewrite (Hb t) by (apply elem_of_other_runs; by exists j). done.
  - intros j k t u [_ Hj]%lookup_delete_Some [_ Hk]%lookup_delete_Some. by apply (mo_lock _ _ Hok).
Qed.

Lemma commits_locked others c s : migrator_step others c s = Commits -> mg_locked s = true.
Proof. unfold migrator_step. destruct (mg_locked s); [done|]. simpl. by destruct (existsb _ _). Qed.

Lemma migration_advance_ok c0 sy sy' :
  migration_advance sy sy' -> servers_ok c0 sy -> servers_ok c0 sy'.
Proof.
  intros [sy0 i s s' Hi Hst | sy0 i s Hi Hst | sy0 i s e Hi Hst | sy0 i s Hi Hst] Hok;
    pose proof (move_ok _ _ _ _ Hok Hi) as Hm; rewrite Hst in Hm; cbn [move_spec] in Hm.
  - destruct Hm as (_ & Hc & Hn). by apply servers_ok_insert.
  - apply servers_ok_commit; [done..| |done]. by eapply commits_locked.
  - by apply servers_ok_delete.
  - done.
Qed.

Lemma migration_step_ok c0 sy sy' : migration_step sy sy' -> servers_ok c0 sy -> servers_ok c0 sy'.
Proof.
  intros [sy0 sy1 Ha | sy0 i Hi | sy0 i] Hok.
  - by eapply migration_advance_ok.
  - by apply servers_ok_insert.
  - by apply servers_ok_delete.
Qed.

Lemma migrating_ok c0 sy : migrating c0 sy -> servers_ok c0 sy.
Proof.
  intros Hs. assert (servers_ok c0 {| sv_catalog := c0; sv_runs := ∅ |}) as Hok.
  { constructor; [by left|..]; simpl; intros *; by rewrite lookup_empty. }
  revert Hok. unfold migrating in Hs. remember {| sv_catalog := c0; sv_runs := ∅ |} as sy0.
  clear Heqsy0. induction Hs as [|? ? ? Hst _ IH]; [done|]. intros Hok. apply IH.
  by eapply migration_step_ok.
Qed.

(** ** Every run ends *)
Definition statements_left (s : Migrator) : nat :=
  S (length (mg_rest s)) + if mg_locked s then 0 else 1.
Definition migration_work (m : gmap nat Migrator) : nat :=
  map_fold (fun _ s n => statements_left s + n) 0 m.

Lemma migration_work_delete m i s :
  m !! i = Some s -> migration_work m = statements_left s + migration_work (delete i m).
Proof.
  intros Hi. unfold migration_work. rewrite (map_fold_delete_L _ _ i s); [done | intros; lia | done].
Qed.

Lemma ran_left others c s s' :
  migrator_step others c s = Ran s' -> statements_left s' < statements_left s.
Proof.
  unfold migrator_step, statements_left. destruct (mg_locked s) eqn:Hl; simpl.
  - destruct (mg_rest s) as [|d rest]; [done|]. destruct (existsb _ _); [done|].
    destruct (run_ddl _ _ _); [|done]. intros [= <-]. simpl. lia.
  - destruct (existsb _ _); [done|]. intros [= <-]. simpl. lia.
Qed.

Lemma migration_work_advance sy sy' :
  migration_advance sy sy' -> migration_work (sv_runs sy') < migration_work (sv_runs sy).
Proof.
  assert (forall s, 0 < statements_left s) as Hpos by (intros s; unfold statements_left; lia).
  intros [sy0 i s s' Hi Hst | sy0 i s Hi Hst | sy0 i s e Hi Hst | sy0 i s Hi Hst]; simpl;
    rewrite (migration_work_delete (sv_runs sy0) i s) by done; specialize (Hpos s); [|lia..].
  rewrite (migration_work_delete _ i s') by apply lookup_insert_eq. rewrite delete_insert_eq.
  apply ran_left in Hst. lia.
Qed.

Lemma migration_advance_terminates sy : Acc (fun b a => migration_advance a b) sy.
Proof.
  induction sy as [sy IH] using (well_founded_induction (well_founded_ltof _ (fun sy => migration_work (sv_runs sy)))).
  constructor. intros sy' Ha. apply IH. by apply migration_work_advance.
Qed.

(** The holder of the lock goes on; without a holder, anyone does. *)
Lemma migration_progress c0 sy :
  servers_ok c0 sy -> sv_runs sy <> ∅ -> exists sy', migration_advance sy sy'.
Proof.
  intros Hok (i & s & Hi)%map_choose.
  destruct (migrator_step (other_runs sy i) (sv_catalog sy) s) as [|s'| |e|] eqn:Hst;
    [|eexists; by econstructor..].
  pose proof (move_ok _ _ _ _ Hok Hi) as Hm. rewrite Hst in Hm. destruct Hm as (_ & j & t & _ & Hj & Ht).
  destruct (migrator_step (other_runs sy j) (sv_catalog sy) t) as [|s'| |e|] eqn:Hst';
    [|eexists; by econstructor..].
  pose proof (move_ok _ _ _ _ Hok Hj) as Hm. rewrite Hst' in Hm. destruct Hm as [Hf _]. congruence.
Qed.

(** On a database the migrations are for, a run that is not killed leaves the
    schema ready. *)
Definition runs_or_ready (sy : Servers) : Prop :=
  sv_runs sy <> ∅ \/ schema_ready (sv_catalog sy) = Ok true.

Lemma never_refused f c0 sy e :
  half_migrated f c0 -> provided available f -> servers_ok c0 sy ->
  migrate_all available (sv_catalog sy) <> (Err e, sv_catalog sy).
Proof.
  intros Hh Hp Hok. destruct (mo_catalog _ _ Hok) as [->|Hm].
  - by rewrite (half_migrated_completes available f c0).
  - apply migrated_again in Hm. by rewrite Hm.
Qed.

Lemma runs_or_ready_advance f c0 sy sy' :
  half_migrated f c0 -> provided available f ->
  migration_advance sy sy' -> servers_ok c0 sy -> runs_or_ready sy'.
Proof.
  intros Hh Hv [sy0 i s s' Hi Hst | sy0 i s Hi Hst | sy0 i s e Hi Hst | sy0 i s Hi Hst] Hok;
    pose proof (move_ok _ _ _ _ Hok Hi) as Hm; rewrite Hst in Hm; cbn [move_spec] in Hm.
  - left. simpl. apply insert_non_empty.
  - right. by apply migrated in Hm as [_ Hm].
  - by eapply never_refused in Hm.
  - done.
Qed.

Lemma finished_ready f c0 sy sy' :
  half_migrated f c0 -> provided available f ->
  servers_ok c0 sy -> sv_runs sy <> ∅ -> rtc migration_advance sy sy' -> sv_runs sy' = ∅ ->
  schema_ready (sv_catalog sy') = Ok true.
Proof.
  intros Hh Hp Hok Hne Hs He. assert (runs_or_ready sy') as [|]; [|done..].
  assert (runs_or_ready sy) as Hr by by left. clear Hne He.
  induction Hs as [|x y z Ha _ IH]; [done|]. apply IH.
  - by eapply migration_advance_ok.
  - by eapply runs_or_ready_advance.
Qed.

(** ** Schedules *)

(** Run [i] goes on if it need not wait. *)
Definition migration_advance_at (i : nat) (sy : Servers) : Servers :=
  match sv_runs sy !! i with
  | None => sy
  | Some s =>
      match migrator_step (other_runs sy i) (sv_catalog sy) s with
      | AwaitLock => sy
      | Ran s' => with_runs sy (<[i := s']> (sv_runs sy))
      | Commits => {| sv_catalog := view s (sv_catalog sy); sv_runs := delete i (sv_runs sy) |}
      | Refused _ | Clash => with_runs sy (delete i (sv_runs sy))
      end
  end.

Lemma migration_schedule_steps l sy :
  rtc migration_advance sy (fold_left (fun sy i => migration_advance_at i sy) l sy).
Proof.
  revert sy. induction l as [|i l IH]; intros sy; [done|]. simpl. etrans; [|apply IH].
  unfold migration_advance_at. destruct (sv_runs sy !! i) as [s|] eqn:Hi; [|done].
  destruct (migrator_step _ _ _) eqn:Hst; [done|..]; apply rtc_once; by econstructor.
Qed.

(** C26: servers that migrate at the same time.  In every interleaving of any
    number of runs, some of which may be killed, the committed catalogue is
    the one from before or the one a single run makes of it, never one in
    between.  Under the advisory lock at most one run has begun its
    statements: it never meets another's uncommitted tables, it commits what
    it would commit alone, and it is refused only as it would be alone.  A run
    waits only for the one that holds the lock, so that runs always end.  On a
    database that holds the objects of the first statements of the migrations,
    none or all included, beside objects of other names, with the extensions
    installed or available: if from some point on no run is killed and one is
    in progress, the schema is ready when the last one has ended. *)
Theorem migrations_serialize c0 sy :
  migrating c0 sy ->
  (sv_catalog sy = c0 \/ migrate_all available c0 = (Ok tt, sv_catalog sy)) /\
  (forall i s, sv_runs sy !! i = Some s ->
    match migrator_step (other_runs sy i) (sv_catalog sy) s with
    | AwaitLock => exists j t, i <> j /\ sv_runs sy !! j = Some t /\ mg_locked t = true
    | Ran _ => forall j t, sv_runs sy !! j = Some t -> mg_locked t = true -> i = j
    | Commits => migrate_all available (sv_catalog sy) = (Ok tt, view s (sv_catalog sy))
    | Refused e => migrate_all available (sv_catalog sy) = (Err e, sv_catalog sy)
    | Clash => False
    end) /\
  Acc (fun b a => migration_advance a b) sy /\
  (sv_runs sy <> ∅ -> exists sy', migration_advance sy sy') /\
  (forall f, half_migrated f c0 -> provided available f -> sv_runs sy <> ∅ ->
   forall sy', rtc migration_advance sy sy' -> sv_runs sy' = ∅ ->
     schema_ready (sv_catalog sy') = Ok true).
Proof.
  intros Hok%migrating_ok. split; [apply Hok|]. split.
  { intros i s Hi. pose proof (move_ok _ _ _ _ Hok Hi) as Hm.
    destruct (migrator_step _ _ _); cbn [move_spec] in Hm; tauto || apply Hm. }
  split; [apply migration_advance_terminates|].
  split; [by eapply migration_progress|]. intros f Hh Hp Hne sy' Hs He. by eapply finished_ready.
Qed.
End ConcurrentMigrations.

(** ** Servers on an empty database *)
Module MigrationExample.
Definition all_available (name : str) : bool := true.
Definition starting (n : nat) : Servers :=
  {| sv_catalog := empty_catalog;
     sv_runs := list_to_map (map (fun i => (i, begin_migration)) (seq 0 n)) |}.
Definition migrating_by (l : list nat) (sy : Servers) : Servers :=
  fold_left (fun sy i => migration_advance_at all_available i sy) l sy.

(** One of two has the lock and has begun; the other waits. *)
Definition halfway : Servers := migrating_by [1; 1; 0; 1; 1; 1; 0] (starting 2).
(** One alone goes on until it has committed. *)
Definition finished : Servers := migrating_by (repeat 0 (2 + length all_migrations)) (starting 1).
End MigrationExample.
Import MigrationExample.

Lemma starting_reachable n : n <= 2 -> migrating all_available empty_catalog (starting n).
Proof.
  intros Hn. destruct n as [|[|[|n]]]; [apply rtc_refl | | | lia].
  - apply rtc_once. exact (MigrationStart all_available {| sv_catalog := empty_catalog;
      sv_runs := ∅ |} 0 (lookup_empty 0)).
  - eapply rtc_l; [apply (MigrationStart _ _ 1); apply lookup_empty|].
    apply rtc_once. refine (MigrationStart all_available {| sv_catalog := empty_catalog;
      sv_runs := <[1 := begin_migration]> ∅ |} 0 _). reflexivity.
Qed.

Lemma migrating_by_reachable l n :
  n <= 2 -> migrating all_available empty_catalog (migrating_by l (starting n)).
Proof.
  intros Hn. unfold migrating; etrans; [by apply starting_reachable|].
  eapply rtc_subrel; [apply MigrationAdvance | apply migration_schedule_steps].
Qed.

Definition next_move (sy : Servers) (i : nat) : option MigrationMove :=
  migrator_step all_available (other_runs sy i) (sv_catalog sy) <$> sv_runs sy !! i.

Example migration_moves :
  next_move halfway 0 = Some AwaitLock /\ sv_catalog halfway = empty_catalog /\ sv_runs finished = ∅.
Proof. split; [|split]; vm_compute; reflexivity. Qed.

Lemma next_move_Some sy i m :
  next_move sy i = Some m ->
  exists s, sv_runs sy !! i = Some s /\ migrator_step all_available (other_runs sy i) (sv_catalog sy) s = m.
Proof. intros (s & ? & ?)%fmap_Some. by exists s. Qed.

Lemma migrations_serialize_witness :
  sv_catalog halfway = empty_catalog /\
  (exists j t, 0 <> j /\ sv_runs halfway !! j = Some t /\ mg_locked t = true) /\
  schema_ready (sv_catalog finished) = Ok true.
Proof.
  destruct migration_moves as (Hw & He & Hd). split; [exact He|]. split.
  - apply next_move_Some in Hw as (s & Hi & Hw).
    destruct (migrations_serialize all_available _ halfway (migrating_by_reachable _ 2 ltac:(lia))) as (_ & Hm & _).
    specialize (Hm 0 s Hi). rewrite Hw in Hm. exact Hm.
  - destruct (migrations_serialize all_available _ (starting 1) (starting_reachable 1 ltac:(lia)))
      as (_ & _ & _ & _ & Hready).
    refine (Hready empty_catalog half_migrated_empty _ _ finished _ Hd);
      [by repeat constructor; right | | apply migration_schedule_steps].
    intros E. apply (f_equal size) in E. vm_compute in E. discriminate E.
Defined.
