(* ===== verification/Server.v ===== *)
(** * The server around the handlers ([src/server_runtime.rs],
    [src/server_websocket.rs])

    Startup policy, browser origins, tenant events and the WebSocket loop that
    forwards them. *)

From stdpp Require Import strings.
From S2P Require Import Prelude Ordered RustStr Externals HttpError Auth WorkerAuth Catalog Migrations.

(** ** Environment *)
Inductive AppEnvironment := Development | Test | Production.
#[global] Instance app_environment_eq_dec : EqDecision AppEnvironment.
Proof. solve_decision. Defined.

Definition parse_environment (value : option str) : result str AppEnvironment :=
  let normalized := to_ascii_lowercase (trim (default (lit "development") value)) in
  if bool_decide (normalized ∈ [lit ""; lit "dev"; lit "development"]) then Ok Development
  else if bool_decide (normalized = lit "test") then Ok Test
  else if bool_decide (normalized ∈ [lit "prod"; lit "production"]) then Ok Production
  else Err (lit "unsupported APP_ENV value: " ++ normalized).

Definition as_str (self : AppEnvironment) : str :=
  match self with
  | Development => lit "development"
  | Test => lit "test"
  | Production => lit "production"
  end.

Definition validate_startup_policy (environment : AppEnvironment)
    (database_connected schema_ready verified_jwt_enabled ingest_auth_configured : bool)
    : result str unit :=
  let production := bool_decide (environment = Production) in
  reject lit "production startup requires durable PostgreSQL storage"
    when production && negb database_connected ;;
  reject lit "production startup requires the durable Embedded Alerts schema"
    when production && negb schema_ready ;;
  reject lit "production startup requires verified JWT authentication"
    when production && negb verified_jwt_enabled ;;
  reject lit "production startup requires authenticated crawler ingestion"
    when production && negb ingest_auth_configured ;;
  Ok tt.

Definition env_flag (env : Env) (name : str) : bool :=
  match env name with
  | Some value =>
      bool_decide (to_ascii_lowercase (trim value) ∈ [lit "1"; lit "true"; lit "yes"])
  | None => false
  end.

(** ** Browser origins *)

(** [str::parse::<HeaderValue>]: the value's bytes. *)
Class HeaderValueLib := { header_value_parse : str -> option (list N) }.

Section Origins.
Context `{UrlLib, HeaderValueLib}.

Definition parse_origin (raw_origin : str) : result str (list N) :=
  url ← map_err (fun _ => lit "parse CORS origin") (url_parse raw_origin);
  reject lit "CORS origins must use http or https"
    when negb (bool_decide (url_scheme url ∈ [lit "http"; lit "https"])) ;;
  reject lit "CORS origins must contain a host" when bool_decide (url_host url = None) ;;
  reject lit "CORS origins must not contain credentials"
    when nonempty (url_username url) || bool_decide (is_Some (url_password url)) ;;
  reject lit "CORS origins must not contain paths, queries, or fragments"
    when negb (bool_decide (url_path url = lit "/")) || bool_decide (is_Some (url_query url)) ||
         bool_decide (is_Some (url_fragment url)) ;;
  let origin := url_origin_ascii url in
  reject lit "opaque CORS origins are not allowed" when bool_decide (origin = lit "null") ;;
  ok_or (header_value_parse origin) (lit "failed to parse header value").

Definition parse_origins (raw : str) : result str (list (list N)) :=
  origins ← mapM parse_origin (List.filter nonempty (map trim (split_on 44 raw)));
  let origins := vec_dedup (vec_sort origins) in
  reject lit "CORS_ALLOWED_ORIGINS must contain at least one explicit origin"
    when negb (nonempty origins) ;;
  Ok origins.

Definition configured_origins (env : Env) (environment : AppEnvironment) : result str (list (list N)) :=
  let configured :=
    value ← env (lit "CORS_ALLOWED_ORIGINS"); if nonempty (trim value) then Some value else None in
  raw ← match configured with
        | Some value => Ok value
        | None =>
            if negb (bool_decide (environment = Production))
            then Ok (join [44%N] [lit "http://localhost:8081"; lit "http://localhost:8082";
                                  lit "http://localhost:8083"])
            else Err (lit "CORS_ALLOWED_ORIGINS must contain explicit browser origins in production")
        end;
  parse_origins raw.
End Origins.

Definition ORIGIN : str := lit "origin".

Definition authorize_websocket_origin (headers : HeaderMap) (allowed_origins : list (list N))
    : result HttpError unit :=
  origin ← ok_or (get headers ORIGIN)
             (Http.forbidden (lit "WebSocket requests require an Origin header"));
  if existsb (fun allowed => bool_decide (allowed = origin)) allowed_origins then Ok tt
  else Err (Http.forbidden (lit "WebSocket origin is not in CORS_ALLOWED_ORIGINS")).

(** ** Application state *)
Record AppState := {
  as_environment : AppEnvironment;
  as_db : bool;
  as_schema_ready : bool;
  as_ingest_auth_configured : bool;
  as_auth : AuthConfig;
  as_allowed_origins : list (list N);
  as_supabase_url : option str
}.

Definition require_database (state : AppState) : result HttpError unit :=
  reject Http.database_required when negb (as_schema_ready state) ;;
  if as_db state then Ok tt else Err Http.database_required.

Record Health := {
  he_service : str;
  he_status : str;
  he_environment : str;
  he_alert_storage_mode : str;
  he_indexing_storage_mode : str;
  he_production_ready : bool;
  he_database_connected : bool;
  he_supabase_configured : bool;
  he_tenant_context : str;
  he_websocket_authorization : str;
  he_schema_ready : bool;
  he_ingest_auth_configured : bool
}.

Definition health (state : AppState) : Health :=
  let durable := as_db state && as_schema_ready state in
  let production_ready := durable && is_jwt (as_auth state) && as_ingest_auth_configured state in
  {| he_service := lit "eal-api";
     he_status := if production_ready then lit "ok" else lit "degraded";
     he_environment := as_str (as_environment state);
     he_alert_storage_mode :=
       if durable then lit "postgresql_immutable_revisions" else lit "unavailable";
     he_indexing_storage_mode :=
       if durable then lit "reverse_alert_stream_plus_historical_pgvector" else lit "unavailable";
     he_production_ready := production_ready; he_database_connected := as_db state;
     he_supabase_configured := bool_decide (is_Some (as_supabase_url state));
     he_tenant_context := mode_name (as_auth state);
     he_websocket_authorization := lit "same_verified_identity_plus_explicit_origin";
     he_schema_ready := as_schema_ready state;
     he_ingest_auth_configured := as_ingest_auth_configured state |}.

(** Whether [main] warns that it runs in a development posture. *)
Definition development_posture (state : AppState) : bool :=
  negb (is_jwt (as_auth state)) || negb (as_db state) || negb (as_schema_ready state) ||
  negb (as_ingest_auth_configured state).

(** The address [main] binds. *)
Definition listen_address (env : Env) : str :=
  default (lit "127.0.0.1") (env (lit "HOST")) ++ lit ":" ++ default (lit "8080") (env (lit "PORT")).

(** [main] up to the router.  [connect] is the outcome of
    [Database::connect]; the database behind it has a catalogue and offers
    some extensions. *)
Section Startup.
Context `{UrlLib, HeaderValueLib, DigestLib}.

Definition connect_database (env : Env) (connect : str -> result str unit) : result str bool :=
  match env (lit "DATABASE_URL") with
  | Some url => if nonempty (trim url) then (fun _ => true) <$> connect url else Ok false
  | None => Ok false
  end.

Definition migrate_on_startup (env : Env) (available : str -> bool) (db : bool) (catalog : Catalog)
    : result str unit * Catalog :=
  if env_flag env (lit "MIGRATE_ON_STARTUP") then
    if db then
      let '(migrated, catalog) := migrate_all available catalog in
      (map_err (fun _ => lit "apply Embedded Alerts migrations") migrated, catalog)
    else (Err (lit "MIGRATE_ON_STARTUP requires DATABASE_URL"), catalog)
  else (Ok tt, catalog).

(** The part of [main] after the migrations. *)
Definition start_with (env : Env) (environment : AppEnvironment) (auth : AuthConfig) (db : bool)
    (catalog : Catalog) : result str AppState :=
  schema_ready ← (if db then map_err (fun _ => lit "verify durable Embedded Alerts schema")
                               (schema_ready catalog)
                  else Ok false);
  let ingest_auth_configured := is_configured env in
  _ ← validate_startup_policy environment db schema_ready (is_jwt auth) ingest_auth_configured;
  allowed_origins ← configured_origins env environment;
  Ok {| as_environment := environment; as_db := db; as_schema_ready := schema_ready;
        as_ingest_auth_configured := ingest_auth_configured; as_auth := auth;
        as_allowed_origins := allowed_origins; as_supabase_url := env (lit "SUPABASE_URL") |}.

Definition start (env : Env) (connect : str -> result str unit) (available : str -> bool)
    (catalog : Catalog) : result str AppState * Catalog :=
  let configured :=
    environment ← parse_environment (env (lit "APP_ENV"));
    auth ← AuthConfig.from_env env (bool_decide (environment = Production))
             (env_flag env (lit "ALLOW_INSECURE_TENANT_HEADER"));
    db ← connect_database env connect;
    Ok (environment, auth, db) in
  match configured with
  | Err e => (Err e, catalog)
  | Ok (environment, auth, db) =>
      let '(migrated, catalog) := migrate_on_startup env available db catalog in
      (_ ← migrated; start_with env environment auth db catalog, catalog)
  end.
End Startup.

(** ** Tenant events *)
Inductive EventAudience :=
| TenantAdministrators
| SubjectOrTenantAdministrators (subject : str).

(** [D] is the type of the event's data; the payload is the JSON object of
    these four fields. *)
Record EventPayload (D : Type) := {
  ev_event_type : str;
  ev_tenant_id : Uuid;
  ev_occurred_at : Timestamp;
  ev_data : D
}.
Arguments ev_event_type {D} _.
Arguments ev_tenant_id {D} _.
Arguments ev_occurred_at {D} _.
Arguments ev_data {D} _.

Record TenantEvent (D : Type) := {
  te_tenant_id : Uuid;
  te_audience : EventAudience;
  te_payload : EventPayload D
}.
Arguments te_tenant_id {D} _.
Arguments te_audience {D} _.
Arguments te_payload {D} _.

Definition event_visible_to {D} (event : TenantEvent D) (auth : AuthContext) : bool :=
  if bool_decide (te_tenant_id event <> tenant_id auth) then false
  else match te_audience event with
       | TenantAdministrators => is_tenant_admin auth
       | SubjectOrTenantAdministrators subject => can_access_owner auth subject
       end.

(** What the subscriber's broadcast receiver yields, in order. *)
Inductive RecvResult (D : Type) :=
| Received (event : TenantEvent D)
| Lagged (skipped : N)
| Closed.
Arguments Received {D} event.
Arguments Lagged {D} skipped.
Arguments Closed {D}.
