(* ===== verification/Connection.v ===== *)
(** * An open WebSocket ([websocket] of [src/server_websocket.rs])

    A connection is three activities that interleave: the task that forwards
    the tenant's events, the task that reads the client's frames until it
    closes, and [select!], which aborts one task when the other has ended.
    [connection_run] runs a schedule of their turns; a turn that cannot
    happen makes the schedule impossible. *)

From stdpp Require Import strings.
From S2P Require Import Prelude RustStr Externals Auth Server.

(** ** The connection *)

(** [abort] is a request: an aborted task may finish the turns it is in
    before its cancellation takes place. *)
Inductive TaskState := Running | Aborted | Finished.
#[global] Instance task_state_eq_dec : EqDecision TaskState.
Proof. solve_decision. Defined.

(** The client's messages, as far as the receive task tells them apart. *)
Inductive Message := Close | OtherMessage.

Record Connection (D : Type) := {
  cn_send : TaskState;
  cn_receive : TaskState;
  cn_sent : list (EventPayload D);
  cn_resolved : bool
}.
Arguments Build_Connection {D} _ _ _ _.
Arguments cn_send {D} _.
Arguments cn_receive {D} _.
Arguments cn_sent {D} _.
Arguments cn_resolved {D} _.

Inductive Activity (D : Type) :=
| SendTurn (reception : RecvResult D)
| ReceiveTurn (frame : option (result unit Message))
| SelectTurn
| CancelSend
| CancelReceive.
Arguments SendTurn {D} reception.
Arguments ReceiveTurn {D} frame.
Arguments SelectTurn {D}.
Arguments CancelSend {D}.
Arguments CancelReceive {D}.

Definition abort (task : TaskState) : TaskState :=
  match task with
  | Running => Aborted
  | _ => task
  end.

Definition connected {D} : Connection D := {|
  cn_send := Running; cn_receive := Running; cn_sent := []; cn_resolved := false
|}.

(** [while let Some(Ok(message)) = receiver.next().await]: whether the loop
    takes another turn. *)
Definition keeps_receiving (frame : option (result unit Message)) : bool :=
  match frame with
  | Some (Ok OtherMessage) => true
  | _ => false
  end.

Section Connection.
Context {D : Type} (auth : AuthContext) (send_ok : nat -> bool).

(** One turn of the send task's loop: the message it sends, if it does, and
    whether the loop goes on.  [send_ok n] tells whether the [n]th send
    succeeds. *)
Definition send_turn (n : nat) (reception : RecvResult D) : list (EventPayload D) * bool :=
  match reception with
  | Received event =>
      if negb (event_visible_to event auth) then ([], true)
      else if negb (send_ok n) then ([], false)
      else ([te_payload event], true)
  | Lagged _ => ([], true)
  | Closed => ([], false)
  end.

(** [tokio::select!] on the two tasks; when both have ended either branch
    aborts a task that has ended, which does nothing. *)
Definition select (c : Connection D) : option (Connection D) :=
  match cn_send c, cn_receive c with
  | Finished, receive_task => Some (Build_Connection Finished (abort receive_task) (cn_sent c) true)
  | send_task, Finished => Some (Build_Connection (abort send_task) Finished (cn_sent c) true)
  | _, _ => None
  end.

Definition turn (c : Connection D) (activity : Activity D) : option (Connection D) :=
  match activity with
  | SendTurn reception =>
      if bool_decide (cn_send c = Finished) then None
      else
        let '(message, goes_on) := send_turn (length (cn_sent c)) reception in
        Some (Build_Connection (if goes_on then cn_send c else Finished) (cn_receive c)
                (cn_sent c ++ message) (cn_resolved c))
  | ReceiveTurn frame =>
      if bool_decide (cn_receive c = Finished) then None
      else Some (Build_Connection (cn_send c)
                   (if keeps_receiving frame then cn_receive c else Finished)
                   (cn_sent c) (cn_resolved c))
  | SelectTurn => if cn_resolved c then None else select c
  | CancelSend =>
      if bool_decide (cn_send c = Aborted)
      then Some (Build_Connection Finished (cn_receive c) (cn_sent c) (cn_resolved c)) else None
  | CancelReceive =>
      if bool_decide (cn_receive c = Aborted)
      then Some (Build_Connection (cn_send c) Finished (cn_sent c) (cn_resolved c)) else None
  end.

Fixpoint connection_run (c : Connection D) (schedule : list (Activity D)) : option (Connection D) :=
  match schedule with
  | [] => Some c
  | activity :: schedule' => c' ← turn c activity; connection_run c' schedule'
  end.

(** The send task alone: the messages of its loop over a finite prefix of the
    receptions, and whether it takes another turn. *)
Fixpoint send_task (n : nat) (receptions : list (RecvResult D)) : list (EventPayload D) * bool :=
  match receptions with
  | [] => ([], true)
  | reception :: receptions' =>
      let '(message, goes_on) := send_turn n reception in
      if goes_on then
        let '(messages, goes_on) := send_task (n + length message) receptions' in
        (message ++ messages, goes_on)
      else (message, false)
  end.
End Connection.

(** ** What a subscriber may see *)
Lemma event_visible_to_iff {D} (event : TenantEvent D) auth :
  event_visible_to event auth = true <->
  te_tenant_id event = tenant_id auth /\
  (tenant_admin auth = true \/ te_audience event = SubjectOrTenantAdministrators (subject auth)).
Proof.
  unfold event_visible_to. case_bool_decide as Ht.
  - split; [discriminate | by intros [? _]].
  - destruct (te_audience event) as [|owner].
    + unfold is_tenant_admin. split; [by auto | intros [_ [?|?]]; [done | discriminate]].
    + unfold can_access_owner, is_tenant_admin. rewrite orb_true_iff, bool_decide_eq_true.
      split; [intros [?|<-]; auto | intros [_ [?|[= ->]]]; auto].
Qed.

(** The events received before the channel closes. *)
Fixpoint received {D} (receptions : list (RecvResult D)) : list (TenantEvent D) :=
  match receptions with
  | [] | Closed :: _ => []
  | Received event :: receptions' => event :: received receptions'
  | Lagged _ :: receptions' => received receptions'
  end.

Definition visible {D} (auth : AuthContext) (receptions : list (RecvResult D)) : list (TenantEvent D) :=
  List.filter (fun e => event_visible_to e auth) (received receptions).

(** What the send task received in a schedule, and whether the receive task
    came to its end in it. *)
Definition receptions {D} (schedule : list (Activity D)) : list (RecvResult D) :=
  omap (fun a => match a with SendTurn reception => Some reception | _ => None end) schedule.
Definition client_left {D} (schedule : list (Activity D)) : Prop :=
  exists frame, ReceiveTurn frame ∈ schedule /\ keeps_receiving frame = false.

(** ** The send task *)
Section SendTask.
Context {D : Type} (auth : AuthContext) (send_ok : nat -> bool).
Local Abbreviation send_turn := (send_turn (D := D) auth send_ok).
Local Abbreviation send_task := (send_task (D := D) auth send_ok).

Lemma send_task_snoc n l reception :
  send_task n (l ++ [reception]) =
    let '(messages, goes_on) := send_task n l in
    if goes_on then
      let '(message, goes_on) := send_turn (n + length messages) reception in
      (messages ++ message, goes_on)
    else (messages, false).
Proof.
  revert n. induction l as [|r l IH]; intros n; cbn [app Connection.send_task].
  - simpl. rewrite Nat.add_0_r. destruct (send_turn n reception) as [message [|]]; [|done].
    by rewrite app_nil_r.
  - destruct (send_turn n r) as [m [|]]; [|done]. rewrite IH.
    destruct (send_task (n + length m) l) as [ms [|]]; [|done]. cbn. rewrite length_app.
    rewrite Nat.add_assoc. destruct (send_turn _ reception) as [m' g]. by rewrite app_assoc.
Qed.

(** The sends of the [n]th message on. *)
Lemma send_task_run n l :
  exists k, (send_task n l).1 = map te_payload (take k (visible auth l)) /\
    (forall i, i < k -> send_ok (n + i) = true) /\
    (k = length (visible auth l) \/ k < length (visible auth l) /\ send_ok (n + k) = false).
Proof.
  revert n. unfold visible. induction l as [|[event|skipped|] l IH]; intros n; simpl.
  - exists 0. repeat split; [lia | auto].
  - destruct (event_visible_to event auth); simpl.
    + destruct (send_ok n) eqn:Es; simpl.
      * destruct (IH (n + 1)) as (k & E & Hk & He). destruct (send_task (n + 1) l) as [ms g].
        simpl in *. exists (S k). subst ms. split; [done|]. split.
        -- intros [|i] Hi; [by rewrite Nat.add_0_r|]. rewrite <-(Hk i) by lia. f_equal. lia.
        -- destruct He as [->|[? <-]]; [by left | right]. split; [lia|]. f_equal. lia.
      * exists 0. split; [done|]. split; [lia|]. right. split; [lia|]. by rewrite Nat.add_0_r.
    + specialize (IH n). rewrite Nat.add_0_r. by destruct (send_task n l).
  - specialize (IH n). rewrite Nat.add_0_r. by destruct (send_task n l).
  - exists 0. repeat split; [lia | auto].
Qed.

(** The loop ends for a closed channel or a failed send only. *)
Lemma send_task_goes_on n l :
  Closed ∉ l -> (forall i, send_ok i = true) -> (send_task n l).2 = true.
Proof.
  intros Hl Hs. revert n. induction l as [|r l IH]; intros n; [done|].
  apply not_elem_of_cons in Hl as [Hr Hl]. specialize (IH Hl). simpl.
  assert ((send_turn n r).2 = true) as Hg.
  { destruct r; simpl; [|done..]. destruct (event_visible_to _ _); [|done]. by rewrite Hs. }
  destruct (send_turn n r) as [m g]. simpl in Hg. subst g. specialize (IH (n + length m)).
  by destruct (send_task _ l).
Qed.
End SendTask.

(** ** Schedules *)
Section Schedules.
Context {D : Type} (auth : AuthContext) (send_ok : nat -> bool).
Local Abbreviation turn := (turn (D := D) auth send_ok).
Local Abbreviation run := (connection_run (D := D) auth send_ok).
Local Abbreviation loop l := (send_task (D := D) auth send_ok 0 (receptions l)).

Ltac scheduled_tac :=
  intros; destruct_or?; destruct_and?;
  repeat match goal with H : exists _, _ |- _ => destruct H as (? & ? & ?) end; simplify_eq;
  intuition (first [congruence | eauto]).

Lemma run_app c schedule later : run c (schedule ++ later) = c' ← run c schedule; run c' later.
Proof.
  revert c. induction schedule as [|a schedule IH]; intros c; [done|]. simpl.
  destruct (turn c a); [apply IH | done].
Qed.

Lemma client_left_snoc (schedule : list (Activity D)) a :
  client_left (schedule ++ [a]) <->
    client_left schedule \/ exists frame, a = ReceiveTurn frame /\ keeps_receiving frame = false.
Proof. unfold client_left. set_solver. Qed.

Lemma receptions_snoc (schedule : list (Activity D)) a :
  receptions (schedule ++ [a]) =
    receptions schedule ++ match a with SendTurn reception => [reception] | _ => [] end.
Proof. unfold receptions. rewrite omap_app. by destruct a. Qed.

(** What holds after every schedule of a connection: what was sent is what
    the send task sends, a task has ended only for a reason, and [select!]
    leaves no task running. *)
Record scheduled (schedule : list (Activity D)) (c : Connection D) : Prop := {
  sd_sent : cn_sent c = (loop schedule).1;
  sd_loop : (loop schedule).2 = false -> cn_send c = Finished;
  sd_client : client_left schedule -> cn_receive c = Finished;
  sd_send : cn_send c <> Running -> (loop schedule).2 = false \/ client_left schedule;
  sd_receive : cn_receive c <> Running -> (loop schedule).2 = false \/ client_left schedule;
  sd_send_aborted : cn_send c = Aborted -> cn_resolved c = true /\ cn_receive c = Finished;
  sd_receive_aborted : cn_receive c = Aborted -> cn_resolved c = true /\ cn_send c = Finished;
  sd_resolved : cn_resolved c = true -> cn_send c <> Running /\ cn_receive c <> Running
}.

(** The turns that do not receive an event. *)
Lemma loop_snoc schedule a :
  (forall reception, a <> SendTurn reception) -> loop (schedule ++ [a]) = loop schedule.
Proof. intros Ha. rewrite receptions_snoc. destruct a; [naive_solver|..]; by rewrite app_nil_r. Qed.

Lemma scheduled_turn schedule c a c' :
  scheduled schedule c -> turn c a = Some c' -> scheduled (schedule ++ [a]) c'.
Proof.
  intros [Hs Hl Hc Hws Hwr Has Har Hr] Ht.
  destruct c as [sd rc sent resolved]. simpl in *.
  destruct a as [reception|frame| | |]; cbn [Connection.turn cn_send cn_receive cn_sent cn_resolved] in Ht.
  - case_bool_decide as Hf; [done|]. destruct (loop schedule) as [ms g] eqn:El. simpl in *. subst ms.
    destruct g; [|by destruct Hf; apply Hl].
    destruct (send_turn _ _ _ _) as [m g'] eqn:Et. injection Ht as <-.
    assert (loop (schedule ++ [SendTurn reception]) = (sent ++ m, g')) as El'.
    { rewrite receptions_snoc, send_task_snoc, El. simpl. by rewrite Et. }
    split; rewrite ?El', ?client_left_snoc; simpl; destruct g'; scheduled_tac.
  - case_bool_decide as Hf; [done|]. injection Ht as <-.
    split; rewrite ?loop_snoc, ?client_left_snoc by done; simpl; try done;
      destruct (keeps_receiving frame) eqn:Ek; scheduled_tac.
  - destruct resolved; [done|]. unfold select in Ht. simpl in Ht.
    destruct sd, rc; try done; injection Ht as <-;
      split; rewrite ?loop_snoc, ?client_left_snoc by done; simpl; scheduled_tac.
  - case_bool_decide as Hf; [|done]. injection Ht as <-. subst sd.
    split; rewrite ?loop_snoc, ?client_left_snoc by done; simpl; scheduled_tac.
  - case_bool_decide as Hf; [|done]. injection Ht as <-. subst rc.
    split; rewrite ?loop_snoc, ?client_left_snoc by done; simpl; scheduled_tac.
Qed.

Lemma connection_scheduled schedule c : run connected schedule = Some c -> scheduled schedule c.
Proof.
  revert c. induction schedule as [|a schedule IH] using rev_ind; intros c.
  - intros [= <-]. split; simpl; try done. intros (? & []%elem_of_nil & _).
  - rewrite run_app. destruct (run connected schedule) as [c0|]; [|done]. simpl.
    destruct (turn c0 a) as [c1|] eqn:Et; [|done]. intros [= ->].
    by eapply scheduled_turn; [apply IH|].
Qed.

(** Nothing is sent by a task that has ended. *)
Lemma finished_silent later c c' :
  cn_send c = Finished -> run c later = Some c' -> cn_send c' = Finished /\ cn_sent c' = cn_sent c.
Proof.
  revert c. induction later as [|a later IH]; intros c Hf; [by intros [= <-]|]. cbn.
  destruct (turn c a) as [c0|] eqn:Et; [|done]. simpl. intros Hr.
  assert (cn_send c0 = Finished /\ cn_sent c0 = cn_sent c) as [Hf' <-]; [|by apply IH].
  destruct a; cbn [Connection.turn] in Et; rewrite ?Hf in Et; simpl in Et; simplify_eq.
  - case_bool_decide; naive_solver.
  - destruct (cn_resolved c); [done|]. unfold select in Et. rewrite Hf in Et. naive_solver.
  - case_bool_decide; naive_solver.
Qed.

(** When a task has ended, [select!] and the cancellation it asks for end the
    other. *)
Lemma connection_closes schedule c :
  scheduled schedule c -> (loop schedule).2 = false \/ client_left schedule ->
  exists closing c', run c closing = Some c' /\ length closing <= 2 /\
    Forall (fun a => a = SelectTurn \/ a = CancelSend \/ a = CancelReceive) closing /\
    cn_send c' = Finished /\ cn_receive c' = Finished /\ cn_resolved c' = true /\
    cn_sent c' = cn_sent c.
Proof.
  intros [_ Hl Hc _ _ Has Har Hr] He. destruct c as [sd rc sent resolved]. simpl in *.
  assert (sd = Finished \/ rc = Finished) as Hf by intuition.
  destruct resolved.
  - destruct (Hr eq_refl) as [Hs Hv]. destruct sd, rc; try (by destruct Hs) || (by destruct Hv).
    + by destruct Hf.
    + exists [CancelSend]. eexists. split; [reflexivity|]. simpl. auto 10.
    + exists [CancelReceive]. eexists. split; [reflexivity|]. simpl. auto 10.
    + exists []. eexists. split; [reflexivity|]. simpl. auto 10.
  - destruct sd, rc; try (destruct Has as [[=] _]; done) || (destruct Har as [[=] _]; done).
    + by destruct Hf.
    + exists [SelectTurn; CancelSend]. eexists. split; [reflexivity|]. simpl. auto 10.
    + exists [SelectTurn; CancelReceive]. eexists. split; [reflexivity|]. simpl. auto 10.
    + exists [SelectTurn]. eexists. split; [reflexivity|]. simpl. auto 10.
Qed.

(** *** However it goes on *)

(** The turns of [select!] and of cancellation. *)
Definition closing_turn (a : Activity D) : bool :=
  match a with SelectTurn | CancelSend | CancelReceive => true | _ => false end.

Definition ended (c : Connection D) : Prop := cn_send c = Finished \/ cn_receive c = Finished.

(** How many of them are left once a task has ended. *)
Definition closing_left (c : Connection D) : nat :=
  (if cn_resolved c then 0 else 1) +
  (if bool_decide (cn_send c = Finished) && bool_decide (cn_receive c = Finished) then 0 else 1).

Lemma ended_turn c a c' :
  ended c -> turn c a = Some c' ->
  ended c' /\ (if closing_turn a then 1 else 0) + closing_left c' <= closing_left c.
Proof.
  unfold ended, closing_left. destruct c as [sd rc sent resolved]. simpl. intros He.
  destruct a as [reception|frame| | |]; cbn [Connection.turn cn_send cn_receive cn_sent cn_resolved closing_turn].
  - case_bool_decide as Hf; [done|]. destruct (send_turn _ _ _ _) as [m g]. intros [= <-].
    destruct He as [He| ->]; [done|]. split; [by right|]. destruct g, sd; simpl; (done || lia).
  - case_bool_decide as Hf; [done|]. intros [= <-]. destruct He as [->|He]; [|done].
    split; [by left|]. destruct (keeps_receiving frame), rc; simpl; (done || lia).
  - destruct resolved; [done|]. unfold select. simpl. destruct sd, rc; intros [= <-]; simpl; intuition lia.
  - case_bool_decide as Hf; [|done]. subst sd. intros [= <-]. simpl. destruct He as [[=]| ->].
    split; [by left|]. simpl. lia.
  - case_bool_decide as Hf; [|done]. subst rc. intros [= <-]. simpl. destruct He as [->|[=]].
    split; [by left|]. simpl. lia.
Qed.

(** Once a task has ended one has ended for good, and no schedule has more
    than two more closing turns. *)
Lemma ended_run later c c' :
  ended c -> run c later = Some c' ->
  ended c' /\ length (List.filter closing_turn later) + closing_left c' <= closing_left c.
Proof.
  revert c. induction later as [|a later IH]; intros c He; simpl; [intros [= <-]; split; [done | lia]|].
  destruct (turn c a) as [c1|] eqn:Et; [|done]. simpl. intros Hr.
  destruct (ended_turn _ _ _ He Et) as [He1 Hl1]. destruct (IH _ He1 Hr) as [He' Hl']. split; [done|].
  destruct (closing_turn a); simpl; lia.
Qed.

Lemma closing_turns_end n c c' :
  n + closing_left c' <= closing_left c ->
  n <= 2 /\ (n = 2 -> cn_send c' = Finished /\ cn_receive c' = Finished).
Proof.
  unfold closing_left. intros Hl.
  assert ((if cn_resolved c then 0 else 1) + (if bool_decide (cn_send c = Finished) &&
    bool_decide (cn_receive c = Finished) then 0 else 1) <= 2) as Hb
    by (destruct (cn_resolved c), (bool_decide (cn_send c = Finished)), (bool_decide (cn_receive c = Finished));
      simpl; lia).
  split; [lia|]. intros ->.
  destruct (bool_decide (cn_send c' = Finished)) eqn:Es, (bool_decide (cn_receive c' = Finished)) eqn:Er;
    simpl in Hl; try lia. by bool_prop.
Qed.
End Schedules.
