(* ===== verification/Routes.v ===== *)
(** * The HTTP handlers ([src/server_routes.rs])

    Every handler as a step on the server: the database world and the events
    broadcast so far.  A handler starts from the decoded path, headers and
    body; [handle] is the router, but for the WebSocket route, whose success
    is an upgraded connection and not a response. *)

From stdpp Require Import strings.
From S2P Require Import Prelude Ordered RustStr Floats Externals HttpError.
From S2P Require Import SourceScope Alerts Indexing Auth WorkerAuth Database.
From S2P Require Import AlertStore ReverseMatch Store Server.

(** ** Requests and responses *)
Record EvaluateMatchesRequest := {
  er_alert_rule_id : Uuid;
  er_threshold : f64;
  er_search : EmbeddingSearchRequest
}.

Inductive Request :=
| GetHealth
| ListRecords
| GetRecord (id : Uuid)
| CreateRecord (input : CreateAlertRule)
| UpsertAlertEmbedding (alert_rule_id : Uuid) (input : AlertRuleEmbeddingUpsertRequest)
| ListSources
| GetSource (source_id : Uuid)
| CreateSource (input : CreateSourcePolicy)
| IngestPage (source_id : Uuid) (input : PageIngestRequest)
| ReverseMatchPage (source_id : Uuid) (input : ReverseAlertPageRequest)
| SearchEmbeddings (input : EmbeddingSearchRequest)
| EvaluateMatches (input : EvaluateMatchesRequest).

Section Routes.
Context `{UuidLib, DigestLib, InterfacesLib, PgLib, Deployment, RowDecoders, UrlLib,
  HeaderLib, JsonLib, Base64Lib, HmacLib}.

Inductive Body :=
| HealthBody (h : Health)
| RulesBody (l : list AlertRule)
| RuleBody (r : AlertRule)
| ReceiptBody (r : AlertRuleEmbeddingReceipt)
| SourcesBody (l : list SourcePolicy)
| SourceBody (s : SourcePolicy)
| PageBody (p : PageRevision)
| ReverseBody (r : ReverseAlertMatchResponse)
| SearchBody (r : EmbeddingSearchResponse)
| MatchesBody (l : list MatchCandidate)
| MatchBody (m : MatchCandidate).

(** ** The server state *)
Record ServerWorld := {
  sv_world : World;
  sv_events : list (TenantEvent Body)
}.

Definition Handler (A : Type) : Type := ServerWorld -> result HttpError A * ServerWorld.
#[export] Instance Handler_ret : MRet Handler := fun A a s => (Ok a, s).
#[export] Instance Handler_bind : MBind Handler := fun A B f m s =>
  match m s with
  | (Ok a, s') => f a s'
  | (Err e, s') => (Err e, s')
  end.
Definition check {A} (r : result HttpError A) : Handler A := fun s => (r, s).
Definition store_call {A} (m : M A) : Handler A := fun s =>
  let '(r, w) := m (sv_world s) in (r, {| sv_world := w; sv_events := sv_events s |}).

(** [let _ = state.events.send(event)]: a failing send is ignored. *)
Definition broadcast (event : TenantEvent Body) : Handler unit := fun s =>
  (Ok tt, {| sv_world := sv_world s; sv_events := sv_events s ++ [event] |}).

Definition publish_event (tenant_id : Uuid) (audience : EventAudience) (event_type : str) (data : Body)
    : Handler unit :=
  occurred_at ← store_call utc_now;
  broadcast {| te_tenant_id := tenant_id; te_audience := audience;
               te_payload := {| ev_event_type := event_type; ev_tenant_id := tenant_id;
                                ev_occurred_at := occurred_at; ev_data := data |} |}.

(** ** Handlers *)
Context (env : Env) (state : AppState) (headers : HeaderMap) (unix_now : Z).

(** The [Authenticated] extractor. *)
Definition authenticated : Handler AuthContext := check (authenticate_at (as_auth state) headers unix_now).
Definition database : Handler unit := check (require_database state).

Definition list_records : Handler (StatusCode * Body) :=
  auth ← authenticated;
  _ ← database;
  rules ← store_call (list_alert_rules (tenant_id auth) (subject auth) (is_tenant_admin auth));
  mret (StatusCode.OK, RulesBody rules).

Definition get_record (id : Uuid) : Handler (StatusCode * Body) :=
  auth ← authenticated;
  _ ← database;
  rule ← store_call (get_alert_rule (tenant_id auth) id (subject auth) (is_tenant_admin auth));
  rule ← check (ok_or rule (Http.not_found (lit "alert rule was not found")));
  mret (StatusCode.OK, RuleBody rule).

Definition create_record (input : CreateAlertRule) : Handler (StatusCode * Body) :=
  auth ← authenticated;
  input ← check (map_err Http.validation (Alerts.normalized input));
  _ ← database;
  record ← store_call (create_alert_rule (tenant_id auth) (subject auth) input);
  _ ← publish_event (tenant_id auth) (SubjectOrTenantAdministrators (subject auth))
        (lit "alert_rule.created") (RuleBody record);
  mret (StatusCode.CREATED, RuleBody record).

Definition upsert_alert_embedding (alert_rule_id : Uuid) (input : AlertRuleEmbeddingUpsertRequest)
    : Handler (StatusCode * Body) :=
  _ ← check (WorkerAuth.authorize env headers);
  tenant_id ← check (tenant_id_from_headers headers);
  _ ← check (map_err Http.validation (upsert_validate input));
  _ ← database;
  receipt ← store_call (upsert_alert_rule_embedding tenant_id alert_rule_id input);
  mret (if rc_created receipt then StatusCode.CREATED else StatusCode.OK, ReceiptBody receipt).

Definition list_sources_route : Handler (StatusCode * Body) :=
  auth ← authenticated;
  _ ← database;
  sources ← store_call (Store.list_sources (tenant_id auth));
  mret (StatusCode.OK, SourcesBody sources).

Definition get_source_route (source_id : Uuid) : Handler (StatusCode * Body) :=
  auth ← authenticated;
  _ ← database;
  source ← store_call (Store.get_source (tenant_id auth) source_id);
  source ← check (ok_or source (Http.not_found (lit "source policy was not found")));
  mret (StatusCode.OK, SourceBody source).

Definition create_source_route (input : CreateSourcePolicy) : Handler (StatusCode * Body) :=
  auth ← authenticated;
  _ ← check (require_tenant_admin auth);
  _ ← check (map_err Http.validation (create_source_validate input));
  canonical_root ← check (map_err Http.validation (canonicalize_source_root input));
  _ ← database;
  source ← store_call (Store.create_source (tenant_id auth) input canonical_root);
  _ ← publish_event (tenant_id auth) TenantAdministrators (lit "source.created") (SourceBody source);
  mret (StatusCode.CREATED, SourceBody source).

Definition canonicalize_for_source (source : SourcePolicy) (raw_url : str) : result ValidationError str :=
  canonicalize raw_url (po_allowed_hosts source) (po_include_subdomains source)
    (po_allowed_path_prefixes source).

(** The steps the two page routes share: the source, if it is enabled, and
    the page's two canonical URLs within it. *)
Definition admitted_urls (tenant_id source_id : Uuid) (url final_url : str) : Handler (str * str) :=
  source ← store_call (Store.get_source tenant_id source_id);
  source ← check (ok_or source (Http.not_found (lit "source policy was not found")));
  _ ← check (reject Http.validation (lit "source policy is disabled")
               when negb (po_enabled source) ;; Ok tt);
  canonical_original ← check (map_err Http.validation (canonicalize_for_source source url));
  canonical_final ← check (map_err Http.validation (canonicalize_for_source source final_url));
  mret (canonical_original, canonical_final).

Definition same_source (body_source_id source_id : Uuid) : result HttpError unit :=
  reject Http.bad_request (lit "body source_id must match the source_id route parameter")
    when bool_decide (body_source_id <> source_id) ;;
  Ok tt.

Definition ingest_page_route (source_id : Uuid) (input : PageIngestRequest) : Handler (StatusCode * Body) :=
  _ ← check (WorkerAuth.authorize env headers);
  tenant_id ← check (tenant_id_from_headers headers);
  _ ← check (map_err Http.validation (page_validate input));
  _ ← check (same_source (pi_source_id input) source_id);
  _ ← database;
  '(canonical_original, canonical_final) ←
    admitted_urls tenant_id source_id (pi_url input) (pi_final_url input);
  revision ← store_call (Store.ingest_page tenant_id source_id input canonical_original canonical_final);
  _ ← publish_event tenant_id TenantAdministrators (lit "page.revision_indexed") (PageBody revision);
  mret (if pn_changed revision then StatusCode.CREATED else StatusCode.OK, PageBody revision).

Definition reverse_match_page (source_id : Uuid) (input : ReverseAlertPageRequest)
    : Handler (StatusCode * Body) :=
  _ ← check (WorkerAuth.authorize env headers);
  tenant_id ← check (tenant_id_from_headers headers);
  _ ← check (map_err Http.validation (ReverseMatch.validate input));
  _ ← check (same_source (rp_source_id input) source_id);
  _ ← database;
  '(canonical_original, canonical_final) ←
    admitted_urls tenant_id source_id (rp_url input) (rp_final_url input);
  response ← store_call
    (ingest_and_reverse_match tenant_id source_id input canonical_original canonical_final);
  _ ← publish_event tenant_id TenantAdministrators (lit "page.reverse_match_completed")
        (ReverseBody response);
  mret (if rm_changed response then StatusCode.CREATED else StatusCode.OK, ReverseBody response).

Definition search_embeddings_route (input : EmbeddingSearchRequest) : Handler (StatusCode * Body) :=
  auth ← authenticated;
  _ ← check (map_err Http.validation (search_validate input));
  _ ← database;
  page ← store_call (Store.search_embeddings (tenant_id auth) input);
  mret (StatusCode.OK, SearchBody (sp_response page)).

Definition require_enabled_alert_rule (enabled : bool) : result HttpError unit :=
  if enabled then Ok tt else Err (Http.validation (lit "alert rule is disabled")).

Definition with_source_ids (search : EmbeddingSearchRequest) (source_ids : list Uuid)
    : EmbeddingSearchRequest := {|
  sr_embedding := sr_embedding search; sr_min_similarity := sr_min_similarity search;
  sr_limit := sr_limit search; sr_source_ids := source_ids; sr_cursor := sr_cursor search
|}.

Fixpoint publish_matches (tenant_id : Uuid) (owner : str) (candidates : list MatchCandidate)
    : Handler unit :=
  match candidates with
  | [] => mret tt
  | candidate :: candidates' =>
      _ ← publish_event tenant_id (SubjectOrTenantAdministrators owner) (lit "match.candidate")
            (MatchBody candidate);
      publish_matches tenant_id owner candidates'
  end.

Definition evaluate_matches_route (input : EvaluateMatchesRequest) : Handler (StatusCode * Body) :=
  auth ← authenticated;
  let requested_threshold := er_threshold input in
  let search := er_search input in
  _ ← check (reject Http.validation (lit "threshold must be finite and between 0 and 1")
               when negb (is_finite requested_threshold) || negb (f64_in_unit requested_threshold) ;;
             Ok tt);
  _ ← check (map_err Http.validation (search_validate search));
  _ ← database;
  rule ← store_call (require_alert_rule (tenant_id auth) (er_alert_rule_id input) (subject auth)
                       (is_tenant_admin auth));
  _ ← check (require_enabled_alert_rule (ar_enabled rule));
  _ ← check (reject Http.validation
                 (lit "search embedding model must match the active alert-rule revision")
               when bool_decide (ep_model (sr_embedding search) <> ar_embedding_model rule) ;;
             Ok tt);
  source_ids ← check (map_err (fun error => Http.validation (scope_error_to_string error))
    (constrain_search_sources (ar_source_filters rule) (sr_source_ids search)));
  let search := with_source_ids search source_ids in
  _ ← check (map_err Http.validation (search_validate search));
  let threshold := fmax requested_threshold (f64_of_f32 (ar_similarity_threshold rule)) in
  candidates ← store_call (Store.evaluate_matches (tenant_id auth) (er_alert_rule_id input)
                             (ar_revision_id rule) threshold search);
  _ ← publish_matches (tenant_id auth) (ar_owner_subject rule) candidates;
  mret (StatusCode.OK, MatchesBody candidates).

(** The [AuthorizedWebSocketOrigin] extractor. *)
Definition authorized_origin : Handler unit :=
  check (authorize_websocket_origin headers (as_allowed_origins state)).

(** The extractors of [ws_upgrade]; the identity they yield is the one the
    connection's send task filters events for. *)
Definition ws_upgrade : Handler AuthContext :=
  auth ← authenticated;
  _ ← authorized_origin;
  mret auth.

Definition handle (request : Request) : Handler (StatusCode * Body) :=
  match request with
  | GetHealth => mret (StatusCode.OK, HealthBody (health state))
  | ListRecords => list_records
  | GetRecord id => get_record id
  | CreateRecord input => create_record input
  | UpsertAlertEmbedding alert_rule_id input => upsert_alert_embedding alert_rule_id input
  | ListSources => list_sources_route
  | GetSource source_id => get_source_route source_id
  | CreateSource input => create_source_route input
  | IngestPage source_id input => ingest_page_route source_id input
  | ReverseMatchPage source_id input => reverse_match_page source_id input
  | SearchEmbeddings input => search_embeddings_route input
  | EvaluateMatches input => evaluate_matches_route input
  end.
End Routes.
