(* ===== verification/Router.v ===== *)
(** * The routes ([build_router] of [src/server_runtime.rs])

    The table of routes, the endpoint a method and a path reach, and the
    cross-origin policy around them.  Matching follows Axum's documented
    rules: a literal segment matches itself, a capture any segment that is
    not empty, and [get] serves HEAD as well. *)

From stdpp Require Import strings.
From S2P Require Import Prelude RustStr Externals Auth Server Routes.

(** ** Methods and endpoints *)
Inductive Method := GET | HEAD | POST | OtherMethod (name : str).
#[global] Instance method_eq_dec : EqDecision Method.
Proof. solve_decision. Defined.

Inductive Endpoint :=
| AtHealth | AtListRecords | AtCreateRecord | AtGetRecord | AtUpsertAlertEmbedding | AtListSources
| AtCreateSource | AtGetSource | AtIngestPage | AtReverseMatchPage | AtSearchEmbeddings
| AtEvaluateMatches | AtWebSocket.
#[global] Instance endpoint_eq_dec : EqDecision Endpoint.
Proof. solve_decision. Defined.

(** ** The table *)
Record MethodRouter := { mr_get : option Endpoint; mr_post : option Endpoint }.
Definition get_route (e : Endpoint) : MethodRouter := {| mr_get := Some e; mr_post := None |}.
Definition post_route (e : Endpoint) : MethodRouter := {| mr_get := None; mr_post := Some e |}.
Definition get_post_route (e e' : Endpoint) : MethodRouter := {| mr_get := Some e; mr_post := Some e' |}.

(** A path as the router splits it, without its leading slash. *)
Inductive Segment := Literal (s : str) | Capture (name : str).

Definition alerts_path : list Segment := [Literal (lit "v1"); Literal (lit "alerts")].
Definition sources_path : list Segment := [Literal (lit "v1"); Literal (lit "sources")].

Definition build_router : list (list Segment * MethodRouter) :=
  [([Literal (lit "healthz")], get_route AtHealth);
   (alerts_path, get_post_route AtListRecords AtCreateRecord);
   (alerts_path ++ [Capture (lit "id")], get_route AtGetRecord);
   (alerts_path ++ [Capture (lit "id"); Literal (lit "embedding")], post_route AtUpsertAlertEmbedding);
   (sources_path, get_post_route AtListSources AtCreateSource);
   (sources_path ++ [Capture (lit "source_id")], get_route AtGetSource);
   (sources_path ++ [Capture (lit "source_id"); Literal (lit "pages")], post_route AtIngestPage);
   (sources_path ++ [Capture (lit "source_id"); Literal (lit "pages"); Literal (lit "reverse-match")],
      post_route AtReverseMatchPage);
   ([Literal (lit "v1"); Literal (lit "embeddings"); Literal (lit "search")], post_route AtSearchEmbeddings);
   ([Literal (lit "v1"); Literal (lit "matches"); Literal (lit "evaluate")], post_route AtEvaluateMatches);
   ([Literal (lit "v1"); Literal (lit "ws")], get_route AtWebSocket)].

(** What a path captures, if it matches. *)
Fixpoint match_path (pattern : list Segment) (segments : list str) : option (list str) :=
  match pattern, segments with
  | [], [] => Some []
  | Literal s :: pattern', segment :: segments' =>
      if bool_decide (segment = s) then match_path pattern' segments' else None
  | Capture _ :: pattern', segment :: segments' =>
      if nonempty segment then cons segment <$> match_path pattern' segments' else None
  | _, _ => None
  end.

Definition serves (router : MethodRouter) (method : Method) : option Endpoint :=
  match method with
  | GET | HEAD => mr_get router
  | POST => mr_post router
  | OtherMethod _ => None
  end.

Inductive Dispatch :=
| Routed (endpoint : Endpoint) (captures : list str)
| MethodNotAllowed
| NotFound.

Fixpoint find_route (table : list (list Segment * MethodRouter)) (segments : list str)
    : option (MethodRouter * list str) :=
  match table with
  | [] => None
  | (pattern, router) :: table' =>
      match match_path pattern segments with
      | Some captures => Some (router, captures)
      | None => find_route table' segments
      end
  end.

Definition dispatch (method : Method) (segments : list str) : Dispatch :=
  match find_route build_router segments with
  | None => NotFound
  | Some (router, captures) =>
      match serves router method with
      | Some endpoint => Routed endpoint captures
      | None => MethodNotAllowed
      end
  end.

(** ** The layers *)
Definition BODY_LIMIT : N := 6 * 1024 * 1024.

Record CorsLayer := {
  co_allow_origin : list (list N);
  co_allow_credentials : bool;
  co_allow_methods : list Method;
  co_allow_headers : list str
}.

Definition CONTENT_TYPE : str := lit "content-type".

Definition cors_layer (origins : list (list N)) : CorsLayer := {|
  co_allow_origin := origins;
  co_allow_credentials := true;
  co_allow_methods := [GET; POST];
  co_allow_headers := [AUTHORIZATION; CONTENT_TYPE; TENANT_HEADER; SUBJECT_HEADER; ROLES_HEADER]
|}.

(** ** The address of a request *)
Section Requests.
Context {W : Store.RowDecoders}.

Definition request_endpoint (request : Request) : Endpoint :=
  match request with
  | GetHealth => AtHealth
  | ListRecords => AtListRecords
  | GetRecord _ => AtGetRecord
  | CreateRecord _ => AtCreateRecord
  | UpsertAlertEmbedding _ _ => AtUpsertAlertEmbedding
  | ListSources => AtListSources
  | GetSource _ => AtGetSource
  | CreateSource _ => AtCreateSource
  | IngestPage _ _ => AtIngestPage
  | ReverseMatchPage _ _ => AtReverseMatchPage
  | SearchEmbeddings _ => AtSearchEmbeddings
  | EvaluateMatches _ => AtEvaluateMatches
  end.

(** The identifiers a request has in its path. *)
Definition path_ids (request : Request) : list Uuid :=
  match request with
  | GetRecord id | UpsertAlertEmbedding id _ | GetSource id | IngestPage id _
  | ReverseMatchPage id _ => [id]
  | _ => []
  end.
End Requests.

(** ** What reaches an endpoint *)

(** The one method and pattern of an endpoint. *)
Definition endpoint_method (endpoint : Endpoint) : Method :=
  match endpoint with
  | AtHealth | AtListRecords | AtGetRecord | AtListSources | AtGetSource | AtWebSocket => GET
  | _ => POST
  end.

Definition endpoint_pattern (endpoint : Endpoint) : list Segment :=
  match endpoint with
  | AtHealth => [Literal (lit "healthz")]
  | AtListRecords | AtCreateRecord => alerts_path
  | AtGetRecord => alerts_path ++ [Capture (lit "id")]
  | AtUpsertAlertEmbedding => alerts_path ++ [Capture (lit "id"); Literal (lit "embedding")]
  | AtListSources | AtCreateSource => sources_path
  | AtGetSource => sources_path ++ [Capture (lit "source_id")]
  | AtIngestPage => sources_path ++ [Capture (lit "source_id"); Literal (lit "pages")]
  | AtReverseMatchPage =>
      sources_path ++ [Capture (lit "source_id"); Literal (lit "pages"); Literal (lit "reverse-match")]
  | AtSearchEmbeddings => [Literal (lit "v1"); Literal (lit "embeddings"); Literal (lit "search")]
  | AtEvaluateMatches => [Literal (lit "v1"); Literal (lit "matches"); Literal (lit "evaluate")]
  | AtWebSocket => [Literal (lit "v1"); Literal (lit "ws")]
  end.

(** Patterns some path matches both of. *)
Fixpoint overlap (p q : list Segment) : bool :=
  match p, q with
  | [], [] => true
  | Literal s :: p', Literal t :: q' => bool_decide (s = t) && overlap p' q'
  | _ :: p', _ :: q' => overlap p' q'
  | _, _ => false
  end.

Lemma match_overlap p q segments a b :
  match_path p segments = Some a -> match_path q segments = Some b -> overlap p q = true.
Proof.
  revert q segments a b. induction p as [|[s|n] p IH]; intros [|[t|m] q] [|x l] a b; simpl; try done;
    repeat case_bool_decide; repeat case_match; try done; subst; simpl; intros Hp Hq;
    repeat match goal with H : _ <$> _ = Some _ |- _ => apply fmap_Some in H as (? & ? & ?) end; eauto.
Qed.

(** No two rows of a table overlap: what order they are in does not matter. *)
Fixpoint disjoint_table (table : list (list Segment * MethodRouter)) : bool :=
  match table with
  | [] => true
  | row :: table' =>
      forallb (fun other => negb (overlap row.1 other.1)) table' && disjoint_table table'
  end.

Lemma find_route_iff table segments router captures :
  disjoint_table table = true ->
  find_route table segments = Some (router, captures) <->
    exists pattern, (pattern, router) ∈ table /\ match_path pattern segments = Some captures.
Proof.
  induction table as [|[p r] table IH]; simpl.
  - intros _. split; [done | intros (? & []%elem_of_nil & _)].
  - intros [Hf Hd]%andb_true_iff. specialize (IH Hd). rewrite forallb_forall in Hf.
    destruct (match_path p segments) as [cs|] eqn:Em.
    + split; [intros [= <- <-]; exists p; split; [by left | done]|].
      intros (q & [[= -> ->]|Hq]%elem_of_cons & Hm); [congruence|]. exfalso.
      apply list_elem_of_In, Hf in Hq. simpl in Hq. by rewrite (match_overlap _ _ _ _ _ Em Hm) in Hq.
    + rewrite IH. split; intros (q & Hq & Hm); exists q; (split; [|done]); [by right|].
      apply elem_of_cons in Hq as [[= -> ->]|Hq]; [congruence | done].
Qed.

Lemma build_router_disjoint : disjoint_table build_router = true.
Proof. by vm_compute. Qed.

Definition accepts (endpoint : Endpoint) (method : Method) : Prop :=
  method = endpoint_method endpoint \/ endpoint_method endpoint = GET /\ method = HEAD.

Lemma build_router_rows pattern router method endpoint :
  ((pattern, router) ∈ build_router /\ serves router method = Some endpoint) ->
  pattern = endpoint_pattern endpoint /\ accepts endpoint method.
Proof.
  unfold accepts. intros [Hr Hs]. unfold build_router in Hr.
  repeat (apply elem_of_cons in Hr as [[= -> ->]|Hr];
    [destruct method; simpl in Hs; simplify_eq; simpl; auto|]).
  by apply elem_of_nil in Hr.
Qed.

Lemma endpoint_row endpoint :
  exists router, (endpoint_pattern endpoint, router) ∈ build_router /\
    (endpoint_method endpoint = GET -> mr_get router = Some endpoint) /\
    (endpoint_method endpoint = POST -> mr_post router = Some endpoint) /\
    (endpoint_method endpoint = GET \/ endpoint_method endpoint = POST).
Proof.
  destruct endpoint; unfold build_router, endpoint_pattern;
    match goal with |- context [(?p, _) ∈ ?l] =>
      let rec find l := match l with
        | (p, ?r) :: _ => exists r
        | _ :: ?l' => find l'
        end in find l end;
    (split; [repeat first [apply list_elem_of_here | apply list_elem_of_further] | split_and!; simpl; first [done | by left | by right]]).
Qed.

(** A method and a path reach an endpoint exactly when the path is of the
    endpoint's pattern and the method is the endpoint's (or HEAD for GET). *)
Theorem dispatch_iff method segments endpoint captures :
  dispatch method segments = Routed endpoint captures <->
  match_path (endpoint_pattern endpoint) segments = Some captures /\ accepts endpoint method.
Proof.
  unfold dispatch. split.
  - destruct (find_route build_router segments) as [[router cs]|] eqn:Ef; [|done].
    apply (find_route_iff _ _ _ _ build_router_disjoint) in Ef as (p & Hp & Hm).
    destruct (serves router method) eqn:Es; [|done]. intros [= -> ->].
    by destruct (build_router_rows _ _ _ _ (conj Hp Es)) as [-> ?].
  - intros [Hm Ha].
    destruct (endpoint_row endpoint) as (router & Hr & Hget & Hpost & Hm').
    assert (serves router method = Some endpoint) as Hs.
    { destruct Ha as [->|[Eg ->]]; [|by apply Hget]. destruct Hm' as [Em|Em]; rewrite Em; simpl; auto. }
    assert (find_route build_router segments = Some (router, captures)) as ->
      by (apply (find_route_iff _ _ _ _ build_router_disjoint); eauto).
    by rewrite Hs.
Qed.

(** ** The address of a request *)
Fixpoint fill (pattern : list Segment) (captures : list str) : list str :=
  match pattern, captures with
  | [], _ => []
  | Literal s :: pattern', _ => s :: fill pattern' captures
  | Capture _ :: pattern', capture :: captures' => capture :: fill pattern' captures'
  | Capture _ :: pattern', [] => [] :: fill pattern' []
  end.

Fixpoint holes (pattern : list Segment) : nat :=
  match pattern with
  | [] => 0
  | Literal _ :: pattern' => holes pattern'
  | Capture _ :: pattern' => S (holes pattern')
  end.

Lemma match_fill pattern captures :
  length captures = holes pattern -> Forall (fun c => c <> []) captures ->
  match_path pattern (fill pattern captures) = Some captures.
Proof.
  revert captures. induction pattern as [|[s|name] pattern IH]; intros captures; simpl.
  - by destruct captures.
  - intros Hl Hc. rewrite bool_decide_eq_true_2 by done. by apply IH.
  - destruct captures as [|c captures]; [done|]. intros [= Hl] [Hc Hcs]%Forall_cons. simpl.
    destruct c; [done|]. cbn [nonempty]. by rewrite IH.
Qed.

Section Addresses.
Context {W : Store.RowDecoders} `{UuidLaws}.

(** A request addressed by its endpoint's method and the path with its
    identifiers reaches that endpoint, with the identifiers in the path. *)
Theorem request_routed (request : Request) :
  exists captures,
    dispatch (endpoint_method (request_endpoint request))
      (fill (endpoint_pattern (request_endpoint request)) (map uuid_to_string (path_ids request))) =
      Routed (request_endpoint request) captures /\
    mapM uuid_parse_str captures = Some (path_ids request).
Proof.
  exists (map uuid_to_string (path_ids request)). split.
  - apply dispatch_iff. split; [|by left]. apply match_fill.
    + by destruct request.
    + apply Forall_map, Forall_true. intros id. apply uuid_to_string_chars.
  - induction (path_ids request) as [|id ids IH]; [done|]. simpl. rewrite uuid_parse_to_string. simpl.
    by rewrite IH.
Qed.
End Addresses.
