(* ===== verification/Changes.v ===== *)
(** * What a statement may write

    [change t] is the elementary change to the tables: a row of tenant [t]
    that satisfies its table's CHECK and UNIQUE constraints is added, rows of
    [t] are updated in place under their keys.  The inserts of [Database] are
    [writes t], sequences of such changes, and so is whatever the program does
    with them ([Isolation]); other tenants' rows stay ([same_elsewhere]) and
    the declared constraints hold ([constraints]). *)

From stdpp Require Import strings relations.
From S2P Require Import Prelude Ordered RustStr Floats Externals HttpError.
From S2P Require Import Database AlertStore ReverseMatch.

(** ** Constraints of a row *)
Definition source_typed (s : SourceRow) : Prop :=
  source_check s = true /\
  texts_ok ([so_name s; so_root_url s] ++ so_allowed_hosts s ++ so_allowed_path_prefixes s) = true.
Definition page_typed (p : PageRow) : Prop := text_ok (pg_canonical_url p) = true.
Definition page_revision_typed (v : PageRevisionRow) : Prop :=
  page_revision_check v = true /\
  texts_ok [pv_original_url v; pv_final_url v; default [] (pv_title v); pv_content_text v;
            pv_content_sha256 v; pv_content_type v] = true.
Definition embedding_typed (e : EmbeddingRow) : Prop :=
  embedding_check e = true /\ texts_ok [em_model e; em_model_version e] = true.
Definition rule_typed (r : RuleRow) : Prop := rule_check r = true /\ text_ok (ru_owner_subject r) = true.
Definition rule_revision_typed (v : RuleRevisionRow) : Prop :=
  rule_revision_check v = true /\
  texts_ok ([rr_created_by_subject v; rr_name v; rr_query_text v; rr_embedding_model v] ++
            rr_source_filters v ++ rr_delivery_channels v) = true.
Definition rule_embedding_typed (e : RuleEmbeddingRow) : Prop :=
  rule_embedding_check e = true /\ texts_ok [re_model e; re_model_version e] = true.
Definition candidate_typed (c : CandidateRow) : Prop :=
  candidate_check c = true /\
  texts_ok (mc_canonical_match_key c :: evidence_texts (mc_score_explanation c)) = true.

(** ** The UNIQUE keys *)
Definition source_unique (s : SourceRow) := (so_tenant_id s, so_root_url s).
Definition page_unique (p : PageRow) := (pg_tenant_id p, pg_source_id p, pg_canonical_url p).
Definition page_revision_unique (v : PageRevisionRow) :=
  (pv_tenant_id v, pv_page_id v, pv_content_sha256 v).
Definition embedding_unique (e : EmbeddingRow) :=
  (em_tenant_id e, em_revision_id e, em_model e, em_model_version e, em_dimensions e, em_normalization e).
Definition rule_revision_unique (v : RuleRevisionRow) :=
  (rr_tenant_id v, rr_alert_rule_id v, rr_revision_number v).
Definition rule_embedding_unique (e : RuleEmbeddingRow) :=
  (re_tenant_id e, re_alert_rule_revision_id e, re_model e, re_model_version e, re_dimensions e,
   re_normalization e).
Definition match_key_of (c : CandidateRow) : Uuid * str := (mc_tenant_id c, mc_canonical_match_key c).

(** Every CHECK and UNIQUE constraint of the migrations, identifiers apart. *)
Record constraints (db : Database) : Prop := {
  ck_sources : Forall source_typed (sources db);
  ck_pages : Forall page_typed (pages db);
  ck_page_revisions : Forall page_revision_typed (page_revisions db);
  ck_embeddings : Forall embedding_typed (embeddings db);
  ck_rules : Forall rule_typed (rules db);
  ck_rule_revisions : Forall rule_revision_typed (rule_revisions db);
  ck_rule_embeddings : Forall rule_embedding_typed (rule_embeddings db);
  ck_candidates : Forall candidate_typed (candidates db);
  uq_sources : NoDup (map source_unique (sources db));
  uq_pages : NoDup (map page_unique (pages db));
  uq_page_revisions : NoDup (map page_revision_unique (page_revisions db));
  uq_embeddings : NoDup (map embedding_unique (embeddings db));
  uq_rule_revisions : NoDup (map rule_revision_unique (rule_revisions db));
  uq_rule_embeddings : NoDup (map rule_embedding_unique (rule_embeddings db));
  uq_candidates : NoDup (map match_key_of (candidates db))
}.

Lemma constraints_empty : constraints empty_database.
Proof. constructor; constructor. Qed.

(** ** Changes *)

(** An update in place: only rows of [t], and not their [fixed] columns. *)
Definition in_place {A B} (tenant_of : A -> Uuid) (fixed : A -> B) (t : Uuid) (f : A -> A) : Prop :=
  forall x, tenant_of (f x) = tenant_of x /\ fixed (f x) = fixed x /\ (tenant_of x <> t -> f x = x).

Inductive change (t : Uuid) (db : Database) : Database -> Prop :=
| AddSource row :
    so_tenant_id row = t -> source_typed row -> source_unique row ∉ map source_unique (sources db) ->
    change t db (set_sources (fun l => l ++ [row]) db)
| AddPage row :
    pg_tenant_id row = t -> page_typed row -> page_unique row ∉ map page_unique (pages db) ->
    change t db (set_pages (fun l => l ++ [row]) db)
| UpdatePages f :
    in_place pg_tenant_id (fun p => (pg_id p, page_unique p)) t f ->
    change t db (set_pages (map f) db)
| AddPageRevision row :
    pv_tenant_id row = t -> page_revision_typed row ->
    page_revision_unique row ∉ map page_revision_unique (page_revisions db) ->
    change t db (set_page_revisions (fun l => l ++ [row]) db)
| AddEmbedding row :
    em_tenant_id row = t -> embedding_typed row ->
    embedding_unique row ∉ map embedding_unique (embeddings db) ->
    change t db (set_embeddings (fun l => l ++ [row]) db)
| AddRule row :
    ru_tenant_id row = t -> rule_typed row -> change t db (set_rules (fun l => l ++ [row]) db)
| UpdateRules f :
    in_place ru_tenant_id ru_id t f ->
    (forall x, x ∈ rules db -> exists y, y ∈ rules db /\ ru_owner_subject (f x) = ru_owner_subject y) ->
    change t db (set_rules (map f) db)
| AddRuleRevision row :
    rr_tenant_id row = t -> rule_revision_typed row ->
    rule_revision_unique row ∉ map rule_revision_unique (rule_revisions db) ->
    change t db (set_rule_revisions (fun l => l ++ [row]) db)
| AddRuleEmbedding row :
    re_tenant_id row = t -> rule_embedding_typed row ->
    rule_embedding_unique row ∉ map rule_embedding_unique (rule_embeddings db) ->
    change t db (set_rule_embeddings (fun l => l ++ [row]) db)
| AddCandidate row :
    mc_tenant_id row = t -> candidate_typed row -> match_key_of row ∉ map match_key_of (candidates db) ->
    change t db (set_candidates (fun l => l ++ [row]) db).

Definition writes (t : Uuid) : Database -> Database -> Prop := rtc (change t).

#[export] Instance writes_preorder t : PreOrder (writes t).
Proof. unfold writes. apply _. Qed.

Lemma writes_once t db db' : change t db db' -> writes t db db'.
Proof. apply rtc_once. Qed.

(** *** The constraints hold *)
Lemma NoDup_map_in_place {A B} (key : A -> B) (f : A -> A) l :
  (forall x, key (f x) = key x) -> NoDup (map key l) -> NoDup (map key (map f l)).
Proof. intros Hf. by rewrite map_map, (map_ext _ _ Hf). Qed.

Lemma Forall_snoc_intro {A} (P : A -> Prop) l x : Forall P l -> P x -> Forall P (l ++ [x]).
Proof. intros Hl Hx. apply Forall_app. by repeat constructor. Qed.

Lemma change_constraints t db db' : change t db db' -> constraints db -> constraints db'.
Proof.
  intros Hc []. destruct Hc as [| |f Hf| | | |f Hf Ho| | |]; constructor; simpl;
    try done; try (by apply Forall_snoc_intro); try (by apply NoDup_map_snoc).
  - apply Forall_map. eapply Forall_impl; [eassumption|]. intros p Hp. unfold compose, page_typed.
    destruct (Hf p) as (_ & E & _). unfold page_unique in E. injection E as E1 E2 E3 E4. by rewrite E4.
  - apply NoDup_map_in_place; [|done]. intros p. destruct (Hf p) as (_ & E & _). unfold page_unique in *. congruence.
  - apply Forall_forall. intros x (r & -> & Hr)%list_elem_of_fmap.
    destruct (Ho r Hr) as (y & Hy & E). unfold rule_typed, rule_check. rewrite E.
    by apply (proj1 (Forall_forall rule_typed (rules db))).
Qed.

Lemma writes_constraints t db db' : writes t db db' -> constraints db -> constraints db'.
Proof. induction 1 as [|a b c Hc _ IH]; [done|]. intros H. by eapply IH, change_constraints. Qed.

(** *** The other tenants' rows stay *)
Section Rows.
Context {A : Type} (tenant_of : A -> Uuid) (t : Uuid).

Definition elsewhere (l : list A) : list A :=
  List.filter (fun x => negb (bool_decide (tenant_of x = t))) l.

Lemma elsewhere_snoc l x : tenant_of x = t -> elsewhere (l ++ [x]) = elsewhere l.
Proof.
  intros Hx. unfold elsewhere. rewrite List.filter_app, (filter_none _ [x]), app_nil_r; [done|].
  intros y ->%list_elem_of_singleton. by rewrite bool_decide_eq_true_2.
Qed.

Lemma elsewhere_in_place {B} (fixed : A -> B) f l :
  in_place tenant_of fixed t f -> elsewhere (map f l) = elsewhere l.
Proof.
  intros Hf. unfold elsewhere. rewrite filter_map_preserve
    by (intros x; by destruct (Hf x) as (-> & _)).
  apply map_id_elem. intros x [_ Hx]%elem_of_filter_bool. bool_prop. by apply Hf.
Qed.
End Rows.

Record same_elsewhere (t : Uuid) (db db' : Database) : Prop := {
  el_sources : elsewhere so_tenant_id t (sources db') = elsewhere so_tenant_id t (sources db);
  el_pages : elsewhere pg_tenant_id t (pages db') = elsewhere pg_tenant_id t (pages db);
  el_page_revisions :
    elsewhere pv_tenant_id t (page_revisions db') = elsewhere pv_tenant_id t (page_revisions db);
  el_embeddings : elsewhere em_tenant_id t (embeddings db') = elsewhere em_tenant_id t (embeddings db);
  el_rules : elsewhere ru_tenant_id t (rules db') = elsewhere ru_tenant_id t (rules db);
  el_rule_revisions :
    elsewhere rr_tenant_id t (rule_revisions db') = elsewhere rr_tenant_id t (rule_revisions db);
  el_rule_embeddings :
    elsewhere re_tenant_id t (rule_embeddings db') = elsewhere re_tenant_id t (rule_embeddings db);
  el_candidates : elsewhere mc_tenant_id t (candidates db') = elsewhere mc_tenant_id t (candidates db)
}.

#[export] Instance same_elsewhere_preorder t : PreOrder (same_elsewhere t).
Proof.
  split; [by constructor|]. intros a b c [] []. constructor; etrans; eauto.
Qed.

Lemma change_elsewhere t db db' : change t db db' -> same_elsewhere t db db'.
Proof.
  intros []; constructor; simpl; try done; try (by apply elsewhere_snoc); by eapply elsewhere_in_place.
Qed.

Lemma writes_elsewhere t db db' : writes t db db' -> same_elsewhere t db db'.
Proof. induction 1 as [|a b c Hc _ IH]; [done|]. etrans; [by apply change_elsewhere | exact IH]. Qed.
