(* ===== verification/Isolation.v ===== *)
(** * What a store operation may change

    A store operation is [confined t] when every run of it, failing ones
    included, [writes t]: it adds rows of tenant [t] that satisfy the
    declared constraints, updates some of them, and leaves every other
    tenant's as they are ([Changes]).  The property is closed under the monad,
    so each operation inherits it from its statements. *)

From stdpp Require Import strings relations.
From S2P Require Import Prelude Ordered RustStr Floats Externals HttpError.
From S2P Require Import Alerts Database AlertStore ReverseMatch Store Changes.

(** ** Rows entering the tables *)
Lemma unique_free {A B} (key : A -> B) (same : A -> A -> bool) row l :
  (forall x, key x = key row -> same row x = true) -> existsb (same row) l = false ->
  key row ∉ map key l.
Proof.
  intros Hs. rewrite existsb_false_Forall, Forall_forall. intros Hl (x & E & Hx)%list_elem_of_fmap.
  specialize (Hl x Hx). simpl in Hl. by rewrite Hs in Hl.
Qed.

(** A row whose key no row has: equal keys would be the same by [same]. *)
Ltac free_key same key :=
  eapply (unique_free _ same); [|eassumption]; intros ? E; unfold same; unfold key in E;
  injection E; intros; rewrite ?andb_true_iff, ?bool_decide_eq_true; repeat split; congruence.

(** The checks an insert has passed. *)
Ltac checked := split; solve [assumption | by apply negb_false_iff].

(** A statement tests the texts of its rows, in an order of its own. *)
Lemma texts_ok_subset l k : texts_ok l = true -> k ⊆ l -> texts_ok k = true.
Proof.
  unfold texts_ok. rewrite !forallb_forall. intros Hl Hk x Hx%list_elem_of_In.
  by apply Hl, list_elem_of_In, Hk.
Qed.

Lemma default_nullif_empty title : default [] (nullif_empty title) = title.
Proof. by destruct title. Qed.

Ltac some_texts H :=
  eapply texts_ok_subset; [exact H|];
  cbn [pv_original_url pv_final_url pv_title pv_content_text pv_content_sha256 pv_content_type
       em_model em_model_version re_model re_model_version ingest_revision_row ingest_embedding_row upsert_row];
  rewrite ?default_nullif_empty; intros ?; rewrite !elem_of_cons; tauto.

Section Inserts.
Context `{Deployment}.
Context (t : Uuid).

Lemma insert_rule_writes s db row db' :
  insert_rule s db row = Ok db' -> ru_tenant_id row = t -> writes t db db'.
Proof. unfold insert_rule. intros Hi Ht. inv_ok. apply writes_once, AddRule; [done | checked]. Qed.

Lemma insert_rule_revision_writes s db row db' :
  insert_rule_revision s db row = Ok db' -> rr_tenant_id row = t -> writes t db db'.
Proof.
  unfold insert_rule_revision. intros Hi Ht. inv_ok. apply writes_once, AddRuleRevision; [done|checked|].
  eapply (unique_free _ (fun row v => bool_decide (rr_id v = rr_id row) ||
           (bool_decide (rr_tenant_id v = rr_tenant_id row) &&
            bool_decide (rr_alert_rule_id v = rr_alert_rule_id row) &&
            bool_decide (rr_revision_number v = rr_revision_number row)))); [|eassumption].
  intros x E. unfold rule_revision_unique in E. injection E as E1 E2 E3.
  apply orb_true_iff. right. by rewrite E1, E2, E3, !bool_decide_eq_true_2.
Qed.

Lemma update_active_revision_writes s db now id revision n db' :
  update_active_revision s db now t id revision = Ok (n, db') -> writes t db db'.
Proof.
  unfold update_active_revision.
  destruct (List.filter _ _) as [|r l] eqn:El; intros Hi; [by injection Hi as _ <-|].
  assert (r ∈ r :: l) as Hr by left. rewrite <-El in Hr.
  apply elem_of_filter_bool in Hr as [Hr Hp]. bool_prop. inv_ok.
  unfold visible_rules in Hr. apply elem_of_filter_bool in Hr as [Hr _].
  apply writes_once, UpdateRules.
  - intros x. destruct (decide _) as [[Hx Ht]|]; simpl; [|done]. split; [congruence|].
    split; [congruence | done].
  - intros x Hx. destruct (decide _); simpl; [by exists r | by exists x].
Qed.

(** The inserts that may meet a conflict. *)
Lemma insert_rule_embedding_writes s db row b db' :
  insert_rule_embedding s db row = Ok (b, db') -> re_tenant_id row = t ->
  texts_ok [re_model row; re_model_version row] = true -> writes t db db'.
Proof.
  unfold insert_rule_embedding. intros Hi Ht Hx. inv_ok.
  destruct (existsb (same_rule_embedding_key row) _) eqn:Ek; inv_ok; [done|].
  apply writes_once, AddRuleEmbedding; [done|checked|]. free_key same_rule_embedding_key rule_embedding_unique.
Qed.

Lemma insert_page_revision_writes db row b db' :
  insert_page_revision db row = Ok (b, db') -> pv_tenant_id row = t ->
  texts_ok [pv_original_url row; pv_final_url row; default [] (pv_title row); pv_content_text row;
            pv_content_sha256 row; pv_content_type row] = true -> writes t db db'.
Proof.
  unfold insert_page_revision. intros Hi Ht Hx. inv_ok.
  destruct (existsb (same_page_revision_key row) _) eqn:Ek; inv_ok; [done|].
  apply writes_once, AddPageRevision; [done|checked|]. free_key same_page_revision_key page_revision_unique.
Qed.

Lemma insert_embedding_writes db row b db' :
  insert_embedding db row = Ok (b, db') -> em_tenant_id row = t ->
  texts_ok [em_model row; em_model_version row] = true -> writes t db db'.
Proof.
  unfold insert_embedding. intros Hi Ht Hx. inv_ok.
  destruct (existsb (same_embedding_key row) _) eqn:Ek; inv_ok; [done|].
  apply writes_once, AddEmbedding; [done|checked|]. free_key same_embedding_key embedding_unique.
Qed.

Lemma insert_source_writes db row b db' :
  insert_source db row = Ok (b, db') -> so_tenant_id row = t -> writes t db db'.
Proof.
  unfold insert_source. intros Hi Ht. inv_ok.
  destruct (existsb (same_source_key row) _) eqn:Ek; inv_ok; [done|].
  apply writes_once, AddSource; [done|checked|]. free_key same_source_key source_unique.
Qed.

Lemma insert_candidate_writes db row b db' :
  insert_candidate db row = Ok (b, db') -> mc_tenant_id row = t ->
  texts_ok (mc_canonical_match_key row :: evidence_texts (mc_score_explanation row)) = true ->
  writes t db db'.
Proof.
  unfold insert_candidate. intros Hi Ht Hx. inv_ok.
  destruct (existsb (same_candidate_key row) _) eqn:Ek; inv_ok; [done|].
  apply writes_once, AddCandidate; [done|checked|]. free_key same_candidate_key match_key_of.
Qed.
End Inserts.

(** ** Statements and the store monad *)
Definition stmt_confined {A} (t : Uuid) (s : Stmt A) : Prop :=
  forall now settings db draws a db' draws',
    s now settings db draws = Ok (a, db', draws') -> writes t db db'.

Definition confined {A} (t : Uuid) (m : M A) : Prop :=
  forall w, writes t (w_db w) (w_db (m w).2).

Section Closure.
Context `{Deployment}.
Context (t : Uuid).

Lemma confined_ret {A} (a : A) : confined t (mret a).
Proof. intros w. reflexivity. Qed.

Lemma confined_lift {A} (r : result HttpError A) : confined t (lift r).
Proof. intros w. reflexivity. Qed.

Lemma confined_bind {A B} (f : A -> M B) (m : M A) :
  confined t m -> (forall a, confined t (f a)) -> confined t (mbind f m).
Proof.
  intros Hm Hf w. specialize (Hm w). rewrite M_bind_run.
  destruct (m w) as [[a|e] w1]; simpl in *; [|done]. etrans; [exact Hm | apply Hf].
Qed.

Lemma confined_execute {A} (s : Stmt A) : stmt_confined t s -> confined t (execute s).
Proof.
  intros Hs w. unfold execute.
  destruct (s _ _ _ _) as [[[a db] draws]|e] eqn:E; [by eapply Hs | reflexivity].
Qed.

Lemma confined_transaction {A} (m : M A) : confined t m -> confined t (with_transaction m).
Proof.
  intros Hm w. unfold with_transaction.
  set (w1 := {| w_db := w_db w; w_draws := _; w_ticks := _; w_now := _; w_settings := _ |}).
  specialize (Hm w1). destruct (m w1) as [[a|e] w2]; [exact Hm | reflexivity].
Qed.

Lemma confined_autocommit {A} (s : Stmt A) : stmt_confined t s -> confined t (autocommit s).
Proof. intros Hs. by apply confined_transaction, confined_execute. Qed.

Lemma confined_new_v4 : confined t new_v4.
Proof. intros w. reflexivity. Qed.

Lemma confined_utc_now : confined t utc_now.
Proof. intros w. reflexivity. Qed.

Lemma confined_set_request_context tenant subject admin :
  confined t (set_request_context tenant subject admin).
Proof. intros w. unfold set_request_context. by destruct (negb (text_ok subject)). Qed.

Lemma confined_require_one n message : confined t (require_one n message).
Proof. intros w. unfold require_one. by destruct (n =? 1)%nat. Qed.

(** A statement that only reads. *)
Lemma stmt_confined_read {A} (s : Stmt A) :
  (forall now settings db draws a db' draws',
     s now settings db draws = Ok (a, db', draws') -> db' = db) -> stmt_confined t s.
Proof. intros Hs now settings db draws a db' draws' E. by rewrite (Hs _ _ _ _ _ _ _ E). Qed.
End Closure.

Create HintDb confined.
#[export] Hint Resolve confined_ret confined_lift confined_bind confined_execute confined_transaction
  confined_autocommit confined_new_v4 confined_utc_now confined_set_request_context
  confined_require_one : confined.

(** Walks an operation: binds, branches and calls of the hint database. *)
Ltac confine :=
  repeat match goal with
  | |- forall _ : ?A, confined _ _ => intro
  | |- confined _ (mbind _ _) => apply confined_bind
  | |- confined _ (with_transaction _) => apply confined_transaction
  | |- confined _ (let '(_, _) := ?p in _) => destruct p
  | |- confined _ (if ?b then _ else _) => destruct b
  | |- confined _ (match ?x with _ => _ end) => destruct x
  | |- confined _ _ => solve [eauto with confined nocore]
  end.

(** A statement that returns the database it was given. *)
Ltac read_only :=
  apply stmt_confined_read; intros ???????; cbv beta zeta; intros; inv_ok; congruence.

(** ** The operations *)
Section Operations.
Context `{UuidLib, DigestLib, InterfacesLib, PgLib, Deployment, RowDecoders}.
Context (t : Uuid).

(** *** Alert rules *)
Lemma list_alert_rules_confined subject admin : confined t (list_alert_rules t subject admin).
Proof. unfold list_alert_rules. confine. apply confined_execute. unfold list_statement. read_only. Qed.

Lemma get_alert_rule_confined id subject admin : confined t (get_alert_rule t id subject admin).
Proof. unfold get_alert_rule. confine. apply confined_execute. unfold get_statement. read_only. Qed.
#[local] Hint Resolve get_alert_rule_confined : confined.

Lemma require_alert_rule_confined id subject admin : confined t (require_alert_rule t id subject admin).
Proof. unfold require_alert_rule. confine. Qed.

Lemma create_alert_rule_confined subject input : confined t (create_alert_rule t subject input).
Proof.
  unfold create_alert_rule. apply confined_bind; [confine|]. intros rule_id.
  apply confined_bind; [confine|]. intros revision_id. apply confined_bind; [|confine].
  apply confined_transaction. confine; apply confined_execute; intros now s db draws n db' draws' E.
  - apply bind_ok in E as (db1 & E & [= _ <- _]). by eapply insert_rule_writes.
  - apply bind_ok in E as (db1 & E & [= _ <- _]). by eapply insert_rule_revision_writes.
  - apply bind_ok in E as ([k db1] & E & [= _ <- _]).
    by eapply update_active_revision_writes.
  - unfold created_statement in E. by injection E as _ <- _.
Qed.
#[local] Hint Resolve list_alert_rules_confined require_alert_rule_confined create_alert_rule_confined
  : confined.

(** *** Sources and search *)
Lemma list_sources_confined : confined t (Store.list_sources t).
Proof.
  unfold Store.list_sources. confine. apply confined_autocommit. unfold list_sources_statement. read_only.
Qed.

Lemma get_source_confined id : confined t (Store.get_source t id).
Proof.
  unfold Store.get_source. confine. apply confined_autocommit. unfold get_source_statement. read_only.
Qed.

Lemma create_source_confined input root : confined t (Store.create_source t input root).
Proof.
  unfold Store.create_source. confine. apply confined_autocommit. intros now s db draws a db' draws' E.
  apply bind_ok in E as ([b db1] & E & [= _ <- _]). by eapply insert_source_writes.
Qed.

Lemma search_embeddings_confined request : confined t (Store.search_embeddings t request).
Proof.
  unfold Store.search_embeddings. confine. apply confined_autocommit. unfold search_statement. read_only.
Qed.

(** *** Historical matching *)
Lemma persist_match_confined rule_id revision_id threshold record :
  confined t (persist_match t rule_id revision_id threshold record).
Proof.
  unfold persist_match. confine. apply confined_autocommit. intros now s db draws a db' draws' E.
  unfold match_statement, match_statement_at in E. cbv zeta in E. apply reject_ok in E as [Hx%negb_false_iff E].
  apply bind_ok in E as ([b db1] & E & [= _ <- _]). by eapply insert_candidate_writes.
Qed.

Lemma persist_matches_confined rule_id revision_id threshold records :
  confined t (persist_matches t rule_id revision_id threshold records).
Proof.
  induction records as [|record records IH]; simpl; confine. apply persist_match_confined.
Qed.

Lemma evaluate_matches_confined rule_id revision_id threshold search :
  confined t (Store.evaluate_matches t rule_id revision_id threshold search).
Proof.
  unfold Store.evaluate_matches. cbv zeta. apply confined_bind; [apply search_embeddings_confined|].
  intros page. apply persist_matches_confined.
Qed.

(** *** Pages *)
Lemma upsert_page_writes source url id fetched_at now db page_id latest db' :
  upsert_page t source url id fetched_at now db = Ok (page_id, latest, db') ->
  text_ok url = true -> writes t db db'.
Proof.
  unfold upsert_page. destruct (List.filter _ _) as [|p l] eqn:El; intros E Hu; inv_ok.
  - apply writes_once, AddPage; [done|done|]. intros (x & Ex & Hx)%list_elem_of_fmap.
    unfold page_unique in Ex. simpl in Ex. injection Ex as E1 E2 E3.
    assert (x ∈ List.filter (same_page t source url) (pages db)) as Hin; [|by rewrite El in Hin; apply elem_of_nil in Hin].
    apply elem_of_filter_bool. split; [done|]. unfold same_page.
    by rewrite <-E1, <-E2, <-E3, !bool_decide_eq_true_2.
  - apply writes_once, UpdatePages. intros x. destruct (same_page _ _ _ x) eqn:Ex; [|done].
    split; [done|]. split; [done|]. unfold same_page in Ex. bool_prop. congruence.
Qed.

Lemma update_latest_writes (p : PageRow -> bool) revision_id fetched_at now db :
  (forall x, p x = true -> pg_tenant_id x = t) ->
  writes t db (set_pages (map (fun x => if p x then with_latest revision_id fetched_at now x else x)) db).
Proof.
  intros Hp. apply writes_once, UpdatePages. intros x. destruct (p x) eqn:Ex; [|done].
  split; [done|]. split; [done|]. intros Hx. destruct Hx. by apply Hp.
Qed.

Lemma page_statement_confined source request original final content sha :
  stmt_confined t (page_statement t source request original final content sha).
Proof.
  intros now s db draws a db' draws' E. unfold page_statement, page_statement_at in E. cbv zeta in E.
  apply reject_ok in E as [Hx%negb_false_iff E]. apply bind_ok in E as ([[page_id latest] db1] & E1 & E).
  apply bind_ok in E as ([b db2] & E2 & [= _ <- _]). etrans.
  - eapply upsert_page_writes; [exact E1|]. by apply andb_true_iff in Hx as [? _].
  - eapply insert_page_revision_writes; [exact E2 | done | some_texts Hx].
Qed.

Lemma latest_revision_statement_confined page_id revision_id fetched_at :
  stmt_confined t (latest_revision_statement t page_id revision_id fetched_at).
Proof.
  intros now s db draws a db' draws' E. unfold latest_revision_statement in E. inv_ok.
  apply update_latest_writes. intros x Hx. by bool_prop.
Qed.

Lemma ingest_revision_writes snapshot db page_id row sha revision db' :
  ingest_revision snapshot db t page_id row sha = Ok (revision, db') ->
  (forall latest, pv_tenant_id (row latest) = t /\
     texts_ok [pv_original_url (row latest); pv_final_url (row latest); default [] (pv_title (row latest));
       pv_content_text (row latest); pv_content_sha256 (row latest); pv_content_type (row latest)] = true) ->
  writes t db db'.
Proof.
  unfold ingest_revision. destruct (List.filter _ (pages snapshot)) as [|p l]; intros E Hrow.
  - by injection E as _ <-.
  - cbv zeta in E. apply bind_ok in E as ([b db1] & E & [= _ <-]).
    by eapply insert_page_revision_writes; [exact E | apply Hrow..].
Qed.

Lemma ingest_statement_confined source input original final content sha :
  stmt_confined t (ingest_statement t source input original final content sha).
Proof.
  intros now s db draws a db' draws' E. unfold ingest_statement in E. cbv zeta in E.
  apply reject_ok in E as [Hx%negb_false_iff E]. apply bind_ok in E as (vector & _ & E).
  apply bind_ok in E as ([[page_id latest] db1] & E1 & E).
  apply bind_ok in E as ([revision db2] & E2 & E).
  etrans; [eapply upsert_page_writes; [exact E1 | by apply andb_true_iff in Hx as [? _]]|].
  etrans; [eapply ingest_revision_writes; [exact E2|]; intros l; split; [done | some_texts Hx]|].
  destruct revision as [[revision_id changed]|]; [|by injection E as _ <- _].
  apply bind_ok in E as ([embedding db3] & E3 & E).
  apply bind_ok in E3 as ([b db4] & E3 & [= _ ->]).
  injection E as _ <- _.
  etrans; [eapply (insert_embedding_writes t); [exact E3 | done | some_texts Hx]|].
  apply update_latest_writes. intros x Ex. bool_prop.
  by rewrite update_visible_modified in Ex; apply elem_of_nil in Ex.
Qed.

Lemma ingest_page_confined source input original final :
  confined t (Store.ingest_page t source input original final).
Proof.
  unfold Store.ingest_page. cbv zeta. confine. apply confined_autocommit, ingest_statement_confined.
Qed.

(** *** Reverse matching *)
Lemma upsert_alert_rule_embedding_confined rule_id request :
  confined t (upsert_alert_rule_embedding t rule_id request).
Proof.
  unfold upsert_alert_rule_embedding. cbv zeta. confine. apply confined_autocommit.
  intros now s db draws a' db' draws' E. unfold upsert_statement, upsert_statement_at in E. cbv zeta in E.
  apply reject_ok in E as [Hx%negb_false_iff E]. apply bind_ok in E as (vector & _ & E).
  destruct (upsert_target _ _ _ _ _ _) as [|[rule revision] l]; [by injection E as _ <- _|].
  apply bind_ok in E as ([b db1] & E1 & E). etrans; [by eapply (insert_rule_embedding_writes t)|].
  destruct b; by injection E as _ <- _.
Qed.

Lemma upsert_page_revision_confined source request original final :
  confined t (upsert_page_revision t source request original final).
Proof.
  unfold upsert_page_revision. cbv zeta. confine; apply confined_execute.
  - apply page_statement_confined.
  - apply latest_revision_statement_confined.
Qed.

Lemma persist_reverse_candidate_confined revision sha request vector_sha candidate key explanation :
  confined t (persist_reverse_candidate t revision sha request vector_sha candidate key explanation).
Proof.
  unfold persist_reverse_candidate. confine. apply confined_execute.
  intros now s db draws a db' draws' E. unfold persist_statement, persist_statement_at in E. cbv zeta in E.
  apply reject_ok in E as [Hx%negb_false_iff E]. apply bind_ok in E as ([b db1] & E & [= _ <- _]).
  eapply insert_candidate_writes; [exact E | done|]. eapply texts_ok_subset; [exact Hx|].
  intros x. rewrite !elem_of_app, !elem_of_cons. tauto.
Qed.

Lemma persist_candidates_confined page request url vector_sha rows :
  confined t (persist_candidates t page request url vector_sha rows).
Proof.
  induction rows as [|row rows IH]; simpl; confine; auto. apply persist_reverse_candidate_confined.
Qed.

Lemma ingest_and_reverse_match_confined source request original final :
  confined t (ingest_and_reverse_match t source request original final).
Proof.
  unfold ingest_and_reverse_match. cbv zeta. confine.
  - apply upsert_page_revision_confined.
  - unfold find_alert_candidates. confine. apply confined_execute. unfold candidate_statement. read_only.
  - apply persist_candidates_confined.
Qed.
End Operations.

#[export] Hint Resolve list_alert_rules_confined get_alert_rule_confined require_alert_rule_confined
  create_alert_rule_confined list_sources_confined get_source_confined create_source_confined
  search_embeddings_confined evaluate_matches_confined ingest_page_confined
  upsert_alert_rule_embedding_confined ingest_and_reverse_match_confined : confined.
