(* ===== verification/ServerSpec.v ===== *)
(** * Properties of the server

    What the whole of a request may do ([handle] and the tenant it acts for),
    what a started server is configured with, and what a WebSocket subscriber
    is sent. *)

From stdpp Require Import strings.
From S2P Require Import Prelude Ordered RustStr Floats Externals Samples HttpError.
From S2P Require Import SourceScope Alerts Indexing Auth AuthSpec WorkerAuth Database Catalog Migrations.
From S2P Require Import AlertStore ReverseMatch ReverseMatchSpec Store StoreSpec Server Connection Routes Changes Isolation.

(** ** Requests act for one tenant *)
Section Requests.
Context `{UuidLib, DigestLib, InterfacesLib, PgLib, Deployment, RowDecoders, UrlLib,
  HeaderLib, JsonLib, Base64Lib, HmacLib}.

(** The rows of the other tenants are kept, the tenant's are written under
    the tables' constraints, and every event broadcast is the tenant's,
    within and without. *)
Record acts_for (t : Uuid) (s s' : ServerWorld) : Prop := {
  af_writes : writes t (w_db (sv_world s)) (w_db (sv_world s'));
  af_tables : same_elsewhere t (w_db (sv_world s)) (w_db (sv_world s'));
  af_events : exists events, sv_events s' = sv_events s ++ events /\
    Forall (fun e => te_tenant_id e = t /\ ev_tenant_id (te_payload e) = t) events
}.

#[local] Instance acts_for_preorder t : PreOrder (acts_for t).
Proof.
  split.
  - intros s. constructor; [done..|]. exists []. by rewrite app_nil_r.
  - intros a b c [W1 T1 (k1 & E1 & F1)] [W2 T2 (k2 & E2 & F2)]. constructor; [by etrans | by etrans|].
    exists (k1 ++ k2). by rewrite E2, E1, app_assoc, Forall_app.
Qed.

Definition within {A} (t : Uuid) (h : Handler A) : Prop := forall s, acts_for t s (h s).2.

Lemma handler_bind_run {A B} (f : A -> Handler B) (h : Handler A) s :
  mbind f h s = match h s with (Ok a, s') => f a s' | (Err e, s') => (Err e, s') end.
Proof. done. Qed.

Lemma check_bind_run {A B} (r : result HttpError A) (f : A -> Handler B) s :
  mbind f (check r) s = match r with Ok a => f a s | Err e => (Err e, s) end.
Proof. by destruct r. Qed.

Section Within.
Context (t : Uuid).

Lemma within_ret {A} (a : A) : within t (mret a).
Proof. intros s. reflexivity. Qed.

Lemma within_check {A} (r : result HttpError A) : within t (check r).
Proof. intros s. reflexivity. Qed.

Lemma within_bind {A B} (f : A -> Handler B) (h : Handler A) :
  within t h -> (forall a, within t (f a)) -> within t (mbind f h).
Proof.
  intros Hh Hf s. specialize (Hh s). rewrite handler_bind_run.
  destruct (h s) as [[a|e] s1]; simpl in *; [|done]. etrans; [exact Hh | apply Hf].
Qed.

Lemma within_store_call {A} (m : M A) : confined t m -> within t (store_call m).
Proof.
  intros Hm s. unfold store_call. specialize (Hm (sv_world s)).
  destruct (m (sv_world s)) as [r w].
  constructor; [done | by apply writes_elsewhere|]. exists []. by rewrite app_nil_r.
Qed.

Lemma within_publish_event audience event_type data :
  within t (publish_event t audience event_type data).
Proof.
  unfold publish_event. apply within_bind.
  - apply within_store_call, confined_utc_now.
  - intros occurred_at s. constructor; [done..|]. eexists. split; [done|]. by repeat constructor.
Qed.

Lemma within_publish_matches owner l : within t (publish_matches t owner l).
Proof.
  induction l as [|m l IH]; simpl; [apply within_ret|].
  apply within_bind; [apply within_publish_event | done].
Qed.
End Within.

#[local] Hint Resolve within_ret within_check within_publish_event within_publish_matches : confined.

Ltac within_steps :=
  repeat match goal with
  | |- forall _ : ?A, within _ _ => intro
  | |- within _ (mbind _ _) => apply within_bind
  | |- within _ (store_call _) => apply within_store_call; eauto with confined nocore
  | |- within _ (let '(_, _) := ?p in _) => destruct p
  | |- within _ _ => solve [eauto with confined nocore]
  end.

Context (env : Env) (state : AppState) (headers : HeaderMap) (unix_now : Z).

Lemma within_database t : within t (database state).
Proof. apply within_check. Qed.

Lemma within_admitted_urls t source_id url final_url : within t (admitted_urls t source_id url final_url).
Proof. unfold admitted_urls. within_steps. Qed.
#[local] Hint Resolve within_database within_admitted_urls : confined.

(** Without a usable database nothing is done. *)
Lemma database_down {A} (f : unit -> Handler A) s :
  require_database state <> Ok tt -> mbind f (database state) s = (Err Http.database_required, s).
Proof.
  unfold database. rewrite check_bind_run. unfold require_database.
  destruct (negb (as_schema_ready state)); [done|]. by destruct (as_db state).
Qed.

(** The tenant a request acts for: a crawler's route takes it from the
    tenant header once the token is accepted, the others from the verified
    identity. *)
Definition request_tenant (request : Request) : result HttpError Uuid :=
  match request with
  | UpsertAlertEmbedding _ _ | IngestPage _ _ | ReverseMatchPage _ _ =>
      _ ← WorkerAuth.authorize env headers; tenant_id_from_headers headers
  | _ => tenant_id <$> authenticate_at (as_auth state) headers unix_now
  end.

Definition down {A} (h : Handler A) : Prop :=
  require_database state <> Ok tt -> forall s, exists e, h s = (Err e, s).

Lemma down_check {A B} (r : result HttpError A) (f : A -> Handler B) :
  (forall a, down (f a)) -> down (mbind f (check r)).
Proof. intros Hf Hd s. rewrite check_bind_run. destruct r; [by apply Hf | eauto]. Qed.

Lemma down_database {A} (f : unit -> Handler A) : down (mbind f (database state)).
Proof. intros Hd s. rewrite database_down by done. eauto. Qed.

(** Both halves for the part of a handler after its identity is known. *)
Definition safe {A} (t : Uuid) (h : Handler A) : Prop := within t h /\ down h.

Ltac safe_steps :=
  split; [within_steps | repeat (apply down_database || (apply down_check; intro))].

Lemma authenticated_run {A} (f : AuthContext -> Handler A) s r :
  tenant_id <$> authenticate_at (as_auth state) headers unix_now = r ->
  (forall auth, safe (tenant_id auth) (f auth)) ->
  match r with
  | Err e => mbind f (authenticated state headers unix_now) s = (Err e, s)
  | Ok t => acts_for t s (mbind f (authenticated state headers unix_now) s).2 /\
      (require_database state <> Ok tt ->
       exists e, mbind f (authenticated state headers unix_now) s = (Err e, s))
  end.
Proof.
  intros <- Hf. unfold authenticated. rewrite check_bind_run.
  destruct (authenticate_at _ _ _) as [auth|e]; simpl; [|done].
  destruct (Hf auth) as [Hw Hd]. split; [apply Hw|]. intros Hr. by apply Hd.
Qed.

Lemma crawler_run {A} (f : Uuid -> Handler A) s r :
  (_ ← WorkerAuth.authorize env headers; tenant_id_from_headers headers) = r ->
  (forall t, safe t (f t)) ->
  let h := (_ ← check (WorkerAuth.authorize env headers);
            t ← check (tenant_id_from_headers headers); f t) in
  match r with
  | Err e => h s = (Err e, s)
  | Ok t => acts_for t s (h s).2 /\ (require_database state <> Ok tt -> exists e, h s = (Err e, s))
  end.
Proof.
  intros <- Hf h. unfold h. rewrite check_bind_run.
  destruct (WorkerAuth.authorize env headers) as [[]|e]; [|done]. rewrite check_bind_run.
  cbn [mbind result_bind]. destruct (tenant_id_from_headers headers) as [t|e]; [|done].
  destruct (Hf t) as [Hw Hd]. split; [apply Hw|]. intros Hr. by apply Hd.
Qed.

(** The request's tenant is the one its handler acts for. *)
Lemma handle_acts request s :
  request <> GetHealth ->
  match request_tenant request with
  | Err e => handle env state headers unix_now request s = (Err e, s)
  | Ok t =>
      acts_for t s (handle env state headers unix_now request s).2 /\
      (require_database state <> Ok tt ->
       exists e, handle env state headers unix_now request s = (Err e, s))
  end.
Proof.
  intros Hh. destruct request; simpl handle; simpl request_tenant; [done|..]; clear Hh.
  1-2: apply authenticated_run; [done|]; intros auth; safe_steps.
  all: try (apply authenticated_run; [done|]; intros auth; cbv zeta; safe_steps; fail).
  all: try (apply crawler_run; [done|]; intros t; cbv zeta; safe_steps; fail).
Qed.

(** Some tenant's rows are written, or nothing is. *)
Lemma handle_writes request s :
  exists t, writes t (w_db (sv_world s)) (w_db (sv_world (handle env state headers unix_now request s).2)).
Proof.
  assert (request = GetHealth \/ request <> GetHealth) as [->|Hh]
    by (destruct request; auto; right; discriminate).
  - by exists (uuid_from_u128 0).
  - pose proof (handle_acts request s Hh) as Ha. destruct (request_tenant request) as [t|e].
    + exists t. apply (af_writes _ _ _ (proj1 Ha)).
    + rewrite Ha. by exists (uuid_from_u128 0).
Qed.

(** C16: a request acts for one tenant.  Without an identity it gets that
    error and nothing else happens; with one, the rows of every other tenant
    in all eight tables stay as they are, whether it succeeds or fails, its
    own rows are only added, within the tables' constraints, or updated
    under their keys, and every event it broadcasts is the tenant's own, so that no subscriber of
    another tenant sees any.  Without a ready database it fails and touches
    nothing.  The health check touches nothing. *)
Theorem handle_confined request s :
  match request with
  | GetHealth => handle env state headers unix_now request s =
      (Ok (StatusCode.OK, HealthBody (health state)), s)
  | _ =>
      match request_tenant request with
      | Err e => handle env state headers unix_now request s = (Err e, s)
      | Ok t =>
          acts_for t s (handle env state headers unix_now request s).2 /\
          (require_database state <> Ok tt ->
           exists e, handle env state headers unix_now request s = (Err e, s))
      end
  end.
Proof. destruct request; [done | by apply handle_acts..]. Qed.
End Requests.

(** ** WebSocket subscribers *)
Section Subscribers.
Context `{UuidLib, HeaderLib, JsonLib, Base64Lib, HmacLib}.

Lemma ws_upgrade_iff {W : RowDecoders} state headers now (s : ServerWorld) auth :
  (ws_upgrade state headers now s).1 = Ok auth <->
    authenticate_at (as_auth state) headers now = Ok auth /\
    exists origin, get headers ORIGIN = Some origin /\ origin ∈ as_allowed_origins state.
Proof.
  unfold ws_upgrade, authenticated, authorized_origin. rewrite check_bind_run.
  destruct (authenticate_at _ _ _) as [auth'|e]; [|by split; [|intros [? _]]].
  rewrite check_bind_run. unfold authorize_websocket_origin.
  destruct (get headers ORIGIN) as [origin|]; simpl;
    [|split; [discriminate | by intros (_ & ? & [=] & _)]].
  destruct (existsb _ _) eqn:Eo; simpl.
  + apply existsb_true_Exists, Exists_exists in Eo as (o & Ho & Eo). bool_prop. subst o.
    split; [intros [= ->]; eauto | by intros [[= ->] _]].
  + split; [discriminate|]. intros (_ & o & [= ->] & Ho).
    rewrite (existsb_member _ _ o) in Eo; [discriminate | done | by apply bool_decide_eq_true_2].
Qed.

(** C25: a WebSocket is opened exactly for a verified identity from an
    explicitly allowed origin, and changes nothing.  However the turns of its
    two tasks and of [select!] are scheduled, it is then sent the payloads of
    the events it receives that are of its own tenant and addressed to its
    subject, or to anyone when it is an administrator, in order and nothing
    else, all of them until the first send that fails; a lag skips events but
    ends nothing.  Until the client leaves, the channel closes or a send
    fails, both tasks run.  Once one of them has ended, the turns of [select!]
    and of the cancellation it asks for, which take place at most twice in
    whatever follows, stay possible until both have ended, and end both; a
    send task that is not yet cancelled may still finish what it does, and
    sends nothing once it has ended. *)
Theorem websocket_spec {W : RowDecoders} state headers now (s : ServerWorld) auth
    (send_ok : nat -> bool) (schedule : list (Activity Body)) (c : Connection Body) :
  connection_run auth send_ok connected schedule = Some c ->
  ((ws_upgrade state headers now s).1 = Ok auth <->
     authenticate_at (as_auth state) headers now = Ok auth /\
     exists origin, get headers ORIGIN = Some origin /\ origin ∈ as_allowed_origins state) /\
  (ws_upgrade state headers now s).2 = s /\
  (exists k,
     cn_sent c = map te_payload (take k (visible auth (receptions schedule))) /\
     (forall i, i < k -> send_ok i = true) /\
     (k = length (visible auth (receptions schedule)) \/
      k < length (visible auth (receptions schedule)) /\ send_ok k = false)) /\
  (forall event, event ∈ visible auth (receptions schedule) <->
     event ∈ received (receptions schedule) /\ te_tenant_id event = tenant_id auth /\
     (tenant_admin auth = true \/ te_audience event = SubjectOrTenantAdministrators (subject auth))) /\
  (~ client_left schedule -> Closed ∉ receptions schedule -> (forall i, send_ok i = true) ->
     cn_send c = Running /\ cn_receive c = Running) /\
  (client_left schedule -> cn_receive c = Finished) /\
  (cn_send c = Finished \/ cn_receive c = Finished ->
     exists closing c', connection_run auth send_ok c closing = Some c' /\ length closing <= 2 /\
       Forall (fun a => a = SelectTurn \/ a = CancelSend \/ a = CancelReceive) closing /\
       cn_send c' = Finished /\ cn_receive c' = Finished /\ cn_resolved c' = true /\
       cn_sent c' = cn_sent c) /\
  (cn_send c = Finished \/ cn_receive c = Finished -> forall later c',
     connection_run auth send_ok c later = Some c' ->
     (cn_send c' = Finished \/ cn_receive c' = Finished) /\
     length (List.filter closing_turn later) <= 2 /\
     (length (List.filter closing_turn later) = 2 -> cn_send c' = Finished /\ cn_receive c' = Finished)) /\
  (cn_send c = Finished -> forall later c',
     connection_run auth send_ok c later = Some c' -> cn_sent c' = cn_sent c).
Proof.
  intros Hrun. pose proof (connection_scheduled _ _ _ _ Hrun) as Hc.
  split; [|split; [|split; [|split; [|split; [|split; [|split; [|split]]]]]]].
  - apply ws_upgrade_iff.
  - unfold ws_upgrade, authenticated, authorized_origin. rewrite check_bind_run.
    destruct (authenticate_at _ _ _) as [auth'|e]; [|done]. rewrite check_bind_run.
    by destruct (authorize_websocket_origin _ _).
  - rewrite (sd_sent _ _ _ _ Hc). apply (send_task_run auth send_ok 0).
  - intros event. unfold visible. by rewrite elem_of_filter_bool, event_visible_to_iff.
  - intros Hl Hr Hs. pose proof (send_task_goes_on auth send_ok 0 _ Hr Hs) as Hg.
    split; apply dec_stable; intros Hn;
      [apply (sd_send _ _ _ _ Hc) in Hn | apply (sd_receive _ _ _ _ Hc) in Hn]; rewrite Hg in Hn;
      by destruct Hn.
  - apply (sd_client _ _ _ _ Hc).
  - intros Hf. apply (connection_closes auth send_ok schedule); [done|].
    destruct Hf as [Hf|Hf]; [apply (sd_send _ _ _ _ Hc) | apply (sd_receive _ _ _ _ Hc)];
      by rewrite Hf.
  - intros Hf later c' Hr. destruct (ended_run _ _ _ _ _ Hf Hr) as [He Hl]. split; [exact He|].
    by apply closing_turns_end in Hl.
  - intros Hf later c' Hr. apply (finished_silent _ _ _ _ _ Hf Hr).
Qed.
End Subscribers.

(** ** A started server *)
Section Startup.
Context `{UrlLib, HeaderValueLib, DigestLib}.

(** What an allowed origin was configured as. *)
Definition explicit_origin (origin : list N) : Prop :=
  exists raw url, url_parse raw = Ok url /\ header_value_parse (url_origin_ascii url) = Some origin /\
    (url_scheme url = lit "http" \/ url_scheme url = lit "https") /\ url_host url <> None /\
    url_username url = [] /\ url_password url = None /\ url_path url = lit "/" /\
    url_query url = None /\ url_fragment url = None /\ url_origin_ascii url <> lit "null".

Lemma parse_origin_explicit raw origin : parse_origin raw = Ok origin -> explicit_origin origin.
Proof.
  unfold parse_origin. intros Hp. apply bind_ok in Hp as (url & Hu & Hp).
  apply map_err_ok in Hu. repeat apply reject_ok in Hp as [? Hp].
  apply ok_or_ok in Hp. exists raw, url. bool_prop.
  repeat match goal with
  | H : _ ∈ [_; _] |- _ => rewrite !elem_of_cons, elem_of_nil in H
  | H : ~ is_Some _ |- _ => apply eq_None_not_Some in H
  end.
  repeat split; try done; [naive_solver|]. by destruct (url_username url).
Qed.

Lemma parse_origins_explicit raw origins :
  parse_origins raw = Ok origins -> origins <> [] /\ NoDup origins /\ Forall explicit_origin origins.
Proof.
  unfold parse_origins. intros Hp. apply bind_ok in Hp as (l & Hl & Hp). cbv zeta in Hp.
  apply reject_ok in Hp as [Hn [= <-]]. bool_prop.
  split; [by intros E; rewrite E in Hn|].
  split; [apply btree_wf_NoDup, vec_dedup_wf, vec_sort_sorted|].
  apply Forall_forall. intros o Ho. rewrite elem_of_vec_dedup, elem_of_vec_sort in Ho.
  apply mapM_ok_Forall2 in Hl. destruct (Forall2_elem_r _ _ _ _ Hl Ho) as (raw' & _ & Hr).
  by eapply parse_origin_explicit.
Qed.
Lemma configured_origins_ok env environment origins :
  configured_origins env environment = Ok origins ->
  exists raw, parse_origins raw = Ok origins /\ (environment = Production ->
    env (lit "CORS_ALLOWED_ORIGINS") = Some raw /\ trim raw <> []).
Proof.
  unfold configured_origins. cbv zeta. intros Ho. apply bind_ok in Ho as (raw & Hraw & Ho).
  exists raw. split; [done|]. intros ->.
  destruct (env (lit "CORS_ALLOWED_ORIGINS")) as [v|]; [|discriminate]. cbn [mbind option_bind] in Hraw.
  destruct (nonempty (trim v)) eqn:Hn; [|discriminate]. injection Hraw as <-.
  split; [done|]. by destruct (trim v).
Qed.

Lemma insecure_only env production allow auth :
  AuthConfig.from_env env production allow = Ok auth -> is_jwt auth = false ->
  production = false /\ allow = true /\
  forall secret, env (lit "EAL_JWT_HS256_SECRET") = Some secret -> trim secret = [].
Proof.
  intros Hf Hj. unfold is_jwt in Hj.
  destruct (from_env_modes _ _ _ _ Hf) as [(v & Hm & _) | (_ & ? & ? & ?)]; [|done].
  by rewrite Hm in Hj.
Qed.

Lemma startup_policy_ok environment db ready jwt ingest u :
  validate_startup_policy environment db ready jwt ingest = Ok u -> environment = Production ->
  db = true /\ ready = true /\ jwt = true /\ ingest = true.
Proof. intros Hv ->. by destruct db, ready, jwt, ingest. Qed.

(** The outcome of the migrations before [start_with]. *)
Lemma start_split env connect available catalog state catalog' :
  start env connect available catalog = (Ok state, catalog') ->
  exists environment auth db,
    parse_environment (env (lit "APP_ENV")) = Ok environment /\
    AuthConfig.from_env env (bool_decide (environment = Production))
      (env_flag env (lit "ALLOW_INSECURE_TENANT_HEADER")) = Ok auth /\
    start_with env environment auth db catalog' = Ok state /\
    (if env_flag env (lit "MIGRATE_ON_STARTUP")
     then db = true /\ extends catalog catalog' /\ schema_ready catalog' = Ok true
     else catalog' = catalog).
Proof.
  unfold start. cbv zeta. destruct (_ ≫= _) as [[[environment auth] db]|e] eqn:Ec; [|done].
  apply bind_ok in Ec as (e' & He & Ec). apply bind_ok in Ec as (auth' & Ha & Ec).
  apply bind_ok in Ec as (db' & _ & [= -> -> ->]). unfold migrate_on_startup.
  destruct (env_flag env (lit "MIGRATE_ON_STARTUP")).
  - destruct db; [|done]. destruct (migrate_all available catalog) as [[[]|e] c'] eqn:Em; [|done].
    intros [= Hs <-]. exists environment, auth, true. by destruct (migrated _ _ _ _ Em).
  - intros [= Hs <-]. by exists environment, auth, db.
Qed.

(** C24: a server starts only in a safe configuration.  Every allowed origin
    is the origin of a distinct explicit http(s) URL without credentials,
    path, query or fragment, and there is at least one; the schema is ready
    only on a database whose catalogue says so, as it does after migrating on
    startup, and a database without the match table does not start at all;
    plain identity headers are trusted only outside production, on the
    explicit flag and without a JWT secret.  The health check says ready
    exactly when there are a ready database, verified JWTs and a crawler
    digest, and startup warns of a development posture exactly when it is
    not; in production it is, and the origins are the configured ones. *)
Theorem start_safe env connect available catalog state catalog' :
  start env connect available catalog = (Ok state, catalog') ->
  parse_environment (env (lit "APP_ENV")) = Ok (as_environment state) /\
  as_allowed_origins state <> [] /\ NoDup (as_allowed_origins state) /\
  Forall explicit_origin (as_allowed_origins state) /\
  (if as_db state then schema_ready catalog' = Ok (as_schema_ready state)
   else as_schema_ready state = false) /\
  (env_flag env (lit "MIGRATE_ON_STARTUP") = true ->
     as_db state = true /\ as_schema_ready state = true /\ extends catalog catalog') /\
  (is_jwt (as_auth state) = false ->
     as_environment state <> Production /\ env_flag env (lit "ALLOW_INSECURE_TENANT_HEADER") = true /\
     forall secret, env (lit "EAL_JWT_HS256_SECRET") = Some secret -> trim secret = []) /\
  (he_production_ready (health state) = true <->
     as_db state = true /\ as_schema_ready state = true /\ is_jwt (as_auth state) = true /\
     is_configured env = true) /\
  development_posture state = negb (he_production_ready (health state)) /\
  (as_environment state = Production ->
     he_production_ready (health state) = true /\
     exists raw, env (lit "CORS_ALLOWED_ORIGINS") = Some raw /\ trim raw <> [] /\
       parse_origins raw = Ok (as_allowed_origins state)).
Proof.
  intros (e & auth & db & He & Ha & Hs & Hm)%start_split. unfold start_with in Hs. cbv zeta in Hs.
  apply bind_ok in Hs as (ready & Hr & Hs). apply bind_ok in Hs as (? & Hp & Hs).
  apply bind_ok in Hs as (origins & Ho & [= <-]). simpl.
  destruct (configured_origins_ok _ _ _ Ho) as (raw & Hraw & Hprod).
  destruct (parse_origins_explicit _ _ Hraw) as (Hne & Hnd & Hex).
  pose proof (insecure_only _ _ _ _ Ha) as Hj.
  pose proof (startup_policy_ok _ _ _ _ _ _ Hp) as Hpol.
  do 4 (split; [done|]).
  assert (if db then schema_ready catalog' = Ok ready else ready = false) as Hready.
  { destruct db; [by apply map_err_ok in Hr | by injection Hr as <-]. }
  split; [done|]. split.
  { intros Hf. rewrite Hf in Hm. destruct Hm as (-> & He' & Hr'). rewrite Hr' in Hready.
    by injection Hready as <-. }
  split; [intros E; destruct (Hj E) as (Hn & Hf & Hsec); bool_prop; done|].
  unfold health. simpl. rewrite !andb_true_iff.
  split; [by tauto|]. split.
  { unfold development_posture. simpl. by destruct (is_jwt auth), db, ready, (is_configured env). }
  intros E. specialize (Hpol E). destruct (Hprod E). split; [by tauto|]. eauto.
Qed.
End Startup.

(** ** A production start *)
Module StartExample.
Export SampleUrl SampleDigest AuthExample.
#[export] Instance header_value_lib : HeaderValueLib := {| header_value_parse s := Some s |}.

Definition origin_url : sample_url :=
  Build_sample_url (lit "https") [] None (Some (Domain (lit "app.example"))) None (lit "/") None None.
Definition production_env (name : str) : option str :=
  if bool_decide (name = lit "APP_ENV") then Some (lit " Production")
  else if bool_decide (name = lit "DATABASE_URL") then Some (lit "postgres://db")
  else if bool_decide (name = lit "CORS_ALLOWED_ORIGINS") then
    Some (SampleUrl.to_string origin_url ++ lit " , " ++ SampleUrl.to_string origin_url)
  else if bool_decide (name = INGEST_TOKEN_DIGEST_ENV) then WorkerExample.env name
  else AuthExample.env name.
Definition migrating_env (name : str) : option str :=
  if bool_decide (name = lit "MIGRATE_ON_STARTUP") then Some (lit "yes") else production_env name.
Definition launch (env : str -> option str) : result str AppState * Catalog :=
  start env (fun _ => Ok tt) (fun _ => true) empty_catalog.
End StartExample.
Import StartExample.

(** On an empty database production starts if it migrates, and otherwise
    fails in the schema check itself. *)
Example start_unmigrated :
  launch production_env = (Err (lit "verify durable Embedded Alerts schema"), empty_catalog).
Proof. by vm_compute. Qed.

Lemma start_safe_witness :
  exists state catalog, launch migrating_env = (Ok state, catalog) /\
    as_environment state = Production /\ as_schema_ready state = true /\
    he_production_ready (health state) = true.
Proof.
  assert (exists state, (launch migrating_env).1 = Ok state) as (state & E)
    by (eexists; vm_compute; reflexivity).
  exists state, (launch migrating_env).2.
  assert (launch migrating_env = (Ok state, (launch migrating_env).2)) as E'
    by (rewrite <-E; apply surjective_pairing).
  split; [exact E'|].
  unfold launch in E' at 1.
  destruct (start_safe _ _ _ _ _ _ E')
    as (He & _ & _ & _ & _ & Hm & _ & _ & _ & Hp).
  assert (as_environment state = Production) as Hprod.
  { assert (Ok Production = Ok (E := str) (as_environment state)) as [=]; [|done].
    rewrite <-He. vm_compute. reflexivity. }
  split; [exact Hprod|].
  split; [apply Hm; vm_compute; reflexivity | exact (proj1 (Hp Hprod))].
Defined.

(** ** A connection *)
Module ConnectionExample.
Import ReverseExample StoreExample.
Definition origin : list N := lit "https://app.example".
Definition state : AppState := {|
  as_environment := Production; as_db := true; as_schema_ready := true;
  as_ingest_auth_configured := true; as_auth := AuthExample.config; as_allowed_origins := [origin];
  as_supabase_url := None |}.
Definition headers : HeaderMap := {| header_values name :=
  if bool_decide (name = ORIGIN) then [origin]
  else header_values (AuthExample.headers [lit "Bearer " ++ token] []) name |}.
Definition event (tenant : Uuid) (event_type : str) : TenantEvent Body := {|
  te_tenant_id := tenant; te_audience := TenantAdministrators;
  te_payload := {| ev_event_type := event_type; ev_tenant_id := tenant; ev_occurred_at := 0;
                   ev_data := RulesBody [] |} |}.
Definition schedule : list (Activity Body) :=
  [SendTurn (Received (event AuthExample.tenant (lit "a")));
   SendTurn (Received (event (mk_uuid 8 eq_refl) (lit "b")));
   ReceiveTurn (Some (Ok OtherMessage)); SendTurn (Lagged 3); ReceiveTurn (Some (Ok Close));
   SendTurn (Received (event AuthExample.tenant (lit "c"))); SelectTurn].
Definition opened : ServerWorld := {| sv_world := indexed; sv_events := [] |}.
End ConnectionExample.
Import StoreExample ConnectionExample.

(** The client closes while an event is on its way: the event is still sent,
    and the send task is then cancelled. *)
Lemma websocket_spec_witness :
  (ws_upgrade ConnectionExample.state headers 1500 opened).1 = Ok AuthExample.context /\
  exists c closing c',
    connection_run AuthExample.context (fun _ => true) connected schedule = Some c /\
    map ev_event_type (cn_sent c) = [lit "a"; lit "c"] /\ cn_receive c = Finished /\
    cn_send c = Aborted /\
    connection_run AuthExample.context (fun _ => true) c closing = Some c' /\
    cn_send c' = Finished /\ cn_sent c' = cn_sent c.
Proof.
  assert (exists c, connection_run AuthExample.context (fun _ => true) connected schedule = Some c /\
    map ev_event_type (cn_sent c) = [lit "a"; lit "c"] /\ cn_send c = Aborted)
    as (c & Hc & Hsent & Haborted) by (eexists; vm_compute; auto).
  destruct (websocket_spec ConnectionExample.state headers 1500 opened AuthExample.context (fun _ => true)
    schedule c Hc) as (Hu & _ & _ & _ & _ & Hl & Hcl & _).
  assert (cn_receive c = Finished) as Hr.
  { apply Hl. exists (Some (Ok Close)). split; [|reflexivity].
    apply list_elem_of_lookup. exists 4. reflexivity. }
  destruct (Hcl (or_intror Hr)) as (closing & c' & Hc' & _ & _ & Hf & _ & _ & Hs).
  split.
  - apply Hu. split; [vm_compute; reflexivity|]. exists origin.
    split; [vm_compute; reflexivity | apply list_elem_of_singleton; reflexivity].
  - exists c, closing, c'. auto 10.
Defined.
