(* ===== verification/Integrity.v ===== *)
(** * The integrity of the stored data

    Rows refer to rows of their own tenant.  The foreign keys of migration
    002 do not say so, and the page routes look a source up in one statement
    and use it in another, so it is the program that keeps it.  [integrity]
    states it for all tables, with the distinct keys and the alert invariant,
    and a small Hoare logic over the store monad shows that every operation
    preserves it. *)

From stdpp Require Import strings.
From S2P Require Import Prelude Ordered RustStr Floats Externals HttpError.
From S2P Require Import Alerts Database AlertStore AlertStoreSpec ReverseMatch Store StoreSpec Changes.

(** ** Keys *)
Definition source_key (s : SourceRow) : Uuid * Uuid := (so_id s, so_tenant_id s).
Definition page_key (p : PageRow) : Uuid * Uuid := (pg_id p, pg_tenant_id p).
Definition revision_key (v : PageRevisionRow) : Uuid * Uuid * Uuid :=
  (pv_id v, pv_tenant_id v, pv_page_id v).
Definition embedding_key (e : EmbeddingRow) : Uuid * Uuid * Uuid :=
  (em_id e, em_tenant_id e, em_revision_id e).
Definition rule_key (r : RuleRow) : Uuid * Uuid := (ru_id r, ru_tenant_id r).
Definition rule_revision_key (v : RuleRevisionRow) : Uuid * Uuid * Uuid :=
  (rr_id v, rr_tenant_id v, rr_alert_rule_id v).
Definition rule_embedding_key (e : RuleEmbeddingRow) : Uuid * Uuid * Uuid * Uuid :=
  (re_id e, re_tenant_id e, re_alert_rule_id e, re_alert_rule_revision_id e).
Definition candidate_key (c : CandidateRow) : Uuid * Uuid * str :=
  (mc_id c, mc_tenant_id c, mc_canonical_match_key c).

(** The row an identifier names, in a tenant. *)
Definition source_in (db : Database) (t id : Uuid) : Prop := (id, t) ∈ map source_key (sources db).
#[export] Instance source_in_dec db t id : Decision (source_in db t id).
Proof. unfold source_in. apply _. Defined.
Definition page_in (db : Database) (t id : Uuid) : Prop := (id, t) ∈ map page_key (pages db).
Definition revision_of (db : Database) (t page id : Uuid) : Prop :=
  (id, t, page) ∈ map revision_key (page_revisions db).
Definition embedding_of (db : Database) (t revision id : Uuid) : Prop :=
  (id, t, revision) ∈ map embedding_key (embeddings db).
Definition rule_in (db : Database) (t id : Uuid) : Prop := (id, t) ∈ map rule_key (rules db).
Definition rule_revision_of (db : Database) (t rule id : Uuid) : Prop :=
  (id, t, rule) ∈ map rule_revision_key (rule_revisions db).
#[export] Instance rule_revision_of_dec db t rule id : Decision (rule_revision_of db t rule id).
Proof. unfold rule_revision_of. apply _. Defined.
Definition rule_embedding_of (db : Database) (t rule revision id : Uuid) : Prop :=
  (id, t, rule, revision) ∈ map rule_embedding_key (rule_embeddings db).

(** Rows are added and updated, never removed or renamed. *)
Record grows (db db' : Database) : Prop := {
  gr_sources : map source_key (sources db) ⊆ map source_key (sources db');
  gr_pages : map page_key (pages db) ⊆ map page_key (pages db');
  gr_revisions : map revision_key (page_revisions db) ⊆ map revision_key (page_revisions db');
  gr_embeddings : map embedding_key (embeddings db) ⊆ map embedding_key (embeddings db');
  gr_rules : map rule_key (rules db) ⊆ map rule_key (rules db');
  gr_rule_revisions :
    map rule_revision_key (rule_revisions db) ⊆ map rule_revision_key (rule_revisions db');
  gr_rule_embeddings :
    map rule_embedding_key (rule_embeddings db) ⊆ map rule_embedding_key (rule_embeddings db');
  gr_candidates : map candidate_key (candidates db) ⊆ map candidate_key (candidates db')
}.

#[export] Instance grows_preorder : PreOrder grows.
Proof. split; [by constructor | intros a b c [] []; constructor; by etrans]. Qed.

Lemma subset_map_app {A B} (f : A -> B) l k : map f l ⊆ map f (l ++ k).
Proof. rewrite map_app. set_solver. Qed.
#[export] Hint Resolve subset_map_app : eal.

(** ** Rows in order *)
Definition page_ok (db : Database) (p : PageRow) : Prop :=
  source_in db (pg_tenant_id p) (pg_source_id p) /\
  forall r, pg_latest_revision_id p = Some r -> revision_of db (pg_tenant_id p) (pg_id p) r.

Definition revision_ok (db : Database) (v : PageRevisionRow) : Prop :=
  page_in db (pv_tenant_id v) (pv_page_id v) /\
  forall r, pv_predecessor_revision_id v = Some r -> revision_of db (pv_tenant_id v) (pv_page_id v) r.

Definition revision_in (db : Database) (t id : Uuid) : Prop := exists page, revision_of db t page id.

Definition embedding_ok (db : Database) (e : EmbeddingRow) : Prop :=
  revision_in db (em_tenant_id e) (em_revision_id e).

Definition rule_embedding_ok (db : Database) (e : RuleEmbeddingRow) : Prop :=
  rule_in db (re_tenant_id e) (re_alert_rule_id e) /\
  rule_revision_of db (re_tenant_id e) (re_alert_rule_id e) (re_alert_rule_revision_id e).

(** The evidence of a match fits together: the rule revision is the rule's,
    the page's vector is of the page revision, and the rule's vector of the
    rule revision. *)
Definition evidence_ok (db : Database) (c : CandidateRow) : Prop :=
  let t := mc_tenant_id c in
  (exists revision, mc_alert_rule_revision_id c = Some revision /\
     rule_revision_of db t (mc_alert_rule_id c) revision /\
     forall e, mc_alert_embedding_id c = Some e ->
       rule_embedding_of db t (mc_alert_rule_id c) revision e) /\
  revision_in db t (mc_revision_id c) /\
  (forall e, mc_embedding_id c = Some e -> embedding_of db t (mc_revision_id c) e).

Definition candidate_ok (db : Database) (c : CandidateRow) : Prop :=
  rule_in db (mc_tenant_id c) (mc_alert_rule_id c) /\ evidence_ok db c.

Record integrity (db : Database) : Prop := {
  in_alerts : alerts_wf db;
  in_source_ids : NoDup (map so_id (sources db));
  in_page_ids : NoDup (map pg_id (pages db));
  in_revision_ids : NoDup (map pv_id (page_revisions db));
  in_embedding_ids : NoDup (map em_id (embeddings db));
  in_rule_embedding_ids : NoDup (map re_id (rule_embeddings db));
  in_candidate_ids : NoDup (map mc_id (candidates db));
  in_match_keys : NoDup (map match_key_of (candidates db));
  in_pages : Forall (page_ok db) (pages db);
  in_revisions : Forall (revision_ok db) (page_revisions db);
  in_embeddings : Forall (embedding_ok db) (embeddings db);
  in_rule_embeddings : Forall (rule_embedding_ok db) (rule_embeddings db);
  in_candidates : Forall (candidate_ok db) (candidates db)
}.

Lemma integrity_empty : integrity empty_database.
Proof. constructor; try apply alerts_wf_empty; constructor. Qed.

Section Monotone.
Context (db db' : Database) (G : grows db db').

Lemma revision_in_grows t id : revision_in db t id -> revision_in db' t id.
Proof. intros [page Hp]. exists page. by apply (gr_revisions _ _ G). Qed.

Lemma page_ok_grows p : page_ok db p -> page_ok db' p.
Proof.
  intros [Hs Hl]. split; [by apply (gr_sources _ _ G)|]. intros r Hr. by apply (gr_revisions _ _ G), Hl.
Qed.

Lemma revision_ok_grows v : revision_ok db v -> revision_ok db' v.
Proof.
  intros [Hp Hr]. split; [by apply (gr_pages _ _ G)|]. intros r E. by apply (gr_revisions _ _ G), Hr.
Qed.

Lemma embedding_ok_grows e : embedding_ok db e -> embedding_ok db' e.
Proof. apply revision_in_grows. Qed.

Lemma rule_embedding_ok_grows e : rule_embedding_ok db e -> rule_embedding_ok db' e.
Proof. intros [Hr Hv]. split; [by apply (gr_rules _ _ G) | by apply (gr_rule_revisions _ _ G)]. Qed.

Lemma candidate_ok_grows c : candidate_ok db c -> candidate_ok db' c.
Proof.
  intros (Hr & (v & Hv & Hi & Ha) & Hp & He). split; [by apply (gr_rules _ _ G)|].
  split; [exists v; split; [done|]; split; [by apply (gr_rule_revisions _ _ G)|]|].
  - intros e E. by apply (gr_rule_embeddings _ _ G), Ha.
  - split; [by apply revision_in_grows|]. intros e E. by apply (gr_embeddings _ _ G), He.
Qed.
End Monotone.

(** The alert invariant is one of two tables. *)
Lemma alerts_wf_ext db db' :
  rules db' = rules db -> rule_revisions db' = rule_revisions db -> alerts_wf db -> alerts_wf db'.
Proof.
  intros Er Ev W. constructor; rewrite ?Er, ?Ev; try apply W.
  intros tenant owner. unfold owner_active, enabled_rule. rewrite Er, Ev. apply (aw_limit _ W).
Qed.

(** A growing step keeps the integrity if its new rows are in order. *)
Definition newly {A} (ok : A -> Prop) (l l' : list A) : Prop := forall x, x ∈ l' -> x ∈ l \/ ok x.

Lemma newly_same {A} (ok : A -> Prop) l : newly ok l l.
Proof. by left. Qed.

Lemma newly_snoc {A} (ok : A -> Prop) l x : ok x -> newly ok l (l ++ [x]).
Proof. intros Hx y [Hy | ->%list_elem_of_singleton]%elem_of_app; auto. Qed.
#[local] Hint Resolve newly_same newly_snoc : eal.

Lemma newly_Forall {A} (ok ok' : A -> Prop) l l' :
  Forall ok l -> (forall x, ok x -> ok' x) -> newly ok' l l' -> Forall ok' l'.
Proof.
  rewrite !Forall_forall. intros Hl Hi Hn x Hx. destruct (Hn x Hx) as [Hx' | Hok]; auto.
Qed.

Lemma integrity_step db db' :
  integrity db -> grows db db' -> alerts_wf db' ->
  NoDup (map so_id (sources db')) -> NoDup (map pg_id (pages db')) ->
  NoDup (map pv_id (page_revisions db')) -> NoDup (map em_id (embeddings db')) ->
  NoDup (map re_id (rule_embeddings db')) -> NoDup (map mc_id (candidates db')) ->
  NoDup (map match_key_of (candidates db')) ->
  newly (page_ok db') (pages db) (pages db') ->
  newly (revision_ok db') (page_revisions db) (page_revisions db') ->
  newly (embedding_ok db') (embeddings db) (embeddings db') ->
  newly (rule_embedding_ok db') (rule_embeddings db) (rule_embeddings db') ->
  newly (candidate_ok db') (candidates db) (candidates db') -> integrity db'.
Proof.
  intros I G W N1 N2 N3 N4 N5 N6 N7 K1 K2 K3 K4 K5. constructor; try done.
  - eapply newly_Forall; [apply I | | exact K1]. intros. by eapply page_ok_grows.
  - eapply newly_Forall; [apply I | | exact K2]. intros. by eapply revision_ok_grows.
  - eapply newly_Forall; [apply I | | exact K3]. intros. by eapply embedding_ok_grows.
  - eapply newly_Forall; [apply I | | exact K4]. intros. by eapply rule_embedding_ok_grows.
  - eapply newly_Forall; [apply I | | exact K5]. intros. by eapply candidate_ok_grows.
Qed.

(** ** One table changes *)
Section Changes.
Context (db : Database) (I : integrity db).

Definition preserved (db' : Database) : Prop := integrity db' /\ grows db db'.

Lemma preserved_step db' :
  grows db db' -> (grows db db' -> integrity db') -> preserved db'.
Proof. intros G H. split; auto. Qed.

(** One goal per clause; those of the other tables are immediate. *)
Ltac one_change :=
  apply preserved_step;
  [constructor; simpl; auto with eal
  | intros G; apply (integrity_step db); simpl; auto with eal; try apply I;
    try (by apply (alerts_wf_ext db); try apply I);
    try (apply NoDup_map_snoc; split; [apply I | done])].

Lemma add_source row :
  so_id row ∉ map so_id (sources db) -> preserved (set_sources (fun l => l ++ [row]) db).
Proof. intros Hf. one_change. Qed.

Lemma add_page row :
  pg_id row ∉ map pg_id (pages db) -> page_ok db row -> preserved (set_pages (fun l => l ++ [row]) db).
Proof. intros Hf Hok. one_change. Qed.

Lemma update_pages (f : PageRow -> PageRow) :
  (forall p, page_key (f p) = page_key p) -> (forall p, p ∈ pages db -> page_ok db (f p)) ->
  preserved (set_pages (map f) db).
Proof.
  intros Hk Hf. assert (map page_key (map f (pages db)) = map page_key (pages db)) as E.
  { rewrite map_map. apply map_ext. done. }
  assert (map pg_id (map f (pages db)) = map pg_id (pages db)) as E'.
  { rewrite map_map. apply map_ext. intros p. by injection (Hk p). }
  apply preserved_step; [constructor; simpl; auto with eal; by rewrite E|].
  intros G. apply (integrity_step db); simpl; auto with eal; try apply I.
  - by apply (alerts_wf_ext db); try apply I.
  - rewrite E'. apply I.
  - intros p (q & -> & Hq)%list_elem_of_fmap. right. by eapply page_ok_grows, Hf.
Qed.

Lemma add_page_revision row :
  pv_id row ∉ map pv_id (page_revisions db) -> revision_ok db row ->
  preserved (set_page_revisions (fun l => l ++ [row]) db).
Proof. intros Hf Hok. one_change. apply newly_snoc. by eapply revision_ok_grows. Qed.

Lemma add_embedding row :
  em_id row ∉ map em_id (embeddings db) -> embedding_ok db row ->
  preserved (set_embeddings (fun l => l ++ [row]) db).
Proof. intros Hf Hok. one_change. Qed.

Lemma add_rule_embedding row :
  re_id row ∉ map re_id (rule_embeddings db) -> rule_embedding_ok db row ->
  preserved (set_rule_embeddings (fun l => l ++ [row]) db).
Proof. intros Hf Hok. one_change. Qed.

Lemma add_candidate row :
  mc_id row ∉ map mc_id (candidates db) -> match_key_of row ∉ map match_key_of (candidates db) ->
  candidate_ok db row -> preserved (set_candidates (fun l => l ++ [row]) db).
Proof. intros Hf Hm Hok. one_change. Qed.
End Changes.

(** ** A Hoare logic over the store monad

    [triple P m Q]: from tables in order that satisfy [P], [m] leaves tables
    in order that have grown, whatever it answers, and satisfy [Q a] when it
    answers [a]. *)
Definition leads {A} (Q : A -> Database -> Prop) (db : Database) (r : option A) (db' : Database) : Prop :=
  integrity db' /\ grows db db' /\ forall a, r = Some a -> Q a db'.

Lemma leads_none {A} (Q : A -> Database -> Prop) db db' :
  integrity db' -> grows db db' -> leads Q db None db'.
Proof. intros I G. split; [done|]. by split. Qed.

Definition to_option {E A} (r : result E A) : option A := match r with Ok a => Some a | Err _ => None end.

Definition stmt_triple {A} (P : Database -> Prop) (s : Stmt A) (Q : A -> Database -> Prop) : Prop :=
  forall now settings db draws a db' draws', integrity db -> P db ->
    s now settings db draws = Ok (a, db', draws') -> leads Q db (Some a) db'.

(** The same of a statement that began when the tables were [snapshot]. *)
Definition stmt_at_triple {A} (P : Database -> Prop) (s : Database -> Stmt A) (Q : A -> Database -> Prop)
    : Prop :=
  forall snapshot now settings db draws a db' draws',
    integrity snapshot -> integrity db -> grows snapshot db -> P db ->
    s snapshot now settings db draws = Ok (a, db', draws') -> leads Q db (Some a) db'.

Definition triple {A} (P : Database -> Prop) (m : M A) (Q : A -> Database -> Prop) : Prop :=
  forall w, integrity (w_db w) -> P (w_db w) -> leads Q (w_db w) (to_option (m w).1) (w_db (m w).2).

(** An assertion that growing tables keep. *)
Definition stable (F : Database -> Prop) : Prop := forall db db', grows db db' -> F db -> F db'.

Section Rules.
Context `{Deployment}.

Lemma triple_ret {A} (P : Database -> Prop) (a : A) (Q : A -> Database -> Prop) :
  (forall db, P db -> Q a db) -> triple P (mret a) Q.
Proof. intros HQ w I HP. split; [done|]. split; [done|]. intros b [= <-]. by apply HQ. Qed.

Lemma triple_lift {A} (P : Database -> Prop) (r : result HttpError A) (Q : A -> Database -> Prop) :
  (forall a db, r = Ok a -> P db -> Q a db) -> triple P (lift r) Q.
Proof.
  intros HQ w I HP. split; [done|]. split; [done|]. intros a. simpl.
  destruct r; [|done]. intros [= ->]. by apply HQ.
Qed.

Lemma triple_bind {A B} P (m : M A) (f : A -> M B) R Q :
  triple P m R -> (forall a, triple (R a) (f a) Q) -> triple P (mbind f m) Q.
Proof.
  intros Hm Hf w I HP. destruct (Hm w I HP) as (I1 & G1 & HR). rewrite M_bind_run.
  destruct (m w) as [[a|e] w1]; simpl in *; [|by apply leads_none].
  destruct (Hf a w1 I1 (HR a eq_refl)) as (I2 & G2 & HQ). split; [done|]. split; [by etrans | done].
Qed.

Lemma triple_weaken {A} (P P' : Database -> Prop) (m : M A) (Q Q' : A -> Database -> Prop) :
  triple P m Q -> (forall db, P' db -> P db) -> (forall a db, Q a db -> Q' a db) -> triple P' m Q'.
Proof.
  intros Hm HP HQ w I H'. destruct (Hm w I (HP _ H')) as (I1 & G1 & H1).
  split; [done|]. split; [done|]. auto.
Qed.

(** Stable assertions are framed. *)
Lemma triple_frame {A} P (m : M A) Q F :
  stable F -> triple P m Q -> triple (fun db => P db /\ F db) m (fun a db => Q a db /\ F db).
Proof.
  intros HF Hm w I [HP Hw]. destruct (Hm w I HP) as (I1 & G1 & HQ).
  split; [done|]. split; [done|]. intros a E. split; [by apply HQ | by eapply HF].
Qed.

Lemma triple_execute {A} P (s : Stmt A) Q : stmt_triple P s Q -> triple P (execute s) Q.
Proof.
  intros Hs w I HP. unfold execute. destruct (s _ _ _ _) as [[[a db] draws]|e] eqn:E; simpl.
  - by eapply Hs.
  - by apply leads_none.
Qed.

Lemma stmt_at_triple_now {A} P (s : Database -> Stmt A) Q :
  stmt_at_triple P s Q -> stmt_triple P (fun now settings db draws => s db now settings db draws) Q.
Proof. intros Hs now settings db draws a db' draws' I HP E. by eapply Hs. Qed.

Lemma triple_transaction {A} P (m : M A) Q : triple P m Q -> triple P (with_transaction m) Q.
Proof.
  intros Hm w I HP. unfold with_transaction.
  set (w1 := {| w_db := w_db w; w_draws := _; w_ticks := _; w_now := _; w_settings := _ |}).
  specialize (Hm w1 I HP). destruct (m w1) as [[a|e] w2]; simpl in *; [done | by apply leads_none].
Qed.

Lemma triple_autocommit {A} P (s : Stmt A) Q : stmt_triple P s Q -> triple P (autocommit s) Q.
Proof. intros Hs. by apply triple_transaction, triple_execute. Qed.

(** Operations that leave the tables alone. *)
Lemma triple_unchanged {A} (P : Database -> Prop) (m : M A) :
  (forall w, w_db (m w).2 = w_db w) -> triple P m (fun _ => P).
Proof. intros Hm w I HP. rewrite Hm. split; [done|]. by split. Qed.

Lemma stmt_triple_read {A} (P : Database -> Prop) (s : Stmt A) (Q : A -> Database -> Prop) :
  (forall now settings db draws a db' draws', P db ->
     s now settings db draws = Ok (a, db', draws') -> db' = db /\ Q a db) -> stmt_triple P s Q.
Proof.
  intros Hs now settings db draws a db' draws' I HP E. destruct (Hs _ _ _ _ _ _ _ HP E) as [-> HQ].
  split; [done|]. split; [done|]. by intros b [= <-].
Qed.
End Rules.

Lemma stable_source_in t id : stable (fun db => source_in db t id).
Proof. intros db db' G. apply (gr_sources _ _ G). Qed.
Lemma stable_revision_in t id : stable (fun db => revision_in db t id).
Proof. intros db db' G. by apply revision_in_grows. Qed.
Lemma stable_embedding_of t revision id : stable (fun db => embedding_of db t revision id).
Proof. intros db db' G. apply (gr_embeddings _ _ G). Qed.
Lemma stable_rule_revision_of t rule id : stable (fun db => rule_revision_of db t rule id).
Proof. intros db db' G. apply (gr_rule_revisions _ _ G). Qed.
Lemma stable_rule_embedding_of t rule revision id : stable (fun db => rule_embedding_of db t rule revision id).
Proof. intros db db' G. apply (gr_rule_embeddings _ _ G). Qed.
Lemma stable_and F F' : stable F -> stable F' -> stable (fun db => F db /\ F' db).
Proof. intros HF HF' db db' G [? ?]. split; [by eapply HF | by eapply HF']. Qed.
Lemma stable_forall {A} (l : list A) (F : A -> Database -> Prop) :
  (forall a, stable (F a)) -> stable (fun db => Forall (fun a => F a db) l).
Proof. intros HF db db' G Hl. eapply Forall_impl; [exact Hl|]. intros a. by apply HF. Qed.

(** ** Inserts *)
Lemma not_taken {A B} `{EqDecision B} (f : A -> B) l u :
  existsb (fun x => bool_decide (f x = u)) l = false -> u ∉ map f l.
Proof.
  rewrite existsb_false_Forall, Forall_forall. intros Hl (x & -> & Hx)%list_elem_of_fmap.
  specialize (Hl x Hx). simpl in Hl. by bool_prop.
Qed.

Lemma key_elem {A B} (f : A -> B) l x : x ∈ l -> f x ∈ map f l.
Proof. apply list_elem_of_fmap_2. Qed.

Lemma key_snoc {A B} (f : A -> B) l x : f x ∈ map f (l ++ [x]).
Proof. apply key_elem, elem_of_app. right. left. Qed.

Lemma has_rule_in db t id : has_rule db t id = true -> rule_in db t id.
Proof.
  intros (r & Hr & Hp)%existsb_true_Exists%Exists_exists. bool_prop. subst. by apply (key_elem rule_key).
Qed.

Section Inserts.
Context (db : Database) (I : integrity db).

Lemma preserved_refl : preserved db db.
Proof. by split. Qed.

Lemma insert_source_preserved row b db' : insert_source db row = Ok (b, db') -> preserved db db'.
Proof.
  unfold insert_source. intros Hi. inv_ok. destruct (existsb _ _); inv_ok; [by split|].
  apply add_source; [done|]. by apply not_taken.
Qed.

Lemma insert_page_revision_preserved row b db' :
  insert_page_revision db row = Ok (b, db') -> revision_ok db row ->
  preserved db db' /\ pages db' = pages db /\
  (b = true -> revision_of db' (pv_tenant_id row) (pv_page_id row) (pv_id row)).
Proof.
  unfold insert_page_revision. intros Hi Hok. inv_ok. destruct (existsb _ _); inv_ok.
  - by split; [by split|].
  - split; [apply add_page_revision; try done; by apply not_taken|]. split; [done|]. intros _.
    apply (key_snoc revision_key).
Qed.

Lemma insert_embedding_preserved row b db' :
  insert_embedding db row = Ok (b, db') -> embedding_ok db row -> preserved db db'.
Proof.
  unfold insert_embedding. intros Hi Hok. inv_ok. destruct (existsb _ _); inv_ok; [by split|].
  apply add_embedding; try done. by apply not_taken.
Qed.

Lemma insert_rule_embedding_preserved `{Deployment} s row b db' :
  insert_rule_embedding s db row = Ok (b, db') ->
  rule_revision_of db (re_tenant_id row) (re_alert_rule_id row) (re_alert_rule_revision_id row) ->
  preserved db db'.
Proof.
  unfold insert_rule_embedding. intros Hi Hok. inv_ok.
  destruct (existsb _ _); inv_ok; [by split|]. bool_prop.
  apply add_rule_embedding; try done; [by apply not_taken|]. split; [by apply has_rule_in | done].
Qed.

(** Candidates refer to rows by identifier alone; that they fit together is
    the caller's to ensure. *)
Lemma insert_candidate_preserved row b db' :
  insert_candidate db row = Ok (b, db') -> evidence_ok db row -> preserved db db'.
Proof.
  unfold insert_candidate. intros Hi Hev. apply reject_ok in Hi as [Hc Hi].
  destruct (existsb (same_candidate_key row) (candidates db)) eqn:Ek; inv_ok; [by split|].
  bool_prop. apply add_candidate; try done.
  - by apply not_taken.
  - rewrite existsb_false_Forall, Forall_forall in Ek. intros (c & E & Hc')%list_elem_of_fmap.
    specialize (Ek c Hc'). unfold same_candidate_key in Ek. injection E as E1 E2.
    by rewrite !bool_decide_eq_true_2 in Ek by done.
  - split; [by apply has_rule_in | exact Hev].
Qed.
End Inserts.

Lemma leads_preserved {A} (Q : A -> Database -> Prop) db a db' :
  preserved db db' -> Q a db' -> leads Q db (Some a) db'.
Proof. intros [I G] HQ. split; [done|]. split; [done|]. by intros ? [= <-]. Qed.

Lemma preserved_trans a b c : preserved a b -> preserved b c -> preserved a c.
Proof. intros [_ G] [I G']. split; [done | by etrans]. Qed.

(** ** Pages *)
Section Pages.
Context (t : Uuid).

Lemma upsert_page_preserved source url id fetched_at now db page_id latest db' :
  integrity db -> source_in db t source ->
  upsert_page t source url id fetched_at now db = Ok (page_id, latest, db') ->
  preserved db db' /\ page_revisions db' = page_revisions db /\ page_in db' t page_id /\
  (forall r, latest = Some r -> revision_of db' t page_id r).
Proof.
  intros I Hs. unfold upsert_page. destruct (List.filter _ _) as [|p l] eqn:El; intros E.
  - inv_ok. split; [|split; [done|]; split; [|done]].
    + apply add_page; [done | by apply not_taken | by split].
    + unfold page_in. simpl. rewrite map_app. apply elem_of_app. right. left.
  - injection E as <- <- <-. assert (p ∈ p :: l) as Hp by left. rewrite <-El in Hp.
    apply elem_of_filter_bool in Hp as [Hp Hsame]. unfold same_page in Hsame. bool_prop. subst t source.
    pose proof (proj1 (Forall_forall _ _) (in_pages _ I) p Hp) as [_ Hlatest].
    assert (preserved db (set_pages (map (fun x => if same_page (pg_tenant_id p) (pg_source_id p) url x
      then seen_page fetched_at now x else x)) db)) as Hpres.
    { apply update_pages; [done | intros x; by destruct (same_page _ _ _ x)|]. intros x Hx.
      pose proof (proj1 (Forall_forall _ _) (in_pages _ I) x Hx). by destruct (same_page _ _ _ x). }
    split; [exact Hpres|]. split; [done|]. split; [|exact Hlatest].
    apply (gr_pages _ _ (proj2 Hpres)). by apply (key_elem page_key).
Qed.

(** The revision a content already has. *)
Lemma existing_revision db page_id sha v :
  head (List.filter (fun v => bool_decide (pv_page_id v = page_id) && bool_decide (pv_tenant_id v = t) &&
    bool_decide (pv_content_sha256 v = sha)) (page_revisions db)) = Some v ->
  revision_of db t page_id (pv_id v).
Proof.
  intros [Hv Hp]%head_Some_elem_of%elem_of_filter_bool. bool_prop. subst. by apply (key_elem revision_key).
Qed.

(** *** The reverse stream *)
Section Reverse.
Context `{UuidLib, DigestLib, InterfacesLib, PgLib, Deployment}.

Definition wire_in (page : PageWire) (db : Database) : Prop :=
  revision_of db t (pw_page_id page) (pw_page_revision_id page).

Lemma page_statement_at_triple source request original final content sha :
  stmt_at_triple (fun db => source_in db t source)
    (fun snapshot => page_statement_at snapshot t source request original final content sha)
    (fun o db => forall page, o = Some page -> wire_in page db).
Proof.
  intros snapshot now s db draws a db' draws' _ I G Hs E. unfold page_statement_at in E. cbv zeta in E.
  apply reject_ok in E as [_ E]. apply bind_ok in E as ([[page_id latest] db1] & E1 & E).
  apply bind_ok in E as ([b db2] & E2 & [= <- <- _]).
  destruct (upsert_page_preserved _ _ _ _ _ _ _ _ _ I Hs E1) as ([I1 G1] & Er & Hp & Hl).
  destruct (insert_page_revision_preserved _ I1 _ _ _ E2) as (P2 & _ & Hnew); [by split|].
  apply leads_preserved; [by eapply preserved_trans|]. intros page Hpage. unfold wire_in.
  destruct b; simpl in Hpage; [injection Hpage as <-; by apply Hnew|].
  destruct (head _) as [v|] eqn:Eh; [|done]. injection Hpage as <-. simpl.
  apply (gr_revisions _ _ (proj2 P2)), (gr_revisions _ _ G1), (gr_revisions _ _ G).
  by eapply existing_revision.
Qed.

Lemma page_statement_triple source request original final content sha :
  stmt_triple (fun db => source_in db t source)
    (page_statement t source request original final content sha)
    (fun o db => forall page, o = Some page -> wire_in page db).
Proof. apply (stmt_at_triple_now _ _ _ (page_statement_at_triple _ _ _ _ _ _)). Qed.

Lemma latest_revision_statement_triple page fetched_at :
  stmt_triple (wire_in page)
    (latest_revision_statement t (pw_page_id page) (pw_page_revision_id page) fetched_at)
    (fun _ => wire_in page).
Proof.
  intros now s db draws a db' draws' I Hw E. unfold latest_revision_statement in E.
  apply reject_ok in E as [_ [= <- <- _]]. apply leads_preserved; [|done].
  apply update_pages; [done | intros x; by case_match|]. intros x Hx.
  pose proof (proj1 (Forall_forall _ _) (in_pages _ I) x Hx) as Hok. case_match eqn:Ex; [|done].
  bool_prop. destruct Hok as [Hs _]. split; [done|]. intros r [= <-]. simpl.
  match goal with Ht : pg_tenant_id x = _, Hi : pg_id x = _ |- _ => by rewrite Ht, Hi end.
Qed.

Lemma upsert_page_revision_triple source request original final :
  triple (fun db => source_in db t source) (upsert_page_revision t source request original final) wire_in.
Proof.
  unfold upsert_page_revision. cbv zeta.
  eapply triple_bind; [apply triple_execute, page_statement_triple|]. intros row.
  eapply (triple_bind _ _ _ wire_in).
  { apply triple_lift. intros page db Hp Hrow. apply ok_or_ok in Hp. by apply Hrow. }
  intros page. eapply triple_bind; [apply triple_execute, latest_revision_statement_triple|].
  intros []. by apply triple_ret.
Qed.

(** A ranked candidate names a stored rule embedding of the tenant. *)
Definition wire_stored (candidate : CandidateWire) (db : Database) : Prop :=
  rule_embedding_of db t (cw_alert_rule_id candidate) (cw_alert_rule_revision_id candidate)
    (cw_alert_embedding_id candidate).

Lemma stable_wires rows : stable (fun db => Forall (fun row => wire_stored row db) rows).
Proof. apply stable_forall. intros row. apply stable_rule_embedding_of. Qed.

(** A ranked row is of a stored rule embedding of the tenant. *)
Definition ranked_in (db : Database) (r : RankedEmbedding) : Prop :=
  rule_embedding_key (rk_embedding r) ∈ map rule_embedding_key (rule_embeddings db) /\
  re_tenant_id (rk_embedding r) = t.

Lemma ranked_in_grows db db' r : grows db db' -> ranked_in db r -> ranked_in db' r.
Proof. intros G [Hr Ht]. split; [by apply (gr_rule_embeddings _ _ G) | done]. Qed.

Lemma ranked_stored source request now s db draws rows db' draws' :
  candidate_statement t source request now s db draws = Ok (rows, db', draws') ->
  db' = db /\ Forall (ranked_in db) rows.
Proof.
  unfold candidate_statement. intros E. apply reject_ok in E as [_ E].
  apply bind_ok in E as (vector & _ & E). apply bind_ok in E as (ranked & Hr%mapM_ok_Forall2 & [= <- <- _]).
  split; [done|]. apply Forall_forall. intros r (i & Hin%list_elem_of_lookup_2 & _)%elem_of_take.
  apply elem_of_sort_by, elem_of_filter_bool in Hin as [Hin _].
  destruct (Forall2_elem_r _ _ _ _ Hr Hin) as ([e v] & Hel & Hd).
  apply bind_ok in Hd as (distance & _ & [= <-]). unfold ranked_in. simpl.
  unfold eligible_embeddings in Hel. apply elem_of_flat_map in Hel as (e' & He & Hel).
  apply elem_of_flat_map in Hel as (rule & _ & (v' & [= <- _] & _)%list_elem_of_fmap).
  apply elem_of_filter_bool in He as [He Ht]. apply elem_of_filter_bool in He as [He _]. bool_prop.
  split; [by apply key_elem | done].
Qed.

Lemma wires_stored rows wires db :
  mapM decode_candidate rows = Ok wires -> Forall (ranked_in db) rows ->
  Forall (fun row => wire_stored row db) wires.
Proof.
  intros Hw%mapM_ok_Forall2 Hf. apply Forall_forall. intros c Hc.
  destruct (Forall2_elem_r _ _ _ _ Hw Hc) as (r & Hr & Hd).
  rewrite Forall_forall in Hf. destruct (Hf r Hr) as [He Ht]. unfold decode_candidate in Hd. inv_ok.
  unfold wire_stored, rule_embedding_of. simpl. by rewrite <-Ht.
Qed.

Lemma find_alert_candidates_triple P source request :
  triple P (find_alert_candidates t source request)
    (fun rows db => P db /\ Forall (fun row => wire_stored row db) rows).
Proof.
  unfold find_alert_candidates.
  eapply (triple_bind _ _ _ (fun rows db => P db /\ Forall (ranked_in db) rows)).
  - apply triple_execute, stmt_triple_read. intros now s db draws a db' draws' HP E.
    by apply ranked_stored in E as [-> Hf].
  - intros rows. apply triple_lift. intros wires db Hw [HP Hf]. split; [done|]. by eapply wires_stored.
Qed.

(** A stored rule embedding brings its revision with it. *)
Lemma wire_revision db candidate :
  integrity db -> wire_stored candidate db ->
  rule_revision_of db t (cw_alert_rule_id candidate) (cw_alert_rule_revision_id candidate).
Proof.
  intros I (e & [= _ -> -> ->] & He)%list_elem_of_fmap.
  by apply (proj1 (Forall_forall _ _) (in_rule_embeddings _ I) e He).
Qed.

(** A match row that is kept under its identifier and key. *)
Definition kept (id : Uuid) (key : str) (db : Database) : Prop :=
  (id, t, key) ∈ map candidate_key (candidates db).

Lemma stable_kept id key : stable (kept id key).
Proof. intros db db' G. apply (gr_candidates _ _ G). Qed.

Lemma insert_candidate_kept db row b db' :
  insert_candidate db row = Ok (b, db') -> b = true -> mc_tenant_id row = t ->
  kept (mc_id row) (mc_canonical_match_key row) db'.
Proof.
  unfold insert_candidate. intros Hi Hb Ht. apply reject_ok in Hi as [_ Hi].
  destruct (existsb (same_candidate_key row) _); inv_ok; [discriminate|].
  unfold kept. rewrite <-Ht. apply (key_snoc candidate_key).
Qed.

Lemma persist_statement_at_triple revision sha request vector_sha candidate key explanation :
  stmt_at_triple (fun db => revision_in db t revision /\ wire_stored candidate db)
    (fun snapshot => persist_statement_at snapshot t revision sha request vector_sha candidate key explanation)
    (fun row db => revision_in db t revision /\
       forall r, row = Some r -> kept (mc_id r) (mc_canonical_match_key r) db).
Proof.
  intros snapshot now s db draws a db' draws' _ I G [Hr Hw] E. unfold persist_statement_at in E.
  cbv zeta in E. apply reject_ok in E as [_ E]. apply bind_ok in E as ([b db1] & E1 & [= <- <- _]).
  assert (preserved db db1) as P1.
  { eapply insert_candidate_preserved; [done | exact E1|]. split; [|by split].
    exists (cw_alert_rule_revision_id candidate). split; [done|].
    split; [by apply wire_revision | by intros e [= <-]]. }
  apply leads_preserved; [done|]. split; [by apply (revision_in_grows _ _ (proj2 P1))|].
  intros r Hsel. destruct b; simpl in Hsel.
  - injection Hsel as <-. by eapply insert_candidate_kept.
  - apply head_Some_elem_of, elem_of_filter_bool in Hsel as [Hin Hp].
    apply (stable_kept _ _ _ _ (proj2 P1)), (stable_kept _ _ _ _ G). unfold kept.
    unfold same_reverse_evidence in Hp. bool_prop. simpl in *.
    match goal with E : mc_tenant_id r = t |- _ => rewrite <-E end. by apply (key_elem candidate_key).
Qed.

Definition answer_kept (a : ReverseAlertCandidate) (db : Database) : Prop :=
  kept (ra_id a) (ra_canonical_match_key a) db.

Lemma decode_reverse_kept row a db :
  decode_reverse_candidate row = Ok a -> kept (mc_id row) (mc_canonical_match_key row) db -> answer_kept a db.
Proof. unfold decode_reverse_candidate. intros Hd Hk. inv_ok. exact Hk. Qed.

(** The answer decoded from the row, in any state the row is kept in. *)
Lemma persist_answer (row : option CandidateRow) o a (db : Database) message :
  decode_optional decode_reverse_candidate row = Ok o -> ok_or o message = Ok (E := HttpError) a ->
  (forall r, row = Some r -> kept (mc_id r) (mc_canonical_match_key r) db) -> answer_kept a db.
Proof.
  intros Hd Ho%ok_or_ok Hk. destruct row as [r|]; unfold decode_optional in Hd.
  - apply fmap_ok in Hd as (a' & Hd & E). assert (a' = a) as -> by congruence. by eapply decode_reverse_kept, Hk.
  - congruence.
Qed.

Lemma persist_reverse_candidate_triple revision sha request vector_sha candidate key explanation :
  triple (fun db => revision_in db t revision /\ wire_stored candidate db)
    (persist_reverse_candidate t revision sha request vector_sha candidate key explanation)
    (fun a db => revision_in db t revision /\ answer_kept a db).
Proof.
  unfold persist_reverse_candidate. eapply triple_bind.
  { apply triple_execute, (stmt_at_triple_now _ _ _ (persist_statement_at_triple _ _ _ _ _ _ _)). }
  intros row. eapply (triple_bind _ _ _ (fun o db => decode_optional decode_reverse_candidate row = Ok o /\
    revision_in db t revision /\ forall r, row = Some r -> kept (mc_id r) (mc_canonical_match_key r) db)).
  { by apply triple_lift. }
  intros o. apply triple_lift. intros a db Ha (Hd & Hr & Hk). split; [done|]. by eapply persist_answer.
Qed.

(** What the loop needs: the page revision, and the candidates left. *)
Definition ready (page : PageWire) (rows : list CandidateWire) (db : Database) : Prop :=
  revision_in db t (pw_page_revision_id page) /\ Forall (fun row => wire_stored row db) rows.

Lemma persist_first_triple page sha request vector_sha row rows key explanation :
  triple (ready page (row :: rows))
    (persist_reverse_candidate t (pw_page_revision_id page) sha request vector_sha row key explanation)
    (fun a db => ready page rows db /\ answer_kept a db).
Proof.
  eapply triple_weaken;
    [apply (triple_frame _ _ _ _ (stable_wires rows) (persist_reverse_candidate_triple _ _ _ _ _ _ _)) | |].
  - intros db [Hr [Hw Hf]%Forall_cons]. done.
  - intros a db [[Hr Ha] Hf]. by split.
Qed.

Definition answers_kept (l : list ReverseAlertCandidate) (db : Database) : Prop :=
  Forall (fun a => answer_kept a db) l.

Lemma stable_answer_kept a : stable (answer_kept a).
Proof. apply stable_kept. Qed.

Lemma persist_candidates_triple page request url vector_sha rows :
  triple (ready page rows) (persist_candidates t page request url vector_sha rows) answers_kept.
Proof.
  induction rows as [|row rows IH]; simpl; [apply triple_ret; constructor|]. case_match.
  - eapply triple_weaken; [exact IH | | done]. intros db [Hr [_ Hf]%Forall_cons]. done.
  - eapply triple_bind; [apply persist_first_triple|]. intros durable.
    eapply triple_bind; [apply (triple_frame _ _ _ _ (stable_answer_kept durable) IH)|].
    intros durables. apply triple_ret. intros db [Hs Ha]. by constructor.
Qed.

Lemma ready_rows page rows db :
  wire_in page db /\ Forall (fun row => wire_stored row db) rows -> ready page rows db.
Proof. intros [Hw Hf]. split; [by exists (pw_page_id page) | exact Hf]. Qed.

(** What an answer to an ingestion names is there. *)
Definition response_kept (resp : ReverseAlertMatchResponse) (db : Database) : Prop :=
  revision_of db t (rm_page_id resp) (rm_page_revision_id resp) /\ answers_kept (rm_candidates resp) db.

Lemma stable_wire_in page : stable (wire_in page).
Proof. intros db db' G. apply (gr_revisions _ _ G). Qed.

Lemma ingest_and_reverse_match_triple source request original final :
  triple (fun db => source_in db t source)
    (ingest_and_reverse_match t source request original final) response_kept.
Proof.
  unfold ingest_and_reverse_match.
  eapply (triple_bind _ _ _ (fun _ db => source_in db t source)); [by apply triple_lift|]. intros [].
  apply triple_transaction. eapply triple_bind; [apply upsert_page_revision_triple|]. intros page. cbv zeta.
  eapply triple_bind; [apply find_alert_candidates_triple|]. intros rows.
  eapply (triple_bind _ _ _ (fun answers db => answers_kept answers db /\ wire_in page db)).
  - eapply triple_weaken;
      [apply (triple_frame _ _ _ _ (stable_wire_in page) (persist_candidates_triple page _ _ _ rows)) | | done].
    intros db [Hw Hf]. split; [by apply ready_rows | done].
  - intros answers. apply triple_ret. by intros db [Ha Hw].
Qed.

Lemma upsert_alert_rule_embedding_triple rule_id request :
  triple (fun _ => True) (upsert_alert_rule_embedding t rule_id request) (fun _ _ => True).
Proof.
  unfold upsert_alert_rule_embedding. cbv zeta.
  eapply triple_bind; [by apply (triple_lift _ _ (fun _ _ => True))|]. intros [].
  eapply (triple_bind _ _ _ (fun _ _ => True)); [by apply triple_unchanged|]. intros generated_at.
  eapply (triple_bind _ _ _ (fun _ _ => True)).
  - apply triple_autocommit. intros now s db draws a db' draws' I _ E. unfold upsert_statement, upsert_statement_at in E.
    cbv zeta in E. apply reject_ok in E as [_ E]. apply bind_ok in E as (vector & _ & E).
    destruct (upsert_target _ _ _ _ _ _) as [|[rule revision] l] eqn:El.
    { injection E as <- <- _. by apply leads_preserved. }
    apply bind_ok in E as ([b db1] & E1 & E).
    assert (preserved db db1) as P1.
    { eapply insert_rule_embedding_preserved; [done | exact E1|]. simpl.
      assert ((rule, revision) ∈ (rule, revision) :: l) as Hin by left. rewrite <-El in Hin.
      apply elem_of_filter_bool in Hin as [Hin Hp]. bool_prop.
      unfold active_rule_rows in Hin. apply elem_of_flat_map in Hin as (r & _ & Hin).
      apply list_elem_of_fmap in Hin as (v & [= <- <-] & [Hv Hpv]%elem_of_filter_bool). bool_prop.
      apply elem_of_filter_bool in Hv as [Hv _]. unfold rule_revision_of.
      replace (rr_id revision, t, ru_id rule) with (rule_revision_key revision)
        by (unfold rule_revision_key; congruence). by apply key_elem. }
    destruct b; injection E as <- <- _; by apply leads_preserved.
  - intros row. eapply triple_bind; [by apply (triple_lift _ _ (fun _ _ => True))|].
    intros [wire created]. case_match; [by apply triple_lift | by apply triple_ret].
Qed.
End Reverse.
End Pages.

(** ** Sources, stored vectors and historical matches *)
Section StoreOperations.
Context `{UuidLib, DigestLib, InterfacesLib, PgLib, Deployment, RowDecoders}.
Context (t : Uuid).

Lemma list_sources_triple : triple (fun _ => True) (Store.list_sources t) (fun _ _ => True).
Proof.
  unfold Store.list_sources. eapply triple_bind; [|by intros; apply triple_lift].
  apply triple_autocommit, (stmt_triple_read _ _ (fun _ _ => True)). unfold list_sources_statement.
  intros. inv_ok. done.
Qed.

Lemma get_source_triple id :
  triple (fun _ => True) (Store.get_source t id)
    (fun o db => forall policy, o = Some policy -> source_in db t id).
Proof.
  unfold Store.get_source.
  eapply (triple_bind _ _ _ (fun o db => forall row, o = Some row -> source_in db t id)).
  - apply triple_autocommit, stmt_triple_read. intros now s db draws a db' draws' _ E.
    unfold get_source_statement in E. injection E as <- <- _. split; [done|].
    intros row [Hr Hp]%head_Some_elem_of%elem_of_filter_bool. bool_prop. subst.
    by apply (key_elem source_key).
  - intros row. apply triple_lift. intros o db Ho Hrow policy ->. destruct row; [by eapply Hrow | done].
Qed.

Lemma create_source_triple input root :
  triple (fun _ => True) (Store.create_source t input root) (fun _ _ => True).
Proof.
  unfold Store.create_source. eapply (triple_bind _ _ _ (fun _ _ => True)); [|by intros; apply triple_lift].
  apply triple_autocommit. intros now s db draws a db' draws' I _ E.
  apply bind_ok in E as ([b db1] & E1 & [= _ <- _]). apply leads_preserved; [|done].
  by eapply insert_source_preserved.
Qed.

Lemma ingest_revision_preserved snapshot db page_id row sha revision db' :
  integrity snapshot -> integrity db -> grows snapshot db -> page_in db t page_id ->
  (forall latest, pv_tenant_id (row latest) = t /\ pv_page_id (row latest) = page_id /\
     pv_predecessor_revision_id (row latest) = latest) ->
  ingest_revision snapshot db t page_id row sha = Ok (revision, db') ->
  preserved db db' /\ forall id changed, revision = Some (id, changed) -> revision_of db' t page_id id.
Proof.
  intros I0 I G Hp Hrow E. unfold ingest_revision in E.
  set (existing := option_map _ _) in E.
  assert (forall id changed, existing = Some (id, changed) -> revision_of db t page_id id) as Hex.
  { unfold existing. intros id changed. destruct (head _) as [v|] eqn:Eh; [|done]. intros [= <- _].
    apply (gr_revisions _ _ G). by eapply existing_revision. }
  destruct (List.filter _ (pages snapshot)) as [|p l] eqn:El; [by injection E as <- <-|].
  assert (p ∈ p :: l) as Hin by left. rewrite <-El in Hin. apply elem_of_filter_bool in Hin as [Hin Hid].
  bool_prop. cbv zeta in E. apply bind_ok in E as ([b db1] & E1 & [= <- <-]).
  destruct (Hrow (pg_latest_revision_id p)) as (Ht & Hpage & Hpred).
  assert (pg_tenant_id p = t) as Htp.
  { apply list_elem_of_fmap in Hp as (q & [= -> ->] & Hq).
    assert (page_key p ∈ map page_key (pages db)) as (q' & [= E2 E3] & Hq')%list_elem_of_fmap
      by (apply (gr_pages _ _ G); by apply key_elem).
    assert (q' = q) as ->; [|done]. apply (NoDup_map_inj pg_id (pages db)); try done; [apply I | congruence]. }
  destruct (insert_page_revision_preserved _ I _ _ _ E1) as (P1 & _ & Hnew).
  { split; rewrite Ht, Hpage; [done|]. rewrite Hpred. intros r Hr.
    apply (gr_revisions _ _ G). rewrite <-Htp, <-Hid.
    by apply (proj1 (Forall_forall _ _) (in_pages _ I0) p Hin). }
  split; [done|]. intros rid changed. destruct b.
  - intros [= <- _]. rewrite <-Ht, <-Hpage at 1. by apply Hnew.
  - intros Hr. apply (gr_revisions _ _ (proj2 P1)). by eapply Hex.
Qed.

Lemma ingest_page_triple source input original final :
  triple (fun db => source_in db t source) (Store.ingest_page t source input original final)
    (fun _ _ => True).
Proof.
  unfold Store.ingest_page. cbv zeta.
  eapply (triple_bind _ _ _ (fun _ _ => True)); [|by intros; apply triple_lift].
  apply triple_autocommit. intros now s db draws a db' draws' I Hs E. unfold ingest_statement in E.
  cbv zeta in E. apply reject_ok in E as [_ E]. apply bind_ok in E as (vector & _ & E).
  apply bind_ok in E as ([[page_id latest] db1] & E1 & E).
  apply bind_ok in E as ([revision db2] & E2 & E).
  destruct (upsert_page_preserved _ _ _ _ _ _ _ _ _ _ I Hs E1) as (P1 & _ & Hp & _).
  pose proof P1 as [I1 G1].
  eapply ingest_revision_preserved in E2 as [P2 Hrev]; try done.
  destruct revision as [[revision_id changed]|];
    [|injection E as <- <- _; apply leads_preserved; [by eapply preserved_trans | done]].
  apply bind_ok in E as ([embedding db3] & E3 & E).
  apply bind_ok in E3 as ([b db4] & E3 & [= _ ->]).
  assert (preserved db2 db3) as P3.
  { eapply insert_embedding_preserved; [apply P2 | exact E3|]. exists page_id. by eapply Hrev. }
  rewrite update_visible_modified in E. injection E as _ <- _. apply leads_preserved; [|done].
  assert (preserved db db3) as P by (eapply preserved_trans; [exact P1 | by eapply preserved_trans]).
  eapply preserved_trans; [exact P|]. apply update_pages; [apply P | done|]. intros x Hx.
  by apply (proj1 (Forall_forall _ _) (in_pages _ (proj1 P)) x Hx).
Qed.

(** A record of a search names a page revision of the tenant and a vector of
    that revision. *)
Definition record_in (record : SearchRecord) (db : Database) : Prop :=
  revision_in db t (sh_revision_id (se_hit record)) /\
  embedding_of db t (sh_revision_id (se_hit record)) (sh_embedding_id (se_hit record)).

Lemma stable_record_in record : stable (record_in record).
Proof. apply stable_and; [apply stable_revision_in | apply stable_embedding_of]. Qed.

Lemma search_result_in db request page :
  search_result t db request = Ok page -> Forall (fun record => record_in record db) (sp_records page).
Proof.
  intros (_ & _ & Hf)%search_found. apply Forall_forall. intros record Hr. unfold record_in.
  destruct (Hf record Hr) as (e & v & p & d & He & Hv & _ & -> & Ht & _ & _ & _ & _ & -> & Hrev & Htv & _).
  split; [exists (pv_page_id v) |].
  - unfold revision_of. rewrite <-Htv. by apply (key_elem revision_key).
  - unfold embedding_of. rewrite <-Ht, <-Hrev. by apply (key_elem embedding_key).
Qed.

Lemma search_embeddings_triple P request :
  triple P (Store.search_embeddings t request)
    (fun page db => P db /\ Forall (fun record => record_in record db) (sp_records page)).
Proof.
  intros w I HP. destruct (search_run t request w) as (w' & -> & Hw). simpl. rewrite Hw.
  split; [done|]. split; [done|]. intros page Hpage. split; [exact HP|].
  destruct (search_result t (w_db w) request) as [page'|] eqn:Es; [|done]. injection Hpage as ->.
  by eapply search_result_in.
Qed.

(** A match of this revision of the rule, kept under its identifier and key. *)
Definition match_kept (rule_id revision_id : Uuid) (c : CandidateRow) (db : Database) : Prop :=
  mc_tenant_id c = t /\ mc_alert_rule_id c = rule_id /\ mc_alert_rule_revision_id c = Some revision_id /\
  kept t (mc_id c) (mc_canonical_match_key c) db.

Lemma match_statement_at_triple rule_id revision_id threshold record :
  stmt_at_triple (fun db => rule_revision_of db t rule_id revision_id /\ record_in record db)
    (fun snapshot => match_statement_at snapshot t rule_id revision_id threshold record)
    (fun row db => forall c, row = Some c -> match_kept rule_id revision_id c db).
Proof.
  intros snapshot now s db draws a db' draws' _ I G (Hv & Hr & He) E. unfold match_statement_at in E.
  cbv zeta in E. apply reject_ok in E as [_ E]. apply bind_ok in E as ([b db1] & E1 & [= <- <- _]).
  assert (preserved db db1) as P1.
  { eapply insert_candidate_preserved; [done | exact E1|].
    split; [by exists revision_id|]. split; [exact Hr | by intros e [= <-]]. }
  apply leads_preserved; [done|]. intros c Hc. destruct b.
  - injection Hc as <-. repeat (split; [done|]). by eapply (insert_candidate_kept t).
  - apply head_Some_elem_of, elem_of_filter_bool in Hc as [Hin Hs]. unfold same_historical_match in Hs.
    bool_prop. repeat (split; [done|]). apply (stable_kept _ _ _ _ _ (proj2 P1)), (stable_kept _ _ _ _ _ G).
    unfold kept. match goal with E : mc_tenant_id c = _ |- _ => simpl in E; rewrite <-E end.
    by apply (key_elem candidate_key).
Qed.

Lemma persist_match_triple rule_id revision_id threshold record :
  triple (fun db => rule_revision_of db t rule_id revision_id /\ record_in record db)
    (persist_match t rule_id revision_id threshold record) (fun _ _ => True).
Proof.
  unfold persist_match. eapply triple_bind.
  - apply triple_autocommit, (stmt_at_triple_now _ _ _ (match_statement_at_triple _ _ _ _)).
  - intros row. eapply triple_bind; [by apply (triple_lift _ _ (fun _ _ => True))|].
    intros candidate. by apply triple_lift.
Qed.

(** What the loop needs: the rule's revision, and the records left. *)
Definition matchable (rule_id revision_id : Uuid) (records : list SearchRecord) (db : Database) : Prop :=
  rule_revision_of db t rule_id revision_id /\ Forall (fun record => record_in record db) records.

Lemma stable_matchable rule_id revision_id records : stable (matchable rule_id revision_id records).
Proof.
  apply stable_and; [apply stable_rule_revision_of | apply stable_forall, stable_record_in].
Qed.

Lemma persist_first_match_triple rule_id revision_id threshold record records :
  triple (matchable rule_id revision_id (record :: records))
    (persist_match t rule_id revision_id threshold record) (fun _ => matchable rule_id revision_id records).
Proof.
  eapply triple_weaken; [apply (triple_frame _ _ _ _ (stable_matchable rule_id revision_id records)
    (persist_match_triple _ _ _ _)) | | by intros ? ? [_ ?]].
  intros db [Hv [Hr Hf]%Forall_cons]. done.
Qed.

Lemma persist_matches_triple rule_id revision_id threshold records :
  triple (matchable rule_id revision_id records)
    (persist_matches t rule_id revision_id threshold records) (fun _ _ => True).
Proof.
  induction records as [|record records IH]; simpl; [by apply triple_ret|].
  eapply triple_bind; [apply persist_first_match_triple|]. intros candidate.
  eapply triple_bind; [exact IH|]. intros rest. by apply triple_ret.
Qed.

Lemma evaluate_matches_triple rule_id revision_id threshold search :
  triple (fun db => rule_revision_of db t rule_id revision_id)
    (Store.evaluate_matches t rule_id revision_id threshold search) (fun _ _ => True).
Proof.
  unfold Store.evaluate_matches. cbv zeta.
  eapply triple_bind; [apply search_embeddings_triple|].
  intros page. apply persist_matches_triple.
Qed.
End StoreOperations.

(** ** Alert rules *)
Lemma taken {A} (f : A -> Uuid) l u :
  u ∈ map f l -> existsb (fun x => bool_decide (f x = u)) l = true.
Proof.
  intros (x & -> & Hx)%list_elem_of_fmap. by apply (existsb_member _ _ x); [|apply bool_decide_eq_true_2].
Qed.

Section AlertOperations.
Context `{Deployment, PgLib}.
Context (t : Uuid).

Lemma insert_rule_taken s db row :
  ru_id row ∈ map ru_id (rules db) -> exists e, insert_rule s db row = Err e.
Proof.
  intros Ht%taken. unfold insert_rule. rewrite Ht.
  destruct (negb _); [eauto|]. destruct (active_limit_trigger _ _ _) as [[]|]; simpl; [|eauto].
  do 2 (destruct (negb _); [eauto|]). eauto.
Qed.

Lemma insert_rule_revision_taken s db row :
  rr_id row ∈ map rr_id (rule_revisions db) -> exists e, insert_rule_revision s db row = Err e.
Proof.
  intros (v & E & Hv)%list_elem_of_fmap. unfold insert_rule_revision.
  do 3 (destruct (negb _); [eauto|]). rewrite (existsb_member _ _ v); [eauto | done|].
  by rewrite bool_decide_eq_true_2.
Qed.

(** With an identifier that is taken, the creation fails and is undone. *)
Lemma create_taken subject input w :
  ~ fresh_draws w -> w_db (create_alert_rule t subject input w).2 = w_db w.
Proof.
  destruct w as [db draws ticks now0 settings]. unfold fresh_draws. cbn [w_db w_draws]. intros Hn.
  unfold create_alert_rule, new_v4, with_transaction, set_request_context, execute, require_one,
    throw, lift, mret, M_ret, mbind, M_bind. cbn [w_db w_draws w_ticks w_now w_settings].
  destruct (negb (text_ok subject)); [done|]. unfold insert_rule_statement.
  cbn [w_db w_draws w_ticks w_now w_settings].
  destruct (insert_rule _ _ _) as [db1|e] eqn:E1; [|done].
  cbn [mbind result_bind w_db w_draws w_ticks w_now w_settings Nat.eqb].
  destruct (decide (uuid_draw draws ∈ map ru_id (rules db))) as [Ht|Hf].
  { edestruct insert_rule_taken as [e E]; [|rewrite E in E1]; done. }
  assert (uuid_draw (S draws) ∈ map rr_id (rule_revisions db)) as Ht.
  { apply dec_stable. intros Hf'. by apply Hn. }
  assert (rule_revisions db1 = rule_revisions db) as Er.
  { unfold insert_rule in E1. inv_ok. done. }
  unfold insert_revision_statement. cbn [w_db w_draws w_ticks w_now w_settings].
  edestruct insert_rule_revision_taken as [e E]; [|rewrite E; done]. by rewrite Er.
Qed.

Lemma created_preserved db r v now :
  integrity db -> alerts_wf (created_db db r v now) -> preserved db (created_db db r v now).
Proof.
  intros I W. apply preserved_step; [constructor; simpl; auto with eal|].
  intros G. apply (integrity_step db); simpl; auto with eal; apply I.
Qed.

Lemma create_alert_rule_triple subject input :
  triple (fun _ => True) (create_alert_rule t subject input) (fun _ _ => True).
Proof.
  intros w I _.
  assert (preserved (w_db w) (w_db (create_alert_rule t subject input w).2)) as [I' G];
    [|by split; [|split]].
  destruct (decide (fresh_draws w)) as [Hf|Hn].
  2:{ rewrite create_taken by done. by split. }
  pose proof (create_run t subject input w (in_alerts _ I) Hf) as Hrun. cbv zeta in Hrun.
  destruct (creatable w t subject input).
  - destruct Hrun as (rule & w' & Hc & _ & Hdb).
    pose proof (create_wf _ _ _ _ _ _ (in_alerts _ I) Hf Hc) as W. rewrite Hc. simpl. rewrite Hdb in *.
    by apply created_preserved.
  - destruct Hrun as (e & w' & -> & _ & Hdb). simpl. rewrite Hdb. by split.
Qed.

(** The reads leave the tables alone. *)
Lemma reading_transaction {A} (s : Stmt A) {B} (f : A -> B) subject admin w :
  (forall now settings db draws a db' draws', s now settings db draws = Ok (a, db', draws') -> db' = db) ->
  w_db (with_transaction (_ ← set_request_context t subject admin; a ← execute s; mret (f a)) w).2 = w_db w.
Proof.
  intros Hs. unfold with_transaction. rewrite M_bind_run. unfold set_request_context.
  destruct (negb (text_ok subject)); [done|]. rewrite M_bind_run. unfold execute.
  destruct (s _ _ _ _) as [[[a db] draws]|e] eqn:E; [|done]. simpl. by eapply Hs.
Qed.

Lemma set_request_context_unchanged tenant subject admin w :
  w_db (set_request_context tenant subject admin w).2 = w_db w.
Proof. unfold set_request_context. by destruct (negb (text_ok subject)). Qed.

Lemma list_alert_rules_unchanged subject admin w :
  w_db (list_alert_rules t subject admin w).2 = w_db w.
Proof.
  unfold list_alert_rules. rewrite M_bind_run.
  rewrite <-(reading_transaction (list_statement t subject admin) (fun rows => mapM decode_alert_rule rows)
    subject admin w) at 1.
  - by destruct (with_transaction _ w) as [[rules|e] w'].
  - unfold list_statement. intros. inv_ok. done.
Qed.

Lemma get_alert_rule_unchanged id subject admin w :
  w_db (get_alert_rule t id subject admin w).2 = w_db w.
Proof.
  unfold get_alert_rule. rewrite M_bind_run.
  rewrite <-(reading_transaction (get_statement t id subject admin) (decode_optional decode_alert_rule)
    subject admin w) at 1.
  - by destruct (with_transaction _ w) as [[rule|e] w'].
  - unfold get_statement. intros. inv_ok. done.
Qed.

Lemma require_alert_rule_unchanged id subject admin w :
  w_db (require_alert_rule t id subject admin w).2 = w_db w.
Proof.
  unfold require_alert_rule. rewrite M_bind_run, <-(get_alert_rule_unchanged id subject admin w) at 1.
  by destruct (get_alert_rule t id subject admin w) as [[rule|e] w'].
Qed.

Lemma list_alert_rules_triple subject admin :
  triple (fun _ => True) (list_alert_rules t subject admin) (fun _ _ => True).
Proof. apply (triple_unchanged (fun _ => True)), list_alert_rules_unchanged. Qed.

(** The active revision the join finds is one of the rule. *)
Lemma active_row_revision s db rule v :
  integrity db -> (rule, v) ∈ active_rule_rows s db ->
  rule_revision_of db (ru_tenant_id rule) (ru_id rule) (rr_id v).
Proof.
  intros I Hin. unfold active_rule_rows in Hin. apply elem_of_flat_map in Hin as (r & Hr & Hin).
  apply list_elem_of_fmap in Hin as (v' & [= <- <-] & [Hv Hp]%elem_of_filter_bool).
  apply andb_true_iff in Hp as [Hactive%bool_decide_eq_true Ht%bool_decide_eq_true].
  apply elem_of_filter_bool in Hr as [Hr _]. apply elem_of_filter_bool in Hv as [Hv _].
  destruct (aw_active _ (in_alerts _ I) _ _ Hr Hactive) as (a & Ha & Hid & Hat & Har).
  assert (a = v) as -> by (apply (NoDup_map_inj rr_id (rule_revisions db)); try done; apply I).
  unfold rule_revision_of. rewrite <-Ht, <-Har. by apply (key_elem rule_revision_key).
Qed.

Lemma get_alert_rule_triple id subject admin :
  triple (fun _ => True) (get_alert_rule t id subject admin)
    (fun o db => forall rule, o = Some rule -> rule_revision_of db t id (ar_revision_id rule)).
Proof.
  unfold get_alert_rule. eapply (triple_bind _ _ _ (fun r db => forall rule, r = Ok (Some rule) ->
    rule_revision_of db t id (ar_revision_id rule))).
  - apply triple_transaction. eapply triple_bind; [by apply triple_unchanged, set_request_context_unchanged|].
    intros []. eapply (triple_bind _ _ _ (fun row db => forall rule v, row = Some (rule, v) ->
      rule_revision_of db t id (rr_id v))).
    + apply triple_execute. intros now s db draws a db' draws' I _ E. unfold get_statement in E.
      apply reject_ok in E as [_ [= <- <- _]]. split; [done|]. split; [done|]. intros ? [= <-] rule v Hh.
      apply head_Some_elem_of, elem_of_filter_bool in Hh as [Hin Hp]. bool_prop. subst.
      by eapply active_row_revision.
    + intros row. apply triple_ret. intros db Hrow rule. destruct row as [[r v]|]; [|done].
      unfold decode_optional, decode_alert_rule. intros E. inv_ok. injection E as <-.
      by eapply Hrow.
  - intros r. apply triple_lift. intros o db -> Hr rule ->. by apply Hr.
Qed.

Lemma require_alert_rule_triple id subject admin :
  triple (fun _ => True) (require_alert_rule t id subject admin)
    (fun rule db => rule_revision_of db t id (ar_revision_id rule)).
Proof.
  unfold require_alert_rule. eapply triple_bind; [apply get_alert_rule_triple|]. intros o.
  apply triple_lift. intros rule db Ho%ok_or_ok Hr. by apply Hr.
Qed.
End AlertOperations.
