(* ===== verification/Racing.v ===== *)
(** * Page ingestion beside other transactions

    Under READ COMMITTED a statement's queries read the tables as they were
    when it began, but its inserts meet the rows other transactions have
    committed since, and two statements of one transaction need not see the
    same tables.  [ReverseMatch] has the transaction alone; here anything that
    keeps the tables in order may commit between its statements, and between
    the snapshot of a statement and its writes ([others]).  The ingestion
    keeps the tables in order all the same and never answers with a row that
    is not there; but two crawlers that send the same new content at once may
    see one of them answered 500 ([ingestion_race_lost]). *)

From stdpp Require Import strings.
From S2P Require Import Prelude Ordered RustStr Floats Externals Samples HttpError.
From S2P Require Import Database AlertStore AlertStoreSpec ReverseMatch ReverseMatchSpec.
From S2P Require Import ReverseIngestSpec Store StoreSpec Changes Integrity.

Section Racing.
Context `{UuidLib, DigestLib, InterfacesLib, PgLib, Deployment}.

(** What the others have committed by the [k]th point at which they can. *)
Context (others : nat -> Database -> Database).

(** The store monad with the number of such points passed. *)
Definition Race (A : Type) : Type := World * nat -> result HttpError A * (World * nat).
#[export] Instance Race_ret : MRet Race := fun A a w => (Ok a, w).
#[export] Instance Race_bind : MBind Race := fun A B f m w =>
  match m w with
  | (Ok a, w') => f a w'
  | (Err e, w') => (Err e, w')
  end.
Definition lift_race {A} (r : result HttpError A) : Race A := fun w => (r, w).

(** A statement: its snapshot, then its writes. *)
Definition execute_at {A} (s : Database -> Stmt A) : Race A := fun '(w, k) =>
  let snapshot := others k (w_db w) in
  let db := others (S k) snapshot in
  match s snapshot (w_now w) (w_settings w) db (w_draws w) with
  | Ok (a, db', draws) =>
      (Ok a, ({| w_db := db'; w_draws := draws; w_ticks := w_ticks w; w_now := w_now w;
                 w_settings := w_settings w |}, S (S k)))
  | Err e => (Err (db_error e), (with_db w db, S (S k)))
  end.

(** The tables if only the others had been there for [n] points. *)
Fixpoint idle (k n : nat) (db : Database) : Database :=
  match n with
  | O => db
  | S n' => idle (S k) n' (others k db)
  end.

(** An error undoes the transaction's own writes, not theirs. *)
Definition with_transaction_at {A} (body : Race A) : Race A := fun '(w, k) =>
  let w1 := {| w_db := w_db w; w_draws := w_draws w; w_ticks := S (w_ticks w);
               w_now := clock (w_ticks w); w_settings := no_settings |} in
  let '(r, (w2, k2)) := body (w1, k) in
  let db := match r with Ok _ => w_db w2 | Err _ => idle k (k2 - k) (w_db w) end in
  (r, ({| w_db := db; w_draws := w_draws w2; w_ticks := w_ticks w2; w_now := w_now w2;
          w_settings := w_settings w |}, k2)).

(** ** The ingestion *)
Section Ingestion.
Context (tenant_id source_id : Uuid) (request : ReverseAlertPageRequest)
  (canonical_original_url canonical_final_url : str).

Definition upsert_page_revision_at : Race PageWire :=
  let normalized_content := normalize_content (rp_content_text request) in
  let content_sha256 := sha256_hex (as_bytes normalized_content) in
  row ← execute_at (fun snapshot => page_statement_at snapshot tenant_id source_id request
          canonical_original_url canonical_final_url normalized_content content_sha256);
  page ← lift_race (ok_or row
    (Http.internal (lit "transient page ingestion returned no durable revision")));
  _ ← execute_at (fun _ => latest_revision_statement tenant_id (pw_page_id page)
        (pw_page_revision_id page) (rp_fetched_at request));
  mret page.

(** The query reads its snapshot and leaves the tables as they are. *)
Definition candidate_statement_at (snapshot : Database) : Stmt (list RankedEmbedding) :=
  fun now s db draws =>
    '(rows, _, draws') ← candidate_statement tenant_id source_id request now s snapshot draws;
    Ok (rows, db, draws').

Definition find_alert_candidates_at : Race (list CandidateWire) :=
  rows ← execute_at candidate_statement_at;
  lift_race (mapM decode_candidate rows).

Definition persist_reverse_candidate_at (page_revision_id : Uuid) (content_sha256 : str)
    (page_embedding_sha256 : str) (candidate : CandidateWire) (key : str) (explanation : Explanation)
    : Race ReverseAlertCandidate :=
  row ← execute_at (fun snapshot => persist_statement_at snapshot tenant_id page_revision_id
          content_sha256 request page_embedding_sha256 candidate key explanation);
  decoded ← lift_race (decode_optional decode_reverse_candidate row);
  lift_race (ok_or decoded (Http.conflict
    (lit "canonical match identity exists with different evidence"))).

Fixpoint persist_candidates_at (page : PageWire) (page_vector_sha256 : str) (rows : list CandidateWire)
    : Race (list ReverseAlertCandidate) :=
  match rows with
  | [] => mret []
  | candidate :: rows' =>
      if negb (is_finite (cw_similarity candidate)) ||
         flt (cw_similarity candidate) (cw_threshold candidate)
      then persist_candidates_at page page_vector_sha256 rows'
      else
        durable ← persist_reverse_candidate_at (pw_page_revision_id page)
          (pw_content_sha256 page) page_vector_sha256 candidate
          (match_key (candidate_identity tenant_id page (rp_embedding request) candidate))
          (explanation_of page (rp_embedding request) canonical_final_url page_vector_sha256 candidate);
        durables ← persist_candidates_at page page_vector_sha256 rows';
        mret (durable :: durables)
  end.

Definition ingest_and_reverse_match_at : Race ReverseAlertMatchResponse :=
  _ ← lift_race (map_err Http.validation (validate request));
  with_transaction_at
    (page ← upsert_page_revision_at;
     let page_vector_sha256 := embedding_sha256 (ep_values (rp_embedding request)) in
     candidate_rows ← find_alert_candidates_at;
     candidates ← persist_candidates_at page page_vector_sha256 candidate_rows;
     mret {| rm_page_id := pw_page_id page; rm_page_revision_id := pw_page_revision_id page;
             rm_content_sha256 := pw_content_sha256 page; rm_changed := pw_changed page;
             rm_page_vector_persisted := false; rm_candidates := candidates |}).
End Ingestion.

(** ** Triples under interference *)
Definition rtriple {A} (P : Database -> Prop) (m : Race A) (Q : A -> Database -> Prop) : Prop :=
  forall w k, integrity (w_db w) -> P (w_db w) ->
    leads Q (w_db w) (to_option (m (w, k)).1) (w_db (m (w, k)).2.1) /\ k <= (m (w, k)).2.2.

Lemma rtriple_ret {A} (P : Database -> Prop) (a : A) (Q : A -> Database -> Prop) :
  (forall db, P db -> Q a db) -> rtriple P (mret a) Q.
Proof.
  intros HQ w k I HP. split; [|done]. split; [done|]. split; [done|]. intros b [= <-]. by apply HQ.
Qed.

Lemma rtriple_lift {A} (P : Database -> Prop) (r : result HttpError A) (Q : A -> Database -> Prop) :
  (forall a db, r = Ok a -> P db -> Q a db) -> rtriple P (lift_race r) Q.
Proof.
  intros HQ w k I HP. split; [|done]. split; [done|]. split; [done|]. intros a. simpl.
  destruct r; [|done]. intros [= ->]. by apply HQ.
Qed.

Lemma rtriple_bind {A B} P (m : Race A) (f : A -> Race B) R Q :
  rtriple P m R -> (forall a, rtriple (R a) (f a) Q) -> rtriple P (mbind f m) Q.
Proof.
  intros Hm Hf w k I HP. destruct (Hm w k I HP) as ((I1 & G1 & HR) & Hk).
  change (mbind f m (w, k)) with
    (match m (w, k) with (Ok a, w') => f a w' | (Err e, w') => (Err e, w') end).
  destruct (m (w, k)) as [[a|e] [w1 k1]]; simpl in *; [|by split; [apply leads_none|]].
  destruct (Hf a w1 k1 I1 (HR a eq_refl)) as ((I2 & G2 & HQ) & Hk2).
  split; [|lia]. split; [done|]. split; [by etrans | done].
Qed.

Lemma rtriple_weaken {A} (P P' : Database -> Prop) (m : Race A) (Q Q' : A -> Database -> Prop) :
  rtriple P m Q -> (forall db, P' db -> P db) -> (forall a db, Q a db -> Q' a db) -> rtriple P' m Q'.
Proof.
  intros Hm HP HQ w k I Hw. destruct (Hm w k I (HP _ Hw)) as ((I1 & G1 & HQ1) & Hk).
  split; [|done]. split; [done|]. split; [done|]. auto.
Qed.

Lemma rtriple_frame {A} P (m : Race A) Q F :
  stable F -> rtriple P m Q -> rtriple (fun db => P db /\ F db) m (fun a db => Q a db /\ F db).
Proof.
  intros HF Hm w k I [HP Hw]. destruct (Hm w k I HP) as ((I1 & G1 & HQ) & Hk).
  split; [|done]. split; [done|]. split; [done|]. intros a E. split; [by apply HQ | by eapply HF].
Qed.

(** The others keep the tables in order and remove nothing. *)
Context (others_preserve : forall k db, integrity db -> preserved db (others k db)).

Lemma rtriple_execute {A} P (s : Database -> Stmt A) Q :
  stable P -> stmt_at_triple P s Q -> rtriple P (execute_at s) Q.
Proof.
  intros HP Hs w k I Hw. unfold execute_at.
  destruct (others_preserve k _ I) as [I0 G0].
  destruct (others_preserve (S k) _ I0) as [I1 G1].
  destruct (s _ _ _ _ _) as [[[a db] draws]|e] eqn:E; simpl; split; try lia.
  - destruct (Hs _ _ _ _ _ _ _ _ I0 I1 G1 (HP _ _ G1 (HP _ _ G0 Hw)) E) as (I2 & G2 & HQ).
    split; [done|]. split; [|done]. etrans; [exact G0|]. by etrans.
  - apply leads_none; [done|]. by etrans.
Qed.

Lemma idle_preserved n : forall k db, integrity db -> preserved db (idle k n db).
Proof.
  induction n as [|n IH]; intros k db I; simpl; [by split|].
  pose proof (others_preserve k _ I) as P1. eapply preserved_trans; [exact P1 | apply IH, P1].
Qed.

Lemma rtriple_transaction {A} P (m : Race A) Q : rtriple P m Q -> rtriple P (with_transaction_at m) Q.
Proof.
  intros Hm w k I HP. unfold with_transaction_at.
  set (w1 := {| w_db := w_db w; w_draws := _; w_ticks := _; w_now := _; w_settings := _ |}).
  destruct (Hm w1 k I HP) as [Hl Hk]. destruct (m (w1, k)) as [[a|e] [w2 k2]]; simpl in *; split; try done.
  destruct (idle_preserved (k2 - k) k _ I) as [I' G']. by apply leads_none.
Qed.

(** ** The ingestion keeps the tables in order *)
Section Safety.
Context (t source_id : Uuid) (request : ReverseAlertPageRequest) (original final : str).

Lemma upsert_page_revision_race :
  rtriple (fun db => source_in db t source_id)
    (upsert_page_revision_at t source_id request original final) (wire_in t).
Proof.
  unfold upsert_page_revision_at. cbv zeta.
  eapply rtriple_bind; [apply rtriple_execute; [apply stable_source_in | apply page_statement_at_triple]|].
  intros row. eapply (rtriple_bind _ _ _ (wire_in t)).
  { apply rtriple_lift. intros page db Hp Hrow. apply ok_or_ok in Hp. by apply Hrow. }
  intros page. eapply rtriple_bind.
  - apply rtriple_execute; [apply stable_wire_in|]. intros snapshot now s db draws a db' draws' _ I _.
    by apply latest_revision_statement_triple.
  - intros []. by apply rtriple_ret.
Qed.

Lemma find_alert_candidates_race P :
  stable P -> rtriple P (find_alert_candidates_at t source_id request)
    (fun rows db => P db /\ Forall (fun row => wire_stored t row db) rows).
Proof.
  intros HP. unfold find_alert_candidates_at.
  eapply (rtriple_bind _ _ _ (fun rows db => P db /\ Forall (ranked_in t db) rows)).
  - apply rtriple_execute; [exact HP|]. intros snapshot now s db draws a db' draws' I0 I G Hw E.
    unfold candidate_statement_at in E. apply bind_ok in E as ([[rows db1] draws1] & E & [= <- <- _]).
    apply ranked_stored in E as [_ Hf]. split; [done|]. split; [done|]. intros ? [= <-].
    split; [done|]. eapply Forall_impl; [exact Hf|]. intros r. by apply ranked_in_grows.
  - intros rows. apply rtriple_lift. intros wires db Hw [HPw Hf]. split; [done|]. by eapply wires_stored.
Qed.

Lemma persist_reverse_candidate_race revision sha vector_sha candidate key explanation :
  rtriple (fun db => revision_in db t revision /\ wire_stored t candidate db)
    (persist_reverse_candidate_at t request revision sha vector_sha candidate key explanation)
    (fun a db => revision_in db t revision /\ answer_kept t a db).
Proof.
  unfold persist_reverse_candidate_at. eapply rtriple_bind.
  { apply rtriple_execute; [|apply persist_statement_at_triple].
    apply stable_and; [apply stable_revision_in | apply stable_rule_embedding_of]. }
  intros row. eapply (rtriple_bind _ _ _ (fun o db => decode_optional decode_reverse_candidate row = Ok o /\
    revision_in db t revision /\ forall r, row = Some r -> kept t (mc_id r) (mc_canonical_match_key r) db)).
  { by apply rtriple_lift. }
  intros o. apply rtriple_lift. intros a db Ha (Hd & Hr & Hk). split; [done|]. by eapply persist_answer.
Qed.

Lemma persist_first_race page sha vector_sha row rows key explanation :
  rtriple (ready t page (row :: rows))
    (persist_reverse_candidate_at t request (pw_page_revision_id page) sha vector_sha row key explanation)
    (fun a db => ready t page rows db /\ answer_kept t a db).
Proof.
  eapply rtriple_weaken;
    [apply (rtriple_frame _ _ _ _ (stable_wires t rows) (persist_reverse_candidate_race _ _ _ _ _ _)) | |].
  - intros db [Hr [Hw Hf]%Forall_cons]. done.
  - intros a db [[Hr Ha] Hf]. by split.
Qed.

Lemma persist_candidates_race page vector_sha rows :
  rtriple (ready t page rows) (persist_candidates_at t request final page vector_sha rows) (answers_kept t).
Proof.
  induction rows as [|row rows IH]; simpl; [apply rtriple_ret; constructor|]. case_match.
  - eapply rtriple_weaken; [exact IH | | done]. intros db [Hr [_ Hf]%Forall_cons]. done.
  - eapply rtriple_bind; [apply persist_first_race|]. intros durable.
    eapply rtriple_bind; [apply (rtriple_frame _ _ _ _ (stable_answer_kept t durable) IH)|].
    intros durables. apply rtriple_ret. intros db [Hs Ha]. by constructor.
Qed.

Lemma ingest_race :
  rtriple (fun db => source_in db t source_id)
    (ingest_and_reverse_match_at t source_id request original final) (response_kept t).
Proof.
  unfold ingest_and_reverse_match_at.
  eapply (rtriple_bind _ _ _ (fun _ db => source_in db t source_id)); [by apply rtriple_lift|]. intros [].
  apply rtriple_transaction. eapply rtriple_bind; [apply upsert_page_revision_race|]. intros page. cbv zeta.
  eapply rtriple_bind; [apply find_alert_candidates_race, stable_wire_in|]. intros rows.
  eapply (rtriple_bind _ _ _ (fun answers db => answers_kept t answers db /\ wire_in t page db)).
  - eapply rtriple_weaken; [apply (rtriple_frame _ _ _ _ (stable_wire_in t page)
      (persist_candidates_race page _ rows)) | | done].
    intros db [Hw Hf]. split; [by apply ready_rows | done].
  - intros answers. apply rtriple_ret. by intros db [Ha Hw].
Qed.
End Safety.
End Racing.

(** ** Without others it is the ingestion *)
Section Alone.
Context `{UuidLib, DigestLib, InterfacesLib, PgLib, Deployment}.

Definition nobody (_ : nat) (db : Database) : Database := db.

Definition alone {A} (m : M A) (race : Race A) : Prop :=
  forall w k, exists k', race (w, k) = ((m w).1, ((m w).2, k')).

Lemma alone_ret {A} (a : A) : alone (mret a) (mret a).
Proof. intros w k. by exists k. Qed.
Lemma alone_lift {A} (r : result HttpError A) : alone (lift r) (lift_race r).
Proof. intros w k. by exists k. Qed.

Lemma alone_bind {A B} (m : M A) (race : Race A) (f : A -> M B) (g : A -> Race B) :
  alone m race -> (forall a, alone (f a) (g a)) -> alone (mbind f m) (mbind g race).
Proof.
  intros Hm Hf w k. destruct (Hm w k) as [k1 E]. unfold mbind, M_bind, Race_bind. rewrite E.
  destruct (m w) as [[a|e] w1]; [apply Hf | by exists k1].
Qed.

Lemma alone_execute {A} (s : Stmt A) (s_at : Database -> Stmt A) :
  (forall now settings db draws, s_at db now settings db draws = s now settings db draws) ->
  alone (execute s) (execute_at nobody s_at).
Proof.
  intros Hs w k. exists (S (S k)). unfold execute_at, execute, nobody. rewrite Hs.
  destruct (s _ _ _ _) as [[[a db] draws]|e]; [done|]. by destruct w.
Qed.

Lemma idle_nobody n k db : idle nobody k n db = db.
Proof. revert k. induction n as [|n IH]; intros k; [done | apply IH]. Qed.

Lemma alone_transaction {A} (m : M A) (race : Race A) :
  alone m race -> alone (with_transaction m) (with_transaction_at nobody race).
Proof.
  intros Hm w k. unfold with_transaction_at, with_transaction.
  set (w1 := {| w_db := w_db w; w_draws := _; w_ticks := _; w_now := _; w_settings := _ |}).
  destruct (Hm w1 k) as [k1 E]. rewrite E. exists k1. destruct (m w1) as [[a|e] w2]; simpl; [done|].
  by rewrite idle_nobody.
Qed.

Lemma alone_persist t request final page vector_sha rows :
  alone (persist_candidates t page request final vector_sha rows)
    (persist_candidates_at nobody t request final page vector_sha rows).
Proof.
  induction rows as [|row rows IH]; simpl; [apply alone_ret|]. case_match; [done|].
  apply alone_bind; [|intros durable; apply alone_bind; [exact IH | intros ?; apply alone_ret]].
  unfold persist_reverse_candidate, persist_reverse_candidate_at.
  apply alone_bind; [apply alone_execute; reflexivity|]. intros r.
  apply alone_bind; [apply alone_lift | intros ?; apply alone_lift].
Qed.

Lemma alone_ingest t source request original final :
  alone (ingest_and_reverse_match t source request original final)
    (ingest_and_reverse_match_at nobody t source request original final).
Proof.
  unfold ingest_and_reverse_match, ingest_and_reverse_match_at.
  apply alone_bind; [apply alone_lift|]. intros []. apply alone_transaction. apply alone_bind.
  - unfold upsert_page_revision, upsert_page_revision_at. cbv zeta.
    apply alone_bind; [apply alone_execute; reflexivity|]. intros row.
    apply alone_bind; [apply alone_lift|]. intros page.
    apply alone_bind; [apply alone_execute; reflexivity | intros ?; apply alone_ret].
  - intros page. cbv zeta. apply alone_bind.
    + unfold find_alert_candidates, find_alert_candidates_at. apply alone_bind; [|intros ?; apply alone_lift].
      apply alone_execute. intros now s db draws. unfold candidate_statement_at.
      destruct (candidate_statement _ _ _ _ _ _ _) as [[[rows db'] draws']|e] eqn:E; [|done].
      by apply ranked_stored in E as [-> _].
    + intros rows. apply alone_bind; [apply alone_persist | intros ?; apply alone_ret].
Qed.
End Alone.

(** ** Theorems *)
Section Theorems.
Context `{UuidLib, DigestLib, InterfacesLib, PgLib, Deployment}.
Context (t source_id : Uuid) (request : ReverseAlertPageRequest) (original final : str).

(** C9: a page may be ingested beside any other transactions that keep the
    tables in order, whatever they commit between its statements and between
    the snapshot of a statement and its writes: the tables stay in order and
    no row is lost, whether it succeeds or is rolled back, so that any number
    of ingestions may run at once; and what a successful one answers is
    there: the revision, of that page, and a match row under each identifier
    and key.  With no others it is the ingestion itself. *)
Theorem ingestion_race_safe others w k :
  (forall n db, integrity db -> integrity (others n db) /\ grows db (others n db)) ->
  integrity (w_db w) -> source_in (w_db w) t source_id ->
  let race := ingest_and_reverse_match_at others t source_id request original final (w, k) in
  integrity (w_db race.2.1) /\ grows (w_db w) (w_db race.2.1) /\
  (forall resp, race.1 = Ok resp -> response_kept t resp (w_db race.2.1)) /\
  exists k', ingest_and_reverse_match_at nobody t source_id request original final (w, k) =
    let '(r, w') := ingest_and_reverse_match t source_id request original final w in (r, (w', k')).
Proof.
  intros Ho I Hs race.
  destruct (ingest_race others Ho t source_id request original final w k I Hs) as ((I' & G & Hk) & _).
  fold race in I', G, Hk. split; [done|]. split; [done|]. split.
  - intros resp E. apply Hk. by rewrite E.
  - destruct (alone_ingest t source_id request original final w k) as [k' E]. exists k'. rewrite E.
    by destruct (ingest_and_reverse_match _ _ _ _ _ w).
Qed.

(** The page has a revision with this content. *)
Definition recorded (page_id : Uuid) (sha : str) (db : Database) : Prop :=
  (t, page_id, sha) ∈ map page_revision_unique (page_revisions db).

Definition lost_race (sha : str) (snapshot db : Database) : Prop :=
  exists p, head (List.filter (same_page t source_id final) (pages db)) = Some p /\
    recorded (pg_id p) sha db /\ ~ recorded (pg_id p) sha snapshot.

Lemma recorded_head page_id sha db :
  recorded page_id sha db <->
  head (List.filter (fun v => bool_decide (pv_page_id v = page_id) && bool_decide (pv_tenant_id v = t) &&
    bool_decide (pv_content_sha256 v = sha)) (page_revisions db)) <> None.
Proof.
  unfold recorded. split.
  - intros (v & E & Hv)%list_elem_of_fmap. unfold page_revision_unique in E. injection E as E1 E2 E3.
    intros Hn. destruct (List.filter _ _) as [|x l] eqn:Ef; [|done].
    assert (v ∈ @nil PageRevisionRow) as Hin; [|by apply elem_of_nil in Hin]. rewrite <-Ef.
    apply elem_of_filter_bool. by rewrite <-E1, <-E2, <-E3, !bool_decide_eq_true_2.
  - destruct (head _) as [v|] eqn:E; [|done]. intros _.
    apply head_Some_elem_of, elem_of_filter_bool in E as [Hv Hp]. bool_prop.
    apply list_elem_of_fmap. exists v. split; [|done]. unfold page_revision_unique. congruence.
Qed.

Lemma conflicting row db :
  existsb (same_page_revision_key row) (page_revisions db) = true <->
  page_revision_unique row ∈ map page_revision_unique (page_revisions db).
Proof.
  rewrite list_elem_of_fmap. split.
  - intros (v & Hv & Hk)%existsb_true_Exists%Exists_exists. exists v. split; [|done].
    unfold same_page_revision_key in Hk. bool_prop. unfold page_revision_unique. congruence.
  - intros (v & E & Hv). apply (existsb_member _ _ v); [done|]. unfold page_revision_unique in E.
    injection E as E1 E2 E3. unfold same_page_revision_key. by rewrite E1, E2, E3, !bool_decide_eq_true_2.
Qed.

(** The statement finds no revision exactly when it lost the race for one. *)
Lemma page_statement_lost snapshot sha content now s db draws o db' draws' :
  integrity db ->
  page_statement_at snapshot t source_id request original final content sha now s db draws =
    Ok (o, db', draws') -> o = None <-> lost_race sha snapshot db.
Proof.
  intros I E. unfold page_statement_at in E. cbv zeta in E. apply reject_ok in E as [_ E].
  apply bind_ok in E as ([[page_id latest] db1] & E1 & E). apply bind_ok in E as ([b db2] & E2 & [= <- _ _]).
  set (row := {| pv_id := _; pv_tenant_id := _ |}) in E2.
  unfold lost_race. unfold upsert_page in E1.
  assert (b = negb (existsb (same_page_revision_key row) (page_revisions db1))) as Hb.
  { unfold insert_page_revision in E2. apply reject_ok in E2 as [_ E2]. destruct (existsb _ _); by inv_ok. }
  destruct (List.filter (same_page t source_id final) (pages db)) as [|p l].
  - apply reject_ok in E1 as [Hnew E1]. apply reject_ok in E1 as [_ [= <- <- <-]].
    destruct (existsb _ _) eqn:Ek in Hb.
    + apply conflicting in Ek. apply list_elem_of_fmap in Ek as (v & Ev & Hv).
      unfold page_revision_unique in Ev. injection Ev as Et Ep _. simpl in Hv.
      pose proof (proj1 (Forall_forall _ _) (in_revisions _ I) v Hv) as [Hin _].
      rewrite <-Ep, <-Et in Hin. apply list_elem_of_fmap in Hin as (q & Eq & Hq).
      unfold page_key in Eq. injection Eq as Eq _. unfold has_page in Hnew.
      rewrite (existsb_member _ _ q) in Hnew; [done | done|]. by rewrite bool_decide_eq_true_2.
    + subst b. simpl. split; [discriminate | by intros (p & [=] & _)].
  - injection E1 as <- <- <-. simpl.
    assert (existsb (same_page_revision_key row) (page_revisions db) = true <-> recorded (pg_id p) sha db) as Hk
      by apply conflicting.
    simpl in Hb. destruct (existsb (same_page_revision_key row) (page_revisions db)); subst b; simpl.
    + assert (recorded (pg_id p) sha db) as Hrec by by apply Hk.
      pose proof (recorded_head (pg_id p) sha snapshot) as Hs. split.
      * intros Ho. exists p. split; [done|]. split; [done|]. rewrite Hs. intros Hn. apply Hn.
        by destruct (head _).
      * intros (q & [= <-] & _ & Hn). rewrite Hs in Hn. by destruct (head _); [destruct Hn|].
    + split; [discriminate|]. intros (q & [= <-] & Hr & _). by apply Hk in Hr.
Qed.

(** C10: two crawlers may race for the revision of a page.  When the statement
    that records the page began before another transaction committed a
    revision of that page with the same content, and wrote after it, the
    insert gives way and the query does not see the other's row: the request
    is answered by the internal error, and its transaction undone.  A statement
    that succeeds yields no revision in no other case, and never does without
    other transactions. *)
Theorem ingestion_race_lost others w k o db' draws' :
  let sha := sha256_hex (as_bytes (normalize_content (rp_content_text request))) in
  let snapshot := others k (w_db w) in
  let db := others (S k) snapshot in
  validate request = Ok tt -> integrity db ->
  page_statement_at snapshot t source_id request original final
    (normalize_content (rp_content_text request)) sha (clock (w_ticks w)) no_settings db (w_draws w) =
    Ok (o, db', draws') ->
  (o = None <-> lost_race sha snapshot db) /\
  (lost_race sha snapshot db ->
   exists w', ingest_and_reverse_match_at others t source_id request original final (w, k) =
     (Err (Http.internal []), (w', S (S k))) /\ w_db w' = db) /\
  (others = nobody -> ~ lost_race sha snapshot db).
Proof.
  intros sha snapshot db Hv I E. pose proof (page_statement_lost _ _ _ _ _ _ _ _ _ _ I E) as Hl.
  split; [exact Hl|]. split.
  - intros Ho%Hl. subst o. unfold ingest_and_reverse_match_at. rewrite Hv.
    unfold mbind, Race_bind, lift_race. cbn [map_err]. unfold with_transaction_at, upsert_page_revision_at.
    unfold mbind, Race_bind, execute_at. cbn [w_db w_now w_settings w_draws]. cbv zeta.
    fold sha snapshot db. rewrite E. cbn [ok_or lift_race].
    replace (S (S k) - k)%nat with 2 by lia. eexists. split; [reflexivity|]. done.
  - intros ->. intros (p & _ & Hr & Hn). exact (Hn Hr).
Qed.
End Theorems.

(** ** The other statements that give way

    Registering a rule embedding and keeping a historical match are one
    statement each, and lose the same race: the registration then says that
    the rule is not there to be matched, though it is. *)
Section Others.
Context `{UuidLib, DigestLib, InterfacesLib, PgLib, Deployment, RowDecoders}.
Context (t rule_id : Uuid).

Lemma rule_revision_of_inj db rule rule' id :
  integrity db -> rule_revision_of db t rule id -> rule_revision_of db t rule' id -> rule = rule'.
Proof.
  intros I (v & [= -> _ ->] & Hv)%list_elem_of_fmap (v' & [= E _ ->] & Hv')%list_elem_of_fmap.
  assert (v = v') as ->; [|done].
  apply (NoDup_map_inj rr_id (rule_revisions db)); try done. apply (in_alerts _ I).
Qed.

Lemma upsert_target_revision s db revision_id model rule revision l :
  upsert_target s db t rule_id revision_id model = (rule, revision) :: l ->
  rr_id revision = revision_id /\ rule_revision_of db t (ru_id rule) revision_id.
Proof.
  intros El. assert ((rule, revision) ∈ (rule, revision) :: l) as Hin by left. rewrite <-El in Hin.
  apply elem_of_filter_bool in Hin as [Hin Hp]. unfold active_rule_rows in Hin.
  apply elem_of_flat_map in Hin as (r & _ & Hin).
  apply list_elem_of_fmap in Hin as (v & [= <- <-] & [Hv Ht]%elem_of_filter_bool). bool_prop.
  apply elem_of_filter_bool in Hv as [Hv _]. split; [done|]. unfold rule_revision_of.
  replace (revision_id, t, ru_id rule) with (rule_revision_key revision)
    by (unfold rule_revision_key; congruence). by apply key_elem.
Qed.

Lemma registration_lost request sha generated_at snapshot now s db draws db' draws' :
  let embedding := au_embedding request in
  integrity db -> grows snapshot db ->
  upsert_statement_at snapshot t rule_id request sha generated_at now s db draws = Ok (None, db', draws') ->
  upsert_target s snapshot t rule_id (au_alert_rule_revision_id request) (ep_model embedding) <> [] ->
  exists e, e ∈ rule_embeddings db /\ ~ (e ∈ visible_rule_embeddings s snapshot) /\
    re_tenant_id e = t /\ re_alert_rule_revision_id e = au_alert_rule_revision_id request /\
    re_model e = ep_model embedding /\ re_model_version e = ep_model_version embedding.
Proof.
  cbv zeta. intros I G E Ht. unfold upsert_statement_at in E. cbv zeta in E. apply reject_ok in E as [_ E].
  apply bind_ok in E as (vector & _ & E).
  destruct (upsert_target _ _ _ _ _ _) as [|[rule revision] l] eqn:El; [done|].
  apply upsert_target_revision in El as [Hrev Hof].
  apply bind_ok in E as ([b db1] & E1 & E). destruct b; [done|].
  unfold insert_rule_embedding in E1. apply reject_ok in E1 as [_ E1]. apply reject_ok in E1 as [_ E1].
  destruct (existsb _ _) eqn:Ek in E1; [|by inv_ok].
  apply existsb_true_Exists, Exists_exists in Ek as (e & He & Hk).
  unfold same_rule_embedding_key in Hk. bool_prop. simpl in *.
  exists e. split; [done|]. split; [|repeat split; congruence]. intros Hv.
  pose proof (proj1 (Forall_forall _ _) (in_rule_embeddings _ I) e He) as [_ Hr].
  assert (re_alert_rule_id e = ru_id rule) as Hrule.
  { apply (rule_revision_of_inj db _ _ (au_alert_rule_revision_id request) I).
    - replace t with (re_tenant_id e) by congruence. by replace (au_alert_rule_revision_id request)
        with (re_alert_rule_revision_id e) by congruence.
    - by apply (gr_rule_revisions _ _ G). }
  injection E as E _ _. destruct (List.filter _ _) as [|x k] eqn:Ef; [|done].
  assert (e ∈ @nil RuleEmbeddingRow) as Hn; [|by apply elem_of_nil in Hn]. rewrite <-Ef.
  apply elem_of_filter_bool. split; [done|]. rewrite !bool_decide_eq_true_2 by congruence. done.
Qed.
End Others.

(** ** Two crawlers *)
Module RaceExample.
Import SampleUuid SampleDigest ReverseExample.
Export IngestExample.
Definition news : ReverseAlertPageRequest := {|
  rp_source_id := source_id; rp_url := lit "u"; rp_final_url := lit "v"; rp_title := None;
  rp_content_text := lit "news"; rp_content_type := lit "text/html"; rp_http_status := 200;
  rp_published_at := None; rp_fetched_at := 8; rp_embedding := payload f32_one;
  rp_max_candidates := 100 |}.
(** A database with one source, at the [n]th draw of identifiers. *)
Definition bare : Database := set_sources (fun l => l ++ [source]) empty_database.
Definition at_draw (n : nat) (db : Database) : World :=
  {| w_db := db; w_draws := n; w_ticks := n; w_now := 0; w_settings := no_settings |}.
Definition send (page : ReverseAlertPageRequest) (w : World) :=
  ingest_and_reverse_match tenant source_id page (lit "u") (lit "v") w.
(** The page has been seen, with other content. *)
Definition earlier : World := (send page_request (at_draw 0 bare)).2.
(** Another crawler sends the news too, if its source is there; its
    transaction commits after the snapshot of ours. *)
Definition other_crawler (db : Database) : Database :=
  if bool_decide (source_in db tenant source_id) then w_db (send news (at_draw 100 db)).2 else db.
Definition rival (n : nat) (db : Database) : Database := if (n =? 1)%nat then other_crawler db else db.
Definition race := ingest_and_reverse_match_at rival tenant source_id news (lit "u") (lit "v") (earlier, 0).
End RaceExample.
Import SampleUuid SampleDigest ReverseExample RaceExample.

Lemma send_preserved page w :
  integrity (w_db w) -> source_in (w_db w) tenant source_id -> preserved (w_db w) (w_db (send page w).2).
Proof.
  intros I Hs. destruct (ingest_and_reverse_match_triple tenant source_id page (lit "u") (lit "v") w I Hs)
    as (I' & G & _). by split.
Qed.

Lemma rival_preserves n db : integrity db -> integrity (rival n db) /\ grows db (rival n db).
Proof.
  intros I. unfold rival, other_crawler. destruct (n =? 1)%nat; [|done]. case_bool_decide as Hs; [|done].
  by apply (send_preserved news (at_draw 100 db)).
Qed.

Lemma bare_source : source_in bare tenant source_id.
Proof. left. Qed.

Lemma earlier_in_order : preserved bare (w_db earlier).
Proof.
  apply (send_preserved page_request (at_draw 0 bare)); [|apply bare_source].
  apply (add_source empty_database integrity_empty source). apply not_elem_of_nil.
Qed.

(** The loser is answered 500, and sending the page again finds it. *)
Example race_run :
  race.1 = Err (Http.internal []) /\ length (page_revisions (w_db race.2.1)) = 2 /\
  exists resp, (send news race.2.1).1 = Ok resp /\ rm_changed resp = false.
Proof.
  split; [vm_compute; reflexivity|]. split; [vm_compute; reflexivity|].
  eexists. split; vm_compute; reflexivity.
Qed.

Lemma ingestion_race_safe_witness :
  integrity (w_db race.2.1) /\ grows (w_db earlier) (w_db race.2.1) /\
  length (page_revisions (w_db race.2.1)) = 2.
Proof.
  destruct earlier_in_order as [I G].
  destruct (ingestion_race_safe tenant source_id news (lit "u") (lit "v") rival earlier 0 rival_preserves I
    (gr_sources _ _ G _ bare_source)) as (I' & G' & _).
  split; [exact I'|]. split; [exact G' | vm_compute; reflexivity].
Defined.

Lemma ingestion_race_lost_witness :
  lost_race tenant source_id (lit "v") (sha256_hex (as_bytes (normalize_content (lit "news"))))
    (w_db earlier) (other_crawler (w_db earlier)) /\
  exists w', race = (Err (Http.internal []), (w', 2)) /\ w_db w' = other_crawler (w_db earlier).
Proof.
  destruct earlier_in_order as [I G].
  destruct (rival_preserves 1 (w_db earlier) I) as [I1 _].
  assert (exists db' draws', page_statement_at (w_db earlier) tenant source_id news (lit "u") (lit "v")
    (normalize_content (lit "news")) (sha256_hex (as_bytes (normalize_content (lit "news"))))
    (clock (w_ticks earlier)) no_settings (rival 1 (w_db earlier)) (w_draws earlier) = Ok (None, db', draws'))
    as (db' & draws' & E) by (do 2 eexists; vm_compute; reflexivity).
  assert (validate news = Ok tt) as Hv by (vm_compute; reflexivity).
  destruct (ingestion_race_lost tenant source_id news (lit "u") (lit "v") rival earlier 0 None db' draws'
    Hv I1 E) as (Hl & Hrace & _).
  assert (lost_race tenant source_id (lit "v") (sha256_hex (as_bytes (normalize_content (lit "news"))))
    (w_db earlier) (other_crawler (w_db earlier))) as L by (apply Hl; reflexivity).
  split; [exact L | exact (Hrace L)].
Defined.
