(* ===== verification/EvaluateRacing.v ===== *)
(** * Evaluation beside other transactions

    A historical evaluation ([evaluate_matches] of [src/store.rs]) is not one
    transaction: the search and the insert of each match commit alone.  As in
    [Racing], anything that keeps the tables in order may commit between its
    statements, and between what a statement reads and what it writes.  What
    an evaluation answers is kept all the same; but when another evaluation of
    the rule keeps a match between the two halves of an insert, the loser is
    answered 500, with the matches before that one kept. *)

From stdpp Require Import strings.
From S2P Require Import Prelude Ordered RustStr Floats Externals Samples HttpError.
From S2P Require Import Database AlertStore AlertStoreSpec ReverseMatch ReverseMatchSpec ReverseIngestSpec.
From S2P Require Import Store StoreSpec Changes Integrity Racing.

Section EvaluateRacing.
Context `{UuidLib, DigestLib, InterfacesLib, PgLib, Deployment, RowDecoders}.
Context (others : nat -> Database -> Database).

Definition autocommit_at {A} (s : Database -> Stmt A) : Race A :=
  with_transaction_at others (execute_at others s).

(** The query reads its snapshot and leaves the tables as they are. *)
Definition search_statement_at (tenant_id : Uuid) (request : EmbeddingSearchRequest) (snapshot : Database)
    : Stmt (list RankedRow) := fun now s db draws =>
  '(rows, _, draws') ← search_statement tenant_id request now s snapshot draws;
  Ok (rows, db, draws').

Definition search_embeddings_at (tenant_id : Uuid) (request : EmbeddingSearchRequest) : Race SearchPage :=
  rows ← autocommit_at (search_statement_at tenant_id request);
  records ← lift_race (mapM (fun row => into_record <$> decode_search_wire row) rows);
  mret (search_page (sr_limit request) records).

Section Evaluation.
Context (tenant_id alert_rule_id alert_rule_revision_id : Uuid) (threshold : f64).

Definition persist_match_at (record : SearchRecord) : Race MatchCandidate :=
  row ← autocommit_at (fun snapshot =>
          match_statement_at snapshot tenant_id alert_rule_id alert_rule_revision_id threshold record);
  candidate ← lift_race (decode_optional (decode_row match_candidate_of_row) row);
  lift_race (ok_or candidate (Http.internal (lit "match upsert returned no durable record"))).

Fixpoint persist_matches_at (records : list SearchRecord) : Race (list MatchCandidate) :=
  match records with
  | [] => mret []
  | record :: records' =>
      candidate ← persist_match_at record;
      rest ← persist_matches_at records';
      mret (candidate :: rest)
  end.

Definition evaluate_matches_at (search : EmbeddingSearchRequest) : Race (list MatchCandidate) :=
  let search := with_min_similarity search
                  (fmax (sr_min_similarity search) (f32_of_f64 threshold)) in
  page ← search_embeddings_at tenant_id search;
  persist_matches_at (sp_records page).
End Evaluation.

(** ** What an evaluation keeps *)
Context (others_preserve : forall k db, integrity db -> preserved db (others k db)).
Context (t rule_id revision_id : Uuid) (threshold : f64).

Lemma rtriple_autocommit {A} P (s : Database -> Stmt A) Q :
  stable P -> stmt_at_triple P s Q -> rtriple P (autocommit_at s) Q.
Proof. intros HP Hs. by apply rtriple_transaction, rtriple_execute. Qed.

(** The answer is decoded from a match of the rule's revision, and a row is
    kept under its identifier and key. *)
Definition match_answered (m : MatchCandidate) (db : Database) : Prop :=
  exists c, match_candidate_of_row c = Some m /\ match_kept t rule_id revision_id c db.

Lemma stable_match_answered m : stable (match_answered m).
Proof.
  intros db db' G (c & ? & ? & ? & ? & Hk). exists c. repeat (split; [done|]). by eapply stable_kept.
Qed.

Lemma search_statement_at_triple P request :
  stable P -> stmt_at_triple P (search_statement_at t request)
    (fun rows db => P db /\ forall records, mapM decode_hit rows = Ok records ->
       Forall (fun record => record_in t record db) (sp_records (search_page (sr_limit request) records))).
Proof.
  intros HP snapshot now s db draws rows db' draws' I0 I G Hw E. unfold search_statement_at in E.
  apply bind_ok in E as ([[rows1 db1] draws1] & E & [= <- <- _]).
  split; [done|]. split; [done|]. intros ? [= <-]. split; [done|]. intros records Er.
  apply (stable_forall _ _ (stable_record_in t) _ _ G), (search_result_in t snapshot request).
  unfold search_result, search_statement in *. apply bind_ok in E as (all & -> & [= E _ _]).
  cbn [mbind result_bind map_err]. by rewrite E, Er.
Qed.

Lemma search_embeddings_race P request :
  stable P -> rtriple P (search_embeddings_at t request)
    (fun page db => P db /\ Forall (fun record => record_in t record db) (sp_records page)).
Proof.
  intros HP. unfold search_embeddings_at.
  eapply rtriple_bind; [apply rtriple_autocommit; [exact HP | by apply search_statement_at_triple]|].
  intros rows. eapply (rtriple_bind _ _ _ (fun records db => P db /\
    Forall (fun record => record_in t record db) (sp_records (search_page (sr_limit request) records)))).
  { apply rtriple_lift. intros records db Hr [Hw Hf]. split; [done | by apply Hf]. }
  intros records. by apply rtriple_ret.
Qed.

Lemma persist_match_race record :
  rtriple (fun db => rule_revision_of db t rule_id revision_id /\ record_in t record db)
    (persist_match_at t rule_id revision_id threshold record) match_answered.
Proof.
  unfold persist_match_at. eapply rtriple_bind.
  { apply rtriple_autocommit; [|apply match_statement_at_triple].
    apply stable_and; [apply stable_rule_revision_of | apply stable_record_in]. }
  intros row. eapply (rtriple_bind _ _ _ (fun o db =>
    decode_optional (decode_row match_candidate_of_row) row = Ok o /\
    forall c, row = Some c -> match_kept t rule_id revision_id c db)); [by apply rtriple_lift|].
  intros o. apply rtriple_lift. intros m db Hm%ok_or_ok [Hd Hk]. destruct row as [c|]; simpl in Hd.
  - apply fmap_ok in Hd as (m' & Hd%ok_or_ok & E). assert (m' = m) as -> by congruence.
    exists c. split; [done | by apply Hk].
  - congruence.
Qed.

Lemma persist_first_match_race record records :
  rtriple (matchable t rule_id revision_id (record :: records))
    (persist_match_at t rule_id revision_id threshold record)
    (fun m db => match_answered m db /\ matchable t rule_id revision_id records db).
Proof.
  eapply rtriple_weaken; [apply (rtriple_frame _ _ _ _ (stable_matchable t rule_id revision_id records)
    (persist_match_race _)) | | done].
  intros db [Hv [Hr Hf]%Forall_cons]. done.
Qed.

Lemma persist_matches_race records :
  rtriple (matchable t rule_id revision_id records)
    (persist_matches_at t rule_id revision_id threshold records)
    (fun ms db => Forall (fun m => match_answered m db) ms).
Proof.
  induction records as [|record records IH]; simpl; [apply rtriple_ret; constructor|].
  eapply rtriple_bind; [apply persist_first_match_race|]. intros m.
  eapply rtriple_bind.
  { eapply rtriple_weaken; [apply (rtriple_frame _ _ _ _ (stable_match_answered m) IH) | | done].
    by intros db [Hm Hr]. }
  intros rest. apply rtriple_ret. intros db [Hr Hm]. by constructor.
Qed.

Lemma evaluate_race search :
  rtriple (fun db => rule_revision_of db t rule_id revision_id)
    (evaluate_matches_at t rule_id revision_id threshold search)
    (fun ms db => Forall (fun m => match_answered m db) ms).
Proof.
  unfold evaluate_matches_at. cbv zeta.
  eapply rtriple_bind; [apply search_embeddings_race, stable_rule_revision_of|].
  intros page. apply persist_matches_race.
Qed.
End EvaluateRacing.

(** ** Without others it is the evaluation *)
Section EvaluateAlone.
Context `{UuidLib, DigestLib, InterfacesLib, PgLib, Deployment, RowDecoders}.

Lemma alone_autocommit {A} (s : Stmt A) (s_at : Database -> Stmt A) :
  (forall now settings db draws, s_at db now settings db draws = s now settings db draws) ->
  alone (autocommit s) (autocommit_at nobody s_at).
Proof. intros Hs. by apply alone_transaction, alone_execute. Qed.

Lemma alone_persist_match t rule_id revision_id threshold record :
  alone (persist_match t rule_id revision_id threshold record)
    (persist_match_at nobody t rule_id revision_id threshold record).
Proof.
  unfold persist_match, persist_match_at. apply alone_bind; [by apply alone_autocommit|]. intros row.
  apply alone_bind; [apply alone_lift | intros ?; apply alone_lift].
Qed.

Lemma alone_persist_matches t rule_id revision_id threshold records :
  alone (persist_matches t rule_id revision_id threshold records)
    (persist_matches_at nobody t rule_id revision_id threshold records).
Proof.
  induction records as [|record records IH]; simpl; [apply alone_ret|].
  apply alone_bind; [apply alone_persist_match|]. intros m.
  apply alone_bind; [exact IH | intros ?; apply alone_ret].
Qed.

Lemma alone_evaluate t rule_id revision_id threshold search :
  alone (evaluate_matches t rule_id revision_id threshold search)
    (evaluate_matches_at nobody t rule_id revision_id threshold search).
Proof.
  unfold evaluate_matches, evaluate_matches_at. cbv zeta. apply alone_bind.
  - unfold search_embeddings, search_embeddings_at. apply alone_bind.
    + apply alone_autocommit. intros now settings db draws. unfold search_statement_at, search_statement.
      by destruct (filtered_rows _ _ _).
    + intros rows. apply alone_bind; [apply alone_lift | intros ?; apply alone_ret].
  - intros page. apply alone_persist_matches.
Qed.
End EvaluateAlone.

(** ** The race *)
Section EvaluateTheorems.
Context `{UuidLib, DigestLib, InterfacesLib, PgLib, Deployment, RowDecoders}.
Context (t rule_id revision_id : Uuid) (threshold : f64).

Definition record_key (record : SearchRecord) : str :=
  match_key (match_identity t rule_id revision_id record).

(** The key is taken now, and was not taken by this match when the statement
    began. *)
Definition match_lost (record : SearchRecord) (snapshot db : Database) : Prop :=
  (exists c, c ∈ candidates db /\ mc_tenant_id c = t /\ mc_canonical_match_key c = record_key record) /\
  ~ exists c, c ∈ candidates snapshot /\ mc_tenant_id c = t /\ mc_alert_rule_id c = rule_id /\
      mc_alert_rule_revision_id c = Some revision_id /\
      mc_revision_id c = sh_revision_id (se_hit record) /\
      mc_embedding_id c = Some (sh_embedding_id (se_hit record)) /\
      mc_canonical_match_key c = record_key record.

Lemma head_filter_None {A} (p : A -> bool) l :
  head (List.filter p l) = None <-> ~ exists x, x ∈ l /\ p x = true.
Proof.
  destruct (head (List.filter p l)) as [x|] eqn:E.
  - apply head_Some_elem_of, elem_of_filter_bool in E. split; [done|]. intros Hn. destruct Hn. by exists x.
  - split; [|done]. intros _ (x & Hx). apply elem_of_filter_bool in Hx.
    destruct (List.filter p l); [by apply elem_of_nil in Hx | done].
Qed.

Lemma match_statement_lost snapshot record now s db draws o db' draws' :
  match_statement_at snapshot t rule_id revision_id threshold record now s db draws = Ok (o, db', draws') ->
  o = None <-> match_lost record snapshot db.
Proof.
  unfold match_statement_at. cbv zeta. intros E. apply reject_ok in E as [_ E].
  apply bind_ok in E as ([b db1] & E1 & [= <- _ _]). set (row := historical_row _ _ _ _ _ _ _) in *.
  assert (b = false <-> exists c, c ∈ candidates db /\ mc_tenant_id c = t /\
    mc_canonical_match_key c = record_key record) as Hb.
  { unfold insert_candidate in E1. apply reject_ok in E1 as [_ E1].
    destruct (existsb (same_candidate_key row) (candidates db)) eqn:Ek.
    - injection E1 as <- _. split; [|done]. intros _.
      apply existsb_true_Exists, Exists_exists in Ek as (c & Hc & Hk). exists c.
      unfold same_candidate_key in Hk. by bool_prop.
    - assert (b = true) as -> by by inv_ok. split; [done|]. intros (c & Hc & Ht & Hk).
      rewrite (existsb_member _ _ c) in Ek; [done | done|]. unfold same_candidate_key. simpl.
      by rewrite Ht, Hk, !bool_decide_eq_true_2. }
  unfold match_lost. rewrite <-Hb. destruct b; [by split; [|intros []]|].
  rewrite head_filter_None. unfold same_historical_match. split.
  - intros Hn. split; [done|]. intros (c & Hc & ? & ? & ? & ? & ? & ?). apply Hn. exists c. split; [done|].
    by rewrite !bool_decide_eq_true_2.
  - intros [_ Hn] (c & Hc & Hs). apply Hn. exists c. by bool_prop.
Qed.

(** C11: a historical evaluation beside any other transactions that keep the
    tables in order, whatever they commit between its statements and between
    what a statement reads and what it writes: the tables stay in order and no
    row is lost, also when it stops half-way, and every match it answers is
    one of the rule's revision and is kept.  A statement finds no match
    exactly when the key is taken by a row that it did not see as this match,
    because another evaluation has kept it since the statement began, or as
    evidence of the reverse stream; then the evaluation stops with the internal
    error.  With no others it is the evaluation itself. *)
Theorem evaluation_race others search w k :
  (forall n db, integrity db -> integrity (others n db) /\ grows db (others n db)) ->
  integrity (w_db w) -> rule_revision_of (w_db w) t rule_id revision_id ->
  let race := evaluate_matches_at others t rule_id revision_id threshold search (w, k) in
  integrity (w_db race.2.1) /\ grows (w_db w) (w_db race.2.1) /\
  (forall ms, race.1 = Ok ms ->
     Forall (fun m => match_answered t rule_id revision_id m (w_db race.2.1)) ms) /\
  (forall record w k o db' draws',
     let snapshot := others k (w_db w) in
     let db := others (S k) snapshot in
     match_statement_at snapshot t rule_id revision_id threshold record (clock (w_ticks w)) no_settings db
       (w_draws w) = Ok (o, db', draws') ->
     (o = None <-> match_lost record snapshot db) /\
     (o = None -> exists w', persist_match_at others t rule_id revision_id threshold record (w, k) =
        (Err (Http.internal []), (w', S (S k))))) /\
  exists k', evaluate_matches_at nobody t rule_id revision_id threshold search (w, k) =
    let '(r, w') := evaluate_matches t rule_id revision_id threshold search w in (r, (w', k')).
Proof.
  intros Ho I Hr race.
  destruct (evaluate_race others Ho t rule_id revision_id threshold search w k I Hr) as ((I' & G & Hk) & _).
  fold race in I', G, Hk. split; [done|]. split; [done|]. split; [|split].
  - intros ms E. apply Hk. by rewrite E.
  - intros record v n o db' draws' snapshot db E. split; [by eapply match_statement_lost|]. intros ->.
    unfold persist_match_at, autocommit_at, with_transaction_at, execute_at, mbind, Race_bind.
    cbn [w_db w_now w_settings w_draws]. fold snapshot db. rewrite E. by eexists.
  - destruct (alone_evaluate t rule_id revision_id threshold search w k) as [k' E]. exists k'. rewrite E.
    by destruct (evaluate_matches _ _ _ _ _ w).
Qed.
End EvaluateTheorems.

(** ** Two evaluations of one rule *)
Module EvaluateRaceExample.
Import SampleUuid SampleDigest ReverseExample StoreExample.
(** The other evaluation: the same search, for the same rule. *)
Definition other_evaluation (db : Database) : Database :=
  if bool_decide (rule_revision_of db tenant rule_id revision_id)
  then w_db (evaluate_matches tenant rule_id revision_id threshold search
    {| w_db := db; w_draws := 100; w_ticks := 0; w_now := 0; w_settings := no_settings |}).2
  else db.
(** It commits before the insert of the match begins, or during it. *)
Definition rival_at (point n : nat) (db : Database) : Database :=
  if (n =? point)%nat then other_evaluation db else db.
Definition evaluation_beside (point : nat) :=
  evaluate_matches_at (rival_at point) tenant rule_id revision_id threshold search (indexed, 0).
End EvaluateRaceExample.
Import SampleUuid SampleDigest ReverseExample StoreExample EvaluateRaceExample.

Lemma rival_at_preserves point n db :
  integrity db -> integrity (rival_at point n db) /\ grows db (rival_at point n db).
Proof.
  intros I. unfold rival_at, other_evaluation. destruct (n =? point)%nat; [|done].
  case_bool_decide as Hr; [|done].
  destruct (evaluate_matches_triple tenant rule_id revision_id threshold search
    {| w_db := db; w_draws := 100; w_ticks := 0; w_now := 0; w_settings := no_settings |} I Hr)
    as (I' & G & _). by split.
Qed.

(** Closed facts about the example. *)
Ltac closed_nodup := refine (proj1 (bool_decide_eq_true (NoDup _)) _); vm_compute; reflexivity.

Lemma indexed_alerts : alerts_wf (w_db indexed).
Proof.
  constructor; try closed_nodup.
  - by intros r ->%list_elem_of_singleton.
  - intros v ->%list_elem_of_singleton. exists rule. split; [by left | done].
  - intros r a ->%list_elem_of_singleton [= <-]. exists revision. split; [by left | done].
  - intros tn owner. unfold owner_active. simpl. case_match; simpl; lia.
Qed.

Lemma indexed_in_order : integrity (w_db indexed).
Proof.
  constructor; try closed_nodup; [apply indexed_alerts|..]; try apply Forall_nil_2.
  - repeat apply Forall_cons_2; [..|done]; (split; [by left | done]).
  - repeat apply Forall_cons_2; [..|done]; (split; [|done]); [left | right; left].
  - repeat apply Forall_cons_2; [..|done]; eexists; [left | right; left].
Qed.

(** Committed before, the other's match is found; committed during the
    insert, it makes the evaluation fail. *)
Example evaluation_beside_runs :
  match (evaluation_beside 2).1 with Ok ms => length ms | Err _ => 0 end = 1 /\
  (evaluation_beside 3).1 = Err (Http.internal []) /\
  length (candidates (w_db (evaluation_beside 3).2.1)) = 1.
Proof. vm_compute. done. Qed.

Lemma evaluation_race_witness :
  integrity (w_db (evaluation_beside 3).2.1) /\
  match hits with
  | record :: _ => match_lost tenant rule_id revision_id record (w_db indexed) (other_evaluation (w_db indexed))
  | [] => False
  end.
Proof.
  assert (rule_revision_of (w_db indexed) tenant rule_id revision_id) as Hr by (left).
  destruct (evaluation_race tenant rule_id revision_id threshold (rival_at 3) search indexed 0
    (rival_at_preserves 3) indexed_in_order Hr) as (I & _ & _ & Hlost & _).
  split; [exact I|].
  destruct hits as [|record l] eqn:Eh; [vm_compute in Eh; discriminate Eh|].
  assert (exists db' draws', match hits with
    | record :: _ => match_statement_at (w_db indexed) tenant rule_id revision_id threshold record
        (clock (w_ticks indexed)) no_settings (other_evaluation (w_db indexed)) (w_draws indexed) =
        Ok (None, db', draws')
    | [] => False
    end) as (db' & draws' & E) by (do 2 eexists; vm_compute; reflexivity).
  rewrite Eh in E. apply (proj1 (Hlost record indexed 2 None db' draws' E)). reflexivity.
Defined.
