(* ===== verification/OwnView.v ===== *)
(** * What a store operation can see

    [own_db t db] keeps the rows of tenant [t] and nothing else.  A store
    operation of [t] is [local] when running it on its own rows alone gives
    the same answer, and leaves the same rows, as running it on the whole
    database: whatever the other tenants have stored, the operation cannot
    tell.  The property is closed under the monad, given what the operation
    knows of the tables ([Integrity]); identifiers it draws must be new, since
    a primary key spans all tenants. *)

From stdpp Require Import strings.
From S2P Require Import Prelude Ordered RustStr Floats Externals HttpError.
From S2P Require Import Alerts Database AlertStore AlertStoreSpec ReverseMatch Store StoreSpec Integrity.

(** ** The rows of one tenant *)
Section Own.
Context {A : Type} (tenant_of : A -> Uuid) (t : Uuid).

Definition own (l : list A) : list A := List.filter (fun x => bool_decide (tenant_of x = t)) l.

Lemma elem_of_own l x : x ∈ own l <-> x ∈ l /\ tenant_of x = t.
Proof. unfold own. by rewrite elem_of_filter_bool, bool_decide_eq_true. Qed.

(** A test that only the tenant's rows pass does not see the others. *)
Lemma filter_own p l :
  (forall x, x ∈ l -> p x = true -> tenant_of x = t) -> List.filter p (own l) = List.filter p l.
Proof.
  intros Hp. unfold own. rewrite filter_filter_bool. apply filter_ext_elem. intros x Hx.
  destruct (p x) eqn:E; [|by rewrite andb_false_r]. by rewrite bool_decide_eq_true_2 by auto.
Qed.

Lemma existsb_own p l :
  (forall x, x ∈ l -> p x = true -> tenant_of x = t) -> existsb p (own l) = existsb p l.
Proof.
  intros Hp. destruct (existsb p l) eqn:E.
  - apply existsb_true_Exists, Exists_exists in E as (x & Hx & Hpx).
    apply (existsb_member _ _ x); [|done]. apply elem_of_own. auto.
  - rewrite existsb_false_Forall, Forall_forall in *. intros x [Hx _]%elem_of_own. auto.
Qed.

Lemma own_filter p l : own (List.filter p l) = List.filter p (own l).
Proof.
  unfold own. rewrite !filter_filter_bool. apply filter_ext_elem. intros x _. apply andb_comm.
Qed.

Lemma own_snoc l x : tenant_of x = t -> own (l ++ [x]) = own l ++ [x].
Proof. intros Hx. unfold own. rewrite List.filter_app. simpl. by rewrite bool_decide_eq_true_2. Qed.

Lemma own_map (f : A -> A) l : (forall x, tenant_of (f x) = tenant_of x) -> own (map f l) = map f (own l).
Proof. intros Hf. unfold own. apply filter_map_preserve. intros x. by rewrite Hf. Qed.

Lemma own_ids (f : A -> Uuid) l u : u ∉ map f l -> u ∉ map f (own l).
Proof. intros Hu (x & -> & [Hx _]%elem_of_own)%list_elem_of_fmap. apply Hu. by apply list_elem_of_fmap_2. Qed.
End Own.

Definition own_db (t : Uuid) (db : Database) : Database := {|
  sources := own so_tenant_id t (sources db); pages := own pg_tenant_id t (pages db);
  page_revisions := own pv_tenant_id t (page_revisions db);
  embeddings := own em_tenant_id t (embeddings db); rules := own ru_tenant_id t (rules db);
  rule_revisions := own rr_tenant_id t (rule_revisions db);
  rule_embeddings := own re_tenant_id t (rule_embeddings db);
  candidates := own mc_tenant_id t (candidates db) |}.

(** Every primary key in use. *)
Definition ids (db : Database) : list Uuid :=
  map so_id (sources db) ++ map pg_id (pages db) ++ map pv_id (page_revisions db) ++
  map em_id (embeddings db) ++ map ru_id (rules db) ++ map rr_id (rule_revisions db) ++
  map re_id (rule_embeddings db) ++ map mc_id (candidates db).

Section Views.
Context `{Deployment}.
Context (t : Uuid).

(** ** Row-level security sees the same own rows *)
Lemma visible_rules_own s db : visible_rules s (own_db t db) = own ru_tenant_id t (visible_rules s db).
Proof. unfold visible_rules. by rewrite own_filter. Qed.

Lemma revision_policy_own s db rule_id :
  revision_policy s (own_db t db) t rule_id = revision_policy s db t rule_id.
Proof.
  unfold revision_policy. rewrite visible_rules_own, existsb_own; [done|].
  intros x _ Hx. by bool_prop.
Qed.

Lemma visible_rule_revisions_own s db :
  visible_rule_revisions s (own_db t db) = own rr_tenant_id t (visible_rule_revisions s db).
Proof.
  unfold visible_rule_revisions. rewrite own_filter. simpl. apply filter_ext_elem.
  intros v [_ Hv]%elem_of_own. rewrite Hv. apply revision_policy_own.
Qed.

Lemma rule_embedding_policy_own s db rule_id :
  rule_embedding_policy s (own_db t db) t rule_id = rule_embedding_policy s db t rule_id.
Proof.
  unfold rule_embedding_policy. rewrite visible_rules_own, existsb_own; [done|].
  intros x _ Hx. by bool_prop.
Qed.

Lemma visible_rule_embeddings_own s db :
  visible_rule_embeddings s (own_db t db) = own re_tenant_id t (visible_rule_embeddings s db).
Proof.
  unfold visible_rule_embeddings. rewrite own_filter. simpl. apply filter_ext_elem.
  intros e [_ He]%elem_of_own. rewrite He. apply rule_embedding_policy_own.
Qed.

(** Keys of the tenant's rows. *)
Lemma has_rule_own db id : has_rule (own_db t db) t id = has_rule db t id.
Proof. apply existsb_own. intros x _ Hx. by bool_prop. Qed.
Lemma has_rule_revision_own db id : has_rule_revision (own_db t db) t id = has_rule_revision db t id.
Proof. apply existsb_own. intros x _ Hx. by bool_prop. Qed.
Lemma has_rule_embedding_own db id : has_rule_embedding (own_db t db) t id = has_rule_embedding db t id.
Proof. apply existsb_own. intros x _ Hx. by bool_prop. Qed.

(** References by identifier alone, to rows known to be the tenant's. *)
Lemma has_source_in db id : source_in db t id -> has_source db id = true /\ has_source (own_db t db) id = true.
Proof.
  intros (x & [= -> Ht] & Hx)%list_elem_of_fmap. unfold has_source.
  split; apply (existsb_member _ _ x); rewrite ?bool_decide_eq_true; try done. by apply elem_of_own.
Qed.

Lemma has_page_in db id : page_in db t id -> has_page db id = true /\ has_page (own_db t db) id = true.
Proof.
  intros (x & [= -> Ht] & Hx)%list_elem_of_fmap. unfold has_page.
  split; apply (existsb_member _ _ x); rewrite ?bool_decide_eq_true; try done. by apply elem_of_own.
Qed.

Lemma has_page_revision_in db id :
  revision_in db t id -> has_page_revision db id = true /\ has_page_revision (own_db t db) id = true.
Proof.
  intros (page & (x & [= -> Ht _] & Hx)%list_elem_of_fmap). unfold has_page_revision.
  split; apply (existsb_member _ _ x); rewrite ?bool_decide_eq_true; try done. by apply elem_of_own.
Qed.

Lemma has_embedding_in db revision id :
  embedding_of db t revision id -> has_embedding db id = true /\ has_embedding (own_db t db) id = true.
Proof.
  intros (x & [= -> Ht _] & Hx)%list_elem_of_fmap. unfold has_embedding.
  split; apply (existsb_member _ _ x); rewrite ?bool_decide_eq_true; try done. by apply elem_of_own.
Qed.
End Views.

(** ** Rows entering the tables *)
Definition owned {B} (t : Uuid) (p : B * Database) : B * Database := (p.1, own_db t p.2).

Section Inserts.
Context `{Deployment}.
Context (t : Uuid).

Lemma taken_own {A} (f : A -> Uuid) (tenant_of : A -> Uuid) l u :
  u ∉ map f l ->
  existsb (fun x => bool_decide (f x = u)) l = false /\
  existsb (fun x => bool_decide (f x = u)) (own tenant_of t l) = false.
Proof. intros Hu. split; apply existsb_fresh; [done | by apply own_ids]. Qed.

(** Settles a key test and the case split on a conflict. *)
Ltac own_insert tenant_of Hf :=
  destruct (taken_own _ tenant_of _ _ Hf) as [-> ->];
  repeat match goal with |- context [if ?b then _ else _] => destruct b; [done|] end;
  cbn; unfold owned, own_db; simpl; by rewrite own_snoc.

Lemma insert_source_own db row :
  so_tenant_id row = t -> so_id row ∉ map so_id (sources db) ->
  insert_source (own_db t db) row = owned t <$> insert_source db row.
Proof.
  intros Ht Hf. unfold insert_source, has_source. cbn [own_db sources].
  rewrite (existsb_own so_tenant_id t (same_source_key row))
    by (intros x _ Hx; unfold same_source_key in Hx; bool_prop; congruence).
  destruct (negb _); [done|]. destruct (negb _); [done|].
  destruct (existsb (same_source_key row) _); [done|]. own_insert so_tenant_id Hf.
Qed.

Lemma insert_page_revision_own db row :
  pv_tenant_id row = t -> pv_id row ∉ map pv_id (page_revisions db) -> revision_ok db row ->
  insert_page_revision (own_db t db) row = owned t <$> insert_page_revision db row.
Proof.
  intros Ht Hf [Hp Hr]. unfold insert_page_revision. rewrite Ht in *. cbn [own_db page_revisions].
  rewrite (existsb_own pv_tenant_id t (same_page_revision_key row))
    by (intros x _ Hx; unfold same_page_revision_key in Hx; bool_prop; congruence).
  destruct (negb _); [done|]. destruct (existsb (same_page_revision_key row) _); [done|].
  apply has_page_in in Hp as [-> ->].
  assert (null_or (pv_predecessor_revision_id row) (has_page_revision db) = true /\
    null_or (pv_predecessor_revision_id row) (has_page_revision (own_db t db)) = true) as [-> ->].
  { destruct (pv_predecessor_revision_id row) as [r|]; [|done]. apply (has_page_revision_in t).
    exists (pv_page_id row). by apply Hr. }
  own_insert pv_tenant_id Hf.
Qed.

Lemma insert_embedding_own db row :
  em_tenant_id row = t -> em_id row ∉ map em_id (embeddings db) -> embedding_ok db row ->
  insert_embedding (own_db t db) row = owned t <$> insert_embedding db row.
Proof.
  intros Ht Hf Hr. unfold insert_embedding, embedding_ok in *. rewrite Ht in *. cbn [own_db embeddings].
  rewrite (existsb_own em_tenant_id t (same_embedding_key row))
    by (intros x _ Hx; unfold same_embedding_key in Hx; bool_prop; congruence).
  destruct (negb _); [done|]. destruct (existsb (same_embedding_key row) _); [done|].
  apply has_page_revision_in in Hr as [-> ->]. unfold has_embedding. cbn [own_db embeddings]. own_insert em_tenant_id Hf.
Qed.

Lemma insert_rule_embedding_own s db row :
  re_tenant_id row = t -> re_id row ∉ map re_id (rule_embeddings db) ->
  insert_rule_embedding s (own_db t db) row = owned t <$> insert_rule_embedding s db row.
Proof.
  intros Ht Hf. unfold insert_rule_embedding. rewrite Ht, rule_embedding_policy_own.
  rewrite has_rule_own, has_rule_revision_own. cbn [own_db rule_embeddings].
  rewrite (existsb_own re_tenant_id t (same_rule_embedding_key row))
    by (intros x _ Hx; unfold same_rule_embedding_key in Hx; bool_prop; congruence).
  destruct (negb _); [done|]. destruct (negb _); [done|].
  destruct (existsb (same_rule_embedding_key row) _); [done|].
  own_insert re_tenant_id Hf.
Qed.

Lemma insert_candidate_own db row :
  mc_tenant_id row = t -> mc_id row ∉ map mc_id (candidates db) ->
  revision_in db t (mc_revision_id row) ->
  (forall e, mc_embedding_id row = Some e -> embedding_of db t (mc_revision_id row) e) ->
  insert_candidate (own_db t db) row = owned t <$> insert_candidate db row.
Proof.
  intros Ht Hf Hr He. unfold insert_candidate. rewrite Ht, has_rule_own.
  pose proof Hr as [-> ->]%has_page_revision_in.
  assert (null_or (mc_embedding_id row) (has_embedding db) = true /\
    null_or (mc_embedding_id row) (has_embedding (own_db t db)) = true) as [-> ->].
  { destruct (mc_embedding_id row) as [e|]; [|done]. by eapply (has_embedding_in t), He. }
  assert (null_or (mc_alert_rule_revision_id row) (has_rule_revision (own_db t db) t) =
    null_or (mc_alert_rule_revision_id row) (has_rule_revision db t)) as ->.
  { destruct (mc_alert_rule_revision_id row); [|done]. apply has_rule_revision_own. }
  assert (null_or (mc_alert_embedding_id row) (has_rule_embedding (own_db t db) t) =
    null_or (mc_alert_embedding_id row) (has_rule_embedding db t)) as ->.
  { destruct (mc_alert_embedding_id row); [|done]. apply has_rule_embedding_own. }
  cbn [own_db candidates].
  rewrite (existsb_own mc_tenant_id t (same_candidate_key row))
    by (intros x _ Hx; unfold same_candidate_key in Hx; bool_prop; congruence).
  destruct (negb _); [done|]. destruct (existsb (same_candidate_key row) _); [done|].
  own_insert mc_tenant_id Hf.
Qed.
End Inserts.

(** ** New identifiers *)
Section Minting.
Context `{Deployment}.

(** The draws from [lo] to [hi] are new and distinct, as random ones are. *)
Definition new_range (db : Database) (lo hi : nat) : Prop :=
  (forall n, lo <= n < hi -> uuid_draw n ∉ ids db) /\
  (forall n m, lo <= n < hi -> lo <= m < hi -> uuid_draw n = uuid_draw m -> n = m).

Definition new_range_b (db : Database) (lo hi : nat) : bool :=
  let drawn := map uuid_draw (seq lo (hi - lo)) in
  bool_decide (NoDup drawn) && forallb (fun u => bool_decide (u ∉ ids db)) drawn.

Lemma new_range_true db lo hi : new_range_b db lo hi = true -> new_range db lo hi.
Proof.
  unfold new_range_b. cbv zeta. intros [Hd Hn]%andb_true_iff. bool_prop.
  assert (forall n, lo <= n < hi -> n ∈ seq lo (hi - lo)) as Hin by (intros n Hr; apply elem_of_seq; lia).
  split.
  - intros n Hr. rewrite forallb_forall in Hn. apply (bool_decide_eq_true (uuid_draw n ∉ ids db)), Hn.
    apply in_map, list_elem_of_In. by apply Hin.
  - intros n m Hr Hr' E. eapply (NoDup_map_inj uuid_draw); [exact Hd | by apply Hin.. | exact E].
Qed.

(** The keys a statement adds are among its draws. *)
Definition minted (db db' : Database) (lo hi : nat) : Prop :=
  forall u, u ∈ ids db' -> u ∈ ids db \/ exists n, lo <= n < hi /\ u = uuid_draw n.

Lemma new_range_mono db lo hi lo' hi' :
  lo <= lo' -> hi' <= hi -> new_range db lo hi -> new_range db lo' hi'.
Proof. intros Hl Hh [Hn Hd]. split; intros; [apply Hn | apply Hd]; lia || done. Qed.

Lemma new_range_minted db db' lo mid hi :
  lo <= mid -> mid <= hi -> minted db db' lo mid -> new_range db lo hi -> new_range db' mid hi.
Proof.
  intros Hl Hh Hm [Hn Hd]. split.
  - intros n Hr [Hin | (m & Hmr & E)]%Hm; [by apply (Hn n); [lia|]|].
    assert (n = m); [apply Hd; [lia.. | done] | lia].
  - intros n m Hr Hr'. apply Hd; lia.
Qed.

Lemma minted_refl db lo hi : minted db db lo hi.
Proof. by left. Qed.

Lemma minted_trans db1 db2 db3 lo hi :
  minted db1 db2 lo hi -> minted db2 db3 lo hi -> minted db1 db3 lo hi.
Proof. intros H1 H2 u [Hu|Hu]%H2; [by apply H1 | by right]. Qed.

Lemma minted_one db db' lo hi n :
  lo <= n < hi -> ids db' ⊆ uuid_draw n :: ids db -> minted db db' lo hi.
Proof. intros Hn Hs u [->|Hu]%Hs%elem_of_cons; [right; by exists n | by left]. Qed.

Lemma minted_same db db' lo hi : ids db' = ids db -> minted db db' lo hi.
Proof. intros E u Hu. left. by rewrite <-E. Qed.
End Minting.

(** One more row, one more key. *)
Ltac one_id :=
  intros Hi; inv_ok; match type of Hi with (if ?b then _ else _) = _ => destruct b end; inv_ok;
  unfold ids; simpl; rewrite ?map_app; set_solver.

Section Ids.
Context `{Deployment}.
Lemma insert_source_ids db row b db' : insert_source db row = Ok (b, db') -> ids db' ⊆ so_id row :: ids db.
Proof. unfold insert_source. one_id. Qed.
Lemma insert_page_revision_ids db row b db' :
  insert_page_revision db row = Ok (b, db') -> ids db' ⊆ pv_id row :: ids db.
Proof. unfold insert_page_revision. one_id. Qed.
Lemma insert_embedding_ids db row b db' : insert_embedding db row = Ok (b, db') -> ids db' ⊆ em_id row :: ids db.
Proof. unfold insert_embedding. one_id. Qed.
Lemma insert_rule_embedding_ids s db row b db' :
  insert_rule_embedding s db row = Ok (b, db') -> ids db' ⊆ re_id row :: ids db.
Proof. unfold insert_rule_embedding. one_id. Qed.
Lemma insert_candidate_ids db row b db' : insert_candidate db row = Ok (b, db') -> ids db' ⊆ mc_id row :: ids db.
Proof. unfold insert_candidate. one_id. Qed.
End Ids.

(** ** Local operations *)
Definition own_world (t : Uuid) (w : World) : World := with_db w (own_db t (w_db w)).

Section Local.
Context `{Deployment}.
Context (t : Uuid).

Definition own_rows {A} (p : A * Database * nat) : A * Database * nat :=
  let '(a, db, draws) := p in (a, own_db t db, draws).

(** At most three identifiers are drawn by one statement. *)
Definition stmt_local {A} (P : Database -> Prop) (s : Stmt A) : Prop :=
  forall now settings db draws,
    (forall a db' draws', s now settings db draws = Ok (a, db', draws') -> draws <= draws' <= draws + 3) /\
    (integrity db -> P db -> new_range db draws (draws + 3) ->
     s now settings (own_db t db) draws = own_rows <$> s now settings db draws /\
     forall a db' draws', s now settings db draws = Ok (a, db', draws') -> minted db db' draws draws').

Definition fresh (hi : nat) (w : World) : Prop := new_range (w_db w) (w_draws w) hi.

Definition local {A} (P : Database -> Prop) (m : M A) : Prop :=
  forall w, w_draws w <= w_draws (m w).2 /\
    forall hi, integrity (w_db w) -> P (w_db w) -> fresh hi w -> w_draws (m w).2 + 3 <= hi ->
      m (own_world t w) = ((m w).1, own_world t (m w).2) /\ fresh hi (m w).2.

Lemma local_pure {A} (P : Database -> Prop) (m : M A) :
  (forall w, m (own_world t w) = ((m w).1, own_world t (m w).2) /\
     w_db (m w).2 = w_db w /\ w_draws (m w).2 = w_draws w) -> local P m.
Proof.
  intros Hm w. destruct (Hm w) as (E & Hdb & Hd). split; [lia|]. intros hi _ _ Hf _.
  split; [done|]. unfold fresh. by rewrite Hdb, Hd.
Qed.

Lemma local_ret {A} P (a : A) : local P (mret a).
Proof. by apply local_pure. Qed.
Lemma local_lift {A} P (r : result HttpError A) : local P (lift r).
Proof. by apply local_pure. Qed.
Lemma local_utc_now P : local P utc_now.
Proof. by apply local_pure. Qed.

Lemma local_set_request_context P tenant subject admin :
  local P (set_request_context tenant subject admin).
Proof. apply local_pure. intros w. unfold set_request_context. by destruct (negb (text_ok subject)). Qed.

Lemma local_weaken {A} (P P' : Database -> Prop) (m : M A) :
  local P m -> (forall db, P' db -> P db) -> local P' m.
Proof. intros Hm HP w. destruct (Hm w) as [Hd Hr]. split; [done|]. auto. Qed.

Lemma local_bind {A B} P (m : M A) (f : A -> M B) R :
  local P m -> triple P m R -> (forall a, local (R a) (f a)) -> local P (mbind f m).
Proof.
  intros Hm Ht Hf w. destruct (Hm w) as [Hd Hrun]. specialize (Ht w). rewrite !M_bind_run.
  destruct (m w) as [[a|e] w1] eqn:E; simpl in *.
  - destruct (Hf a w1) as [Hd1 Hrun1]. split; [lia|]. intros hi I HP Hfr Hhi.
    destruct (Hrun hi I HP Hfr) as [E1 Hfr1]; [lia|]. destruct (Ht I HP) as (I1 & _ & HR).
    rewrite E1. by apply Hrun1; [| apply HR | |].
  - split; [done|]. intros hi I HP Hfr Hhi. destruct (Hrun hi I HP Hfr Hhi) as [E1 Hfr1].
    by rewrite E1.
Qed.

(** What is computed from an answer needs nothing of the tables. *)
Definition settled {A} (m : M A) : Prop := exists r, forall w, m w = (r, w).

Lemma settled_ret {A} (a : A) : settled (mret a).
Proof. by exists (Ok a). Qed.
Lemma settled_lift {A} (r : result HttpError A) : settled (lift r).
Proof. by exists r. Qed.
Lemma settled_bind {A B} (m : M A) (f : A -> M B) :
  settled m -> (forall a, settled (f a)) -> settled (mbind f m).
Proof.
  intros [[a|e] Hm] Hf; [destruct (Hf a) as [r Hr]; exists r | exists (Err e)]; intros w;
    by rewrite M_bind_run, Hm.
Qed.

Lemma local_settled {A} P (m : M A) : settled m -> local P m.
Proof. intros [r Hr]. apply local_pure. intros w. by rewrite !Hr. Qed.

Lemma local_bind_settled {A B} P (m : M A) (f : A -> M B) :
  local P m -> (forall a, settled (f a)) -> local P (mbind f m).
Proof.
  intros Hm Hf w. destruct (Hm w) as [Hd Hrun]. rewrite !M_bind_run.
  destruct (m w) as [[a|e] w1] eqn:E; simpl in *.
  - destruct (Hf a) as [r Hr]. rewrite Hr. split; [done|]. intros hi I HP Hfr Hhi.
    destruct (Hrun hi I HP Hfr Hhi) as [E1 Hfr1]. by rewrite E1, Hr.
  - split; [done|]. intros hi I HP Hfr Hhi. destruct (Hrun hi I HP Hfr Hhi) as [E1 Hfr1]. by rewrite E1.
Qed.

Lemma local_execute {A} P (s : Stmt A) : stmt_local P s -> local P (execute s).
Proof.
  intros Hs w. unfold execute. destruct (Hs (w_now w) (w_settings w) (w_db w) (w_draws w)) as [Hd Hrun].
  destruct (s _ _ (w_db w) _) as [[[a db] draws]|e] eqn:E; simpl.
  - destruct (Hd a db draws eq_refl) as [Hlo Hhi']. split; [lia|]. intros hi I HP Hfr Hhi.
    destruct (Hrun I HP) as [E' Hm]; [eapply new_range_mono; [..|exact Hfr]; lia|].
    rewrite E'. split; [done|]. unfold fresh. simpl.
    eapply new_range_minted; [exact Hlo | lia | by eapply Hm | exact Hfr].
  - split; [done|]. intros hi I HP Hfr Hhi.
    destruct (Hrun I HP) as [E' _]; [eapply new_range_mono; [..|exact Hfr]; lia|]. by rewrite E'.
Qed.

Lemma local_transaction {A} P (m : M A) : local P m -> local P (with_transaction m).
Proof.
  intros Hm w. unfold with_transaction.
  set (w1 := {| w_db := w_db w; w_draws := _; w_ticks := _; w_now := _; w_settings := _ |}).
  destruct (Hm w1) as [Hd Hrun]. change (w_draws w1) with (w_draws w) in Hd.
  destruct (m w1) as [r w2] eqn:E; simpl in *. split; [done|]. intros hi I HP Hfr Hhi.
  destruct (Hrun hi I HP Hfr Hhi) as [E' Hfr2].
  change (m _) with (m (own_world t w1)). rewrite E'. destruct r; [done|].
  split; [done|]. unfold fresh in *. simpl in *. by eapply new_range_mono; [exact Hd | | exact Hfr].
Qed.

Lemma local_autocommit {A} P (s : Stmt A) : stmt_local P s -> local P (autocommit s).
Proof. intros Hs. by apply local_transaction, local_execute. Qed.

(** A query that draws nothing. *)
Lemma stmt_local_read {A} P (s : Stmt A) :
  (forall now settings db draws a db' draws', s now settings db draws = Ok (a, db', draws') ->
     db' = db /\ draws' = draws) ->
  (forall now settings db draws, s now settings (own_db t db) draws = own_rows <$> s now settings db draws) ->
  stmt_local P s.
Proof.
  intros Hs Ho now settings db draws. split.
  - intros a db' draws' E. destruct (Hs _ _ _ _ _ _ _ E) as [_ ->]. lia.
  - intros _ _ _. split; [apply Ho|]. intros a db' draws' E. destruct (Hs _ _ _ _ _ _ _ E) as [-> _].
    apply minted_refl.
Qed.
End Local.
#[export] Hint Resolve settled_ret settled_lift settled_bind : eal.

(** ** Reads *)
Lemma own_flat_map {A B} (f : A -> list B) (ta : A -> Uuid) (tb : B -> Uuid) t l :
  (forall x y, x ∈ l -> y ∈ f x -> tb y = ta x) -> own tb t (flat_map f l) = flat_map f (own ta t l).
Proof.
  induction l as [|x l IH]; intros Hf; [done|]. unfold own in *. simpl.
  rewrite List.filter_app, IH by (intros; eapply Hf; [by right | done]).
  case_bool_decide as Hx; simpl.
  - rewrite filter_all; [done|]. intros y Hy. apply bool_decide_eq_true. rewrite <-Hx.
    apply Hf; [by left | done].
  - rewrite filter_none; [done|]. intros y Hy. apply bool_decide_eq_false.
    rewrite (Hf x y); [done | by left | done].
Qed.

Lemma flat_map_ext_elem {A B} (f g : A -> list B) l :
  (forall x, x ∈ l -> f x = g x) -> flat_map f l = flat_map g l.
Proof.
  induction l as [|x l IH]; intros Hf; simpl; [done|].
  rewrite (Hf x) by left. f_equal. apply IH. intros y Hy. apply Hf. by right.
Qed.

Section Reads.
Context `{Deployment, PgLib}.
Context (t : Uuid).

Lemma active_rule_rows_own s db :
  active_rule_rows s (own_db t db) = own (fun row => ru_tenant_id row.1) t (active_rule_rows s db).
Proof.
  unfold active_rule_rows. rewrite visible_rules_own, visible_rule_revisions_own.
  rewrite (own_flat_map _ ru_tenant_id) by (intros x y _ (v & -> & _)%list_elem_of_fmap; done).
  apply flat_map_ext_elem. intros rule [_ Hr]%elem_of_own. f_equal.
  apply filter_own. intros v _ Hv. bool_prop. congruence.
Qed.

Lemma own_same_bind {A B} P (m : M A) (f : A -> M B) :
  (forall w, w_db (m w).2 = w_db w) -> local t P m -> (forall a, local t P (f a)) ->
  local t P (mbind f m).
Proof. intros Hu Hm Hf. eapply local_bind; [exact Hm | by apply triple_unchanged | exact Hf]. Qed.

Lemma execute_read {A} (s : Stmt A) w :
  (forall now settings db draws a db' draws', s now settings db draws = Ok (a, db', draws') -> db' = db) ->
  w_db (execute s w).2 = w_db w.
Proof.
  intros Hs. unfold execute. destruct (s _ _ _ _) as [[[a db] draws]|e] eqn:E; [by eapply Hs | done].
Qed.

(** A query under the caller's row-level security context. *)
Lemma local_reading {A B} P (s : Stmt A) (f : A -> B) tenant subject admin :
  stmt_local t P s ->
  (forall now settings db draws a db' draws', s now settings db draws = Ok (a, db', draws') -> db' = db) ->
  local t P (with_transaction
    (_ ← set_request_context tenant subject admin; a ← execute s; mret (f a))).
Proof.
  intros Hs Hr. apply local_transaction.
  apply own_same_bind; [apply set_request_context_unchanged | apply local_set_request_context|]. intros [].
  apply own_same_bind; [intros w; by apply execute_read | by apply local_execute|]. intros a.
  apply local_ret.
Qed.

Lemma list_alert_rules_local P subject admin : local t P (list_alert_rules t subject admin).
Proof.
  unfold list_alert_rules. apply own_same_bind; [| |intros; apply local_lift].
  - intros w. apply reading_transaction. unfold list_statement. intros. inv_ok. done.
  - apply local_reading; [apply stmt_local_read|]; unfold list_statement; intros; [by inv_ok| |by inv_ok].
    rewrite active_rule_rows_own, filter_own by (intros [r v] _ Hx; bool_prop; done).
    by destruct (negb _).
Qed.

Lemma get_alert_rule_local P id subject admin : local t P (get_alert_rule t id subject admin).
Proof.
  unfold get_alert_rule. apply own_same_bind; [| |intros; apply local_lift].
  - intros w. apply reading_transaction. unfold get_statement. intros. inv_ok. done.
  - apply local_reading; [apply stmt_local_read|]; unfold get_statement; intros; [by inv_ok| |by inv_ok].
    rewrite active_rule_rows_own, filter_own by (intros [r v] _ Hx; bool_prop; done).
    by destruct (negb _).
Qed.

Lemma require_alert_rule_local P id subject admin : local t P (require_alert_rule t id subject admin).
Proof.
  unfold require_alert_rule. apply own_same_bind;
    [apply get_alert_rule_unchanged | apply get_alert_rule_local | intros; apply local_lift].
Qed.
End Reads.

(** ** Creating a rule *)
Lemma not_in_ids db u :
  u ∉ ids db ->
  (u ∉ map so_id (sources db)) /\ (u ∉ map pg_id (pages db)) /\
  (u ∉ map pv_id (page_revisions db)) /\ (u ∉ map em_id (embeddings db)) /\
  (u ∉ map ru_id (rules db)) /\ (u ∉ map rr_id (rule_revisions db)) /\
  (u ∉ map re_id (rule_embeddings db)) /\ (u ∉ map mc_id (candidates db)).
Proof. unfold ids. set_solver. Qed.

Section Creation.
Context `{Deployment, PgLib}.
Context (t : Uuid).

Lemma enabled_rule_own db r : ru_tenant_id r = t -> enabled_rule (own_db t db) r = enabled_rule db r.
Proof.
  intros Hr. unfold enabled_rule, enabled_active. destruct (ru_active_revision_id r); [|done].
  cbn [own_db rule_revisions]. rewrite filter_own; [done|]. intros v _ Hv. bool_prop. congruence.
Qed.

Lemma owner_active_own db owner : owner_active (own_db t db) t owner = owner_active db t owner.
Proof.
  unfold owner_active. cbn [own_db rules]. rewrite filter_own by (intros x _ Hx; by bool_prop).
  apply filter_ext_elem. intros r _.
  destruct (bool_decide (ru_tenant_id r = t)) eqn:E; [|done]. bool_prop. by rewrite enabled_rule_own.
Qed.

Lemma alerts_wf_own db : alerts_wf db -> alerts_wf (own_db t db).
Proof.
  intros W. constructor; simpl.
  - apply NoDup_map_filter, W.
  - apply NoDup_map_filter, W.
  - intros r [Hr _]%elem_of_own. by apply W.
  - intros v [Hv Ht]%elem_of_own. destruct (aw_revision_rule _ W v Hv) as (r & Hr & Hi & Hrt).
    exists r. split; [|done]. apply elem_of_own. split; [done | congruence].
  - intros r a [Hr Ht]%elem_of_own Ha. destruct (aw_active _ W r a Hr Ha) as (v & Hv & Hi & Hvt & Hvr).
    exists v. split; [|done]. apply elem_of_own. split; [done | congruence].
  - intros tenant owner. destruct (decide (tenant = t)) as [->|Hn].
    + rewrite owner_active_own. apply W.
    + unfold owner_active. simpl. rewrite filter_none; [simpl; lia|].
      intros r [_ Hr]%elem_of_own. rewrite (bool_decide_eq_false_2 (ru_tenant_id r = tenant)); [done | congruence].
Qed.

(** Whatever it does, a creation draws twice and reads the clock once. *)
Lemma create_frame subject input w :
  (create_alert_rule t subject input w).2 =
  {| w_db := w_db (create_alert_rule t subject input w).2; w_draws := S (S (w_draws w));
     w_ticks := S (w_ticks w); w_now := clock (w_ticks w); w_settings := w_settings w |}.
Proof.
  destruct w as [db draws ticks now0 settings].
  unfold create_alert_rule, new_v4, with_transaction, set_request_context, execute, require_one,
    throw, lift, mret, M_ret, mbind, M_bind. cbn [w_db w_draws w_ticks w_now w_settings].
  destruct (negb (text_ok subject)); [done|].
  unfold insert_rule_statement, insert_revision_statement, activate_statement, created_statement.
  cbn [w_db w_draws w_ticks w_now w_settings].
  destruct (insert_rule _ _ _) as [db1|]; cbn [mbind result_bind w_db w_draws w_ticks w_now w_settings Nat.eqb]; [|done].
  destruct (insert_rule_revision _ _ _) as [db2|]; cbn [mbind result_bind w_db w_draws w_ticks w_now w_settings Nat.eqb]; [|done].
  destruct (update_active_revision _ _ _ _ _ _) as [[n db3]|]; cbn [mbind result_bind w_db w_draws w_ticks w_now w_settings]; [|done].
  destruct (n =? 1)%nat; [|done]. cbn [mbind result_bind w_db w_draws w_ticks w_now w_settings].
  destruct (decode_optional _ _); [|done]. by destruct (ok_or _ _).
Qed.

Lemma creatable_own w subject input : creatable (own_world t w) t subject input = creatable w t subject input.
Proof. unfold creatable. cbn [own_world with_db w_db]. by rewrite owner_active_own. Qed.

Lemma created_db_own db r v now :
  ru_tenant_id r = t -> rr_tenant_id v = t ->
  created_db (own_db t db) r v now = own_db t (created_db db r v now).
Proof. intros Hr Hv. unfold created_db, own_db. simpl. by rewrite !own_snoc. Qed.

Lemma create_alert_rule_local P subject input : local t P (create_alert_rule t subject input).
Proof.
  intros w. pose proof (create_frame subject input w) as F. pose proof (create_frame subject input (own_world t w)) as F'.
  split; [rewrite F; simpl; lia|]. intros hi I _ Hfr Hhi. rewrite F in Hhi. simpl in Hhi.
  assert (forall n, n < 2 -> uuid_draw (n + w_draws w) ∉ ids (w_db w)) as Hnew
    by (intros n Hn; apply Hfr; lia).
  assert (fresh_draws w) as Hd.
  { split; [apply (not_in_ids _ _ (Hnew 0 ltac:(lia))) | apply (not_in_ids _ _ (Hnew 1 ltac:(lia)))]. }
  assert (fresh_draws (own_world t w)) as Hd' by (destruct Hd; split; by apply own_ids).
  pose proof (create_run t subject input w (in_alerts _ I) Hd) as R.
  pose proof (create_run t subject input (own_world t w) (alerts_wf_own _ (in_alerts _ I)) Hd') as R'.
  cbv zeta in R, R'. rewrite creatable_own in R'.
  change (rule_to_create (own_world t w) t subject) with (rule_to_create w t subject) in R'.
  change (revision_to_create (own_world t w) t subject input) with (revision_to_create w t subject input) in R'.
  destruct (creatable w t subject input).
  - destruct R as (rule & w1 & E & Hdec & Hdb), R' as (rule' & w1' & E' & Hdec' & Hdb').
    rewrite E in F. rewrite E' in F'. simpl in F, F'. rewrite E, E'. simpl.
    change (w_ticks (own_world t w)) with (w_ticks w) in Hdec'. rewrite Hdec in Hdec'. injection Hdec' as <-.
    split.
    + f_equal. rewrite F, F', Hdb, Hdb'. unfold own_world, with_db. simpl. f_equal.
      by apply created_db_own.
    + unfold fresh. rewrite F. simpl. rewrite Hdb.
      eapply (new_range_minted (w_db w) _ (w_draws w)); [lia | lia | | exact Hfr].
      intros u Hu. destruct (decide (u ∈ ids (w_db w))) as [|Hn]; [by left | right].
      unfold ids, created_db in Hu, Hn. simpl in Hu. rewrite !map_app in Hu. simpl in Hu.
      assert (u = uuid_draw (w_draws w) \/ u = uuid_draw (S (w_draws w))) as [-> | ->] by set_solver;
        eexists; (split; [|reflexivity]); lia.
  - destruct R as (e & w1 & E & -> & Hdb), R' as (e' & w1' & E' & -> & Hdb').
    rewrite E in F. rewrite E' in F'. simpl in F, F'. rewrite E, E'. simpl. split.
    + f_equal. by rewrite F, F', Hdb, Hdb'.
    + unfold fresh. rewrite F. simpl. rewrite Hdb. by eapply new_range_mono; [..|exact Hfr]; lia.
Qed.
End Creation.
