(* ===== verification/OwnStore.v ===== *)
(** * Store operations see their tenant only

    Every operation of [src/store.rs] and [src/reverse_match.rs] is [local]
    ([OwnView]): searching, ingesting and matching answer as if the other
    tenants had stored nothing. *)

From stdpp Require Import strings.
From S2P Require Import Prelude Ordered RustStr Floats Externals HttpError.
From S2P Require Import Alerts Database AlertStore AlertStoreSpec ReverseMatch Store StoreSpec Integrity OwnView.

(** ** Statements *)
Section Statements.
Context `{Deployment}.
Context (t : Uuid).

Lemma new_draw db draws n :
  new_range db draws (draws + 3) -> n < 3 -> uuid_draw (n + draws) ∉ ids db.
Proof. intros Hn Hlt. apply Hn. lia. Qed.

(** A statement that tries one insert under one new identifier and answers
    from the outcome. *)
Lemma stmt_local_insert {A} (P : Database -> Prop) (s : Stmt A)
    (insert : Timestamp -> Settings -> Database -> nat -> result DbErr (bool * Database))
    (answer : Timestamp -> Database -> nat -> bool -> A) :
  (forall now settings db draws, s now settings db draws =
     '(b, db') ← insert now settings db draws; Ok (answer now db draws b, db', S draws)) ->
  (forall now settings db draws b db', insert now settings db draws = Ok (b, db') ->
     ids db' ⊆ uuid_draw draws :: ids db) ->
  (forall now settings db draws, integrity db -> P db -> uuid_draw draws ∉ ids db ->
     insert now settings (own_db t db) draws = owned t <$> insert now settings db draws) ->
  (forall now db draws b, answer now (own_db t db) draws b = answer now db draws b) ->
  stmt_local t P s.
Proof.
  intros Hs Hids Hins Hans now settings db draws. split.
  - intros a db' draws' E. rewrite Hs in E. apply bind_ok in E as ([b db1] & _ & [= _ _ <-]). lia.
  - intros I HP Hn. rewrite !Hs, Hins; [|done|done|exact (new_draw db draws 0 Hn ltac:(lia))]. split.
    + destruct (insert _ _ _ _) as [[b db']|]; [|done]. simpl. by rewrite Hans.
    + intros a db' draws' E. apply bind_ok in E as ([b db1] & E1 & [= _ <- <-]).
      eapply (minted_one _ _ _ _ draws); [lia | by eapply Hids].
Qed.

Lemma rejects_own {A} (e : DbErr) c (r r' : result DbErr (A * Database)) :
  r' = owned t <$> r -> (reject e when c ;; r') = owned t <$> (reject e when c ;; r).
Proof. intros ->. by destruct c. Qed.
End Statements.

(** ** Sources *)
Section Sources.
Context `{UuidLib, DigestLib, InterfacesLib, PgLib, Deployment, RowDecoders}.
Context (t : Uuid).

(** A query and what is made of its rows. *)
Lemma local_query {A B} P (s : Stmt A) (f : A -> M B) :
  (forall now settings db draws a db' draws', s now settings db draws = Ok (a, db', draws') ->
     db' = db /\ draws' = draws) ->
  (forall now settings db draws, s now settings (own_db t db) draws = own_rows t <$> s now settings db draws) ->
  (forall a, local t P (f a)) -> local t P (mbind f (autocommit s)).
Proof.
  intros Hs Ho Hf. apply own_same_bind; [| |done].
  - intros w. unfold autocommit, with_transaction.
    set (w1 := {| w_db := w_db w; w_draws := _; w_ticks := _; w_now := _; w_settings := _ |}).
    pose proof (execute_read s w1 ltac:(intros; by eapply Hs)) as E.
    destruct (execute s w1) as [[a|e] w2]; [exact E | done].
  - by apply local_autocommit, stmt_local_read.
Qed.

Lemma list_sources_local P : local t P (Store.list_sources t).
Proof.
  unfold Store.list_sources. apply local_query; [| |intros; apply local_lift];
    unfold list_sources_statement; intros; [by inv_ok|].
  cbn [own_db sources]. by rewrite filter_own by (intros x _ Hx; by bool_prop).
Qed.

Lemma get_source_local P id : local t P (Store.get_source t id).
Proof.
  unfold Store.get_source. apply local_query; [| |intros; apply local_lift];
    unfold get_source_statement; intros; [by inv_ok|].
  cbn [own_db sources]. by rewrite filter_own by (intros x _ Hx; by bool_prop).
Qed.

Lemma create_source_local P input root : local t P (Store.create_source t input root).
Proof.
  unfold Store.create_source. apply local_bind_settled; [|eauto with eal]. apply local_autocommit.
  eapply (stmt_local_insert t _ _ (fun now _ db draws => insert_source db (new_source (uuid_draw draws) t input root now))
    (fun now _ draws b => if (b : bool) then Some (new_source (uuid_draw draws) t input root now) else None));
    try done.
  - intros now settings db draws b db'. apply insert_source_ids.
  - intros now settings db draws _ _ Hn. apply insert_source_own; [done | apply (not_in_ids _ _ Hn)].
Qed.

(** ** Search *)
Lemma joined_rows_own db request :
  joined_rows (own_db t db) t request = joined_rows db t request.
Proof.
  unfold joined_rows. cbn [own_db embeddings page_revisions pages].
  rewrite (filter_own em_tenant_id) by (intros x _ Hx; by bool_prop).
  apply flat_map_ext_elem. intros e [_ He]%elem_of_filter_bool. bool_prop.
  rewrite (filter_own pv_tenant_id) by (intros x _ Hx; bool_prop; congruence).
  apply flat_map_ext_elem. intros v [_ Hv]%elem_of_filter_bool. bool_prop. f_equal.
  apply filter_own. intros x _ Hx. bool_prop. congruence.
Qed.

Lemma search_embeddings_local P request : local t P (Store.search_embeddings t request).
Proof.
  unfold Store.search_embeddings. apply local_query.
  - unfold search_statement. intros. by inv_ok.
  - intros now settings db draws. unfold search_statement, filtered_rows. rewrite joined_rows_own.
    destruct (negb _); [done|]. destruct (ok_or _ _); [|done]. simpl.
    by destruct (mapM _ _).
  - intros rows. apply own_same_bind; [done | apply local_lift | intros; apply local_ret].
Qed.

(** ** Historical matches *)
Lemma persist_match_local rule_id revision_id threshold record :
  local t (record_in t record) (persist_match t rule_id revision_id threshold record).
Proof.
  unfold persist_match. apply local_bind_settled; [|eauto with eal]. apply local_autocommit.
  set (row := fun now draws => historical_row (uuid_draw draws) t rule_id revision_id threshold record now).
  apply (stmt_local_insert t _ _
    (fun now _ db draws => reject InvalidText
       when negb (texts_ok (mc_canonical_match_key (row now draws) ::
                            evidence_texts (mc_score_explanation (row now draws)))) ;;
       insert_candidate db (row now draws))
    (fun now db draws b => if (b : bool) then Some (row now draws)
       else head (List.filter (same_historical_match (row now draws)) (candidates db)))).
  - intros now settings db draws. unfold match_statement, match_statement_at. cbv beta zeta. by destruct (negb _).
  - intros now settings db draws b db' E. apply reject_ok in E as [_ E]. by eapply insert_candidate_ids in E.
  - intros now settings db draws I [Hr He] Hn. apply rejects_own.
    apply insert_candidate_own; [done | apply (not_in_ids _ _ Hn) | exact Hr | by intros e [= <-]].
  - intros now db draws [|]; [done|]. cbn [own_db candidates].
    by rewrite filter_own by (intros x _ Hx; unfold same_historical_match in Hx; by bool_prop).
Qed.

Lemma persist_matches_local rule_id revision_id threshold records :
  local t (matchable t rule_id revision_id records)
    (persist_matches t rule_id revision_id threshold records).
Proof.
  induction records as [|record records IH]; simpl; [apply local_ret|].
  eapply local_bind; [|apply persist_first_match_triple|].
  - eapply local_weaken; [apply persist_match_local|]. by intros db [_ [Hr _]%Forall_cons].
  - intros candidate. apply local_bind_settled; [exact IH | eauto with eal].
Qed.

Lemma evaluate_matches_local rule_id revision_id threshold search :
  local t (fun db => rule_revision_of db t rule_id revision_id)
    (Store.evaluate_matches t rule_id revision_id threshold search).
Proof.
  unfold Store.evaluate_matches. cbv zeta. eapply local_bind;
    [apply search_embeddings_local | apply search_embeddings_triple | intros page; apply persist_matches_local].
Qed.
End Sources.

(** ** Registering a rule embedding *)
Section Registration.
Context `{UuidLib, DigestLib, InterfacesLib, PgLib, Deployment}.
Context (t : Uuid).

Lemma upsert_target_own s db rule_id revision_id model :
  upsert_target s (own_db t db) t rule_id revision_id model = upsert_target s db t rule_id revision_id model.
Proof.
  unfold upsert_target. rewrite active_rule_rows_own. apply filter_own. intros [r v] _ Hx. by bool_prop.
Qed.

Lemma upsert_statement_local P rule_id request sha generated_at :
  stmt_local t P (upsert_statement t rule_id request sha generated_at).
Proof.
  intros now s db draws. unfold upsert_statement, upsert_statement_at. cbv zeta. rewrite upsert_target_own.
  destruct (negb _); [by split|]. destruct (ok_or _ _) as [vector|]; [|by split]. simpl.
  destruct (upsert_target _ _ _ _ _ _) as [|[rule revision] l].
  { split; [intros; inv_ok; lia|]. intros _ _ _. split; [done|]. intros. inv_ok. apply minted_refl. }
  set (row := upsert_row _ _ _ _ _ _ _ _ _). split.
  - intros a db' draws' E. apply bind_ok in E as ([b db1] & _ & E). destruct b; inv_ok; lia.
  - intros _ _ Hn. rewrite insert_rule_embedding_own;
      [| done | apply (not_in_ids _ _ (new_draw db draws 0 Hn ltac:(lia)))]. split.
    + destruct (insert_rule_embedding s db row) as [[[|] db']|]; [done| |done]. simpl.
      by rewrite visible_rule_embeddings_own, filter_own by (intros x _ Hx; by bool_prop).
    + intros a db' draws' E. apply bind_ok in E as ([b db1] & E1%insert_rule_embedding_ids & E).
      assert (db' = db1 /\ draws' = S draws) as [-> ->] by (destruct b; by injection E as <- <- <-).
      eapply (minted_one _ _ _ _ draws); [lia | exact E1].
Qed.

Lemma upsert_alert_rule_embedding_local P rule_id request :
  local t P (upsert_alert_rule_embedding t rule_id request).
Proof.
  unfold upsert_alert_rule_embedding. cbv zeta.
  apply own_same_bind; [done | apply local_lift|]. intros [].
  apply own_same_bind; [done | apply local_utc_now|]. intros generated_at.
  apply local_bind_settled; [apply local_autocommit, upsert_statement_local|]. intros row.
  apply settled_bind; [apply settled_lift|]. intros [wire created].
  case_match; [apply settled_lift | apply settled_ret].
Qed.
End Registration.

(** ** Recording a page *)
Section Pages.
Context `{Deployment}.
Context (t : Uuid).

Lemma upsert_page_own source url id fetched_at now db :
  source_in db t source -> id ∉ ids db ->
  upsert_page t source url id fetched_at now (own_db t db) =
  (fun '(page_id, latest, db') => (page_id, latest, own_db t db')) <$> upsert_page t source url id fetched_at now db.
Proof.
  intros Hs Hn. destruct (not_in_ids _ _ Hn) as (_ & Hp & _). unfold upsert_page. cbn [own_db pages].
  rewrite (filter_own pg_tenant_id) by (intros x _ Hx; unfold same_page in Hx; by bool_prop).
  destruct (List.filter _ _) as [|p l].
  - unfold has_page. cbn [own_db pages]. destruct (taken_own t _ pg_tenant_id _ _ Hp) as [-> ->].
    destruct (has_source_in t _ _ Hs) as [-> ->]. simpl. unfold own_db. simpl. by rewrite own_snoc.
  - simpl. unfold own_db. simpl. rewrite own_map; [done|]. intros x. by destruct (same_page _ _ _ x).
Qed.

Lemma upsert_page_ids source url id fetched_at now db page_id latest db' :
  upsert_page t source url id fetched_at now db = Ok (page_id, latest, db') -> ids db' ⊆ id :: ids db.
Proof.
  unfold upsert_page. destruct (List.filter _ _) as [|p l]; intros E; inv_ok; unfold ids; simpl.
  - rewrite map_app. set_solver.
  - rewrite map_map. rewrite (map_ext (fun x => pg_id _) pg_id); [set_solver|].
    intros x. by destruct (same_page _ _ _ x).
Qed.

Lemma selected_own db (p : PageRevisionRow -> bool) :
  (forall v, p v = true -> pv_tenant_id v = t) ->
  List.filter p (page_revisions (own_db t db)) = List.filter p (page_revisions db).
Proof. intros Hp. apply filter_own. intros x _. apply Hp. Qed.
End Pages.

(** ** The reverse stream *)
Section Reverse.
Context `{UuidLib, DigestLib, InterfacesLib, PgLib, Deployment}.
Context (t : Uuid).

Lemma page_statement_local source request original final content sha :
  stmt_local t (fun db => source_in db t source)
    (page_statement t source request original final content sha).
Proof.
  intros now s db draws. unfold page_statement, page_statement_at. cbv zeta. destruct (negb _); [by split|]. split.
  - intros a db' draws' E. apply bind_ok in E as ([[page_id latest] db1] & _ & E).
    apply bind_ok in E as ([b db2] & _ & [= _ _ <-]). lia.
  - intros I Hs Hn. rewrite upsert_page_own by (done || exact (new_draw db draws 0 Hn ltac:(lia))).
    destruct (upsert_page _ _ _ _ _ _ _) as [[[page_id latest] db1]|] eqn:E1; [|done].
    destruct (upsert_page_preserved _ _ _ _ _ _ _ _ _ _ I Hs E1) as ([I1 _] & Er & Hp & Hl).
    simpl. set (row := {| pv_id := _; pv_tenant_id := _ |}). rewrite (insert_page_revision_own t db1 row);
      [|done| rewrite Er; apply (not_in_ids _ _ (new_draw db draws 1 Hn ltac:(lia))) | by split].
    split.
    + destruct (insert_page_revision db1 row) as [[[|] db2]|]; [done| |done]. simpl.
      by rewrite (filter_own pv_tenant_id) by (intros x _ Hx; by bool_prop).
    + intros a db' draws' E. apply bind_ok in E as ([b db2] & E2 & [= _ <- <-]).
      apply (minted_trans _ db1).
      * apply (minted_one _ _ _ _ draws); [lia | by eapply upsert_page_ids].
      * apply (minted_one _ _ _ _ (S draws)); [lia | by apply insert_page_revision_ids in E2].
Qed.

Lemma latest_revision_statement_local page fetched_at :
  stmt_local t (wire_in t page)
    (latest_revision_statement t (pw_page_id page) (pw_page_revision_id page) fetched_at).
Proof.
  intros now s db draws. unfold latest_revision_statement. cbv zeta. split.
  - intros a db' draws' E. apply reject_ok in E as [_ [= _ _ <-]]. lia.
  - intros I Hw Hn. destruct (has_page_revision_in t db (pw_page_revision_id page)) as [-> ->];
      [by exists (pw_page_id page)|]. rewrite !andb_false_r. split.
    + simpl. unfold own_db. simpl. rewrite own_map; [done|]. intros x. by case_match.
    + intros a db' draws' [= _ <- <-]. apply minted_same. unfold ids. simpl. do 2 f_equal.
      rewrite map_map. apply map_ext. intros x. by case_match.
Qed.

Lemma upsert_page_revision_local source request original final :
  local t (fun db => source_in db t source) (upsert_page_revision t source request original final).
Proof.
  unfold upsert_page_revision. cbv zeta.
  eapply local_bind; [apply local_execute, page_statement_local | apply triple_execute, page_statement_triple|].
  intros row. eapply (local_bind _ _ _ _ (wire_in t)).
  - apply local_lift.
  - apply triple_lift. intros page db Hp Hrow. apply ok_or_ok in Hp. by apply Hrow.
  - intros page. apply local_bind_settled; [|eauto with eal].
    apply local_execute, latest_revision_statement_local.
Qed.

Lemma eligible_embeddings_own s db source embedding :
  eligible_embeddings s (own_db t db) t source embedding = eligible_embeddings s db t source embedding.
Proof.
  unfold eligible_embeddings.
  rewrite visible_rule_embeddings_own, visible_rules_own, visible_rule_revisions_own.
  rewrite (filter_own re_tenant_id) by (intros x _ Hx; by bool_prop).
  apply flat_map_ext_elem. intros e [_ He]%elem_of_filter_bool. bool_prop.
  rewrite (filter_own ru_tenant_id) by (intros x _ Hx; bool_prop; congruence).
  apply flat_map_ext_elem. intros rule _. f_equal.
  apply filter_own. intros x _ Hx. bool_prop. congruence.
Qed.

Lemma candidate_statement_reads source request now s db draws a db' draws' :
  candidate_statement t source request now s db draws = Ok (a, db', draws') -> db' = db /\ draws' = draws.
Proof. unfold candidate_statement. intros. by inv_ok. Qed.

Lemma find_alert_candidates_local P source request : local t P (find_alert_candidates t source request).
Proof.
  unfold find_alert_candidates. apply local_bind_settled; [|eauto with eal].
  apply local_execute, stmt_local_read; [intros *; apply candidate_statement_reads|].
  intros now s db draws. unfold candidate_statement. cbv zeta. rewrite eligible_embeddings_own.
  destruct (negb _); [done|]. destruct (ok_or _ _); [|done]. simpl. by destruct (mapM _ _).
Qed.

Lemma persist_reverse_candidate_local revision sha request vector_sha candidate key explanation :
  local t (fun db => revision_in db t revision)
    (persist_reverse_candidate t revision sha request vector_sha candidate key explanation).
Proof.
  unfold persist_reverse_candidate. apply local_bind_settled; [|eauto with eal]. apply local_execute.
  set (row := fun now draws => reverse_row (uuid_draw draws) t revision request vector_sha candidate key
    explanation now).
  apply (stmt_local_insert t _ _
    (fun now _ db draws => reject InvalidText
       when negb (texts_ok ([vector_sha; ep_model (rp_embedding request);
                             ep_model_version (rp_embedding request); key; sha] ++
                            evidence_texts explanation)) ;;
       insert_candidate db (row now draws))
    (fun now db draws b => if (b : bool) then Some (row now draws)
       else head (List.filter (fun existing => same_reverse_evidence existing (row now draws) &&
              existsb (fun v => bool_decide (pv_tenant_id v = t) &&
                 bool_decide (pv_id v = mc_revision_id existing) &&
                 bool_decide (pv_content_sha256 v = sha)) (page_revisions db)) (candidates db)))).
  - intros now settings db draws. unfold persist_statement, persist_statement_at. cbv beta zeta. by destruct (negb _).
  - intros now settings db draws b db' E. apply reject_ok in E as [_ E]. by eapply insert_candidate_ids in E.
  - intros now settings db draws I Hr Hn. apply rejects_own.
    by apply insert_candidate_own; [| apply (not_in_ids _ _ Hn) | |].
  - intros now db draws [|]; [done|]. cbn [own_db candidates page_revisions]. f_equal.
    rewrite (filter_own mc_tenant_id)
      by (intros x _ Hx; unfold same_reverse_evidence in Hx; bool_prop; done).
    apply filter_ext_elem. intros x _. f_equal. apply existsb_own. intros v _ Hv. by bool_prop.
Qed.

Lemma persist_candidates_local page request url vector_sha rows :
  local t (ready t page rows) (persist_candidates t page request url vector_sha rows).
Proof.
  induction rows as [|row rows IH]; simpl; [apply local_ret|]. case_match.
  - eapply local_weaken; [exact IH|]. by intros db [Hr [_ Hf]%Forall_cons].
  - eapply local_bind; [|apply persist_first_triple|].
    + eapply local_weaken; [apply persist_reverse_candidate_local | by intros db [Hr _]].
    + intros durable. apply local_bind_settled; [|eauto with eal].
      eapply local_weaken; [exact IH | by intros db [? _]].
Qed.

Lemma ingest_and_reverse_match_local source request original final :
  local t (fun db => source_in db t source) (ingest_and_reverse_match t source request original final).
Proof.
  unfold ingest_and_reverse_match. apply own_same_bind; [done | apply local_lift|]. intros [].
  apply local_transaction.
  eapply local_bind; [apply upsert_page_revision_local | apply upsert_page_revision_triple|].
  intros page. cbv zeta.
  eapply local_bind; [apply find_alert_candidates_local | apply find_alert_candidates_triple|].
  intros rows. apply local_bind_settled; [|eauto with eal].
  eapply local_weaken; [apply persist_candidates_local | intros db; apply ready_rows].
Qed.
End Reverse.

(** ** Ingesting a page with its vector *)
Section Ingest.
Context `{UuidLib, DigestLib, InterfacesLib, PgLib, Deployment, RowDecoders}.
Context (t : Uuid).

(** The statement looks the page up by its identifier alone; identifiers are
    distinct, so it finds the tenant's. *)
Lemma current_page_own snapshot db page_id :
  integrity db -> grows snapshot db -> page_in db t page_id ->
  List.filter (fun p => bool_decide (pg_id p = page_id)) (pages (own_db t snapshot)) =
  List.filter (fun p => bool_decide (pg_id p = page_id)) (pages snapshot).
Proof.
  intros I G Hp. apply filter_own. intros x Hx E. bool_prop.
  apply list_elem_of_fmap in Hp as (q & [= -> ->] & Hq).
  assert (page_key x ∈ map page_key (pages db)) as (q' & [= E2 E3] & Hq')%list_elem_of_fmap
    by (apply (gr_pages _ _ G); by apply key_elem).
  assert (q' = q) as ->; [|done]. apply (NoDup_map_inj pg_id (pages db)); try done; [apply I | congruence].
Qed.

Lemma ingest_revision_own snapshot db page_id row sha :
  integrity snapshot -> integrity db -> grows snapshot db -> page_in db t page_id ->
  (forall latest, pv_tenant_id (row latest) = t /\ pv_page_id (row latest) = page_id /\
     pv_predecessor_revision_id (row latest) = latest /\ pv_id (row latest) ∉ map pv_id (page_revisions db)) ->
  ingest_revision (own_db t snapshot) (own_db t db) t page_id row sha =
  owned t <$> ingest_revision snapshot db t page_id row sha.
Proof.
  intros I0 I G Hp Hrow. unfold ingest_revision. rewrite (current_page_own snapshot db) by done.
  rewrite selected_own by (intros v Hv; by bool_prop). cbv zeta.
  destruct (List.filter _ (pages snapshot)) as [|p l] eqn:El; [done|].
  destruct (Hrow (pg_latest_revision_id p)) as (Ht & Hpage & Hpred & Hid).
  rewrite insert_page_revision_own; [|done|done|].
  - by destruct (insert_page_revision db _) as [[[|] db']|].
  - assert (p ∈ p :: l) as Hin by left. rewrite <-El, <-(current_page_own snapshot db) in Hin by done.
    apply elem_of_filter_bool in Hin as [[Hin Htp]%elem_of_own Hid']. bool_prop. split; rewrite Ht, Hpage; [done|].
    rewrite Hpred. intros r Hr. apply (gr_revisions _ _ G). rewrite <-Htp, <-Hid'.
    by apply (proj1 (Forall_forall _ _) (in_pages _ I0) p Hin).
Qed.

Lemma ingest_embedding_own snapshot db row :
  em_tenant_id row = t -> em_id row ∉ map em_id (embeddings db) -> embedding_ok db row ->
  ingest_embedding (own_db t snapshot) (own_db t db) row = owned t <$> ingest_embedding snapshot db row.
Proof.
  intros Ht Hn Hok. unfold ingest_embedding. rewrite insert_embedding_own by done. cbn [own_db embeddings].
  rewrite (filter_own em_tenant_id) by (intros x _ Hx; unfold same_embedding_key in Hx; bool_prop; congruence).
  by destruct (insert_embedding db row) as [[[|] db']|].
Qed.

Lemma ingest_revision_ids snapshot db page_id row sha id revision db' :
  (forall latest, pv_id (row latest) = id) ->
  ingest_revision snapshot db t page_id row sha = Ok (revision, db') -> ids db' ⊆ id :: ids db.
Proof.
  intros Hid. unfold ingest_revision. cbv zeta. destruct (List.filter _ _) as [|p l]; intros E.
  - injection E as _ <-. set_solver.
  - apply bind_ok in E as ([b db1] & E%insert_page_revision_ids & [= _ <-]). by rewrite Hid in E.
Qed.

Lemma ingest_embedding_ids snapshot db row embedding db' :
  ingest_embedding snapshot db row = Ok (embedding, db') -> ids db' ⊆ em_id row :: ids db.
Proof. intros E. by apply bind_ok in E as ([b db1] & E%insert_embedding_ids & [= _ <-]). Qed.

(** One key drawn leaves the later draws new. *)
Lemma new_range_step db db' lo hi :
  new_range db lo hi -> lo < hi -> ids db' ⊆ uuid_draw lo :: ids db -> new_range db' (S lo) hi.
Proof.
  intros Hn Hlt Hs. eapply (new_range_minted db db' lo); [lia | lia | | exact Hn].
  by apply (minted_one _ _ _ _ lo); [lia|].
Qed.

Lemma minted_step db db' db'' lo mid hi :
  minted db db' lo mid -> mid < hi -> lo <= mid -> ids db'' ⊆ uuid_draw mid :: ids db' -> minted db db'' lo hi.
Proof.
  intros Hm Hlt Hle Hs u [->|Hu]%Hs%elem_of_cons; [right; exists mid; by split; [lia|]|].
  destruct (Hm u Hu) as [?|(n & Hn & ->)]; [by left | right; exists n; by split; [lia|]].
Qed.

Lemma ingest_statement_local source input original final content sha :
  stmt_local t (fun db => source_in db t source) (ingest_statement t source input original final content sha).
Proof.
  intros now s db draws. unfold ingest_statement. cbv zeta. destruct (negb _); [by split|].
  destruct (ok_or _ _) as [vector|]; [|by split]. cbn [mbind result_bind]. split.
  - intros a db' draws' E. apply bind_ok in E as ([[page_id latest] db1] & _ & E).
    apply bind_ok in E as ([[[revision changed]|] db2] & _ & E); [|inv_ok; lia].
    apply bind_ok in E as ([embedding db3] & _ & [= _ _ <-]). lia.
  - intros I Hs Hn. rewrite upsert_page_own by (done || exact (new_draw db draws 0 Hn ltac:(lia))).
    destruct (upsert_page _ _ _ _ _ _ _) as [[[page_id latest] db1]|] eqn:E1; [|done].
    destruct (upsert_page_preserved _ _ _ _ _ _ _ _ _ _ I Hs E1) as ([I1 G1] & _ & Hp & _).
    apply upsert_page_ids in E1. pose proof (new_range_step _ _ _ _ Hn ltac:(lia) E1) as Hn1.
    assert (minted db db1 draws (S draws)) as M1 by (by apply (minted_one _ _ _ _ draws); [lia|]).
    cbn [fmap result_fmap mbind result_bind].
    set (row := fun latest => ingest_revision_row t page_id latest _ _ _ _ _ _ _).
    rewrite (ingest_revision_own db db1 page_id row);
      [|done|done|done|done|intros l; do 3 (split; [done|]); apply not_in_ids, Hn1; lia].
    destruct (ingest_revision db db1 t page_id row sha) as [[revision db2]|] eqn:E2; [|done].
    pose proof (ingest_revision_preserved t _ _ _ row _ _ _ I I1 G1 Hp ltac:(done) E2) as [[I2 _] Hrev].
    apply (ingest_revision_ids _ _ _ _ _ (uuid_draw (S draws))) in E2; [|done].
    pose proof (new_range_step _ _ _ _ Hn1 ltac:(lia) E2) as Hn2.
    assert (minted db db2 draws (S (S draws))) as M2 by (eapply minted_step; [exact M1 | lia | lia | exact E2]).
    cbn [fmap result_fmap mbind result_bind owned fst snd].
    destruct revision as [[revision_id changed]|].
    2:{ split; [done|]. intros a db' draws' [= _ <- <-]. intros u [?|(n & ? & ->)]%M2; [by left | right; exists n; by split; [lia|]]. }
    rewrite ingest_embedding_own;
      [|done|apply not_in_ids, Hn2; lia|by exists page_id; eapply Hrev].
    destruct (ingest_embedding db db2 _) as [[embedding db3]|] eqn:E3; [|done].
    apply ingest_embedding_ids in E3. cbn [fmap result_fmap mbind result_bind owned fst snd].
    rewrite !update_visible_modified. split.
    + simpl. unfold own_db. simpl. by rewrite own_map.
    + intros a db' draws' [= _ <- <-].
      apply (minted_trans _ db3); [eapply minted_step; [exact M2 | lia | lia | exact E3]|].
      apply minted_same. unfold ids. simpl. do 2 f_equal. by rewrite map_map.
Qed.

Lemma ingest_page_local source input original final :
  local t (fun db => source_in db t source) (Store.ingest_page t source input original final).
Proof.
  unfold Store.ingest_page. cbv zeta. apply local_bind_settled; [|eauto with eal].
  apply local_autocommit, ingest_statement_local.
Qed.
End Ingest.
