(* ===== verification/Reachability.v ===== *)
(** * Every state the server can reach

    Requests arrive in any order, from anyone, at any time, with any
    configuration; the tables a server started on an empty database can reach
    are those a sequence of requests leaves.  They are always in order. *)

From stdpp Require Import strings relations.
From S2P Require Import Prelude Ordered RustStr Floats Externals Samples HttpError.
From S2P Require Import SourceScope Alerts Indexing Auth AuthSpec WorkerAuth Database.
From S2P Require Import AlertStore AlertStoreSpec ReverseMatch ReverseMatchSpec Store StoreSpec.
From S2P Require Import Server Routes Changes Isolation ServerSpec Integrity.

Section Steps.
Context `{UuidLib, DigestLib, InterfacesLib, PgLib, Deployment, RowDecoders, UrlLib,
  HeaderLib, JsonLib, Base64Lib, HmacLib}.

Definition tables (s : ServerWorld) : Database := w_db (sv_world s).

(** One request, whatever its environment, headers and time. *)
Inductive server_step : ServerWorld -> ServerWorld -> Prop :=
| ServerStep env state headers unix_now request s :
    server_step s (handle env state headers unix_now request s).2.

Definition initial (s : ServerWorld) : Prop := tables s = empty_database.
Definition reachable (s : ServerWorld) : Prop := exists s0, initial s0 /\ rtc server_step s0 s.

(** ** Triples of handlers *)
Definition htriple {A} (P : Database -> Prop) (h : Handler A) (Q : A -> Database -> Prop) : Prop :=
  forall s, integrity (tables s) -> P (tables s) ->
    leads Q (tables s) (to_option (h s).1) (tables (h s).2).

Abbreviation nothing := (fun _ : Database => True).
Abbreviation anything := (fun _ _ => True).

Lemma htriple_ret {A} (P : Database -> Prop) (a : A) : htriple P (mret a) (fun _ => P).
Proof. intros s I HP. split; [done|]. split; [done|]. by intros ? [= <-]. Qed.

Lemma htriple_check {A} P (r : result HttpError A) (Q : A -> Database -> Prop) :
  (forall a db, r = Ok a -> P db -> Q a db) -> htriple P (check r) Q.
Proof.
  intros HQ s I HP. split; [done|]. split; [done|]. intros a. simpl.
  destruct r; [|done]. intros [= ->]. by apply HQ.
Qed.

Lemma htriple_bind {A B} P (h : Handler A) (f : A -> Handler B) R Q :
  htriple P h R -> (forall a, htriple (R a) (f a) Q) -> htriple P (mbind f h) Q.
Proof.
  intros Hh Hf s I HP. destruct (Hh s I HP) as (I1 & G1 & HR).
  change (mbind f h s) with (match h s with (Ok a, s') => f a s' | (Err e, s') => (Err e, s') end).
  destruct (h s) as [[a|e] s1]; simpl in *; [|by apply leads_none].
  destruct (Hf a s1 I1 (HR a eq_refl)) as (I2 & G2 & HQ). split; [done|]. split; [by etrans | done].
Qed.

Lemma htriple_store {A} P (m : M A) Q : triple P m Q -> htriple P (store_call m) Q.
Proof.
  intros Hm s I HP. specialize (Hm (sv_world s) I HP). unfold store_call.
  by destruct (m (sv_world s)) as [r w].
Qed.

Lemma htriple_weaken {A} (P P' : Database -> Prop) (h : Handler A) (Q Q' : A -> Database -> Prop) :
  htriple P h Q -> (forall db, P' db -> P db) -> (forall a db, Q a db -> Q' a db) -> htriple P' h Q'.
Proof.
  intros Hh HP HQ s I HP'. destruct (Hh s I (HP _ HP')) as (I1 & G1 & HQ1).
  split; [done|]. split; [done|]. auto.
Qed.

(** Whatever keeps the integrity from any state does so from better ones. *)
Lemma htriple_any {A} (P : Database -> Prop) (h : Handler A) :
  htriple nothing h anything -> htriple P h anything.
Proof. intros Hh. by eapply htriple_weaken. Qed.

Lemma htriple_publish_event tenant audience event_type data :
  htriple nothing (publish_event tenant audience event_type data) anything.
Proof. intros s I _. split; [done|]. by split. Qed.

Lemma htriple_publish_matches tenant owner l : htriple nothing (publish_matches tenant owner l) anything.
Proof.
  induction l as [|m l IH]; simpl; [apply htriple_ret|].
  eapply htriple_bind; [apply htriple_publish_event | by intros []].
Qed.

(** ** Handlers *)
Context (env : Env) (state : AppState) (headers : HeaderMap) (unix_now : Z).

(** A page route goes on only with a source of its tenant. *)
Lemma htriple_admitted_urls t source_id url final_url :
  htriple nothing (admitted_urls t source_id url final_url) (fun _ db => source_in db t source_id).
Proof.
  unfold admitted_urls. eapply htriple_bind; [apply htriple_store, get_source_triple|]. intros o.
  eapply (htriple_bind _ _ _ (fun _ db => source_in db t source_id)).
  { apply htriple_check. intros policy db Hp Ho. apply ok_or_ok in Hp. by eapply Ho. }
  intros policy. do 3 (eapply htriple_bind;
    [by apply (htriple_check _ _ (fun _ db => source_in db t source_id))|]; intros ?).
  apply htriple_ret.
Qed.

(** Binds, checks and calls that need nothing of the tables. *)
Ltac step_check := eapply (htriple_bind _ (check _) _ anything); [by apply htriple_check|]; intros ?.
Ltac keep_check :=
  match goal with
  | |- htriple ?P _ _ => eapply (htriple_bind _ (check _) _ (fun _ => P)); [by apply htriple_check|]; intros ?
  end.
Tactic Notation "step_store" uconstr(lem) := eapply (htriple_bind _ _ _ anything); [apply htriple_store, lem|]; intros ?.
Ltac step_event :=
  eapply htriple_bind;
  [apply htriple_publish_event || apply htriple_publish_matches|]; intros ?.

Lemma htriple_handle request :
  htriple nothing (handle env state headers unix_now request) anything.
Proof.
  destruct request; simpl handle.
  - apply htriple_ret.
  - unfold list_records, authenticated, database. do 2 step_check.
    step_store list_alert_rules_triple. apply htriple_ret.
  - unfold get_record, authenticated, database. do 2 step_check.
    eapply htriple_bind; [apply htriple_store, get_alert_rule_triple|]. intros o.
    eapply (htriple_bind _ _ _ anything); [by apply htriple_check|]. intros ?. apply htriple_ret.
  - unfold create_record, authenticated, database. do 3 step_check.
    step_store create_alert_rule_triple. step_event. apply htriple_ret.
  - unfold upsert_alert_embedding, database. do 4 step_check.
    step_store upsert_alert_rule_embedding_triple. apply htriple_ret.
  - unfold list_sources_route, authenticated, database. do 2 step_check.
    step_store list_sources_triple. apply htriple_ret.
  - unfold get_source_route, authenticated, database. do 2 step_check.
    eapply htriple_bind; [apply htriple_store, get_source_triple|]. intros o.
    eapply (htriple_bind _ _ _ anything); [by apply htriple_check|]. intros ?. apply htriple_ret.
  - unfold create_source_route, authenticated, database. do 5 step_check.
    step_store create_source_triple. step_event. apply htriple_ret.
  - unfold ingest_page_route, database. do 5 step_check.
    eapply htriple_bind; [apply htriple_admitted_urls|]. intros [original final].
    step_store ingest_page_triple. step_event. apply htriple_ret.
  - unfold reverse_match_page, database. do 5 step_check.
    eapply htriple_bind; [apply htriple_admitted_urls|]. intros [original final].
    eapply htriple_bind; [apply htriple_store, ingest_and_reverse_match_triple|]. intros resp.
    apply htriple_any. step_event. apply htriple_ret.
  - unfold search_embeddings_route, authenticated, database. do 3 step_check.
    eapply htriple_bind; [apply htriple_store, search_embeddings_triple|]. intros page.
    apply htriple_any, htriple_ret.
  - unfold evaluate_matches_route, authenticated, database. cbv zeta. do 4 step_check.
    eapply htriple_bind; [apply htriple_store, require_alert_rule_triple|]. intros rule. do 4 keep_check.
    eapply htriple_bind; [apply htriple_store, evaluate_matches_triple|]. intros l.
    step_event. apply htriple_ret.
Qed.
End Steps.

Section Reachable.
Context `{UuidLib, DigestLib, InterfacesLib, PgLib, Deployment, RowDecoders, UrlLib,
  HeaderLib, JsonLib, Base64Lib, HmacLib}.

Lemma steps_in_order s s' :
  rtc server_step s s' -> integrity (tables s) -> integrity (tables s') /\ grows (tables s) (tables s').
Proof.
  induction 1 as [|a b c [env state headers unix_now request a'] _ IH]; intros I; [done|].
  destruct (htriple_handle env state headers unix_now request a' I Logic.I) as (I1 & G1 & _).
  destruct (IH I1) as [I2 G2]. split; [done | by etrans].
Qed.

Lemma reachable_in_order s : reachable s -> integrity (tables s).
Proof.
  intros (s0 & Hi & Hr). apply (steps_in_order _ _ Hr). unfold initial in Hi. rewrite Hi.
  apply integrity_empty.
Qed.

(** The declared constraints hold of the empty tables and are kept. *)
Lemma steps_constraints s s' : rtc server_step s s' -> constraints (tables s) -> constraints (tables s').
Proof.
  induction 1 as [|a b c [env state headers unix_now request a'] _ IH]; intros C; [done|].
  apply IH. destruct (handle_writes env state headers unix_now request a') as [t W].
  by eapply writes_constraints.
Qed.

(** C4: in every state the server reaches from an empty database, each of the
    eight tables satisfies the CHECK and UNIQUE constraints the migrations
    declare for it, and no text has a NUL character: a source has hosts,
    paths, modes and a crawl interval within its bounds and its root URL to
    itself in its tenant; a page its URL in its source; a revision a final
    status from 200 to 399 and its content hash in its page; a vector and a
    rule embedding a known normalization, a dimension that fits and its model
    space; a rule revision texts, threshold, filters and channels within
    their bounds and its number in its rule; a match the fields its mode
    requires and its key in its tenant. *)
Theorem reachable_constraints s : reachable s -> constraints (tables s).
Proof.
  intros (s0 & Hi & Hr). apply (steps_constraints _ _ Hr). unfold initial in Hi. rewrite Hi.
  apply constraints_empty.
Qed.

(** C2: every state the server reaches from an empty database, by any
    requests with any outcome, is in order: identifiers and match keys are
    distinct; every owner has at most ten enabled active rules; and every row
    refers only to rows of its own tenant, a page to its source and to a
    revision of its own, a revision to its page and to a predecessor of the
    same page, a stored vector to its revision, a rule to a revision of its
    own, a rule embedding to its rule and to a revision of that rule, and
    evidence of a match to its rule, a revision of that rule, a page
    revision, and vectors of that page revision or that rule revision.  Rows
    are never removed or handed to another tenant. *)
Theorem reachable_integrity s s' :
  reachable s -> rtc server_step s s' ->
  integrity (tables s') /\ search_wf (tables s') /\ grows (tables s) (tables s').
Proof.
  intros Hr Hs. destruct (steps_in_order _ _ Hs (reachable_in_order _ Hr)) as [I G].
  split; [done|]. split; [|done]. by constructor; apply I.
Qed.
End Reachable.

(** ** A first request *)
Module TraceExample.
Import SampleUrl SampleDigest AuthExample ReverseExample StoreExample.
Definition state : AppState := {|
  as_environment := Production; as_db := true; as_schema_ready := true;
  as_ingest_auth_configured := true; as_auth := AuthExample.config; as_allowed_origins := [];
  as_supabase_url := None |}.
Definition empty_world : ServerWorld := {| sv_world := AlertExample.world; sv_events := [] |}.
Definition with_rule : ServerWorld :=
  (handle AuthExample.env state (AuthExample.headers [lit "Bearer " ++ token] []) 1500
     (CreateRecord AlertExample.input) empty_world).2.
End TraceExample.
Import AuthExample ReverseExample StoreExample TraceExample.

Lemma reachable_integrity_witness :
  length (rules (tables with_rule)) = 1 /\ length (sv_events with_rule) = 1 /\
  integrity (tables with_rule).
Proof.
  split; [vm_compute; reflexivity|]. split; [vm_compute; reflexivity|].
  refine (proj1 (reachable_integrity empty_world with_rule _ _)).
  - exists empty_world. split; [reflexivity | apply rtc_refl].
  - apply rtc_once. apply ServerStep.
Defined.

Lemma reachable_constraints_witness :
  length (rule_revisions (tables with_rule)) = 1 /\ constraints (tables with_rule) /\
  Forall rule_revision_typed (rule_revisions (tables with_rule)).
Proof.
  split; [vm_compute; reflexivity|].
  assert (constraints (tables with_rule)) as C.
  { apply reachable_constraints. exists empty_world. split; [reflexivity | apply rtc_once, ServerStep]. }
  split; [exact C | exact (ck_rule_revisions _ C)].
Defined.
