(* ===== verification/PageRoute.v ===== *)
(** * What a crawler's page means over HTTP

    The route [POST /v1/sources/{source_id}/pages/reverse-match] from its
    headers and body to the tables and events: [reverse_match_page] composes the crawler's
    credentials, the source policy, the canonical URLs and the ingestion. *)

From stdpp Require Import strings relations.
From S2P Require Import Prelude Ordered RustStr Floats Externals Samples HttpError.
From S2P Require Import SourceScope Alerts Indexing Auth AuthSpec WorkerAuth Database.
From S2P Require Import AlertStore AlertStoreSpec ReverseMatch ReverseMatchSpec ReverseIngestSpec.
From S2P Require Import Store StoreSpec Server Routes Changes Isolation ServerSpec Integrity Reachability.

Section PageRoute.
Context `{UuidLib, DigestLib, InterfacesLib, PgLib, Deployment, RowDecoders, !RowDecoderLaws, UrlLib,
  HeaderLib, JsonLib, Base64Lib, HmacLib}.

(** The source a crawler may send pages of. *)
Record open_source (db : Database) (t id : Uuid) (row : SourceRow) : Prop := {
  os_row : row ∈ sources db;
  os_id : so_id row = id;
  os_tenant : so_tenant_id row = t;
  os_enabled : so_enabled row = true
}.

Definition canonical_in (row : SourceRow) (raw_url canonical : str) : Prop :=
  canonicalize raw_url (so_allowed_hosts row) (so_include_subdomains row) (so_allowed_path_prefixes row) =
    Ok canonical.

Lemma get_source_run t id w :
  exists w', Store.get_source t id w = (decode_optional (decode_row source_policy_of_row)
    (head (List.filter (fun s => bool_decide (so_tenant_id s = t) && bool_decide (so_id s = id))
       (sources (w_db w)))), w') /\ w_db w' = w_db w.
Proof. unfold Store.get_source. rewrite M_bind_run. cbn. eexists. split; [reflexivity | done]. Qed.

(** Looking the source up and the URLs through it changes nothing. *)
Lemma admitted_urls_run t id url final_url s :
  exists r w', admitted_urls t id url final_url s = (r, {| sv_world := w'; sv_events := sv_events s |}) /\
    w_db w' = tables s /\
    forall original final, r = Ok (original, final) ->
      exists row, open_source (tables s) t id row /\ canonical_in row url original /\
        canonical_in row final_url final.
Proof.
  unfold admitted_urls. rewrite handler_bind_run. unfold store_call.
  destruct (get_source_run t id (sv_world s)) as (w' & -> & Hw).
  destruct (head _) as [row|] eqn:Eh; unfold decode_optional, decode_row.
  2:{ cbn. do 2 eexists. split; [reflexivity|]. by split. }
  apply head_Some_elem_of, elem_of_filter_bool in Eh as [Hin Hp]. bool_prop.
  destruct (source_policy_of_row row) as [policy|] eqn:Ep; cbn [ok_or fmap result_fmap].
  2:{ do 2 eexists. split; [reflexivity|]. by split. }
  apply source_policy_fields in Ep as (Een & Eh & Es & Epp). rewrite check_bind_run. cbn [ok_or].
  rewrite check_bind_run. destruct (po_enabled policy) eqn:Eo; cbn [negb].
  2:{ do 2 eexists. split; [reflexivity|]. by split. }
  unfold canonicalize_for_source. rewrite Eh, Es, Epp.
  rewrite check_bind_run. destruct (canonicalize url _ _ _) as [u|] eqn:Eu; cbn [map_err].
  2:{ do 2 eexists. split; [reflexivity|]. by split. }
  rewrite check_bind_run. destruct (canonicalize final_url _ _ _) as [f|] eqn:Ef; cbn [map_err].
  2:{ do 2 eexists. split; [reflexivity|]. by split. }
  do 2 eexists. split; [reflexivity|]. split; [done|]. intros ? ? [= <- <-].
  exists row. split; [|done]. constructor; done || congruence.
Qed.

Context (env : Env) (state : AppState) (headers : HeaderMap).

(** What a page that was taken stands for: who sent it, the source it was
    admitted by, and what was answered, kept and announced. *)
Record taken_page (source_id : Uuid) (input : ReverseAlertPageRequest) (s s' : ServerWorld)
    (code : StatusCode) (body : Body) (t : Uuid) (row : SourceRow) (original final : str)
    (resp : ReverseAlertMatchResponse) (event : TenantEvent Body) : Prop := {
  tk_crawler : WorkerAuth.authorize env headers = Ok tt;
  tk_tenant : tenant_id_from_headers headers = Ok t;
  tk_valid : ReverseMatch.validate input = Ok tt;
  tk_same : rp_source_id input = source_id;
  tk_ready : as_db state = true /\ as_schema_ready state = true;
  tk_source : open_source (tables s) t source_id row;
  tk_urls : canonical_in row (rp_url input) original /\ canonical_in row (rp_final_url input) final;
  tk_body : body = ReverseBody resp;
  tk_code : code = if rm_changed resp then StatusCode.CREATED else StatusCode.OK;
  tk_kept : response_kept t resp (tables s');
  tk_matches : forall a, a ∈ rm_candidates resp -> exists e ru v,
    admits t source_id input (tables s) e ru v /\ ra_alert_embedding_id a = re_id e /\
    ra_alert_rule_id a = ru_id ru /\ ra_alert_rule_revision_id a = rr_id v;
  tk_events : sv_events s' = sv_events s ++ [event];
  tk_event : te_tenant_id event = t /\ ev_tenant_id (te_payload event) = t /\
    te_audience event = TenantAdministrators /\ ev_data (te_payload event) = ReverseBody resp
}.

(** C6: sending a page over HTTP.  Whatever fails, the credentials, the
    tenant header, the body, the source, a URL outside it or the database,
    the tables and the events are as they were.  A page is taken only from a
    crawler with the configured token, for an enabled source of the tenant it
    names, with both URLs canonical within that source; the answer is 201 or
    200 as the content is new or known, every row it names is there
    afterwards, every match is of an enabled active rule of the tenant whose
    scope has the source, and exactly one event is broadcast, with the
    answer, to the tenant's administrators. *)
Theorem reverse_match_page_outcome source_id input s :
  reachable s ->
  match reverse_match_page env state headers source_id input s with
  | (Err e, s') => tables s' = tables s /\ sv_events s' = sv_events s
  | (Ok (code, body), s') => exists t row original final resp event,
      taken_page source_id input s s' code body t row original final resp event
  end.
Proof.
  intros Hr. unfold reverse_match_page, database.
  rewrite check_bind_run. destruct (WorkerAuth.authorize _ _) as [[]|] eqn:Ea; [|done].
  rewrite check_bind_run. destruct (tenant_id_from_headers headers) as [t|] eqn:Et; [|done].
  rewrite check_bind_run. destruct (validate input) as [[]|] eqn:Ev; [|done]. cbn [map_err].
  rewrite check_bind_run. destruct (same_source _ _) as [[]|] eqn:Es; [|done].
  rewrite check_bind_run. destruct (require_database state) as [[]|] eqn:Ed; [|done].
  rewrite handler_bind_run.
  destruct (admitted_urls_run t source_id (rp_url input) (rp_final_url input) s) as (r & w1 & -> & Hw & Hopen).
  destruct r as [[original final]|e]; [|by split].
  destruct (Hopen original final eq_refl) as (row & Hrow & Ho & Hf).
  rewrite handler_bind_run. unfold store_call at 1. cbn [sv_world sv_events].
  destruct (ingest_and_reverse_match t source_id input original final w1) as [[resp|e] w2] eqn:Ei.
  2:{ split; [|done]. unfold tables in *. cbn [sv_world]. apply ingest_err in Ei. congruence. }
  rewrite handler_bind_run. unfold same_source in Es. apply reject_ok in Es as [Es _]. bool_prop.
  unfold require_database in Ed. apply reject_ok in Ed as [Er Ed].
  exists t, row, original, final, resp. eexists. constructor; try done.
  - by apply dec_stable.
  - apply negb_false_iff in Er. by destruct (as_db state).
  - unfold tables. cbn [sv_world w_db]. pose proof (reachable_in_order _ Hr) as I. rewrite <-Hw in I.
    assert (source_in (w_db w1) t source_id) as Hs.
    { destruct Hrow as [Hin <- <- _]. rewrite Hw. by apply (key_elem source_key). }
    destruct (ingest_and_reverse_match_triple t source_id input original final w1 I Hs) as (_ & _ & Hk).
    rewrite Ei in Hk. by apply Hk.
  - intros a Ha. destruct (candidate_admitted _ _ _ _ _ _ _ _ _ Ei Ha)
      as (e & ru & v & Had & Hd1 & Hd2 & Hd3 & _). rewrite Hw in Had. by exists e, ru, v.
Qed.
End PageRoute.

(** ** A source and its first page *)
Module PageExample.
Import SampleUrl SampleDigest AuthExample ReverseExample StoreExample TraceExample.
#[export] Instance row_decoder_laws : RowDecoderLaws.
Proof. constructor. by intros row policy [= <-]. Defined.
(** [https://news.example] and a path. *)
Definition url (page_path : str) : str := SampleUrl.to_string
  (Build_sample_url (lit "https") [] None (Some (Domain (lit "news.example"))) None page_path None None).
Definition policy : CreateSourcePolicy := {|
  cs_name := lit "News"; cs_root_url := url (lit "/"); cs_allowed_hosts := [lit "news.example"];
  cs_allowed_path_prefixes := [lit "/"]; cs_include_subdomains := false; cs_discovery_modes := [Manual];
  cs_crawl_interval_seconds := 60; cs_max_depth := 1; cs_max_pages_per_run := 1; cs_obey_robots := true;
  cs_enabled := true |}.
Definition as_admin : HeaderMap := AuthExample.headers [lit "Bearer " ++ AuthExample.token] [].
Definition with_source : ServerWorld :=
  (handle AuthExample.env state as_admin 1500 (CreateSource policy) empty_world).2.
Definition page : ReverseAlertPageRequest := {|
  rp_source_id := uuid_draw 0; rp_url := url (lit "/a"); rp_final_url := url (lit "/b"); rp_title := None;
  rp_content_text := lit "a  b"; rp_content_type := lit "text/html"; rp_http_status := 200;
  rp_published_at := None; rp_fetched_at := 7; rp_embedding := payload f32_one;
  rp_max_candidates := 100 |}.
Definition as_crawler : HeaderMap := {| header_values name :=
  if bool_decide (name = TENANT_HEADER) then [uuid_to_string AuthExample.tenant]
  else header_values (WorkerExample.headers [WorkerExample.token]) name |}.
End PageExample.
Import AuthExample ReverseExample StoreExample TraceExample PageExample.

Lemma with_source_reachable : reachable with_source.
Proof. exists empty_world. split; [reflexivity|]. apply rtc_once. unfold with_source. apply ServerStep. Qed.

Lemma reverse_match_page_outcome_witness :
  exists body s' t row original final resp event,
    reverse_match_page WorkerExample.env TraceExample.state as_crawler (uuid_draw 0) page with_source =
      (Ok (StatusCode.CREATED, body), s') /\
    taken_page WorkerExample.env TraceExample.state as_crawler (uuid_draw 0) page with_source s'
      StatusCode.CREATED body t row original final resp event.
Proof.
  pose proof (reverse_match_page_outcome WorkerExample.env TraceExample.state as_crawler (uuid_draw 0) page
    with_source with_source_reachable) as O.
  assert (exists body, (reverse_match_page WorkerExample.env TraceExample.state as_crawler (uuid_draw 0) page
    with_source).1 = Ok (StatusCode.CREATED, body)) as (body & E) by (eexists; vm_compute; reflexivity).
  destruct (reverse_match_page _ _ _ _ _ with_source) as [r s'] in O, E |- *.
  cbn [fst] in E. subst r.
  destruct O as (t & row & original & final & resp & event & Htaken).
  exists body, s', t, row, original, final, resp, event. split; [reflexivity | exact Htaken].
Defined.
