(* ===== verification/EvaluateRoute.v ===== *)
(** * What evaluating a rule means over HTTP

    The route [POST /v1/matches/evaluate] from its headers and body to the
    tables and events: [evaluate_matches_route] composes the caller's
    identity, the rule's visibility, its source scope and threshold, and the
    historical search and its evidence. *)

From stdpp Require Import strings relations gmap.
From S2P Require Import Prelude Ordered RustStr Floats Externals Samples HttpError.
From S2P Require Import SourceScope Alerts Indexing Auth AuthSpec WorkerAuth Database.
From S2P Require Import AlertStore AlertStoreSpec ReverseMatch ReverseMatchSpec Store StoreSpec.
From S2P Require Import Server Routes Changes Isolation ServerSpec Integrity Reachability PageRoute.

Section EvaluateRoute.
Context `{UuidLib, DigestLib, InterfacesLib, PgLib, Deployment, RowDecoders, UrlLib,
  HeaderLib, JsonLib, Base64Lib, HmacLib}.

(** The active rule a caller may see. *)
Record visible_rule (db : Database) (auth : AuthContext) (id : Uuid) (ru : RuleRow)
    (v : RuleRevisionRow) : Prop := {
  vr_row : (ru, v) ∈ rule_rows db;
  vr_id : ru_id ru = id;
  vr_tenant : ru_tenant_id ru = tenant_id auth;
  vr_permitted : tenant_admin auth = true \/ ru_owner_subject ru = subject auth
}.

Lemma require_alert_rule_run auth id w :
  alerts_wf (w_db w) ->
  exists r w', require_alert_rule (tenant_id auth) id (subject auth) (is_tenant_admin auth) w = (r, w') /\
    w_db w' = w_db w /\
    forall rule, r = Ok rule -> exists ru v, visible_rule (w_db w) auth id ru v /\
      decode_alert_rule (ru, v) = Ok rule.
Proof.
  intros Hwf. unfold require_alert_rule, is_tenant_admin. rewrite M_bind_run.
  destruct (get_alert_rule_run (tenant_id auth) id (subject auth) (tenant_admin auth) w Hwf)
    as (w' & [Hd _] & E).
  rewrite E. destruct (text_ok (subject auth)).
  2:{ do 2 eexists. split; [reflexivity|]. by split. }
  destruct (head _) as [[ru v]|] eqn:Eh; cbn [decode_optional].
  2:{ do 2 eexists. split; [reflexivity|]. by split. }
  apply permitted_row_head in Eh as (Hr & Hi & Ht & Hp).
  destruct (decode_alert_rule (ru, v)) as [rule|e] eqn:Ed.
  2:{ do 2 eexists. split; [reflexivity|]. by split. }
  do 2 eexists. split; [reflexivity|]. split; [done|]. intros ? [= <-]. exists ru, v.
  split; [|done]. constructor; try done. by rewrite orb_true_iff, bool_decide_eq_true in Hp.
Qed.

(** The events that announce matches to the rule's owner. *)
Record announces (tenant : Uuid) (owner : str) (m : MatchCandidate) (event : TenantEvent Body) : Prop := {
  ae_tenant : te_tenant_id event = tenant /\ ev_tenant_id (te_payload event) = tenant;
  ae_audience : te_audience event = SubjectOrTenantAdministrators owner;
  ae_type : ev_event_type (te_payload event) = lit "match.candidate";
  ae_data : ev_data (te_payload event) = MatchBody m
}.

Lemma publish_matches_run tenant owner ms s :
  exists s' events, publish_matches tenant owner ms s = (Ok tt, s') /\ tables s' = tables s /\
    sv_events s' = sv_events s ++ events /\ Forall2 (announces tenant owner) ms events.
Proof.
  revert s. induction ms as [|m ms IH]; intros s; cbn [publish_matches].
  - exists s, []. rewrite app_nil_r. by repeat split.
  - rewrite handler_bind_run. unfold publish_event at 1. rewrite handler_bind_run. cbn.
    match goal with |- context [publish_matches _ _ _ ?s1] => destruct (IH s1) as (s' & evs & -> & Ht & He & Hf) end.
    eexists s', (_ :: evs). split; [reflexivity|]. split; [exact Ht|]. split.
    + rewrite He. cbn. by rewrite <-app_assoc.
    + constructor; [by repeat split | exact Hf].
Qed.

Context (state : AppState) (headers : HeaderMap) (unix_now : Z).

(** A request the evaluation is reached with: the caller, the rule and its
    revision, the sources the search is confined to and the threshold. *)
Record evaluable (db : Database) (input : EvaluateMatchesRequest) (auth : AuthContext) (ru : RuleRow)
    (v : RuleRevisionRow) (scope sources : list Uuid) (threshold : f64) : Prop := {
  el_auth : authenticate_at (as_auth state) headers unix_now = Ok auth;
  el_ready : as_db state = true /\ as_schema_ready state = true;
  el_requested : is_finite (er_threshold input) = true /\ f64_in_unit (er_threshold input) = true;
  el_rule : visible_rule db auth (er_alert_rule_id input) ru v;
  el_enabled : rr_enabled v = true;
  el_model : ep_model (sr_embedding (er_search input)) = rr_embedding_model v;
  el_filters : parse_source_filter_ids (rr_source_filters v) = Ok scope;
  el_sources : constrain_search_sources (rr_source_filters v) (sr_source_ids (er_search input)) = Ok sources;
  el_threshold : exists own, json_f32 (rr_similarity_threshold v) = Some own /\
    threshold = fmax (er_threshold input) (f64_of_f32 own)
}.

(** Evidence an evaluation may keep: of the caller's tenant, the rule and its
    active revision, for a stored page of a source in the rule's scope. *)
Definition evaluation_evidence (db : Database) (input : EvaluateMatchesRequest) (auth : AuthContext)
    (v : RuleRevisionRow) (scope sources : list Uuid) (threshold : f64) (c : CandidateRow) : Prop :=
  historical_evidence (tenant_id auth) (er_alert_rule_id input) (rr_id v) threshold db
    (with_source_ids (er_search input) sources) c /\
  exists e rev p, e ∈ embeddings db /\ rev ∈ page_revisions db /\ p ∈ pages db /\
    mc_embedding_id c = Some (em_id e) /\ em_revision_id e = pv_id rev /\ mc_revision_id c = pv_id rev /\
    pv_page_id rev = pg_id p /\ pg_tenant_id p = tenant_id auth /\ (scope = [] \/ pg_source_id p ∈ scope).

Lemma constrained_in_scope filters requested scope sources :
  parse_source_filter_ids filters = Ok scope -> constrain_search_sources filters requested = Ok sources ->
  scope = [] \/ sources <> [] /\ forall u, u ∈ sources -> u ∈ scope.
Proof.
  unfold constrain_search_sources. intros -> Hc. cbn [mbind result_bind] in Hc.
  destruct (nonempty scope) eqn:Es; cbn [negb] in Hc; [right | by left; destruct scope].
  destruct (nonempty (btree_of_list requested)) eqn:Er; cbn [negb] in Hc.
  - apply reject_ok in Hc as [Hx [= <-]]. split; [by destruct (btree_of_list requested)|].
    intros u Hu. apply existsb_false_Forall in Hx. rewrite Forall_forall in Hx. specialize (Hx u Hu).
    apply negb_false_iff in Hx. bool_prop. by apply elem_of_btree_of_list.
  - injection Hc as <-. split.
    + intros E%(proj1 (btree_of_list_nil_iff _)). by subst.
    + intros u Hu. by apply elem_of_btree_of_list.
Qed.

Lemma evidence_in_scope db input auth ru v scope sources threshold c :
  evaluable db input auth ru v scope sources threshold ->
  historical_evidence (tenant_id auth) (er_alert_rule_id input) (rr_id v) threshold db
    (with_source_ids (er_search input) sources) c ->
  evaluation_evidence db input auth v scope sources threshold c.
Proof.
  intros He Hh. split; [exact Hh|].
  destruct Hh as (_ & _ & _ & _ & _ & _ & hit & (e & rev & p & d & Hin & Hrev & Hp & Hid & _ & _ & _ & _ & _ &
    Hr & Her & _ & _ & Hpg & Hpt & Hs & Hsrc & _) & Hce & Hcr & _).
  exists e, rev, p. do 3 (split; [done|]). split; [congruence|]. split; [done|].
  split; [congruence|]. do 2 (split; [done|]).
  destruct (constrained_in_scope _ _ _ _ (el_filters _ _ _ _ _ _ _ _ He) (el_sources _ _ _ _ _ _ _ _ He))
    as [->|[Hne Hsub]]; [by left | right].
  destruct Hsrc as [Hnil|Hin']; [done | by apply Hsub].
Qed.

Ltac refused := split; [left; split | ].

(** C7: evaluating a rule over HTTP.  The tables change only for an
    authenticated caller who may see the rule, when it is active and enabled
    and its model is the search's; and then they only gain evidence of the
    caller's tenant, of that rule and its active revision, each row for a
    stored page whose source is in the rule's scope, at the higher of the
    requested threshold and the rule's.  A 200 answers with at most the
    requested number of matches, every one of them kept, and announces each
    in order to the rule's owner and the tenant's administrators; any other
    answer announces nothing. *)
Theorem evaluate_matches_outcome input s :
  reachable s ->
  let '(r, s') := evaluate_matches_route state headers unix_now input s in
  (tables s' = tables s /\ (forall answer, r <> Ok answer) \/
   exists auth ru v scope sources threshold new,
     evaluable (tables s) input auth ru v scope sources threshold /\
     tables s' = set_candidates (fun l => l ++ new) (tables s) /\
     Forall (evaluation_evidence (tables s) input auth v scope sources threshold) new /\
     forall code body, r = Ok (code, body) ->
       exists ms events, code = StatusCode.OK /\ body = MatchesBody ms /\
         length ms <= N.to_nat (sr_limit (er_search input)) /\
         Forall (kept_match (tenant_id auth) (ru_id ru) (rr_id v) (tables s')) ms /\
         sv_events s' = sv_events s ++ events /\
         Forall2 (announces (tenant_id auth) (ru_owner_subject ru)) ms events) /\
  (forall e, r = Err e -> sv_events s' = sv_events s).
Proof.
  intros Hr. pose proof (reachable_in_order _ Hr) as I. unfold evaluate_matches_route, authenticated, database.
  rewrite check_bind_run. destruct (authenticate_at _ _ _) as [auth|] eqn:Ea; [|by refused].
  cbv zeta. rewrite check_bind_run.
  destruct (negb (is_finite _) || _) eqn:Ereq; [by refused|]. cbn [map_err].
  apply orb_false_elim in Ereq as [Hfin%negb_false_iff Hunit%negb_false_iff].
  rewrite check_bind_run. destruct (search_validate _) as [[]|]; [|by refused]. cbn [map_err].
  rewrite check_bind_run. destruct (require_database state) as [[]|] eqn:Ed; [|by refused].
  rewrite handler_bind_run. unfold store_call at 1.
  destruct (require_alert_rule_run auth (er_alert_rule_id input) (sv_world s) (in_alerts _ I))
    as (r & w' & -> & Hw & Hrule).
  destruct r as [rule|]; [|by refused]. destruct (Hrule rule eq_refl) as (ru & v & Hv & Hdec).
  rewrite check_bind_run. destruct (ar_enabled rule) eqn:Een; [|by refused]. cbn [require_enabled_alert_rule].
  rewrite check_bind_run. destruct (bool_decide _) eqn:Em; [by refused|]. bool_prop.
  rewrite check_bind_run. destruct (constrain_search_sources _ _) as [sources|] eqn:Es; [|by refused].
  cbn [map_err]. rewrite check_bind_run. destruct (search_validate _) as [[]|]; [|by refused]. cbn [map_err].
  rewrite handler_bind_run. unfold store_call at 1. cbn [sv_world sv_events].
  set (threshold := fmax _ _).
  assert (exists scope, parse_source_filter_ids (rr_source_filters v) = Ok scope /\
    evaluable (tables s) input auth ru v scope sources threshold) as (scope & Hsc & Hel).
  { unfold decode_alert_rule in Hdec. apply bind_ok in Hdec as (own & Hown%ok_or_ok & [= <-]).
    cbn in Een, Em, Es. pose proof Es as Hp. apply bind_ok in Hp as (scope & Hp & _). exists scope.
    split; [done|]. unfold require_database in Ed. apply reject_ok in Ed as [Hready Hdb].
    apply negb_false_iff in Hready.
    constructor; try done; [by destruct (as_db state) | by apply dec_stable | by exists own]. }
  assert (ar_revision_id rule = rr_id v /\ ar_owner_subject rule = ru_owner_subject ru) as [Erv Eow].
  { unfold decode_alert_rule in Hdec. by apply bind_ok in Hdec as (own & _ & [= <-]). }
  pose proof (evaluate_run (tenant_id auth) (er_alert_rule_id input) (ar_revision_id rule) threshold
    (with_source_ids (er_search input) sources) w') as Hev.
  destruct (Store.evaluate_matches _ _ _ _ _ w') as [r2 w2]. rewrite Erv, Hw in Hev.
  destruct Hev as [(new & Hnew & Hf) Hms].
  assert (Forall (evaluation_evidence (tables s) input auth v scope sources threshold) new) as Hf'.
  { eapply Forall_impl; [exact Hf|]. intros c. by eapply evidence_in_scope. }
  destruct r2 as [ms|e].
  2:{ split; [right|done]. exists auth, ru, v, scope, sources, threshold, new. by split_and!. }
  destruct (Hms ms eq_refl) as [Hlen Hkept]. rewrite handler_bind_run, Eow.
  match goal with |- context [publish_matches _ _ _ ?s1] =>
    destruct (publish_matches_run (tenant_id auth) (ru_owner_subject ru) ms s1) as (s2 & evs & -> & Ht & He & Ha)
  end.
  split; [right | done]. exists auth, ru, v, scope, sources, threshold, new.
  split; [done|]. split; [by rewrite Ht|]. split; [done|]. intros code body [= <- <-].
  exists ms, evs. split_and!; try done. rewrite Ht. by rewrite (vr_id _ _ _ _ _ (el_rule _ _ _ _ _ _ _ _ Hel)).
Qed.
End EvaluateRoute.

(** ** A rule evaluated against a stored page *)
Module EvaluateExample.
Import SampleUrl SampleDigest AuthExample ReverseExample StoreExample TraceExample PageExample.
(** A rule for the first source only. *)
Definition watch : CreateAlertRule := {|
  name := lit "Launches"; query_text := lit "renewable energy"; embedding_model := model;
  similarity_threshold := fzero; source_filters := [uuid_to_string (uuid_draw 0)];
  delivery_channels := [lit "email"]; enabled := true |}.
Definition with_rule : ServerWorld :=
  (handle AuthExample.env state as_admin 1500 (CreateRecord watch) with_source).2.
(** The page sent twice: the first time leaves the page, the second its
    revision and its vector ([ingest_page_outcome]). *)
Definition send_page (s : ServerWorld) : ServerWorld :=
  (handle WorkerExample.env state as_crawler 1500 (IngestPage (uuid_draw 0) (page_of_request page)) s).2.
Definition with_page : ServerWorld := send_page (send_page with_rule).
Definition evaluation : EvaluateMatchesRequest := {|
  er_alert_rule_id := uuid_draw 1; er_threshold := fzero; er_search := StoreExample.search |}.
End EvaluateExample.
Import AuthExample ReverseExample StoreExample TraceExample PageExample EvaluateExample.

Lemma with_page_reachable : reachable with_page.
Proof.
  exists empty_world. split; [reflexivity|]. unfold with_page, send_page, with_rule, with_source.
  do 4 (eapply rtc_r; [|apply ServerStep]). apply rtc_refl.
Qed.

Lemma evaluate_matches_outcome_witness :
  exists code body s' m event,
    evaluate_matches_route TraceExample.state as_admin 1500 evaluation with_page = (Ok (code, body), s') /\
    body = MatchesBody [m] /\ sv_events s' = sv_events with_page ++ [event] /\
    te_audience event = SubjectOrTenantAdministrators (lit "user-1").
Proof.
  pose proof (evaluate_matches_outcome TraceExample.state as_admin 1500 evaluation with_page
    with_page_reachable) as O.
  assert (exists code m, (evaluate_matches_route TraceExample.state as_admin 1500 evaluation with_page).1 =
    Ok (code, MatchesBody [m])) as (code & m & E) by (do 2 eexists; vm_compute; reflexivity).
  destruct (evaluate_matches_route _ _ _ _ with_page) as [r s'] in O, E |- *.
  cbn [fst] in E. subst r.
  destruct O as [[[_ Hno]|(auth & ru & v & scope & sources & threshold & new & Hel & _ & _ & Hok)] _];
    [destruct (Hno _ eq_refl)|].
  destruct (Hok _ _ eq_refl) as (ms & events & _ & [= <-] & _ & _ & Hev & Hann).
  inversion Hann as [|? event ? ? Ha Hrest]; subst. inversion Hrest; subst.
  exists code, (MatchesBody [m]), s', m, event. do 2 (split; [reflexivity|]). split; [exact Hev|].
  rewrite (ae_audience _ _ _ _ Ha). f_equal.
  assert (map (fun x => ru_owner_subject x.1) (rule_rows (tables with_page)) = [lit "user-1"]) as Er
    by (vm_compute; reflexivity).
  apply list_elem_of_singleton. rewrite <-Er. apply list_elem_of_fmap. exists (ru, v).
  split; [reflexivity|]. destruct Hel as [_ _ _ [Hrow _ _ _] _ _ _ _ _]. exact Hrow.
Defined.
