(* ===== verification/EmbeddingRoute.v ===== *)
(** * Registering a rule's embedding over HTTP

    The route [POST /v1/alerts/{id}/embedding] from its headers and body to
    the tables: what it answers over a connection exempt from row-level
    security, and when it writes. *)

From stdpp Require Import strings relations.
From S2P Require Import Prelude Ordered RustStr Floats Externals Samples HttpError.
From S2P Require Import SourceScope Alerts Auth AuthSpec WorkerAuth Database.
From S2P Require Import AlertStore AlertStoreSpec ReverseMatch ReverseMatchSpec ReverseIngestSpec.
From S2P Require Import Store StoreSpec Server Routes Changes Isolation ServerSpec Integrity.
From S2P Require Import Racing Reachability PageRoute EvaluateRoute.

Section EmbeddingRoute.
Context `{UuidLib, DigestLaws, InterfacesLib, PgLib, Deployment, RowDecoders, UrlLib,
  HeaderLib, JsonLib, Base64Lib, HmacLib}.

(** ** What a request is for *)
Section Request.
Context (t rule_id : Uuid) (input : AlertRuleEmbeddingUpsertRequest).

(** The database can read the parameters of the statement. *)
Definition readable : bool :=
  let e := au_embedding input in
  texts_ok [ep_model e; ep_model_version e] &&
  bool_decide (is_Some (vector_in (vector_literal (ep_values e)))).

(** The table can hold the embedding. *)
Definition in_bounds : bool :=
  let e := au_embedding input in
  char_length_between 1 256 (ep_model e) && char_length_between 1 256 (ep_model_version e) &&
  between 1 65535 (as_i32 (Z.of_N (ep_dimensions e))).

Definition registrable : bool := readable && in_bounds.

(** It names the enabled active revision of the rule, and its model. *)
Definition targets (db : Database) : Prop :=
  exists ru v, (ru, v) ∈ rule_rows db /\ rr_alert_rule_id v = ru_id ru /\ ru_id ru = rule_id /\
    ru_tenant_id ru = t /\ rr_id v = au_alert_rule_revision_id input /\ rr_enabled v = true /\
    rr_embedding_model v = ep_model (au_embedding input).

(** The embedding of that revision in that model space. *)
Record embedding_for (e : RuleEmbeddingRow) : Prop := {
  ef_tenant : re_tenant_id e = t;
  ef_rule : re_alert_rule_id e = rule_id;
  ef_revision : re_alert_rule_revision_id e = au_alert_rule_revision_id input;
  ef_model : re_model e = ep_model (au_embedding input);
  ef_version : re_model_version e = ep_model_version (au_embedding input);
  ef_dimensions : re_dimensions e = as_i32 (Z.of_N (ep_dimensions (au_embedding input)));
  ef_normalization : re_normalization e = normalization_name (ep_normalization (au_embedding input))
}.

Definition not_a_target : HttpError := Http.validation
  (lit "alert embedding must target the enabled active rule revision and its configured model").
Definition already_embedded : HttpError := Http.conflict
  (lit "an immutable embedding already exists for this alert revision and model space").

(** The answer, and the tables afterwards. *)
Inductive registration (db : Database) : result HttpError AlertRuleEmbeddingReceipt -> Database -> Prop :=
| Unreadable : readable = false -> registration db (Err (Http.internal [])) db
| NotATarget : readable = true -> ~ targets db -> registration db (Err not_a_target) db
| OutOfBounds :
    readable = true -> targets db -> in_bounds = false -> registration db (Err (Http.internal [])) db
| AlreadyThere e :
    registrable = true -> targets db -> e ∈ rule_embeddings db -> embedding_for e -> re_embedding_sha256 e = request_sha256 input ->
    registration db (Ok (receipt_of e false)) db
| Conflicting e :
    registrable = true -> targets db -> e ∈ rule_embeddings db -> embedding_for e -> re_embedding_sha256 e <> request_sha256 input ->
    registration db (Err already_embedded) db
| Registered e :
    registrable = true -> targets db -> (forall e', e' ∈ rule_embeddings db -> ~ embedding_for e') ->
    embedding_for e -> re_embedding_sha256 e = request_sha256 input ->
    vector_in (vector_literal (ep_values (au_embedding input))) = Some (re_embedding e) ->
    registration db (Ok (receipt_of e true)) (set_rule_embeddings (fun l => l ++ [e]) db).

Lemma upsert_target_exempt s db :
  bypass_rls = true ->
  upsert_target s db t rule_id (au_alert_rule_revision_id input) (ep_model (au_embedding input)) <> [] <->
  targets db.
Proof.
  intros Hb. destruct (bypass_visible s db Hb) as (Er & Ev & _).
  unfold upsert_target, targets, active_rule_rows. rewrite Er, Ev. fold (rule_rows db). split.
  - destruct (List.filter _ _) as [|[ru v] l] eqn:E; [done|]. intros _.
    assert ((ru, v) ∈ (ru, v) :: l) as Hin by left. rewrite <-E in Hin.
    apply elem_of_filter_bool in Hin as [Hin Hp]. bool_prop. by exists ru, v.
  - intros (ru & v & Hin & Hra & Hru & Htn & Hrv & Hen & Hm) E.
    assert ((ru, v) ∈ @nil (RuleRow * RuleRevisionRow)) as Hn; [|by apply elem_of_nil in Hn].
    rewrite <-E. apply elem_of_filter_bool. split; [done|]. by rewrite Hen, !bool_decide_eq_true_2.
Qed.

(** The row the statement inserts. *)
Definition row_for (ru : RuleRow) (v : RuleRevisionRow) id vector generated now : RuleEmbeddingRow :=
  upsert_row id t ru v (au_embedding input) vector (request_sha256 input) generated now.

Lemma registrable_check ru v id vector generated now :
  texts_ok [ep_model (au_embedding input); ep_model_version (au_embedding input)] = true ->
  is_Some (vector_in (vector_literal (ep_values (au_embedding input)))) ->
  rule_embedding_check (row_for ru v id vector generated now) = registrable.
Proof.
  intros Ht Hv. unfold registrable, readable, in_bounds, rule_embedding_check, row_for.
  rewrite Ht, bool_decide_eq_true_2 by done. simpl. unfold request_sha256. rewrite embedding_sha256_text, andb_true_r.
  by destruct (ep_normalization (au_embedding input)); rewrite andb_true_r.
Qed.

Lemma registrable_text :
  registrable = true -> texts_ok [ep_model (au_embedding input); ep_model_version (au_embedding input)] = true.
Proof. unfold registrable, readable. intros Hr. by bool_prop. Qed.

Lemma same_key_for db ru v id vector generated now e :
  integrity db -> rule_revision_of db t rule_id (au_alert_rule_revision_id input) ->
  ru_id ru = rule_id -> rr_id v = au_alert_rule_revision_id input -> e ∈ rule_embeddings db ->
  same_rule_embedding_key (row_for ru v id vector generated now) e = true <-> embedding_for e.
Proof.
  intros I Hof Hru Hv He. unfold same_rule_embedding_key, row_for. simpl. split.
  - intros Hk. bool_prop. constructor; try congruence.
    pose proof (proj1 (Forall_forall _ _) (in_rule_embeddings _ I) e He) as [_ Hr].
    apply (rule_revision_of_inj t db _ _ (au_alert_rule_revision_id input) I); [|done].
    replace t with (re_tenant_id e) by congruence.
    by replace (au_alert_rule_revision_id input) with (re_alert_rule_revision_id e) by congruence.
  - intros []. by rewrite !bool_decide_eq_true_2 by congruence.
Qed.

Lemma target_head s db ru v l :
  bypass_rls = true ->
  upsert_target s db t rule_id (au_alert_rule_revision_id input) (ep_model (au_embedding input)) =
    (ru, v) :: l ->
  targets db /\ ru_id ru = rule_id /\ rr_id v = au_alert_rule_revision_id input /\
  rule_revision_of db t rule_id (au_alert_rule_revision_id input) /\ has_rule db t rule_id = true /\
  has_rule_revision db t (au_alert_rule_revision_id input) = true.
Proof.
  intros Hb E. assert (targets db) as Ht by (apply (upsert_target_exempt s db Hb); by rewrite E).
  destruct (bypass_visible s db Hb) as (Er & Ev & _).
  unfold upsert_target, active_rule_rows in E. rewrite Er, Ev in E. fold (rule_rows db) in E.
  assert ((ru, v) ∈ (ru, v) :: l) as Hin by left. rewrite <-E in Hin.
  apply elem_of_filter_bool in Hin as [(Hr & Hv & _ & Htv)%elem_of_rule_rows Hp]. bool_prop.
  split; [done|]. split; [done|]. split; [done|]. split; [|split].
  - unfold rule_revision_of. replace (au_alert_rule_revision_id input, t, rule_id)
      with (rule_revision_key v) by (unfold rule_revision_key; congruence). by apply (key_elem rule_revision_key).
  - apply (existsb_member _ _ ru); [done|]. by rewrite !bool_decide_eq_true_2.
  - apply (existsb_member _ _ v); [done|]. by rewrite !bool_decide_eq_true_2 by congruence.
Qed.

(** The insert and the choice of the row that answers. *)
Lemma insert_registers db ru v l id vector generated now :
  integrity db -> bypass_rls = true -> registrable = true ->
  vector_in (vector_literal (ep_values (au_embedding input))) = Some vector ->
  upsert_target no_settings db t rule_id (au_alert_rule_revision_id input) (ep_model (au_embedding input)) =
    (ru, v) :: l ->
  id ∉ map re_id (rule_embeddings db) ->
  let row := row_for ru v id vector generated now in
  (exists e, insert_rule_embedding no_settings db row = Ok (false, db) /\
     head (List.filter (taken_by t ru v row) (rule_embeddings db)) = Some e /\
     e ∈ rule_embeddings db /\ embedding_for e) \/
  (insert_rule_embedding no_settings db row = Ok (true, set_rule_embeddings (fun l => l ++ [row]) db) /\
   (forall e, e ∈ rule_embeddings db -> ~ embedding_for e) /\ embedding_for row).
Proof.
  intros I Hb Hreg Hvec Htg Hid row. destruct (target_head _ _ _ _ _ Hb Htg) as (_ & Hru & Hv & Hof & Hr & Hrr).
  pose proof (same_key_for db ru v id vector generated now) as Hkey. fold row in Hkey.
  assert (rule_embedding_check row = true) as Hc.
  { unfold row. rewrite registrable_check; [done | by apply registrable_text | by rewrite Hvec]. }
  unfold insert_rule_embedding. rewrite no_settings_policy, Hb, Hc. cbn [negb].
  destruct (existsb (same_rule_embedding_key row) (rule_embeddings db)) eqn:Ek; [left | right].
  - apply existsb_true_Exists, Exists_exists in Ek as (e & He & Hk). apply Hkey in Hk as Hfor; [|done..].
    assert (head (List.filter (taken_by t ru v row) (rule_embeddings db)) <> None) as Hn.
    { destruct (List.filter _ _) as [|x k] eqn:Ef; [|done].
      assert (e ∈ @nil RuleEmbeddingRow) as Hn; [|by apply elem_of_nil in Hn]. rewrite <-Ef.
      apply elem_of_filter_bool. split; [done|]. destruct Hfor. unfold taken_by, row, row_for. simpl.
      by rewrite !bool_decide_eq_true_2 by congruence. }
    destruct (head _) as [e'|] eqn:Eh; [|done]. exists e'. split; [done|]. split; [done|].
    apply head_Some_elem_of, elem_of_filter_bool in Eh as [He' Ht']. split; [done|].
    apply Hkey; [done..|]. by eapply taken_by_key.
  - assert (existsb (fun e => bool_decide (re_id e = re_id row)) (rule_embeddings db) = false) as ->
      by by apply existsb_fresh.
    cbn [re_tenant_id re_alert_rule_id re_alert_rule_revision_id row row_for upsert_row].
    rewrite Hru, Hv, Hr, Hrr. split; [done|]. split.
    + intros e He Hfor. apply Hkey in Hfor; [|done..]. apply existsb_false_Forall in Ek.
      rewrite Forall_forall in Ek. specialize (Ek e He). congruence.
    + by constructor.
Qed.

(** What the store does with a valid request. *)
Lemma register_run w :
  integrity (w_db w) -> bypass_rls = true -> upsert_validate input = Ok tt ->
  uuid_draw (w_draws w) ∉ map re_id (rule_embeddings (w_db w)) ->
  exists r w', upsert_alert_rule_embedding t rule_id input w = (r, w') /\
    registration (w_db w) r (w_db w').
Proof.
  intros I Hb Hv Hid. do 2 eexists. split; [apply surjective_pairing|].
  unfold upsert_alert_rule_embedding, autocommit, with_transaction, utc_now, throw, lift, execute,
    mbind, M_bind, mret, M_ret. rewrite Hv. cbn [map_err].
  unfold upsert_statement, upsert_statement_at. fold (request_sha256 input).
  cbn [w_db w_draws w_ticks w_now w_settings].
  set (id := uuid_draw _). set (generated := clock (w_ticks w)). set (now := clock _).
  destruct (texts_ok _) eqn:Ht; [|apply Unreadable; unfold readable; by rewrite Ht]. cbn [negb].
  destruct (vector_in _) as [vector|] eqn:Hvec; [|apply Unreadable; unfold readable; by rewrite Ht, Hvec].
  assert (readable = true) as Hread by (unfold readable; by rewrite Ht, Hvec).
  cbn [ok_or mbind result_bind].
  destruct (upsert_target _ _ _ _ _ _) as [|[ru v] l] eqn:Htg.
  { apply NotATarget; [done|]. intros Hx. by apply (upsert_target_exempt no_settings) in Hx. }
  fold (row_for ru v id vector generated now).
  rewrite visible_rule_embeddings_no_settings, Hb.
  assert (targets (w_db w)) as Htargets by by eapply target_head.
  destruct registrable eqn:Hreg.
  - destruct (insert_registers (w_db w) ru v l id vector generated now) as
      [(e & -> & Hh & He & Hfor)|(-> & Hno & Hfor)]; try done.
    + cbn [mbind result_bind w_db w_draws w_now w_settings].
      change (List.filter _ (rule_embeddings (w_db w))) with
        (List.filter (taken_by t ru v (row_for ru v id vector generated now)) (rule_embeddings (w_db w))).
      rewrite Hh. cbn. case_bool_decide as Hsha; cbn.
      * by apply Conflicting with e.
      * by apply AlreadyThere.
    + cbn. rewrite bool_decide_eq_false_2 by (by intros Hx; apply Hx). cbn.
      by apply (Registered (w_db w) (row_for ru v id vector generated now)).
  - unfold insert_rule_embedding. rewrite no_settings_policy, Hb, registrable_check, Hreg by done.
    apply OutOfBounds; [done..|]. unfold registrable in Hreg. by rewrite Hread in Hreg.
Qed.
End Request.

(** ** The route *)
Context (env : Env) (state : AppState) (headers : HeaderMap).

(** C8: registering a rule's embedding over HTTP.  On tables the server can
    reach, over a connection exempt from row-level security and with a new
    identifier, the answer is: 401 or 503 unless the crawler presents its
    token; else the error of the tenant header; else 422 for an invalid
    embedding; else 503 without a ready database; else 500 if the database
    cannot read the model, its version (a NUL character) or the vector; else
    422 unless the request names the enabled active revision of a rule of the
    tenant and its model; else 500 if the table cannot hold the embedding; else
    200 with the stored embedding of that revision and model space if it has
    the same fingerprint; 409 if it has another; and 201 with the new
    embedding, the only row written, if there is none.  No other answer
    writes, and no event is sent. *)
Theorem upsert_alert_embedding_outcome rule_id input s :
  reachable s -> bypass_rls = true ->
  uuid_draw (w_draws (sv_world s)) ∉ map re_id (rule_embeddings (tables s)) ->
  let run := upsert_alert_embedding env state headers rule_id input s in
  (~ authorized env headers -> exists e, run = (Err e, s) /\
     e = if is_configured env then invalid_credentials else Http.ingest_auth_required) /\
  (authorized env headers ->
   match tenant_id_from_headers headers with
   | Err e => run = (Err e, s)
   | Ok t =>
       match upsert_validate input with
       | Err message => run = (Err (Http.validation message), s)
       | Ok _ =>
           if negb (as_db state && as_schema_ready state) then run = (Err Http.database_required, s)
           else exists r s', run =
               ((fun receipt => (if rc_created receipt then StatusCode.CREATED else StatusCode.OK,
                                 ReceiptBody receipt)) <$> r, s') /\
             sv_events s' = sv_events s /\
             registration t rule_id input (tables s) r (tables s')
       end
   end).
Proof.
  intros Hr Hb Hid run. unfold run, upsert_alert_embedding, database.
  destruct (authorize_iff env headers) as [Ha He]. rewrite check_bind_run. split.
  - intros Hn. destruct (WorkerAuth.authorize env headers) as [[]|e]; [by destruct Hn; apply Ha|].
    exists e. split; [done | by apply He].
  - intros ->%Ha. rewrite check_bind_run. destruct (tenant_id_from_headers headers) as [t|e]; [|done].
    rewrite check_bind_run. destruct (upsert_validate input) as [[]|message] eqn:Hv; [|done]. cbn [map_err].
    rewrite check_bind_run. unfold require_database.
    destruct (as_db state), (as_schema_ready state); cbn [negb andb]; try done.
    rewrite handler_bind_run. unfold store_call.
    destruct (register_run t rule_id input (sv_world s)) as (r & w' & -> & Hreg);
      [by apply reachable_in_order | done..|].
    exists r. destruct r as [receipt|e]; (eexists; split; [reflexivity|]; by split).
Qed.
End EmbeddingRoute.

(** ** A rule and its embedding *)
Module EmbeddingExample.
Import SampleDigest AuthExample ReverseExample StoreExample TraceExample PageExample EvaluateExample.
Definition vector_request (x : f32) : AlertRuleEmbeddingUpsertRequest :=
  {| au_alert_rule_revision_id := uuid_draw 2; au_embedding := payload x |}.
Definition send_vector (x : f32) (s : ServerWorld) :=
  upsert_alert_embedding WorkerExample.env TraceExample.state as_crawler (uuid_draw 1) (vector_request x) s.
End EmbeddingExample.
Import AuthExample ReverseExample StoreExample TraceExample PageExample EvaluateExample EmbeddingExample.

Lemma with_rule_reachable : reachable EvaluateExample.with_rule.
Proof.
  exists empty_world. split; [reflexivity|]. unfold EvaluateExample.with_rule, with_source.
  do 2 (eapply rtc_r; [|apply ServerStep]). apply rtc_refl.
Qed.

(** Sent again it answers 200, and another vector 409. *)
Example vectors_sent :
  let once := send_vector f32_one EvaluateExample.with_rule in
  match once.1, (send_vector f32_one once.2).1, (send_vector (S754_zero false) once.2).1 with
  | Ok (first, _), Ok (second, _), Err e =>
      first = StatusCode.CREATED /\ second = StatusCode.OK /\ e = already_embedded
  | _, _, _ => False
  end.
Proof. vm_compute. done. Qed.

Lemma upsert_alert_embedding_outcome_witness :
  exists s' e, upsert_alert_embedding WorkerExample.env TraceExample.state as_crawler (uuid_draw 1)
      (vector_request f32_one) EvaluateExample.with_rule =
      (Ok (StatusCode.CREATED, ReceiptBody (receipt_of e true)), s') /\
    rule_embeddings (tables s') = [e] /\
    embedding_for AuthExample.tenant (uuid_draw 1) (vector_request f32_one) e.
Proof.
  assert (uuid_draw (w_draws (sv_world EvaluateExample.with_rule)) ∉
    map re_id (rule_embeddings (tables EvaluateExample.with_rule))) as Hid
    by (refine (proj1 (bool_decide_eq_true _) _); vm_compute; reflexivity).
  destruct (upsert_alert_embedding_outcome WorkerExample.env TraceExample.state as_crawler (uuid_draw 1)
    (vector_request f32_one) EvaluateExample.with_rule with_rule_reachable eq_refl Hid) as [_ O].
  assert (WorkerAuth.authorize WorkerExample.env as_crawler = Ok tt) as Ha by (vm_compute; reflexivity).
  specialize (O (proj1 (proj1 (authorize_iff _ _)) Ha)).
  assert (tenant_id_from_headers as_crawler = Ok AuthExample.tenant) as Ht by (vm_compute; reflexivity).
  assert (upsert_validate (vector_request f32_one) = Ok tt) as Hv by reflexivity.
  assert (as_db TraceExample.state && as_schema_ready TraceExample.state = true) as Hs by reflexivity.
  rewrite Ht, Hv, Hs in O. destruct O as (r & s' & E & _ & O).
  assert (exists receipt, (upsert_alert_embedding WorkerExample.env TraceExample.state as_crawler (uuid_draw 1)
      (vector_request f32_one) EvaluateExample.with_rule).1 =
    Ok (StatusCode.CREATED, ReceiptBody receipt)) as (receipt & Er) by (eexists; vm_compute; reflexivity).
  rewrite E in Er |- *. cbn [fst] in Er.
  assert (rule_embeddings (tables EvaluateExample.with_rule) = []) as Hnone by (vm_compute; reflexivity).
  remember (tables s') as db' eqn:Edb in O.
  destruct O as [| | |? _ _ _ _ _| |e _ _ _ Hfor _ _]; try discriminate Er.
  exists s', e. split; [reflexivity|]. split; [|exact Hfor].
  assert (forall f db, rule_embeddings (set_rule_embeddings f db) = f (rule_embeddings db)) as Hset
    by reflexivity.
  rewrite <-Edb, Hset, Hnone. reflexivity.
Defined.
