(* ===== verification/Noninterference.v ===== *)
(** * A tenant cannot tell what the others have stored

    Whatever the rows and events of the other tenants, a request of a tenant
    gets the same response, leaves its own rows the same and broadcasts the
    same events: the handlers are [hlocal], as the store operations are
    [local] ([OwnView], [OwnStore]). *)

From stdpp Require Import strings relations.
From S2P Require Import Prelude Ordered RustStr Floats Externals Samples HttpError.
From S2P Require Import SourceScope Alerts Indexing Auth AuthSpec WorkerAuth Database.
From S2P Require Import AlertStore AlertStoreSpec ReverseMatch ReverseMatchSpec Store StoreSpec.
From S2P Require Import Server Connection Routes Isolation ServerSpec Integrity OwnView OwnStore Reachability.

Section Noninterference.
Context `{UuidLib, DigestLib, InterfacesLib, PgLib, Deployment, RowDecoders, UrlLib,
  HeaderLib, JsonLib, Base64Lib, HmacLib}.

(** What a tenant can see of the server: its rows, its events, and the
    stream identifiers and times are drawn from. *)
Definition own_server (t : Uuid) (s : ServerWorld) : ServerWorld := {|
  sv_world := own_world t (sv_world s); sv_events := own te_tenant_id t (sv_events s) |}.

Definition drawn (s : ServerWorld) : nat := w_draws (sv_world s).

(** The identifiers drawn from [s] up to [s'] are new, with a margin for the
    statement that does not get to draw all of its own. *)
Definition new_identifiers (s s' : ServerWorld) : Prop := new_range (tables s) (drawn s) (drawn s' + 3).

Section Handlers.
Context (t : Uuid).

Definition hlocal {A} (P : Database -> Prop) (h : Handler A) : Prop :=
  forall s, drawn s <= drawn (h s).2 /\
    forall hi, integrity (tables s) -> P (tables s) -> fresh hi (sv_world s) -> drawn (h s).2 + 3 <= hi ->
      h (own_server t s) = ((h s).1, own_server t (h s).2) /\ fresh hi (sv_world (h s).2).

Lemma hlocal_ret {A} P (a : A) : hlocal P (mret a).
Proof. intros s. by split. Qed.

Lemma hlocal_check_bind {A B} P (r : result HttpError A) (f : A -> Handler B) :
  (forall a, r = Ok a -> hlocal P (f a)) -> hlocal P (mbind f (check r)).
Proof. intros Hf s. rewrite !check_bind_run. destruct r as [a|e]; [by apply Hf | by split]. Qed.

Lemma hlocal_bind {A B} P (h : Handler A) (f : A -> Handler B) R :
  hlocal P h -> htriple P h R -> (forall a, hlocal (R a) (f a)) -> hlocal P (mbind f h).
Proof.
  intros Hh Ht Hf s. destruct (Hh s) as [Hd Hrun]. specialize (Ht s). rewrite !handler_bind_run.
  destruct (h s) as [[a|e] s1] eqn:E; simpl in *.
  - destruct (Hf a s1) as [Hd1 Hrun1]. split; [lia|]. intros hi I HP Hfr Hhi.
    destruct (Hrun hi I HP Hfr) as [E1 Hfr1]; [lia|]. destruct (Ht I HP) as (I1 & _ & HR).
    rewrite E1. by apply Hrun1; [| apply HR | |].
  - split; [done|]. intros hi I HP Hfr Hhi. destruct (Hrun hi I HP Hfr Hhi) as [E1 Hfr1].
    by rewrite E1.
Qed.

Lemma hlocal_store {A} P (m : M A) : local t P m -> hlocal P (store_call m).
Proof.
  intros Hm s. unfold store_call. destruct (Hm (sv_world s)) as [Hd Hrun]. unfold drawn.
  change (sv_world (own_server t s)) with (own_world t (sv_world s)).
  destruct (m (sv_world s)) as [r w] eqn:E; simpl in *. split; [done|]. intros hi I HP Hfr Hhi.
  destruct (Hrun hi I HP Hfr Hhi) as [E1 Hfr1]. by rewrite E1.
Qed.

Lemma hlocal_publish_event P audience event_type data : hlocal P (publish_event t audience event_type data).
Proof.
  intros s. split; [done|]. intros hi _ _ Hfr _. split; [|done].
  unfold publish_event, own_server. simpl. by rewrite own_snoc.
Qed.

Lemma hlocal_weaken {A} (P P' : Database -> Prop) (h : Handler A) :
  hlocal P h -> (forall db, P' db -> P db) -> hlocal P' h.
Proof. intros Hh HP s. destruct (Hh s) as [Hd Hrun]. split; [done|]. auto. Qed.

Lemma hlocal_publish_matches owner l : hlocal (fun _ => True) (publish_matches t owner l).
Proof.
  induction l as [|m l IH]; simpl; [apply hlocal_ret|].
  eapply hlocal_bind; [apply hlocal_publish_event | apply htriple_publish_event | done].
Qed.

(** After the last statement only events are left to broadcast. *)
Lemma hlocal_done {A B} P (m : M A) (f : A -> Handler B) Q :
  local t P m -> triple P m Q -> (forall a, hlocal (fun _ => True) (f a)) ->
  hlocal P (mbind f (store_call m)).
Proof.
  intros Hm Ht Hf. eapply hlocal_bind; [by apply hlocal_store | by apply htriple_store|].
  intros a. by eapply hlocal_weaken.
Qed.

Lemma hlocal_announce {A} audience event_type data (a : A) :
  hlocal (fun _ => True) (_ ← publish_event t audience event_type data; mret a).
Proof.
  eapply hlocal_bind; [apply hlocal_publish_event | apply htriple_publish_event | intros; apply hlocal_ret].
Qed.

Lemma hlocal_admitted_urls source_id url final_url :
  hlocal (fun _ => True) (admitted_urls t source_id url final_url).
Proof.
  unfold admitted_urls. eapply hlocal_done; [apply get_source_local | apply get_source_triple|].
  intros o. repeat (apply hlocal_check_bind; intros ? _). apply hlocal_ret.
Qed.
End Handlers.

Context (env : Env) (state : AppState) (headers : HeaderMap) (unix_now : Z).

Ltac local_checks :=
  repeat match goal with
  | |- hlocal _ _ (mbind _ (check _)) => apply hlocal_check_bind; let E := fresh "E" in intros ? E
  | |- hlocal _ _ (let '(_, _) := ?p in _) => destruct p
  end.

(** The tenant the rest of the handler works for is the request's. *)
Lemma authenticated_local {A} t P (f : AuthContext -> Handler A) :
  tenant_id <$> authenticate_at (as_auth state) headers unix_now = Ok t ->
  (forall auth, tenant_id auth = t -> hlocal t P (f auth)) ->
  hlocal t P (mbind f (authenticated state headers unix_now)).
Proof.
  intros Ht Hf. unfold authenticated. apply hlocal_check_bind. intros auth E. apply Hf.
  rewrite E in Ht. by injection Ht.
Qed.

Lemma crawler_local {A} t P (f : Uuid -> Handler A) :
  (_ ← WorkerAuth.authorize env headers; tenant_id_from_headers headers) = Ok t ->
  hlocal t P (f t) ->
  hlocal t P (_ ← check (WorkerAuth.authorize env headers); u ← check (tenant_id_from_headers headers); f u).
Proof.
  intros Ht Hf. apply hlocal_check_bind. intros [] E1. apply hlocal_check_bind. intros u E2.
  rewrite E1 in Ht. simpl in Ht. rewrite E2 in Ht. by injection Ht as ->.
Qed.

Lemma handle_local t request :
  request_tenant env state headers unix_now request = Ok t ->
  hlocal t (fun _ => True) (handle env state headers unix_now request).
Proof.
  unfold request_tenant. destruct request; intros Ht; simpl handle; [apply hlocal_ret|..].
  all: try (apply authenticated_local; [done|]; clear Ht; intros auth <-; unfold database; cbv zeta; local_checks).
  all: try (apply crawler_local; [done|]; clear Ht; unfold database; local_checks).
  - eapply hlocal_done; [apply list_alert_rules_local | apply list_alert_rules_triple|]. intros. apply hlocal_ret.
  - eapply hlocal_done; [apply get_alert_rule_local | apply get_alert_rule_triple|]. intros.
    local_checks. apply hlocal_ret.
  - eapply hlocal_done; [apply create_alert_rule_local | apply create_alert_rule_triple|]. intros.
    apply hlocal_announce.
  - eapply hlocal_done; [apply upsert_alert_rule_embedding_local | apply upsert_alert_rule_embedding_triple|].
    intros. apply hlocal_ret.
  - eapply hlocal_done; [apply list_sources_local | apply list_sources_triple|]. intros. apply hlocal_ret.
  - eapply hlocal_done; [apply get_source_local | apply get_source_triple|]. intros. local_checks. apply hlocal_ret.
  - eapply hlocal_done; [apply create_source_local | apply create_source_triple|]. intros. apply hlocal_announce.
  - eapply hlocal_bind; [apply hlocal_admitted_urls | apply htriple_admitted_urls|]. intros [original final].
    eapply hlocal_done; [apply ingest_page_local | apply ingest_page_triple|]. intros. apply hlocal_announce.
  - eapply hlocal_bind; [apply hlocal_admitted_urls | apply htriple_admitted_urls|]. intros [original final].
    eapply hlocal_done; [apply ingest_and_reverse_match_local | apply ingest_and_reverse_match_triple|].
    intros. apply hlocal_announce.
  - eapply hlocal_done; [apply search_embeddings_local | apply search_embeddings_triple|]. intros. apply hlocal_ret.
  - eapply hlocal_bind; [apply hlocal_store, require_alert_rule_local
      | apply htriple_store, require_alert_rule_triple|]. intros rule.
    local_checks. eapply hlocal_done; [apply evaluate_matches_local | apply evaluate_matches_triple|].
    intros l. eapply hlocal_bind; [apply hlocal_publish_matches | apply htriple_publish_matches|].
    intros. apply hlocal_ret.
Qed.

Lemma own_visible t auth (l : list (TenantEvent Body)) :
  tenant_id auth = t ->
  List.filter (fun e => event_visible_to e auth) (own te_tenant_id t l) =
  List.filter (fun e => event_visible_to e auth) l.
Proof. intros Ha. apply filter_own. intros e _ [He _]%event_visible_to_iff. congruence. Qed.

(** C3: what other tenants have stored makes no difference to a tenant.
    Take two states the server can reach in which the tenant of a request
    has the same rows and events, whatever the others have: if the
    identifiers the request draws are new in both, it gets the same response
    or the same error, leaves the tenant the same rows in all eight tables,
    and the tenant's subscribers are sent the same events. *)
Theorem tenant_noninterference t request s1 s2 :
  let run := handle env state headers unix_now request in
  request_tenant env state headers unix_now request = Ok t ->
  reachable s1 -> reachable s2 -> own_server t s1 = own_server t s2 ->
  new_identifiers s1 (run s1).2 -> new_identifiers s2 (run s2).2 ->
  (run s1).1 = (run s2).1 /\ own_server t (run s1).2 = own_server t (run s2).2 /\
  forall auth, tenant_id auth = t ->
    List.filter (fun e => event_visible_to e auth) (sv_events (run s1).2) =
    List.filter (fun e => event_visible_to e auth) (sv_events (run s2).2).
Proof.
  intros run Ht R1 R2 Eo N1 N2.
  destruct (handle_local t request Ht s1) as [_ L1], (handle_local t request Ht s2) as [_ L2].
  destruct (L1 _ (reachable_in_order _ R1) Logic.I N1) as [E1 _]; [done|].
  destruct (L2 _ (reachable_in_order _ R2) Logic.I N2) as [E2 _]; [done|].
  rewrite Eo, E2 in E1. pose proof (f_equal fst E1) as Er. pose proof (f_equal snd E1) as Es.
  cbn [fst snd] in Er, Es. fold run in Er, Es.
  split; [done|]. split; [done|]. intros auth Ha.
  rewrite <-(own_visible t auth (sv_events (run s1).2)) by done.
  rewrite <-(own_visible t auth (sv_events (run s2).2)) by done.
  by rewrite (f_equal sv_events Es : own te_tenant_id t _ = _).
Qed.
End Noninterference.

(** ** A rule of someone else *)
Module OutsiderExample.
Import SampleUrl SampleDigest AuthExample ReverseExample StoreExample TraceExample.
Definition outsider : Uuid := mk_uuid 9 eq_refl.
Definition headers : HeaderMap := {| header_values name :=
  if bool_decide (name = TENANT_HEADER) then [uuid_to_string outsider]
  else header_values (WorkerExample.headers [WorkerExample.token]) name |}.
(** A vector for the rule and revision another tenant has just created. *)
Definition intrusion : Request := UpsertAlertEmbedding (uuid_draw 0)
  {| au_alert_rule_revision_id := uuid_draw 1; au_embedding := payload f32_one |}.
(** The same moment, had the other tenant done nothing. *)
Definition untouched : ServerWorld := own_server outsider with_rule.
Definition answer (s : ServerWorld) := handle WorkerExample.env state headers 1500 intrusion s.
End OutsiderExample.
Import AuthExample ReverseExample StoreExample TraceExample OutsiderExample.

Lemma tenant_noninterference_witness :
  length (rules (tables with_rule)) = 1 /\ length (rules (tables untouched)) = 0 /\
  (answer with_rule).1 = (answer untouched).1 /\
  (answer with_rule).1 = Err (Http.validation
    (lit "alert embedding must target the enabled active rule revision and its configured model")).
Proof.
  split; [vm_compute; reflexivity|]. split; [vm_compute; reflexivity|].
  split; [|vm_compute; reflexivity].
  refine (proj1 (tenant_noninterference WorkerExample.env TraceExample.state OutsiderExample.headers 1500
    outsider intrusion with_rule untouched _ _ _ _ _ _)).
  - vm_compute. reflexivity.
  - exists empty_world. split; [reflexivity | apply rtc_once, ServerStep].
  - exists untouched. split; [vm_compute; reflexivity | apply rtc_refl].
  - vm_compute. reflexivity.
  - apply new_range_true. vm_compute. reflexivity.
  - apply new_range_true. vm_compute. reflexivity.
Defined.
