(* ===== verification/RecordRoute.v ===== *)
(** * Creating a rule over HTTP, from the credentials to the rows

    What [POST /v1/alerts] answers, for every request: the composition of the
    authentication, the validation of the rule and the CHECK constraints of
    the tables, which never disagree. *)

From stdpp Require Import strings relations.
From S2P Require Import Prelude Ordered RustStr Floats Externals Samples HttpError.
From S2P Require Import SourceScope Alerts Auth AuthSpec Database AlertStore AlertStoreSpec.
From S2P Require Import ReverseMatchSpec Store StoreSpec Server Connection Routes ServerSpec.
From S2P Require Import Integrity Reachability.

(** ** Validated rules satisfy the CHECKs *)
Section Checks.
Context `{UuidLaws}.

Lemma char_bounds lo hi s :
  s <> [] -> (str_len s <= hi)%N -> (lo <= 1)%N -> char_length_between lo hi s = true.
Proof.
  intros Hn Hl Hlo. unfold char_length_between. pose proof (nonempty_chars s Hn).
  pose proof (chars_count_le_len s). apply andb_true_intro. rewrite !N.leb_le. lia.
Qed.

(** Source filters in normal form are plain identifiers. *)
Lemma text_ok_Forall s : Forall (fun c => c <> 0%N) s -> text_ok s = true.
Proof.
  intros Hs. unfold text_ok, contains_char. apply negb_true_iff, existsb_false_Forall.
  eapply Forall_impl; [exact Hs|]. intros c Hc. apply N.eqb_neq. congruence.
Qed.

Lemma filter_text_ok u : text_ok (format_source_filter u) = true.
Proof.
  apply text_ok_Forall. unfold format_source_filter. apply Forall_app. split.
  - by repeat constructor.
  - destruct (uuid_to_string_chars u) as [_ Hu]. eapply Forall_impl; [exact Hu|].
    intros c Hc ->. discriminate Hc.
Qed.

Lemma normalized_filters_text r r' :
  normalized r = Ok r' -> texts_ok (source_filters r') = true.
Proof.
  intros (Hf & _)%normalized_ok. apply normalize_source_filters_ok in Hf as (ids & _ & -> & _).
  apply forallb_true_Forall, Forall_fmap, Forall_true. intros u. apply filter_text_ok.
Qed.

Lemma normalized_checks `{Deployment} r r' w t owner :
  normalized r = Ok r' -> char_length_between 1 256 owner = true ->
  rule_revision_check (revision_to_create w t owner r') = true.
Proof.
  intros (_ & _ & _ & _ & _ & _ & _ & Hv)%normalized_ok Ho.
  apply validate_iff in Hv as [[Hn Hnl] [Hq1 Hq2] [Hm Hml] (Hf & H0' & H1') [Hs _] [Hc _]].
  unfold rule_revision_check. simpl. rewrite Ho. simpl.
  rewrite (char_bounds 1 256 (name r')), (char_bounds 1 160 (embedding_model r')) by done.
  unfold char_length_between. rewrite !(proj2 (N.leb_le _ _)) by done. simpl.
  assert (is_nan (similarity_threshold r') = false) as Hnan by by destruct (similarity_threshold r').
  unfold pg_between, pg_ge. rewrite Hnan, H0', H1'. simpl.
  rewrite !(proj2 (Nat.leb_le _ _)); [done | |]; unfold MAX_SOURCE_FILTERS, MAX_DELIVERY_CHANNELS in *; lia.
Qed.

End Checks.

(** ** The route *)
Section Route.
Context `{UuidLaws, DigestLib, InterfacesLib, PgLib, Deployment, RowDecoders, UrlLib,
  HeaderLib, JsonLib, Base64Lib, HmacLib}.

(** A single-precision number survives JSON. *)
Definition json_f32_exact : Prop := forall x, is_finite x = true -> json_f32 x = Some x.

(** PostgreSQL can hold the texts. *)
Definition storable (auth : AuthContext) (r : CreateAlertRule) : bool :=
  texts_ok ([subject auth; name r; query_text r; embedding_model r] ++ delivery_channels r).

(** The owner may have one more such rule. *)
Definition below_limit (db : Database) (auth : AuthContext) (r : CreateAlertRule) : bool :=
  negb (enabled r && (10 <=? length (owner_active db (tenant_id auth) (subject auth)))%nat).

Lemma creatable_normalized input r auth w :
  json_f32_exact -> context_ok auth -> normalized input = Ok r ->
  creatable w (tenant_id auth) (subject auth) r = storable auth r && below_limit (w_db w) auth r.
Proof.
  intros Hj [(Hs & Hl & _) _] Hn. unfold creatable, storable, below_limit.
  assert (char_length_between 1 256 (subject auth) = true) as Hc by by apply char_bounds.
  rewrite (normalized_checks input r w (tenant_id auth) (subject auth) Hn Hc), andb_true_r.
  change (rule_check (rule_to_create w (tenant_id auth) (subject auth)))
    with (char_length_between 1 256 (subject auth)). rewrite Hc, andb_true_r.
  assert (is_finite (similarity_threshold r) = true) as Hf.
  { apply normalized_ok in Hn as (_ & _ & _ & _ & _ & _ & _ & Hv). apply validate_iff in Hv.
    apply (ok_threshold _ Hv). }
  rewrite (Hj _ Hf), bool_decide_eq_true_2 by eauto. rewrite andb_true_r.
  pose proof (normalized_filters_text _ _ Hn) as Ht. unfold texts_ok in *. simpl.
  rewrite !forallb_app, Ht. simpl.
  by destruct (text_ok (subject auth)), (text_ok (name r)), (text_ok (query_text r)),
    (text_ok (embedding_model r)), (forallb text_ok (delivery_channels r)).
Qed.

(** What the creator is answered, and who is told. *)
Record created_answer (auth : AuthContext) (r : CreateAlertRule) (rule : AlertRule) : Prop := {
  an_tenant : ar_tenant_id rule = tenant_id auth;
  an_owner : ar_owner_subject rule = subject auth;
  an_number : ar_revision_number rule = 1%Z;
  an_name : ar_name rule = name r;
  an_query : ar_query_text rule = query_text r;
  an_model : ar_embedding_model rule = embedding_model r;
  an_threshold : ar_similarity_threshold rule = similarity_threshold r;
  an_filters : ar_source_filters rule = source_filters r;
  an_channels : ar_delivery_channels rule = delivery_channels r;
  an_enabled : ar_enabled rule = enabled r
}.

Definition announced (auth : AuthContext) (rule : AlertRule) (event : TenantEvent Body) : Prop :=
  te_payload event = {| ev_event_type := lit "alert_rule.created"; ev_tenant_id := tenant_id auth;
    ev_occurred_at := ev_occurred_at (te_payload event); ev_data := RuleBody rule |} /\
  forall reader, event_visible_to event reader = true <->
    tenant_id reader = tenant_id auth /\ (tenant_admin reader = true \/ subject reader = subject auth).

(** C5: creating a rule over HTTP.  On tables the server can reach, with new
    identifiers and numbers that survive JSON, the answer is: the
    authentication error; else 422 with the validation message; else 503
    without a ready database; else 201 with the normalised rule, owned by the
    caller, one event that exactly its owner and the tenant's administrators
    see, unless a text has a NUL character or the owner has ten enabled
    rules already, which is the generic 500 and leaves no trace.  So a rule
    that passes validation never fails a CHECK of the tables. *)
Theorem create_record_outcome state headers now input s :
  reachable s -> fresh_draws (sv_world s) -> json_f32_exact ->
  match authenticate_at (as_auth state) headers now with
  | Err e => create_record state headers now input s = (Err e, s)
  | Ok auth =>
      match normalized input with
      | Err message => create_record state headers now input s = (Err (Http.validation message), s)
      | Ok r =>
          if negb (as_db state && as_schema_ready state)
          then create_record state headers now input s = (Err Http.database_required, s)
          else if storable auth r && below_limit (tables s) auth r
          then exists rule event s',
            create_record state headers now input s = (Ok (StatusCode.CREATED, RuleBody rule), s') /\
            created_answer auth r rule /\ sv_events s' = sv_events s ++ [event] /\
            announced auth rule event
          else exists s', create_record state headers now input s = (Err (Http.internal []), s') /\
            tables s' = tables s /\ sv_events s' = sv_events s
      end
  end.
Proof.
  intros Hr Hfresh Hj. assert (alerts_wf (tables s)) as Hwf by by apply reachable_in_order.
  unfold create_record, authenticated, database.
  rewrite check_bind_run. destruct (authenticate_at _ _ _) as [auth|e] eqn:Ea; [|done].
  rewrite check_bind_run. destruct (normalized input) as [r|message] eqn:En; [|done]. cbn [map_err].
  rewrite check_bind_run. unfold require_database.
  destruct (as_db state), (as_schema_ready state); cbn [negb andb]; try done.
  pose proof (create_run (tenant_id auth) (subject auth) r (sv_world s) Hwf Hfresh) as Hrun.
  cbv zeta in Hrun.
  rewrite (creatable_normalized input r auth (sv_world s) Hj (authenticated_context _ _ _ _ Ea) En) in Hrun.
  fold (tables s) in Hrun.
  destruct (storable auth r && below_limit (tables s) auth r).
  - destruct Hrun as (rule & w' & E & Hdec & _).
    rewrite handler_bind_run. unfold store_call at 1. rewrite E. rewrite handler_bind_run.
    do 3 eexists. split; [reflexivity|]. split; [|split; [reflexivity|]].
    + unfold decode_alert_rule in Hdec. inv_ok. constructor; try done. simpl.
      rewrite Hj in Ha; [by injection Ha|].
      apply normalized_ok in En as (_ & _ & _ & _ & _ & _ & _ & Hv). apply validate_iff in Hv.
      apply (ok_threshold _ Hv).
    + split; [reflexivity|]. intros reader. rewrite event_visible_to_iff. simpl.
      split; intros [? Hx]; (split; [done|]); destruct Hx as [?|Hx]; auto; right; congruence.
  - destruct Hrun as (e & w' & E & -> & Hdb).
    rewrite handler_bind_run. unfold store_call at 1. rewrite E. eexists. split; [reflexivity|]. by split.
Qed.
End Route.

(** ** A creation *)
Import AuthExample ReverseExample StoreExample TraceExample.

Lemma empty_reachable : reachable empty_world.
Proof. exists empty_world. split; [reflexivity | apply rtc_refl]. Qed.

Lemma create_record_outcome_witness :
  exists rule event s',
    create_record TraceExample.state (AuthExample.headers [lit "Bearer " ++ AuthExample.token] []) 1500
      AlertExample.input empty_world = (Ok (StatusCode.CREATED, RuleBody rule), s') /\
    ar_owner_subject rule = lit "user-1" /\ sv_events s' = [event] /\
    event_visible_to event AuthExample.context = true.
Proof.
  assert (fresh_draws (sv_world empty_world)) as Hf by (split; apply not_elem_of_nil).
  assert (json_f32_exact) as Hj by (intros x Hx; simpl; by rewrite Hx).
  pose proof (create_record_outcome TraceExample.state
    (AuthExample.headers [lit "Bearer " ++ AuthExample.token] []) 1500 AlertExample.input empty_world
    empty_reachable Hf Hj) as O.
  assert (authenticate_at (as_auth TraceExample.state)
    (AuthExample.headers [lit "Bearer " ++ AuthExample.token] []) 1500 = Ok AuthExample.context) as Ea
    by (vm_compute; reflexivity).
  rewrite Ea in O. destruct (normalized AlertExample.input) as [r|] eqn:En;
    [|vm_compute in En; discriminate En].
  assert (storable AuthExample.context r && below_limit (tables empty_world) AuthExample.context r = true)
    as Hs by (revert En; vm_compute; intros [= <-]; reflexivity).
  rewrite Hs in O. cbn [as_db as_schema_ready TraceExample.state andb negb] in O.
  destruct O as (rule & event & s' & E & Ha & Hev & Hann). exists rule, event, s'.
  split; [exact E|]. split; [exact (an_owner _ _ _ Ha)|]. split; [exact Hev|].
  apply Hann. split; [reflexivity | by right].
Defined.
